(* ===== verification/_CoqProject ===== *)
-Q . S2P
Prelude.v
Files.v
Paths.v
Qcow2Format.v
Qcow2Image.v
Qcow2Chain.v
Qcow2Flatten.v
Qcow2FlattenCorrect.v
Qcow2Overlay.v
Seccomp.v
ProtoMessages.v
Codec.v
Boot.v
Vfs.v
SafeRoot.v
LayerExtract.v
ExtractConfined.v
ImageStore.v
Ids.v
Ports.v
StateTypes.v
StateDb.v
StateLookup.v
Lifecycle.v
LifecycleCorrect.v
Volumes.v
ManagedGuest.v
Disk.v
Text.v
Process.v
Events.v
Options.v
Jail.v
Engine.v
EngineBoot.v
EngineCorrect.v
EngineProps.v
ServeAuth.v
Serve.v
ServeExec.v
ServeCorrect.v
ServeCreate.v
GuestReaper.v
GuestCopy.v
Wire.v
GuestFiles.v
GuestExec.v
GuestServer.v
HostClient.v
Shim.v
PayloadFetch.v
Payload.v
PayloadInstall.v
PayloadEnsure.v
GuestBoot.v
Ext4.v
Upgrade.v
CliArgs.v
CliVm.v
Reopen.v
VmHandle.v
