(* ===== verification/Prelude.v ===== *)
(** * bux: a verification development

    bux runs OCI images as micro virtual machines.  A command line or an HTTP
    service drives a runtime that pulls images ([crates/bux-oci]), turns their
    root file systems into disks ([crates/bux-qcow2]), keeps VM state in SQLite
    ([crates/bux/src/state]), and boots each VM in a jailed shim process whose
    guest agent speaks a framed protocol over vsock ([crates/bux-proto]).  The
    development models, file by file, the parts with logic of their own, and
    proves what makes each of them correct.  Every definition is executable and
    follows the Rust function it is named after: a [Result] is [result] with the
    component's error type (panics kept as a constructor of it), machine integers
    are [Z] with their wrap-around written out, [String]s are Rocq strings of
    bytes, and mutable state is passed explicitly.

    ** Files

    - [Prelude]: results, machine integers, bytes and UTF-8, folds and chunks.
    - [Files]: byte files with seek and write; [Paths]: [std::path] on Unix.
    - [Qcow2Format], [Qcow2Image], [Qcow2Chain], [Qcow2Flatten],
      [Qcow2FlattenCorrect], [Qcow2Overlay]: [crates/bux-qcow2] ([format.rs],
      [overlay.rs], [header.rs], [chain.rs], [ops.rs]) over a map from paths to
      byte files.  [create_overlay] writes an image whose header [read_header]
      reads back; [read_header] is total on any bytes; a fresh overlay reads as
      its backing chain; [flatten] produces a standalone image in which every
      guest cluster reads as through the chain.  [open_chain] has no depth limit
      and is shown to exhaust any fuel on a cyclic chain; the other theorems
      take fuel for which the chain opens.  The refcount loop of [flatten] is
      shown to settle within the fuel it is given.
    - [Seccomp]: [crates/bux-seccomp], with a BPF interpreter as the kernel's
      side: the filter decides exactly by its allowlist on the audited
      architecture, and lets other architectures through.
    - [ProtoMessages], [Codec], [Boot]: [crates/bux-proto].  Postcard and JSON
      are parameters with their round-trip laws as type classes ([Postcard],
      [PostcardLaws]); the stream is its list of bytes, so the receive loops take
      the stream's length as fuel, which is enough because every frame takes at
      least four bytes.  Frames, uploads and downloads round-trip; the streaming
      receivers agree with the collecting ones and respect their limit; the boot
      configuration goes through the kernel's tokenizer and is read back by the
      guest (the class [JsonLaws] is what is used of [serde_json]); the guest mount
      check is characterised exactly.
    - [Vfs]: the file-system calls of [std::fs] on a tree with symbolic and hard
      links.  [SafeRoot], [LayerExtract], [ExtractConfined]:
      [crates/bux-oci/src/safe_root] and [extract.rs].  The class [Backend] is
      what a path resolver promises; both the fallback walk and the Linux backend
      are instances, the latter over the law [PathrsLaw]: a handle is what the
      kernel's walk finds in a process rooted at the directory ([chroot]).  The two
      are shown to agree with that walk, and extraction is proved against the
      class: unpacking any layers changes nothing outside the root but, through
      the deferred chmod of a directory that was replaced by a link, modes.  Symbolic
      links are followed at most 255 times, the code's own limit; the depth to
      which an opaque whiteout clears a directory is a parameter, and confinement
      holds for every depth.
    - [ImageStore]: [crates/bux-oci/src/store.rs] and [lib.rs]: the SQLite
      tables, the content-addressed files, [pull], [ensure] and [remove].  The
      registry, the extractor and JSON are parameters.
    - [Ids], [Ports]: [crates/bux-serve/src/ids.rs] and
      [crates/bux/src/ports.rs].
    - [StateTypes], [StateDb], [StateLookup]: [crates/bux/src/state]: the status
      machine, every statement of the state database with its keys and foreign
      keys, and what the queries return.
    - [Lifecycle], [LifecycleCorrect]: [crates/bux/src/lifecycle.rs] and
      [runtime/recover.rs]: the loops over listed VMs are shown equal to a
      function of each row.
    - [Volumes]: [crates/bux/src/volumes.rs].
    - [ManagedGuest], [Disk]: [crates/bux/src/guest.rs], [util.rs] and
      [disk/mod.rs]: the check of the guest binary (an ELF reader over bytes),
      base images and overlays over [Qcow2Image] and [Qcow2Flatten].
    - [Text]: the operations of [str] the remaining files use, and lossy UTF-8.
      [Process]: [crates/bux/src/process.rs] and the guest's [user.rs]: merged
      environments, the defaults of an exec and the credentials it runs with.
      [Events]: [events.rs], [metrics.rs].  [Options]: [options.rs],
      [secrets.rs], the pure parts of [runtime/boot], and the shim's
      configuration.
    - [Jail]: [crates/bux-jail], the command builder of [crates/bux-bwrap] and
      the path lists of [crates/bux-landlock].  What a bubblewrap command line
      mounts is an interpreter of its arguments.
    - [Engine], [EngineBoot]: [runtime/mod.rs], [runtime/vm.rs],
      [runtime/boot/mod.rs], [runtime/boot/spawn.rs] and [snapshot.rs].  The
      state [engine] holds the database, files and their bytes, secrets,
      processes, signals, metrics and events; everything outside the process
      answers through a [host] record passed to each operation, so a theorem
      that quantifies over [host] covers the failures of every call it answers.
      A guest that is not frozen may write to its disk while it is copied
      ([h_read_disk]).  The drop
      guards of the Rust code ([SpawnAbort], [UnlinkJsonOnErr]) are the
      combinators [guarded] and [unlink_on_err].  [EngineCorrect],
      [EngineProps]: their theorems.
    - [ServeAuth], [Serve], [ServeExec]: [crates/bux-serve]: keys and listening
      addresses, the sandbox and snapshot handlers, exec, files, logs and images.
      A handler is a function of the [engine]; what other requests do while it
      waits is an explicit argument ([w_others], [w_polls]).  [ServeCorrect],
      [ServeCreate]: their theorems; every request that names a sandbox is a
      [sandbox_request].
    - [GuestReaper], [GuestCopy], [GuestFiles], [GuestExec], [GuestServer],
      [GuestBoot]: [crates/bux-guest]: the table of waiters and the drain of
      SIGCHLD, unpacking in the guest, file transfers, execs with pipes or a
      terminal, the session of a connection with freezing and thawing, and the
      boot of the agent, a log of requests to the kernel with their answers.  [Wire] is one end of a connection: the
      bytes still to be read, the bytes written and a state.  An exec recurses on
      the list of the turns [select!] takes, any list, so every order is covered.
    - [HostClient]: [crates/bux/src/client.rs] and [guest.rs] against the
      session of [GuestServer], so that its theorems speak about both ends.
    - [Shim]: [crates/bux-shim], [crates/bux-shim-bin], the wrappers of
      [crates/bux-krun] the shim uses and the configuration of
      [crates/bux-gvproxy].  What leaves the process is a log of events, what
      the libraries answer a function of the log.
    - [PayloadFetch], [Payload], [PayloadInstall], [PayloadEnsure]:
      [crates/bux/src/payload.rs]: downloads with retries, redirects and a
      deadline, digests, unpacking, installation and lookup.
    - [Ext4]: [crates/bux-e2fs]: image handles, the builder, injection and the
      estimate, over a log of the calls into libext2fs; the class [Ext2Image]
      states what the calls do to the tree an open handle sees, which a close that
      succeeds writes to the image.
    - [Upgrade], [CliArgs], [CliVm]: [crates/bux-cli]: the update check, with the
      order of versions stated on their texts, and the installer, the texts of
      options, and the commands over [EngineBoot].
    - [Reopen], [VmHandle]: the rest of [runtime/mod.rs] and [runtime/vm.rs]: the
      drop of a runtime and the opening of the next, over [Lifecycle] and
      [EngineProps], and the operations of a handle on its guest, over
      [HostClient] and [GuestServer].

    ** What the theorems show

    Refinements: flatten against the chain it replaces, overlays and cloned disks
    against their base, recovery and sweeps against a per-row specification, the
    event ring against the last events, the calls of the shim against its
    configuration, what the host collects from an exec against what the child
    wrote.  Confinement: tar extraction on the host and in the guest, path
    resolution, volume directories, exposed host paths, the files a jailed shim
    sees, the network of a VM, the hosts a download talks to, the names a payload
    may install, the tenants of the service.  Invariants: the keys and foreign
    keys of both databases under every operation, failing or not, and under any
    sequence of runtime operations; the table of waiters of the reaper; the table
    of a runtime opened after another ended.  Liveness
    and termination: execs are answered and their jobs killed, downloads end, a
    foreground run leaves no VM running.  Error paths: a failed create leaves
    nothing behind, a failed base image no file, a failed snapshot no row, a jail
    that cannot be built no process, a failed shim no context and no proxy, a
    failed boot no listening agent, a failed image no open handle.  Round trips:
    headers, frames, transfers, files written and read over the wire, boot
    configuration, port texts, stored VMs, tenant and agent names, secrets of the
    command line.  Equivalences: environments against a union of maps, bounded
    collection of an exec against the whole output, constant-time comparison
    against equality, the size of an image against its reference.  Some theorems
    state behaviour the code surely does not intend: the seccomp jump over the
    kill on a foreign architecture, the mode change outside the rootfs when
    extraction finishes, the endless chain, the undercounted layers, the shared
    rootfs, the volume named with a dot, the unescaped prefix and the gauge a
    restart does not count.  Examples show more of them on concrete inputs: the
    trust bundle that grows at each boot, the image whose lost write-back is
    reported as success, the secret cut at an [@], the forced removal that
    succeeds and reports an error, the VM removed for the one whose id it is
    named like, the idle policy that the next exec takes back, the guest left
    frozen by a lost answer, the release candidate replaced by an older release.

    ** Bounds and fuel

    Loops the code bounds keep its bound: thirty requests of a download (three
    attempts of at most ten hops), 255 links of a path, [u32::MAX] pages of
    releases (a binary recursion, so that the bound is never unfolded).  Loops
    over data recurse on the data or take its length.  Only the chain of backing
    files has no bound in the code, and there the fuel is a hypothesis.  An
    attempt of a download checks the deadline before each step, so its clock is
    compared with twice the timeout: the last request may begin just before it.

    ** Not modelled

    Generated bindings of libkrun and libext2fs and the wrappers of libkrun
    nothing calls, the Go proxy with its statistics and log lines, the system
    calls of Landlock, the macOS profile text, the panic hook and the watchdog
    thread of the shim; the router, the sockets and the sweep loop of the
    service; the clap declarations, printed tables and JSON of the command line,
    its image, disk and serve commands; resetting a runtime, probing the host and
    the recursive size of its directory; build scripts.  These only
    call libraries or print, or there is no source of them here.  Fsync, file
    permissions of the host, concurrent access by other processes and the time
    other processes take are outside the model.  The messages of errors are not
    modelled, their kinds are; of an API error the status, code, existing id and
    field are.  What a failed flatten leaves at the new base's name is left out of
    [clone] and [restore]; dropping the keepalive of a handle, which ends an
    undetached VM, is left out of [Engine].

    Where a definition is simpler than the world it calls:
    - the statements of [StateDb] fail by their constraints and their arguments
      only; an I/O error or a lock held by another process (SQLITE_BUSY) is not
      among the answers, so what the code does with one (a stop or a kill whose
      status is not stored) is outside the theorems on the table;
    - [Vfs.remove_dir_all] and the rename that follows a clearing succeed or fail
      as a whole; a removal interrupted half way is not modelled;
    - [ServeExec.collect_capped] sends its kill at once, though the code awaits it
      without the deadline of the loop and could wait there;
    - [GuestExec.pipe_loop] writes to the standard input of a child that takes
      everything at once and to a host connection that does not fail;
    - mounts of [GuestBoot] are requests in its log: they do not hide the files of
      the tree below them;
    - [Boot.kernel_isspace] and the tokenizer are those written in the tests of
      [boot.rs]; the length limit of a kernel command line is not modelled. *)

From stdpp Require Export base tactics list gmap strings.
From Stdlib Require Export ZArith Lia.
From Stdlib Require Export Ascii.

#[global] Open Scope Z_scope.

(** ** Results: Rust's [Result<T, E>] with the panic outcome kept as an error
    constructor of each component's own error type. *)

Inductive result (E A : Type) : Type :=
  | Ok (a : A)
  | Err (e : E).
Arguments Ok {E A} a.
Arguments Err {E A} e.

#[global] Instance result_ret {E} : MRet (result E) := fun A a => Ok a.
#[global] Instance result_bind {E} : MBind (result E) :=
  fun A B f m => match m with Ok a => f a | Err e => Err e end.
#[global] Instance result_fmap {E} : FMap (result E) :=
  fun A B f m => match m with Ok a => Ok (f a) | Err e => Err e end.

#[global] Instance result_eq_dec {E A} `{EqDecision E, EqDecision A} : EqDecision (result E A).
Proof. solve_decision. Defined.

Definition is_ok {E A} (r : result E A) : bool :=
  match r with Ok _ => true | Err _ => false end.

Definition ok_or {E A} (o : option A) (e : E) : result E A :=
  match o with Some a => Ok a | None => Err e end.

Definition map_err {E F A} (f : E -> F) (r : result E A) : result F A :=
  match r with Ok a => Ok a | Err e => Err (f e) end.

Lemma bind_Ok_inv {E A B} (m : result E A) (f : A -> result E B) b :
  m ≫= f = Ok b -> exists a, m = Ok a /\ f a = Ok b.
Proof. destruct m; simpl; [eauto | discriminate]. Qed.

Lemma ok_or_Ok {E A} (o : option A) (e : E) a : ok_or o e = Ok a <-> o = Some a.
Proof. destruct o; simpl; split; congruence. Qed.

(** Destructs every bind of a hypothesis [m ≫= f = Ok _]. *)
Ltac inv_bind :=
  repeat match goal with
  | H : _ ≫= _ = Ok _ |- _ =>
      let a := fresh "a" in let H1 := fresh "Hb" in let H2 := fresh "Hk" in
      apply bind_Ok_inv in H as (a & H1 & H2); simpl in H2
  | H : Ok _ = Ok _ |- _ => injection H as H; subst
  | H : Err _ = Ok _ |- _ => discriminate H
  | H : mret _ = Ok _ |- _ => injection H as H; subst
  end.

(** ** Machine integers: a [w]-bit unsigned integer is a [Z] in range, the
    release build's wrap-around is written out with [u8] ... [u64]. *)

Definition u8 (z : Z) : Z := z mod 2^8.
Definition u16 (z : Z) : Z := z mod 2^16.
Definition u32 (z : Z) : Z := z mod 2^32.
Definition u64 (z : Z) : Z := z mod 2^64.
Definition U32_MAX : Z := 2^32 - 1.
Definition U64_MAX : Z := 2^64 - 1.
Definition I64_MAX : Z := 2^63 - 1.

Lemma u8_id z : 0 <= z < 2^8 -> u8 z = z.
Proof. apply Z.mod_small. Qed.
Lemma u32_id z : 0 <= z < 2^32 -> u32 z = z.
Proof. apply Z.mod_small. Qed.
Lemma u64_id z : 0 <= z < 2^64 -> u64 z = z.
Proof. apply Z.mod_small. Qed.

(** [checked_add] of [usize]/[u64] on a 64-bit target. *)
Definition checked_add (a b : Z) : option Z :=
  if a + b <? 2^64 then Some (a + b) else None.

Definition saturating_add (a b : Z) : Z := Z.min (a + b) U64_MAX.

(** Rust's [div_ceil] (divisor non-zero). *)
Definition div_ceil (a b : Z) : Z :=
  if a mod b =? 0 then a / b else a / b + 1.

Lemma div_ceil_spec a b : 0 < b -> 0 <= a -> a <= div_ceil a b * b < a + b.
Proof.
  intros Hb Ha. unfold div_ceil. pose proof (Z.div_mod a b ltac:(lia)).
  pose proof (Z.mod_pos_bound a b Hb). case (Z.eqb_spec (a mod b) 0); nia.
Qed.

Lemma div_ceil_nonneg a b : 0 < b -> 0 <= a -> 0 <= div_ceil a b.
Proof. intros. pose proof (div_ceil_spec a b). nia. Qed.

Lemma div_ceil_lt a b x : 0 < b -> 0 <= a -> x < div_ceil a b -> x * b < a.
Proof. intros. pose proof (div_ceil_spec a b). nia. Qed.

Lemma div_ceil_le a b n : 0 < b -> 0 <= a -> a <= n * b -> div_ceil a b <= n.
Proof. intros. pose proof (div_ceil_spec a b). nia. Qed.

(** A decidable boolean test turned into its proposition, in hypotheses. *)
Ltac zify_bool :=
  repeat match goal with
  | H : (_ <? _) = true |- _ => apply Z.ltb_lt in H
  | H : (_ <? _) = false |- _ => apply Z.ltb_ge in H
  | H : (_ <=? _) = true |- _ => apply Z.leb_le in H
  | H : (_ <=? _) = false |- _ => apply Z.leb_gt in H
  | H : (_ =? _) = true |- _ => apply Z.eqb_eq in H
  | H : (_ =? _) = false |- _ => apply Z.eqb_neq in H
  | H : (_ && _)%bool = true |- _ => apply andb_true_iff in H as [? ?]
  | H : (_ || _)%bool = false |- _ => apply orb_false_iff in H as [? ?]
  | H : negb _ = true |- _ => apply negb_true_iff in H
  | H : negb _ = false |- _ => apply negb_false_iff in H
  end.

(** ** Bytes: a byte is a [Z] in [0, 256), a buffer a [list Z]. *)

Definition zlen {A} (l : list A) : Z := Z.of_nat (length l).
Definition is_byte (b : Z) : Prop := 0 <= b < 256.
Definition zeros (n : Z) : list Z := replicate (Z.to_nat n) 0.

(** [to_be_bytes] of an [n]-byte integer, and [from_be_bytes]. *)
Fixpoint be_bytes (n : nat) (v : Z) : list Z :=
  match n with
  | O => []
  | S m => (v / 256 ^ Z.of_nat m) mod 256 :: be_bytes m v
  end.

Definition be_val (l : list Z) : Z := foldl (fun acc b => acc * 256 + b) 0 l.

Lemma zlen_nonneg {A} (l : list A) : 0 <= zlen l.
Proof. unfold zlen. lia. Qed.

Lemma zlen_app {A} (l k : list A) : zlen (l ++ k) = zlen l + zlen k.
Proof. unfold zlen. rewrite length_app. lia. Qed.

Lemma zlen_zeros n : 0 <= n -> zlen (zeros n) = n.
Proof. intros. unfold zlen, zeros. rewrite length_replicate. lia. Qed.

Lemma length_be_bytes n v : length (be_bytes n v) = n.
Proof. induction n; simpl; auto. Qed.

Lemma zlen_be_bytes n v : zlen (be_bytes n v) = Z.of_nat n.
Proof. unfold zlen. by rewrite length_be_bytes. Qed.

Lemma be_bytes_is_byte n v : Forall is_byte (be_bytes n v).
Proof.
  induction n; simpl; constructor; auto. apply Z.mod_pos_bound. lia.
Qed.

Lemma be_val_acc n v a :
  foldl (fun acc b => acc * 256 + b) a (be_bytes n v)
  = a * 256 ^ Z.of_nat n + v mod 256 ^ Z.of_nat n.
Proof.
  revert a. induction n as [|n IH]; intros a.
  - simpl. rewrite Z.mod_1_r. lia.
  - cbn [be_bytes foldl]. rewrite IH.
    replace (Z.of_nat (S n)) with (Z.of_nat n + 1) by lia.
    rewrite Z.pow_add_r, Z.pow_1_r by lia.
    rewrite (Z.rem_mul_r v) by lia. ring.
Qed.

(** [from_be_bytes (to_be_bytes v)] is [v] truncated to the width. *)
Lemma be_val_bytes n v : be_val (be_bytes n v) = v mod 256 ^ Z.of_nat n.
Proof. unfold be_val. rewrite be_val_acc. lia. Qed.

Lemma be_val_bytes_id n v : 0 <= v < 256 ^ Z.of_nat n -> be_val (be_bytes n v) = v.
Proof. intros. rewrite be_val_bytes. by apply Z.mod_small. Qed.

Lemma be_val_zeros n : be_val (replicate n 0) = 0.
Proof. unfold be_val. induction n; simpl; auto. Qed.

Lemma be_val_bound l : Forall is_byte l -> 0 <= be_val l < 256 ^ zlen l.
Proof.
  unfold be_val, zlen. induction l as [|b l IH] using rev_ind; intros HF.
  - simpl. lia.
  - apply Forall_app in HF as [H1 H2]. apply Forall_cons in H2 as [H2 _]. unfold is_byte in H2.
    rewrite foldl_app, length_app. cbn [foldl length].
    replace (Z.of_nat (length l + 1)) with (Z.of_nat (length l) + 1) by lia.
    rewrite Z.pow_add_r, Z.pow_1_r by lia. specialize (IH H1). nia.
Qed.

(** ** Text: Rust's [str] is UTF-8 bytes, here a [string] of 8-bit characters. *)

Definition byte_of_ascii (c : Ascii.ascii) : Z := Z.of_N (Ascii.N_of_ascii c).
Definition ascii_of_byte (b : Z) : Ascii.ascii := Ascii.ascii_of_N (Z.to_N b).

Fixpoint str_bytes (s : string) : list Z :=
  match s with
  | EmptyString => []
  | String c r => byte_of_ascii c :: str_bytes r
  end.

Fixpoint bytes_str (l : list Z) : string :=
  match l with
  | [] => EmptyString
  | b :: r => String (ascii_of_byte b) (bytes_str r)
  end.

Lemma byte_of_ascii_range c : is_byte (byte_of_ascii c).
Proof.
  unfold is_byte, byte_of_ascii. pose proof (Ascii.N_ascii_bounded c). lia.
Qed.

Lemma ascii_of_byte_of c : ascii_of_byte (byte_of_ascii c) = c.
Proof.
  unfold ascii_of_byte, byte_of_ascii. rewrite N2Z.id. apply Ascii.ascii_N_embedding.
Qed.

Lemma bytes_str_bytes s : bytes_str (str_bytes s) = s.
Proof. induction s; simpl; [done|]. by rewrite ascii_of_byte_of, IHs. Qed.

Lemma str_bytes_is_byte s : Forall is_byte (str_bytes s).
Proof. induction s; simpl; constructor; auto using byte_of_ascii_range. Qed.

Lemma str_bytes_app s t : str_bytes (s +:+ t) = str_bytes s ++ str_bytes t.
Proof. induction s; simpl; [done|]. by f_equal. Qed.

Lemma str_bytes_inj s t : str_bytes s = str_bytes t -> s = t.
Proof. intros H. by rewrite <- (bytes_str_bytes s), H, bytes_str_bytes. Qed.

Lemma length_str_bytes s : length (str_bytes s) = String.length s.
Proof. induction s; simpl; auto. Qed.

(** [std::str::from_utf8]: the well-formed byte sequences of the Unicode
    standard (no overlong forms, no surrogates, at most U+10FFFF). *)
Definition is_cont (b : Z) : bool := (0x80 <=? b) && (b <=? 0xBF).

Fixpoint utf8_valid (l : list Z) : bool :=
  match l with
  | [] => true
  | b0 :: r0 =>
    if b0 <? 0x80 then utf8_valid r0
    else match r0 with
    | [] => false
    | b1 :: r1 =>
      if (0xC2 <=? b0) && (b0 <=? 0xDF) then is_cont b1 && utf8_valid r1
      else match r1 with
      | [] => false
      | b2 :: r2 =>
        if (0xE0 <=? b0) && (b0 <=? 0xEF) then
          ((if b0 =? 0xE0 then 0xA0 else 0x80) <=? b1)
          && (b1 <=? (if b0 =? 0xED then 0x9F else 0xBF))
          && is_cont b2 && utf8_valid r2
        else match r2 with
        | [] => false
        | b3 :: r3 =>
          (0xF0 <=? b0) && (b0 <=? 0xF4)
          && ((if b0 =? 0xF0 then 0x90 else 0x80) <=? b1)
          && (b1 <=? (if b0 =? 0xF4 then 0x8F else 0xBF))
          && is_cont b2 && is_cont b3 && utf8_valid r3
        end
      end
    end
  end.

(** [String::from_utf8] / [str::from_utf8]. *)
Definition from_utf8 (l : list Z) : option string :=
  if utf8_valid l then Some (bytes_str l) else None.

Lemma from_utf8_str s : utf8_valid (str_bytes s) = true -> from_utf8 (str_bytes s) = Some s.
Proof. intros H. unfold from_utf8. by rewrite H, bytes_str_bytes. Qed.

(** ** Loops over lists with early return *)

(** [for x in l { s = f(s, x)?; }]. *)
Fixpoint foldM {E St A} (f : St -> A -> result E St) (s : St) (l : list A) : result E St :=
  match l with
  | [] => Ok s
  | x :: r => s' ← f s x; foldM f s' r
  end.

Lemma foldM_app {E St A} (f : St -> A -> result E St) s l k :
  foldM f s (l ++ k) = (s' ← foldM f s l; foldM f s' k).
Proof. revert s. induction l; intros s; simpl; [done|]. by destruct (f s a); simpl. Qed.

(** Invariant rule: each step from a state satisfying [I k] returns one that
    satisfies [I (k + 1)]. *)
Lemma foldM_inv {E St A} (f : St -> A -> result E St) (I : nat -> St -> Prop) l s :
  I 0%nat s ->
  (forall k x s, l !! k = Some x -> I k s -> exists s', f s x = Ok s' /\ I (S k) s') ->
  exists s', foldM f s l = Ok s' /\ I (length l) s'.
Proof.
  revert I s. induction l as [|x l IH]; intros I s H0 Hstep; simpl; [eauto|].
  destruct (Hstep 0%nat x s) as (s1 & -> & H1); [done..|]. simpl.
  apply (IH (fun k => I (S k))); [done|]. intros k y s2 Hk. by apply Hstep.
Qed.

(** [slice::chunks(n)]: pieces of [n] elements, the last one possibly shorter. *)
Fixpoint chunks_aux {A} (fuel n : nat) (l : list A) : list (list A) :=
  match fuel with
  | O => []
  | S fuel =>
    match l with
    | [] => []
    | _ => take n l :: chunks_aux fuel n (drop n l)
    end
  end.
Definition chunks {A} (n : nat) (l : list A) : list (list A) := chunks_aux (length l) n l.

Lemma chunks_aux_concat {A} fuel n (l : list A) :
  (0 < n)%nat -> (length l <= fuel)%nat -> concat (chunks_aux fuel n l) = l.
Proof.
  intros Hn. revert l. induction fuel as [|fuel IH]; intros l Hl; simpl.
  - destruct l; [done|simpl in Hl; lia].
  - destruct l as [|x l]; [done|]. cbn [concat]. rewrite IH.
    + apply take_drop.
    + rewrite length_drop. simpl in *. lia.
Qed.

Lemma chunks_concat {A} n (l : list A) : (0 < n)%nat -> concat (chunks n l) = l.
Proof. intros. by apply chunks_aux_concat. Qed.

Lemma chunks_length {A} n (l c : list A) :
  c ∈ chunks n l -> (length c <= n)%nat.
Proof.
  unfold chunks. generalize (length l). intros fuel. revert l.
  induction fuel as [|fuel IH]; intros l; simpl; [by intros ?%not_elem_of_nil|].
  destruct l as [|x l]; [by intros ?%not_elem_of_nil|].
  intros [->|H]%elem_of_cons; [rewrite length_take; lia|eauto].
Qed.

Lemma chunks_aux_of_concat {A} n (ds : list (list A)) fuel :
  (0 < n)%nat -> (forall d, d ∈ ds -> length d = n) -> (length (concat ds) <= fuel)%nat ->
  chunks_aux fuel n (concat ds) = ds.
Proof.
  intros Hn. revert fuel. induction ds as [|d ds IH]; intros fuel Hd Hf.
  - by destruct fuel.
  - simpl in *. assert (Hl : length d = n) by (apply Hd; set_solver).
    rewrite length_app in Hf. destruct fuel as [|fuel]; [lia|]. simpl.
    destruct (d ++ concat ds) as [|x l] eqn:E.
    + apply (f_equal length) in E. rewrite length_app in E. simpl in E. lia.
    + rewrite <- E, <- Hl, take_app_length, drop_app_length, Hl.
      f_equal. apply IH; [set_solver|lia].
Qed.

Lemma chunks_of_concat {A} n (ds : list (list A)) :
  (0 < n)%nat -> (forall d, d ∈ ds -> length d = n) -> chunks n (concat ds) = ds.
Proof. intros. by apply chunks_aux_of_concat. Qed.

(** Mapping the items first is folding the mapped items. *)
Lemma foldM_fmap {E St A B} (f : St -> B -> result E St) (g : A -> B) s l :
  foldM (fun s x => f s (g x)) s l = foldM f s (g <$> l).
Proof. revert s. induction l as [|x l IH]; intros s; [done|]. simpl. by destruct (f s (g x)); simpl. Qed.

Lemma zlen_take_le {A} (l : list A) n : 0 <= n <= zlen l -> zlen (take (Z.to_nat n) l) = n.
Proof. intros. unfold zlen in *. rewrite length_take. lia. Qed.
