(* ===== verification/Files.v ===== *)
(** * Regular files as byte sequences

    A file is the list of its bytes.  [read_exact_at] is [seek] followed by
    [read_exact], [write_at] is [seek] followed by [write_all]: a write past the
    end leaves a hole that reads as zeros.  [holds f off d] says that the bytes
    [d] sit at offset [off] of [f]; the frame lemmas say which writes keep it. *)

From S2P Require Import Prelude.

(** ** Operations *)

(** The kinds of [io::Error] the modelled code distinguishes. *)
Inductive io_kind : Type :=
  | EkNotFound
  | EkNotADirectory
  | EkUnexpectedEof
  | EkPermissionDenied
  | EkInvalidData
  | EkInvalidInput
  | EkFileTooLarge
  | EkOther.

#[global] Instance io_kind_eq_dec : EqDecision io_kind.
Proof. solve_decision. Defined.

Definition slice (f : list Z) (off n : Z) : list Z :=
  take (Z.to_nat n) (drop (Z.to_nat off) f).

(** [file.seek(SeekFrom::Start(off))?; file.read_exact(&mut buf)?] with
    [buf.len() = n]; [None] is [ErrorKind::UnexpectedEof]. *)
Definition read_exact_at (f : list Z) (off n : Z) : option (list Z) :=
  if n =? 0 then Some []
  else if off + n <=? zlen f then Some (slice f off n) else None.

(** [file.seek(SeekFrom::Start(off))?; file.write_all(d)?]. *)
Definition write_at (f : list Z) (off : Z) (d : list Z) : list Z :=
  match d with
  | [] => f
  | _ =>
    let o := Z.to_nat off in
    take o f ++ replicate (o - length f) 0 ++ d ++ drop (o + length d) f
  end.

(** A cursor over a file: [write_all] advances it. *)
Definition write_all (st : list Z * Z) (d : list Z) : list Z * Z :=
  (write_at st.1 st.2 d, st.2 + zlen d).

(** [seek] to [pos], then one [write_all] per element of [ds]. *)
Definition write_each (f : list Z) (pos : Z) (ds : list (list Z)) : list Z :=
  (foldl write_all (f, pos) ds).1.

(** ** Contents *)

Definition holds (f : list Z) (off : Z) (d : list Z) : Prop :=
  0 <= off /\ forall i : nat, (i < length d)%nat -> f !! (Z.to_nat off + i)%nat = d !! i.

(** [\[a, a+n)] and [\[b, b+m)] do not meet. *)
Definition apart (a n b m : Z) : Prop := a + n <= b \/ b + m <= a.

Lemma lookup_write_at_mid f off d i :
  0 <= off -> (i < length d)%nat -> write_at f off d !! (Z.to_nat off + i)%nat = d !! i.
Proof.
  intros Hoff Hi. destruct d as [|x d]; [simpl in Hi; lia|]. unfold write_at.
  set (o := Z.to_nat off).
  rewrite lookup_app_r, length_take by (rewrite length_take; lia).
  rewrite lookup_app_r, length_replicate by (rewrite length_replicate; lia).
  rewrite lookup_app_l by lia. f_equal. lia.
Qed.

Lemma lookup_write_at_lt f off d j :
  (j < Z.to_nat off)%nat -> (j < length f)%nat -> write_at f off d !! j = f !! j.
Proof.
  intros Hj Hf. destruct d as [|x d]; [done|]. unfold write_at.
  rewrite lookup_app_l by (rewrite length_take; lia). by rewrite lookup_take_lt.
Qed.

Lemma lookup_write_at_ge f off d j :
  (Z.to_nat off + length d <= j)%nat -> write_at f off d !! j = f !! j.
Proof.
  intros Hj. destruct d as [|x d]; [done|]. unfold write_at.
  rewrite lookup_app_r, length_take by (rewrite length_take; lia).
  rewrite lookup_app_r, length_replicate by (rewrite length_replicate; lia).
  rewrite lookup_app_r by lia. rewrite lookup_drop.
  destruct (decide (j < length f)%nat); [f_equal; lia|].
  rewrite !lookup_ge_None_2; [done|lia|simpl in *; lia].
Qed.

Lemma holds_nil f off : 0 <= off -> holds f off [].
Proof. intros. split; [done|]. simpl. lia. Qed.

Lemma holds_lookup f off d i x :
  holds f off d -> d !! i = Some x -> f !! (Z.to_nat off + i)%nat = Some x.
Proof. intros [_ H] Hx. rewrite H; [done|]. by apply lookup_lt_Some in Hx. Qed.

Lemma holds_bound f off d :
  holds f off d -> d <> [] -> off + zlen d <= zlen f.
Proof.
  intros [H0 H] Hd. destruct d as [|x d]; [done|].
  specialize (H (length d) ltac:(simpl; lia)).
  destruct (lookup_lt_is_Some_2 (x :: d) (length d) ltac:(simpl; lia)) as [y Hy].
  rewrite Hy in H. apply lookup_lt_Some in H. unfold zlen. simpl. lia.
Qed.

Lemma holds_write f off d : 0 <= off -> holds (write_at f off d) off d.
Proof. intros. split; [done|]. intros. by apply lookup_write_at_mid. Qed.

(** A write elsewhere keeps what the file holds. *)
Lemma holds_frame f off d off' d' :
  holds f off d -> 0 <= off' -> apart off (zlen d) off' (zlen d') ->
  holds (write_at f off' d') off d.
Proof.
  intros [H0 H] Hoff' Hap. split; [done|]. intros i Hi.
  specialize (H i Hi). destruct (lookup_lt_is_Some_2 d i Hi) as [y Hy].
  pose proof H as Hlt. rewrite Hy in Hlt. apply lookup_lt_Some in Hlt.
  unfold apart, zlen in Hap. destruct Hap.
  - rewrite lookup_write_at_lt; [done|lia..].
  - rewrite lookup_write_at_ge; [done|lia].
Qed.

Lemma holds_read f off d :
  holds f off d -> read_exact_at f off (zlen d) = Some d.
Proof.
  intros Hh. unfold read_exact_at. case (Z.eqb_spec (zlen d) 0) as [E|E].
  - destruct d; [done|]. unfold zlen in E. simpl in E. lia.
  - assert (d <> []) by (intros ->; done).
    pose proof (holds_bound _ _ _ Hh H). rewrite (proj2 (Z.leb_le _ _)) by done.
    f_equal. destruct Hh as [Hp Hl]. unfold slice, zlen in *. rewrite Nat2Z.id.
    apply list_eq_same_length with (length d); [done|..].
    + rewrite length_take, length_drop. lia.
    + intros i x y Hi Hx Hy. rewrite lookup_take_lt, lookup_drop in Hx by lia.
      rewrite Hl in Hx by lia. congruence.
Qed.

Lemma holds_app f off d e :
  holds f off (d ++ e) <-> holds f off d /\ holds f (off + zlen d) e.
Proof.
  unfold holds, zlen. setoid_rewrite length_app. split.
  - intros [H0 H]. split; split; try lia.
    + intros i Hi. rewrite H by lia. by rewrite lookup_app_l.
    + intros i Hi. specialize (H (length d + i)%nat ltac:(lia)).
      rewrite lookup_app_r in H by lia.
      replace (Z.to_nat (off + Z.of_nat (length d)) + i)%nat
        with (Z.to_nat off + (length d + i))%nat by lia.
      rewrite H. f_equal. lia.
  - intros [[H0 Hd] [_ He]]. split; [done|]. intros i Hi.
    destruct (decide (i < length d)%nat).
    + rewrite lookup_app_l by lia. auto.
    + rewrite lookup_app_r by lia. rewrite <- He by lia. f_equal. lia.
Qed.

(** Reading one part of what the file holds. *)
Lemma holds_concat f off (ds : list (list Z)) i d n :
  holds f off (concat ds) -> ds !! i = Some d ->
  (forall e, e ∈ ds -> zlen e = n) -> holds f (off + Z.of_nat i * n) d.
Proof.
  revert off i. induction ds as [|e ds IH]; intros off i Hh Hi Hn; [done|].
  simpl in Hh. apply holds_app in Hh as [H1 H2].
  destruct i as [|i]; simpl in Hi.
  - injection Hi as ->. by rewrite Z.add_0_r.
  - rewrite (Hn e) in H2 by set_solver.
    replace (off + Z.of_nat (S i) * n) with (off + n + Z.of_nat i * n) by lia.
    apply IH; [done..|]. intros. apply Hn. set_solver.
Qed.

Lemma write_each_cons f pos d ds :
  write_each f pos (d :: ds) = write_each (write_at f pos d) (pos + zlen d) ds.
Proof. done. Qed.

Lemma write_each_frame f pos ds off d :
  holds f off d -> 0 <= pos -> apart off (zlen d) pos (zlen (concat ds)) ->
  holds (write_each f pos ds) off d.
Proof.
  revert f pos. induction ds as [|e ds IH]; intros f pos Hh Hp Hap; [done|].
  rewrite write_each_cons. simpl in Hap. rewrite zlen_app in Hap.
  pose proof (zlen_nonneg e). pose proof (zlen_nonneg (concat ds)).
  apply IH; [|lia|unfold apart in *; lia].
  apply holds_frame; [done..|]. unfold apart in *; lia.
Qed.

(** The consecutive writes leave their concatenation at [pos]. *)
Lemma holds_write_each f pos ds :
  0 <= pos -> holds (write_each f pos ds) pos (concat ds).
Proof.
  revert f pos. induction ds as [|e ds IH]; intros f pos Hp; [by apply holds_nil|].
  rewrite write_each_cons. simpl. pose proof (zlen_nonneg e).
  apply holds_app. split; [|apply IH; lia].
  apply write_each_frame; [by apply holds_write|lia|unfold apart; lia].
Qed.

Lemma zlen_write_at_in f off d :
  0 <= off -> off + zlen d <= zlen f -> zlen (write_at f off d) = zlen f.
Proof.
  intros Ho Hb. destruct d as [|x d]; [done|]. unfold write_at, zlen in *.
  rewrite !length_app, length_take, length_replicate, length_drop. lia.
Qed.

Lemma holds_take f off d n :
  holds f off d -> off + zlen d <= n -> holds (take (Z.to_nat n) f) off d.
Proof.
  intros [H0 H] Hn. split; [done|]. intros i Hi. unfold zlen in Hn.
  rewrite lookup_take_lt by lia. auto.
Qed.

Lemma holds_slice f off d : holds f off d -> slice f off (zlen d) = d.
Proof.
  intros Hh. pose proof (holds_read _ _ _ Hh) as H. unfold read_exact_at in H.
  case (Z.eqb_spec (zlen d) 0) as [E|E].
  - destruct d; [done|]. unfold zlen in E. simpl in E. lia.
  - destruct (_ <=? _); congruence.
Qed.

Lemma holds_zeros n off m :
  0 <= off -> 0 <= m -> off + m <= n -> holds (zeros n) off (zeros m).
Proof.
  intros. split; [done|]. intros i Hi. unfold zeros in *. rewrite length_replicate in Hi.
  rewrite !lookup_replicate_2 by lia. done.
Qed.

(** What a buffer holds, the file that holds the buffer holds. *)
Lemma holds_sub f h o d : holds f 0 h -> holds h o d -> holds f o d.
Proof.
  intros [_ Hf] [Ho Hh]. split; [done|]. intros i Hi. rewrite <- Hh by done.
  destruct (lookup_lt_is_Some_2 d i Hi) as [x Hx]. specialize (Hh i Hi). rewrite Hx in Hh.
  apply lookup_lt_Some in Hh. by rewrite <- Hf.
Qed.
