(* ===== verification/Paths.v ===== *)
(** * Text splitting and [std::path] on Unix

    A [Path] is its list of components, the view under which Rust compares
    paths: repeated separators and inner [.] disappear, [..] stays.  The
    operations are those the sources call: [components], [is_absolute],
    [parent], [file_name], [join]/[push], [pop], [starts_with] and
    [strip_prefix]. *)

From S2P Require Import Prelude.

(** ** Splitting text *)

Fixpoint split_on (c : Ascii.ascii) (s : string) : list string :=
  match s with
  | EmptyString => [""%string]
  | String a r =>
    if decide (a = c) then ""%string :: split_on c r
    else match split_on c r with
         | [] => [String a EmptyString]
         | w :: ws => String a w :: ws
         end
  end.

(** [str::split_once]: at the first occurrence. *)
Fixpoint split_once (c : Ascii.ascii) (s : string) : option (string * string) :=
  match s with
  | EmptyString => None
  | String a r =>
    if decide (a = c) then Some (""%string, r)
    else '(u, v) ← split_once c r; Some (String a u, v)
  end.

(** [str::rsplit_once]: at the last occurrence. *)
Fixpoint rsplit_once (c : Ascii.ascii) (s : string) : option (string * string) :=
  match s with
  | EmptyString => None
  | String a r =>
    match rsplit_once c r with
    | Some (u, v) => Some (String a u, v)
    | None => if decide (a = c) then Some (""%string, r) else None
    end
  end.

Fixpoint str_forallb (p : Ascii.ascii -> bool) (s : string) : bool :=
  match s with
  | EmptyString => true
  | String a r => p a && str_forallb p r
  end.

Fixpoint str_contains_char (c : Ascii.ascii) (s : string) : bool :=
  match s with
  | EmptyString => false
  | String a r => bool_decide (a = c) || str_contains_char c r
  end.

(** [str::contains] with a text needle. *)
Fixpoint str_contains (needle s : string) : bool :=
  String.prefix needle s ||
  match s with
  | EmptyString => false
  | String _ r => str_contains needle r
  end.

(** [str::strip_prefix]. *)
Fixpoint strip_prefix_str (p s : string) : option string :=
  match p, s with
  | EmptyString, _ => Some s
  | String a p', String b s' => if decide (a = b) then strip_prefix_str p' s' else None
  | String _ _, EmptyString => None
  end.

Lemma split_once_app c s t :
  str_contains_char c s = false ->
  split_once c (s +:+ String c t) = Some (s, t).
Proof.
  induction s as [|a s IH]; simpl; intros H.
  - by rewrite decide_True.
  - apply orb_false_iff in H as [Ha Hs]. apply bool_decide_eq_false in Ha.
    rewrite decide_False by done. by rewrite IH.
Qed.

Lemma split_once_inv c s u v :
  split_once c s = Some (u, v) -> s = u +:+ String c v /\ str_contains_char c u = false.
Proof.
  revert u v. induction s as [|a s IH]; simpl; intros u v H; [done|].
  case_decide as Ha; simplify_eq/=; [done|].
  destruct (split_once c s) as [[u' v']|] eqn:E; simplify_eq/=.
  destruct (IH u' v eq_refl) as [-> Hc]. split; [done|].
  rewrite Hc, orb_false_r. by apply bool_decide_eq_false.
Qed.

Lemma split_once_None c s : split_once c s = None <-> str_contains_char c s = false.
Proof.
  induction s as [|a s IH]; simpl; [done|].
  case_decide as Ha; [rewrite bool_decide_eq_true_2 by done; split; done|].
  rewrite bool_decide_eq_false_2 by done. simpl. rewrite <- IH.
  by destruct (split_once c s) as [[??]|].
Qed.

Lemma str_contains_char_app c s t :
  str_contains_char c (s +:+ t) = str_contains_char c s || str_contains_char c t.
Proof. induction s; simpl; [done|]. by rewrite IHs, orb_assoc. Qed.

Lemma split_on_no_sep c s w : w ∈ split_on c s -> str_contains_char c w = false.
Proof.
  revert w. induction s as [|a s IH]; intros w; simpl.
  - intros ->%list_elem_of_singleton. done.
  - case_decide as Ha.
    + intros [->|H]%elem_of_cons; [done|auto].
    + destruct (split_on c s) as [|v vs] eqn:E.
      * intros ->%list_elem_of_singleton. simpl. by rewrite bool_decide_eq_false_2.
      * intros [->|H]%elem_of_cons; [|apply IH; set_solver].
        simpl. rewrite bool_decide_eq_false_2 by done. apply IH. set_solver.
Qed.

Lemma split_on_cons_ne c s : exists w ws, split_on c s = w :: ws.
Proof. destruct s as [|a s]; simpl; [eauto|]. case_decide; [eauto|]. destruct (split_on c s); eauto. Qed.

Lemma split_on_app c s t : split_on c (s +:+ String c t) = split_on c s ++ split_on c t.
Proof.
  induction s as [|a s IH].
  - change ((""%string) +:+ String c t) with (String c t). simpl. by rewrite decide_True.
  - change (String a s +:+ String c t) with (String a (s +:+ String c t)). simpl split_on. rewrite IH.
    case_decide; [done|]. destruct (split_on_cons_ne c s) as (w & ws & ->). done.
Qed.

Lemma split_on_whole c s : str_contains_char c s = false -> split_on c s = [s].
Proof.
  induction s as [|a s IH]; simpl; [done|]. intros [Ha Hs]%orb_false_iff. apply bool_decide_eq_false in Ha.
  rewrite decide_False by done. by rewrite IH.
Qed.

Lemma split_on_concat c l : l <> [] -> Forall (fun w => str_contains_char c w = false) l -> split_on c (String.concat (String c "") l) = l.
Proof.
  intros Hl H. induction H as [|a l Ha H IH]; [done|]. destruct l as [|b l]; [by apply split_on_whole|].
  change (String.concat (String c "") (a :: b :: l)) with (a +:+ String c (String.concat (String c "") (b :: l))).
  rewrite split_on_app, (split_on_whole _ _ Ha), IH by done. done.
Qed.

Lemma rsplit_once_absent c s : str_contains_char c s = false -> rsplit_once c s = None.
Proof.
  induction s as [|a s IH]; simpl; [done|]. intros [Ha Hs]%orb_false_iff. apply bool_decide_eq_false in Ha.
  rewrite (IH Hs). by rewrite decide_False.
Qed.

(** [rsplit_once] at the last separator. *)
Lemma rsplit_once_app c u v : str_contains_char c v = false -> rsplit_once c (u +:+ String c v) = Some (u, v).
Proof.
  intros Hn%rsplit_once_absent.
  induction u as [|a u IH].
  - change (rsplit_once c (String c v) = Some (""%string, v)). simpl. rewrite Hn. by rewrite decide_True.
  - change (rsplit_once c (String a (u +:+ String c v)) = Some (String a u, v)). simpl rsplit_once. by rewrite IH.
Qed.

(** ** Components *)

Inductive component : Type :=
  | RootDir
  | CurDir
  | ParentDir
  | Normal (name : string).

#[global] Instance component_eq_dec : EqDecision component.
Proof. solve_decision. Defined.

#[global] Instance component_countable : Countable component.
Proof.
  refine (inj_countable'
    (fun c => match c with
      | RootDir => inl 0%nat | CurDir => inl 1%nat | ParentDir => inl 2%nat
      | Normal s => inr s end)
    (fun x => match x with
      | inl O => RootDir | inl (S O) => CurDir | inl _ => ParentDir
      | inr s => Normal s end) _).
  by intros [].
Defined.

Definition path : Type := list component.

#[global] Instance path_eq_dec : EqDecision path := list_eq_dec.
#[global] Instance path_countable : Countable path := list_countable.

(** An inner component of the text between two separators. *)
Definition comp_of_part (p : string) : option component :=
  if decide (p = "")%string then None
  else if decide (p = ".")%string then None
  else if decide (p = "..")%string then Some ParentDir
  else Some (Normal p).

(** The components of a relative path: a leading [.] is kept. *)
Definition rel_components (parts : list string) : path :=
  match parts with
  | "."%string :: r => CurDir :: omap comp_of_part r
  | _ => omap comp_of_part parts
  end.

(** [Path::new(s).components()]. *)
Definition components (s : string) : path :=
  let parts := split_on "/"%char s in
  match s with
  | String "/"%char _ => RootDir :: omap comp_of_part parts
  | _ => rel_components parts
  end.

Definition is_absolute (p : path) : bool :=
  match p with RootDir :: _ => true | _ => false end.

(** [Path::parent]. *)
Definition parent (p : path) : option path :=
  match last p with
  | None | Some RootDir => None
  | Some _ => Some (take (length p - 1) p)
  end.

(** [PathBuf::pop]: unchanged when there is no parent. *)
Definition pop (p : path) : path := default p (parent p).

(** [Path::file_name]. *)
Definition file_name (p : path) : option string :=
  match last p with Some (Normal s) => Some s | _ => None end.

(** [Path::join] / [PathBuf::push]: an absolute right side replaces the left. *)
Definition join (p q : path) : path :=
  if is_absolute q then q
  else match p, q with
       | [], _ => q
       | _, CurDir :: q' => p ++ q'
       | _, _ => p ++ q
       end.

(** [Path::starts_with]: component-wise prefix. *)
Fixpoint starts_with (p root : path) : bool :=
  match root, p with
  | [], _ => true
  | r :: root', c :: p' => bool_decide (r = c) && starts_with p' root'
  | _ :: _, [] => false
  end.

(** [Path::strip_prefix]. *)
Fixpoint strip_prefix (p root : path) : option path :=
  match root, p with
  | [], _ => Some p
  | r :: root', c :: p' => if decide (r = c) then strip_prefix p' root' else None
  | _ :: _, [] => None
  end.

(** A component that names an entry. *)
Definition is_normal (c : component) : Prop :=
  match c with Normal _ => True | _ => False end.

Lemma starts_with_app root p : starts_with (root ++ p) root = true.
Proof. induction root; simpl; [by destruct p|]. by rewrite bool_decide_eq_true_2. Qed.

Lemma starts_with_inv p root :
  starts_with p root = true <-> exists q, p = root ++ q.
Proof.
  split; [|intros [q ->]; apply starts_with_app].
  revert p. induction root as [|r root IH]; intros p H; [by exists p|].
  destruct p as [|c p]; [done|]. simpl in H. apply andb_true_iff in H as [E H].
  apply bool_decide_eq_true in E as ->. destruct (IH p H) as [q ->]. by exists q.
Qed.

Lemma strip_prefix_app root p : strip_prefix (root ++ p) root = Some p.
Proof. induction root; simpl; [by destruct p|]. by rewrite decide_True. Qed.

Lemma join_normal root p :
  Forall is_normal p -> root <> [] -> join root p = root ++ p.
Proof.
  intros Hp Hr. unfold join. destruct p as [|[] p]; inversion Hp; simplify_eq/=; try done.
  - destruct root; [done|]. by rewrite app_nil_r.
  - by destruct root.
Qed.

Lemma pop_snoc p s : pop (p ++ [Normal s]) = p.
Proof.
  unfold pop, parent. rewrite last_snoc. simpl. rewrite length_app. simpl.
  rewrite Nat.add_sub. apply take_app_length.
Qed.

Lemma pop_normal p : Forall is_normal p -> Forall is_normal (pop p).
Proof.
  intros H. unfold pop, parent. destruct (last p) as [[]|]; simpl; auto using Forall_take.
Qed.

Example components_abs :
  components "/a/./b//c/../d" = [RootDir; Normal "a"; Normal "b"; Normal "c"; ParentDir; Normal "d"].
Proof. reflexivity. Qed.

Example components_rel : components "./a/" = [CurDir; Normal "a"].
Proof. reflexivity. Qed.
