(* ===== verification/Qcow2Format.v ===== *)
(** * QCOW2 on-disk format: constants, errors, byte-order helpers

    [crates/bux-qcow2/src/format.rs] and [error.rs]. *)

From S2P Require Import Prelude Files.

(** ** Constants *)

Definition MAGIC : Z := 0x514649fb.
Definition VERSION : Z := 3.
Definition CLUSTER_BITS : Z := 16.
Definition CLUSTER_SIZE : Z := Z.shiftl 1 CLUSTER_BITS.
Definition REFCOUNT_ORDER : Z := 4.
Definition HEADER_LENGTH : Z := 104.
Definition EXT_BACKING_FMT : Z := 0xE2792ACA.
Definition EXT_END : Z := 0.
Definition MIN_HEADER_BYTES : Z := 72.
Definition L2_OFFSET_MASK : Z := 0x00FFFFFFFFFFFE00.
Definition L2_COMPRESSED_BIT : Z := Z.shiftl 1 62.

(** ** Errors: [bux_qcow2::Error]; [QPanic] is an index or slice out of range (or
    a division by zero), [QOutOfFuel] a loop cut off by the model's fuel. *)
Inductive qerror : Type :=
  | Io (k : io_kind)
  | InvalidMagic (magic expected : Z)
  | UnsupportedVersion (v : Z)
  | InvalidClusterBits (b : Z)
  | TooSmall
  | CompressedUnsupported
  | NotQcow2
  | InvalidUtf8
  | QemuImgNotFound
  | QemuImgFailed (msg : string)
  | QPanic
  | QOutOfFuel.

#[global] Instance qerror_eq_dec : EqDecision qerror.
Proof. solve_decision. Defined.

(** ** Backing format *)

Inductive BackingFormat : Type := Raw | Qcow2.

#[global] Instance BackingFormat_eq_dec : EqDecision BackingFormat.
Proof. solve_decision. Defined.

Definition as_str (f : BackingFormat) : string :=
  match f with Raw => "raw" | Qcow2 => "qcow2" end.

Definition parse (s : string) : option BackingFormat :=
  if decide (s = "raw")%string then Some Raw
  else if decide (s = "qcow2")%string then Some Qcow2
  else None.

(** ** Big-endian fields of a buffer *)

Definition read_be_u32 (buf : list Z) (offset : Z) : result qerror Z :=
  if offset + 4 <=? zlen buf then Ok (be_val (slice buf offset 4)) else Err QPanic.

Definition read_be_u64 (buf : list Z) (offset : Z) : result qerror Z :=
  if offset + 8 <=? zlen buf then Ok (be_val (slice buf offset 8)) else Err QPanic.

(** [buf\[off..off + d.len()\].copy_from_slice(d)]. *)
Definition copy_from_slice (buf : list Z) (off : Z) (d : list Z) : result qerror (list Z) :=
  if off + zlen d <=? zlen buf then Ok (write_at buf off d) else Err QPanic.

Definition write_be_u16 (buf : list Z) (offset val : Z) : result qerror (list Z) :=
  copy_from_slice buf offset (be_bytes 2 val).

Definition write_be_u32 (buf : list Z) (offset val : Z) : result qerror (list Z) :=
  copy_from_slice buf offset (be_bytes 4 val).

Definition write_be_u64 (buf : list Z) (offset val : Z) : result qerror (list Z) :=
  copy_from_slice buf offset (be_bytes 8 val).

(** [(n + 7) & !7] on [usize]. *)
Definition align8 (n : Z) : Z := Z.land (u64 (n + 7)) (Z.lnot 7).

(** ** Lemmas *)

Lemma parse_as_str f : parse (as_str f) = Some f.
Proof. by destruct f. Qed.

Lemma align8_div n : 0 <= n < 2^64 - 7 -> align8 n = 8 * ((n + 7) / 8).
Proof.
  intros Hn. unfold align8. rewrite u64_id by lia.
  rewrite <- Z.ldiff_land. change 7 with (Z.ones 3) at 2.
  rewrite Z.ldiff_ones_r, Z.shiftl_mul_pow2, Z.shiftr_div_pow2 by lia.
  change (2^3) with 8. lia.
Qed.

Lemma align8_bounds n : 0 <= n < 2^64 - 7 -> n <= align8 n < n + 8.
Proof.
  intros Hn. rewrite align8_div by done.
  pose proof (Z.div_mod (n + 7) 8 ltac:(lia)). pose proof (Z.mod_pos_bound (n + 7) 8). lia.
Qed.

Lemma read_be_u32_holds buf off v :
  holds buf off (be_bytes 4 v) -> read_be_u32 buf off = Ok (v mod 2^32).
Proof.
  intros H. unfold read_be_u32. pose proof (holds_bound _ _ _ H ltac:(done)) as Hb.
  pose proof (holds_slice _ _ _ H) as Hs. rewrite zlen_be_bytes in Hb, Hs.
  rewrite (proj2 (Z.leb_le _ _)) by lia. change 4 with (Z.of_nat 4) at 1.
  by rewrite Hs, be_val_bytes.
Qed.

Lemma read_be_u64_holds buf off v :
  holds buf off (be_bytes 8 v) -> read_be_u64 buf off = Ok (v mod 2^64).
Proof.
  intros H. unfold read_be_u64. pose proof (holds_bound _ _ _ H ltac:(done)) as Hb.
  pose proof (holds_slice _ _ _ H) as Hs. rewrite zlen_be_bytes in Hb, Hs.
  rewrite (proj2 (Z.leb_le _ _)) by lia. change 8 with (Z.of_nat 8) at 1.
  by rewrite Hs, be_val_bytes.
Qed.

(** One in-range write: the new buffer has the same size, holds the bytes and
    keeps what the old one held elsewhere. *)
Lemma copy_from_slice_step buf off d n :
  zlen buf = n -> 0 <= off -> off + zlen d <= n ->
  exists buf', copy_from_slice buf off d = Ok buf' /\ zlen buf' = n /\ holds buf' off d /\
    forall o e, apart o (zlen e) off (zlen d) -> holds buf o e -> holds buf' o e.
Proof.
  intros <- Ho Hb. exists (write_at buf off d). unfold copy_from_slice.
  rewrite (proj2 (Z.leb_le _ _)) by done. split; [done|].
  split; [by apply zlen_write_at_in|]. split; [by apply holds_write|].
  intros. by apply holds_frame.
Qed.
