(* ===== verification/Qcow2Image.v ===== *)
(** * QCOW2 overlays and headers

    [crates/bux-qcow2/src/overlay.rs] (creation of a copy-on-write overlay) and
    [header.rs] (header parsing).  The file system is a map from paths to file
    contents; [File::open] of an absent path is [NotFound], a [read] of a
    regular file fills the buffer up to the end of the file. *)

From S2P Require Import Prelude Files Paths Qcow2Format.

Abbreviation fs := (gmap path (list Z)).

(** ** overlay.rs *)

(** Populate the fixed 104-byte header; the backing-file offset (bytes 8..16)
    is filled in by the caller. *)
Definition write_header_bytes (buf : list Z)
    (virtual_size backing_size l1_entries l1_offset rctable_offset : Z) : result qerror (list Z) :=
  if negb (HEADER_LENGTH <=? zlen buf) then Err QPanic else
  h ← write_be_u32 buf 0 MAGIC;
  h ← write_be_u32 h 4 VERSION;
  h ← write_be_u32 h 16 backing_size;
  h ← write_be_u32 h 20 CLUSTER_BITS;
  h ← write_be_u64 h 24 virtual_size;
  h ← write_be_u32 h 32 0;
  h ← write_be_u32 h 36 l1_entries;
  h ← write_be_u64 h 40 l1_offset;
  h ← write_be_u64 h 48 rctable_offset;
  h ← write_be_u32 h 56 1;
  h ← write_be_u32 h 60 0;
  h ← write_be_u64 h 64 0;
  h ← write_be_u64 h 72 0;
  h ← write_be_u64 h 80 0;
  h ← write_be_u64 h 88 0;
  h ← write_be_u32 h 96 REFCOUNT_ORDER;
  write_be_u32 h 100 HEADER_LENGTH.

Definition write_backing_format_extension (buf : list Z) (off : Z) (fmt_bytes : list Z)
    : result qerror (list Z * Z) :=
  buf ← write_be_u32 buf off EXT_BACKING_FMT;
  buf ← write_be_u32 buf (off + 4) (u32 (zlen fmt_bytes));
  buf ← copy_from_slice buf (off + 8) fmt_bytes;
  Ok (buf, off + 8 + align8 (zlen fmt_bytes)).

Definition write_end_sentinel (buf : list Z) (off : Z) : result qerror (list Z * Z) :=
  buf ← write_be_u32 buf off EXT_END;
  buf ← write_be_u32 buf (off + 4) 0;
  Ok (buf, off + 8).

Definition write_backing_file_name (buf : list Z) (off : Z) (backing_bytes : list Z)
    : result qerror (list Z * Z) :=
  buf ← copy_from_slice buf off backing_bytes;
  Ok (buf, off).

(** The loop [for i in 0..4 { write_be_u16(buf, rc_base + i * 2, 1) }]. *)
Definition write_refcounts (buf : list Z) (rc_base : Z) : result qerror (list Z) :=
  buf ← write_be_u16 buf (rc_base + 0 * 2) 1;
  buf ← write_be_u16 buf (rc_base + 1 * 2) 1;
  buf ← write_be_u16 buf (rc_base + 2 * 2) 1;
  write_be_u16 buf (rc_base + 3 * 2) 1.

(** Guest bytes mapped by one L1 entry. *)
Definition l2_coverage : Z := (CLUSTER_SIZE / 8) * CLUSTER_SIZE.

(** The 256 KiB image [create_overlay] writes. *)
Definition overlay_image (backing_file : string) (backing_format : BackingFormat)
    (virtual_size : Z) : result qerror (list Z) :=
  let backing_bytes := str_bytes backing_file in
  let fmt_bytes := str_bytes (as_str backing_format) in
  let l1_offset := CLUSTER_SIZE in
  let rctable_offset := 2 * CLUSTER_SIZE in
  let rcblock_offset := 3 * CLUSTER_SIZE in
  let l1_entries := u32 (div_ceil virtual_size l2_coverage) in
  let total_size := 4 * CLUSTER_SIZE in
  buf ← write_header_bytes (zeros total_size) virtual_size (u32 (zlen backing_bytes))
          l1_entries l1_offset rctable_offset;
  '(buf, off) ← write_backing_format_extension buf HEADER_LENGTH fmt_bytes;
  '(buf, off) ← write_end_sentinel buf off;
  '(buf, backing_offset) ← write_backing_file_name buf off backing_bytes;
  buf ← write_be_u64 buf 8 backing_offset;
  buf ← write_be_u64 buf rctable_offset rcblock_offset;
  write_refcounts buf rcblock_offset.

Definition create_overlay (σ : fs) (p : path) (backing_file : string)
    (backing_format : BackingFormat) (virtual_size : Z) : result qerror fs :=
  buf ← overlay_image backing_file backing_format virtual_size;
  Ok (<[p := buf]> σ).

(** ** header.rs *)

Record Header : Type := mkHeader {
  version : Z;
  virtual_size : Z;
  cluster_size : Z;
  cluster_bits : Z;
  l1_entries : Z;
  refcount_order : Z;
  snapshots : Z;
  backing_file : option string;
  backing_format : option BackingFormat;
  backing_format_raw : option string
}.

(** [&buf\[a..b\]]. *)
Definition sub_slice (buf : list Z) (a b : Z) : result qerror (list Z) :=
  if (a <=? b) && (b <=? zlen buf) then Ok (slice buf a (b - a)) else Err QPanic.

Definition parse_backing_file (buf : list Z) (bf_offset bf_size limit : Z)
    : result qerror (option string) :=
  if bf_size =? 0 then Ok None else
  match checked_add bf_offset bf_size with
  | None => Ok None
  | Some end_ =>
    if limit <? end_ then Ok None else
    s ← sub_slice buf bf_offset end_;
    str ← ok_or (from_utf8 s) InvalidUtf8;
    Ok (Some str)
  end.

(** The extension walk; one unit of fuel per loop iteration. *)
Fixpoint parse_ext_loop (fuel : nat) (buf : list Z) (off limit : Z)
    : result qerror (option string) :=
  match fuel with
  | O => Err QOutOfFuel
  | S fuel =>
    if limit <? off + 8 then Ok None else
    ext_type ← read_be_u32 buf off;
    ext_len ← read_be_u32 buf (off + 4);
    if ext_type =? EXT_END then Ok None else
    let data_start := off + 8 in
    match checked_add data_start ext_len with
    | None => Ok None
    | Some data_end =>
      if limit <? data_end then Ok None else
      if ext_type =? EXT_BACKING_FMT then
        s ← sub_slice buf data_start data_end;
        str ← ok_or (from_utf8 s) InvalidUtf8;
        Ok (Some str)
      else
        match checked_add data_start (align8 ext_len) with
        | None => Ok None
        | Some advanced => parse_ext_loop fuel buf advanced limit
        end
    end
  end.

(** Every iteration advances by at least 8 bytes, so [limit] rounds suffice
    (see [parse_ext_loop_total]). *)
Definition parse_backing_format_extension (buf : list Z) (start limit : Z)
    : result qerror (option string) :=
  parse_ext_loop (S (Z.to_nat limit)) buf start limit.

(** The buffer and byte count of [file.read(&mut buf)] with a 64 KiB buffer. *)
Definition read_first_cluster (f : list Z) : list Z * Z :=
  let got := take (Z.to_nat CLUSTER_SIZE) f in
  (got ++ zeros (CLUSTER_SIZE - zlen got), zlen got).

Definition read_header_bytes (buf : list Z) (n : Z) : result qerror Header :=
  if n <? MIN_HEADER_BYTES then Err TooSmall else
  magic ← read_be_u32 buf 0;
  if negb (magic =? MAGIC) then Err (InvalidMagic magic MAGIC) else
  version ← read_be_u32 buf 4;
  if negb ((2 <=? version) && (version <=? 3)) then Err (UnsupportedVersion version) else
  bf_offset ← read_be_u64 buf 8;
  bf_size ← read_be_u32 buf 16;
  cluster_bits ← read_be_u32 buf 20;
  virtual_size ← read_be_u64 buf 24;
  l1_entries ← read_be_u32 buf 36;
  snapshots ← read_be_u32 buf 60;
  if negb ((9 <=? cluster_bits) && (cluster_bits <=? 30))
  then Err (InvalidClusterBits cluster_bits) else
  let cluster_size := Z.shiftl 1 cluster_bits in
  refcount_order ← (if (3 <=? version) && (100 <=? n) then read_be_u32 buf 96 else Ok 4);
  backing_file ← parse_backing_file buf bf_offset bf_size n;
  backing_format_raw ←
    (if (3 <=? version) && (HEADER_LENGTH + 8 <=? n)
     then parse_backing_format_extension buf HEADER_LENGTH n else Ok None);
  let backing_format := backing_format_raw ≫= parse in
  Ok (mkHeader version virtual_size cluster_size cluster_bits l1_entries refcount_order
        snapshots backing_file backing_format backing_format_raw).

Definition read_header (σ : fs) (p : path) : result qerror Header :=
  f ← ok_or (σ !! p) (Io EkNotFound);
  let '(buf, n) := read_first_cluster f in
  read_header_bytes buf n.

(** ** Symbolic execution of buffer writes *)

Create Rewrite HintDb zlen_db.
#[export] Hint Rewrite zlen_be_bytes @zlen_app : zlen_db.

Ltac zlen_norm := autorewrite with zlen_db in *; cbn [Z.of_nat Pos.of_succ_nat Pos.succ] in *.

Ltac solve_apart := unfold apart; rewrite ?zlen_be_bytes, ?zlen_zeros by lia; lia.

(** Executes the next [copy_from_slice] of the goal and moves every [holds] fact
    to the new buffer. *)
Ltac buf_step :=
  match goal with
  | Hn : zlen ?b = ?n |- context [copy_from_slice ?b ?o ?d] =>
    let b' := fresh "buf" in let Hn' := fresh "Hlen" in
    let Hh := fresh "Hh" in let Hf := fresh "Hf" in
    destruct (copy_from_slice_step b o d n Hn ltac:(lia)
                ltac:(rewrite ?zlen_be_bytes; lia)) as (b' & -> & Hn' & Hh & Hf);
    cbn [mbind result_bind];
    repeat match goal with
    | H : holds b ?o' ?e |- _ => apply (Hf o' e ltac:(solve_apart)) in H
    end;
    clear Hf Hn; clear b
  end.

(** Where the fields of an overlay sit. *)
Record overlay_layout (buf : list Z) (backing : string) (fmt : BackingFormat) (vs : Z) : Prop := {
  ol_len : zlen buf = 4 * CLUSTER_SIZE;
  ol_magic : holds buf 0 (be_bytes 4 MAGIC);
  ol_version : holds buf 4 (be_bytes 4 VERSION);
  ol_bf_offset : holds buf 8 (be_bytes 8 128);
  ol_bf_size : holds buf 16 (be_bytes 4 (u32 (zlen (str_bytes backing))));
  ol_cluster_bits : holds buf 20 (be_bytes 4 CLUSTER_BITS);
  ol_virtual_size : holds buf 24 (be_bytes 8 vs);
  ol_l1_size : holds buf 36 (be_bytes 4 (u32 (div_ceil vs l2_coverage)));
  ol_l1_offset : holds buf 40 (be_bytes 8 CLUSTER_SIZE);
  ol_rc_offset : holds buf 48 (be_bytes 8 (2 * CLUSTER_SIZE));
  ol_rc_clusters : holds buf 56 (be_bytes 4 1);
  ol_snapshots : holds buf 60 (be_bytes 4 0);
  ol_rc_order : holds buf 96 (be_bytes 4 REFCOUNT_ORDER);
  ol_hdr_len : holds buf 100 (be_bytes 4 HEADER_LENGTH);
  ol_ext_type : holds buf 104 (be_bytes 4 EXT_BACKING_FMT);
  ol_ext_len : holds buf 108 (be_bytes 4 (u32 (zlen (str_bytes (as_str fmt)))));
  ol_ext_data : holds buf 112 (str_bytes (as_str fmt));
  ol_backing : holds buf 128 (str_bytes backing);
  ol_l1 : holds buf CLUSTER_SIZE (zeros CLUSTER_SIZE);
  ol_rc_table : holds buf (2 * CLUSTER_SIZE) (be_bytes 8 (3 * CLUSTER_SIZE));
  ol_rc0 : holds buf (3 * CLUSTER_SIZE) (be_bytes 2 1);
  ol_rc1 : holds buf (3 * CLUSTER_SIZE + 2) (be_bytes 2 1);
  ol_rc2 : holds buf (3 * CLUSTER_SIZE + 4) (be_bytes 2 1);
  ol_rc3 : holds buf (3 * CLUSTER_SIZE + 6) (be_bytes 2 1)
}.

(** The longest backing path that still fits in the header cluster. *)
Definition MAX_BACKING : Z := CLUSTER_SIZE - 128.

Lemma write_header_bytes_spec vs bs l1e :
  exists buf, write_header_bytes (zeros (4 * CLUSTER_SIZE)) vs bs l1e CLUSTER_SIZE (2 * CLUSTER_SIZE) = Ok buf
    /\ zlen buf = 4 * CLUSTER_SIZE
    /\ holds buf 0 (be_bytes 4 MAGIC) /\ holds buf 4 (be_bytes 4 VERSION)
    /\ holds buf 16 (be_bytes 4 bs) /\ holds buf 20 (be_bytes 4 CLUSTER_BITS)
    /\ holds buf 24 (be_bytes 8 vs) /\ holds buf 36 (be_bytes 4 l1e)
    /\ holds buf 40 (be_bytes 8 CLUSTER_SIZE) /\ holds buf 48 (be_bytes 8 (2 * CLUSTER_SIZE))
    /\ holds buf 56 (be_bytes 4 1) /\ holds buf 60 (be_bytes 4 0)
    /\ holds buf 96 (be_bytes 4 REFCOUNT_ORDER) /\ holds buf 100 (be_bytes 4 HEADER_LENGTH)
    /\ holds buf CLUSTER_SIZE (zeros CLUSTER_SIZE).
Proof.
  change (4 * CLUSTER_SIZE) with 262144. change CLUSTER_SIZE with 65536.
  assert (Hn : zlen (zeros 262144) = 262144) by (apply zlen_zeros; lia).
  assert (Hz : holds (zeros 262144) 65536 (zeros 65536)) by (apply holds_zeros; lia).
  unfold write_header_bytes, write_be_u32, write_be_u64. rewrite Hn. cbn [negb].
  change (negb (HEADER_LENGTH <=? 262144)) with false. cbv iota.
  generalize dependent (zeros 262144). intros buf Hn Hz.
  do 17 buf_step. eexists. split_and!; [reflexivity|..]; eassumption.
Qed.

(** [create_overlay] writes exactly the documented four-cluster layout. *)
Lemma overlay_image_spec backing fmt vs :
  zlen (str_bytes backing) <= MAX_BACKING ->
  exists buf, overlay_image backing fmt vs = Ok buf /\ overlay_layout buf backing fmt vs.
Proof.
  intros Hbk. change MAX_BACKING with 65408 in Hbk. unfold overlay_image.
  destruct (write_header_bytes_spec vs (u32 (zlen (str_bytes backing)))
              (u32 (div_ceil vs l2_coverage))) as (buf & -> & Hlen & Hs).
  cbn [mbind result_bind]. destruct_and! Hs.
  change (4 * CLUSTER_SIZE) with 262144 in *. change CLUSTER_SIZE with 65536 in *.
  pose proof (zlen_nonneg (str_bytes backing)).
  assert (Hfmt : 3 <= zlen (str_bytes (as_str fmt)) <= 5) by (by destruct fmt).
  assert (Hal : align8 (zlen (str_bytes (as_str fmt))) = 8) by (by destruct fmt).
  unfold write_backing_format_extension, write_end_sentinel, write_backing_file_name,
    write_refcounts, write_be_u16, write_be_u32, write_be_u64.
  change (HEADER_LENGTH) with 104 in *. rewrite Hal.
  do 12 buf_step.
  eexists. split; [reflexivity|]. change (104 + 8 + 8 + 8) with 128 in *.
  repeat match goal with
  | H : holds ?b ?o ?d |- _ => let o' := eval compute in o in progress change (holds b o' d) in H
  end.
  split; change HEADER_LENGTH with 104; change CLUSTER_SIZE with 65536; [assumption|..];
  match goal with
  | |- holds ?b ?o ?d =>
      let o' := eval compute in o in
      change (holds b o' d); match goal with H : holds b o' d |- _ => exact H end
  end.
Qed.

(** ** Header parsing is total on byte files *)

(** The code returns: no index out of range, and the fuel suffices. *)
Definition no_abort {A} (r : result qerror A) : Prop := r <> Err QPanic /\ r <> Err QOutOfFuel.

Definition wf_fs (σ : fs) : Prop := map_Forall (fun _ f => Forall is_byte f) σ.

Lemma no_abort_bind {A B} (m : result qerror A) (f : A -> result qerror B) :
  no_abort m -> (forall a, m = Ok a -> no_abort (f a)) -> no_abort (m ≫= f).
Proof. intros Hm Hf. destruct m; simpl; [by apply Hf|]. destruct Hm. by split; intros [=]; subst. Qed.

Lemma no_abort_Ok {A} (a : A) : no_abort (Ok a).
Proof. by split. Qed.

Lemma slice_is_byte f off n : Forall is_byte f -> Forall is_byte (slice f off n).
Proof. intros. by apply Forall_take, Forall_drop. Qed.

Lemma zlen_slice f off n :
  0 <= off -> 0 <= n -> off + n <= zlen f -> zlen (slice f off n) = n.
Proof. intros. unfold zlen, slice in *. rewrite length_take, length_drop. lia. Qed.

Lemma read_be_u32_range buf off :
  Forall is_byte buf -> 0 <= off -> off + 4 <= zlen buf ->
  exists v, read_be_u32 buf off = Ok v /\ 0 <= v < 2^32.
Proof.
  intros Hb Ho Hl. unfold read_be_u32. rewrite (proj2 (Z.leb_le _ _)) by done.
  eexists. split; [done|]. pose proof (be_val_bound _ (slice_is_byte buf off 4 Hb)) as H.
  rewrite zlen_slice in H by lia. done.
Qed.

Lemma read_be_u64_range buf off :
  Forall is_byte buf -> 0 <= off -> off + 8 <= zlen buf ->
  exists v, read_be_u64 buf off = Ok v /\ 0 <= v < 2^64.
Proof.
  intros Hb Ho Hl. unfold read_be_u64. rewrite (proj2 (Z.leb_le _ _)) by done.
  eexists. split; [done|]. pose proof (be_val_bound _ (slice_is_byte buf off 8 Hb)) as H.
  rewrite zlen_slice in H by lia. done.
Qed.

Lemma utf8_slice_no_abort buf a b :
  a <= b -> b <= zlen buf ->
  no_abort (s ← sub_slice buf a b; str ← ok_or (from_utf8 s) InvalidUtf8; Ok (Some str)).
Proof.
  intros. unfold sub_slice. rewrite (proj2 (Z.leb_le a b)), (proj2 (Z.leb_le b _)) by done. simpl.
  destruct (from_utf8 _); simpl; by split.
Qed.

Lemma checked_add_Some a b c : checked_add a b = Some c -> c = a + b /\ c < 2^64.
Proof. unfold checked_add. intros. case_match; simplify_eq. zify_bool. lia. Qed.

Lemma parse_ext_loop_total fuel buf off limit :
  Forall is_byte buf -> limit <= zlen buf -> 0 <= off ->
  Z.max 0 (limit - off) < Z.of_nat fuel ->
  no_abort (parse_ext_loop fuel buf off limit).
Proof.
  revert off. induction fuel as [|fuel IH]; intros off Hb Hl Ho Hf; [lia|].
  cbn [parse_ext_loop]. destruct (Z.ltb_spec limit (off + 8)); [by apply no_abort_Ok|].
  destruct (read_be_u32_range buf off) as (ty & -> & Hty); [done|lia..|].
  destruct (read_be_u32_range buf (off + 4)) as (len & -> & Hlen); [done|lia..|].
  cbn [mbind result_bind]. case_match; [by apply no_abort_Ok|].
  destruct (checked_add (off + 8) len) as [e|] eqn:E; [|by apply no_abort_Ok].
  apply checked_add_Some in E as [-> _].
  destruct (Z.ltb_spec limit (off + 8 + len)); [by apply no_abort_Ok|].
  case_match; [apply utf8_slice_no_abort; lia|].
  destruct (checked_add (off + 8) (align8 len)) as [a|] eqn:E; [|by apply no_abort_Ok].
  apply checked_add_Some in E as [-> _].
  pose proof (align8_bounds len ltac:(lia)). apply IH; done || lia.
Qed.

Lemma parse_backing_file_no_abort buf o n limit :
  limit <= zlen buf -> 0 <= n -> no_abort (parse_backing_file buf o n limit).
Proof.
  intros. unfold parse_backing_file. case_match; [by apply no_abort_Ok|].
  destruct (checked_add o n) as [e|] eqn:E; [|by apply no_abort_Ok].
  apply checked_add_Some in E as [-> _].
  destruct (Z.ltb_spec limit (o + n)); [by apply no_abort_Ok|].
  apply utf8_slice_no_abort; lia.
Qed.

Lemma read_first_cluster_spec f buf n :
  Forall is_byte f -> read_first_cluster f = (buf, n) ->
  Forall is_byte buf /\ zlen buf = CLUSTER_SIZE /\ 0 <= n <= CLUSTER_SIZE.
Proof.
  unfold read_first_cluster. intros Hf [= <- <-].
  assert (Hl : zlen (take (Z.to_nat CLUSTER_SIZE) f) <= CLUSTER_SIZE).
  { unfold zlen. rewrite length_take. change CLUSTER_SIZE with 65536. lia. }
  split; [|split].
  - apply Forall_app. split; [by apply Forall_take|]. apply Forall_replicate. done.
  - rewrite zlen_app, zlen_zeros by lia. lia.
  - split; [apply zlen_nonneg|done].
Qed.

(** Consumes the next header-field read of the goal. *)
Ltac field_step Hb :=
  match goal with
  | |- no_abort (read_be_u32 ?b ?o ≫= _) =>
      let v := fresh "v" in let Hv := fresh "Hv" in
      destruct (read_be_u32_range b o Hb) as (v & -> & Hv); [lia..|]; cbn [mbind result_bind]
  | |- no_abort (read_be_u64 ?b ?o ≫= _) =>
      let v := fresh "v" in let Hv := fresh "Hv" in
      destruct (read_be_u64_range b o Hb) as (v & -> & Hv); [lia..|]; cbn [mbind result_bind]
  end.

Lemma read_header_bytes_no_abort buf n :
  Forall is_byte buf -> zlen buf = 65536 -> 0 <= n <= 65536 ->
  no_abort (read_header_bytes buf n).
Proof.
  intros Hb Hl Hn. unfold read_header_bytes. case_match; [by split|].
  field_step Hb.  case_match; [by split|].
  field_step Hb. case_match; [by split|].
  do 6 field_step Hb. case_match; [by split|].
  apply no_abort_bind.
  { case_match; [|apply no_abort_Ok].
    destruct (read_be_u32_range buf 96 Hb) as (w & -> & _); [lia..|]. apply no_abort_Ok. }
  intros ro _. apply no_abort_bind; [apply parse_backing_file_no_abort; lia|].
  intros bf _. apply no_abort_bind; [|intros; apply no_abort_Ok].
  case_match; [|apply no_abort_Ok].
  apply parse_ext_loop_total; [done|lia| |]; change HEADER_LENGTH with 104; lia.
Qed.

(** Header parsing is total: on any file system of byte files
    [read_header] returns a header or one of the crate's own errors.  No
    index, slice bound or shift panics whatever the bytes of the file are, and
    the extension walk ends (the fuel of the model never runs out). *)
Theorem read_header_total (σ : fs) (p : path) :
  wf_fs σ -> no_abort (read_header σ p).
Proof.
  intros Hwf. unfold read_header. destruct (σ !! p) as [f|] eqn:E; cbn [ok_or mbind result_bind]; [|by split].
  destruct (read_first_cluster f) as [buf n] eqn:Er.
  destruct (read_first_cluster_spec f buf n (Hwf _ _ E) Er) as (Hb & Hl & Hn).
  apply read_header_bytes_no_abort; assumption.
Qed.

(** ** Round trip: what [create_overlay] writes, [read_header] reads *)

(** The header [read_header] is expected to find in an overlay. *)
Definition overlay_header (backing : string) (fmt : BackingFormat) (vs : Z) : Header :=
  mkHeader VERSION vs CLUSTER_SIZE CLUSTER_BITS (u32 (div_ceil vs l2_coverage)) REFCOUNT_ORDER 0
    (if decide (backing = "")%string then None else Some backing)
    (Some fmt) (Some (as_str fmt)).

Lemma sub_slice_holds buf a d :
  holds buf a d -> d <> [] -> sub_slice buf a (a + zlen d) = Ok d.
Proof.
  intros H Hd. pose proof (holds_bound _ _ _ H Hd). pose proof (zlen_nonneg d).
  unfold sub_slice. rewrite (proj2 (Z.leb_le a _)), (proj2 (Z.leb_le _ (zlen buf))) by lia.
  simpl. f_equal. rewrite <- (holds_slice _ _ _ H) at 2. f_equal. lia.
Qed.

Lemma parse_backing_file_holds buf o s limit :
  holds buf o (str_bytes s) -> utf8_valid (str_bytes s) = true ->
  o + zlen (str_bytes s) <= limit -> limit < 2^64 ->
  parse_backing_file buf o (zlen (str_bytes s)) limit
  = Ok (if decide (s = "")%string then None else Some s).
Proof.
  intros Hh Hu Hl Hm. unfold parse_backing_file.
  destruct s as [|c s]; [by rewrite decide_True|]. rewrite decide_False by done.
  destruct (Z.eqb_spec (zlen (str_bytes (String c s))) 0) as [E|_]; [unfold zlen in E; simpl in E; lia|].
  unfold checked_add. rewrite (proj2 (Z.ltb_lt _ _)) by lia.
  rewrite (proj2 (Z.ltb_ge _ _)) by lia.
  rewrite sub_slice_holds by done. cbn [mbind result_bind].
  by rewrite from_utf8_str.
Qed.

Lemma fmt_ext_holds buf fmt limit :
  holds buf 104 (be_bytes 4 EXT_BACKING_FMT) ->
  holds buf 108 (be_bytes 4 (u32 (zlen (str_bytes (as_str fmt))))) ->
  holds buf 112 (str_bytes (as_str fmt)) -> 120 <= limit < 2^63 ->
  parse_backing_format_extension buf HEADER_LENGTH limit = Ok (Some (as_str fmt)).
Proof.
  intros Ht Hn Hd Hl. unfold parse_backing_format_extension. cbn [parse_ext_loop].
  change (HEADER_LENGTH) with 104. rewrite (proj2 (Z.ltb_ge _ _)) by lia.
  rewrite (read_be_u32_holds _ _ _ Ht). change (104 + 4) with 108.
  rewrite (read_be_u32_holds _ _ _ Hn). cbn [mbind result_bind].
  change (EXT_BACKING_FMT mod 2 ^ 32 =? EXT_END) with false.
  change (EXT_BACKING_FMT mod 2 ^ 32 =? EXT_BACKING_FMT) with true. cbv iota.
  change (104 + 8) with 112.
  assert (Hz : u32 (zlen (str_bytes (as_str fmt))) mod 2^32 = zlen (str_bytes (as_str fmt))) by (by destruct fmt).
  rewrite Hz. assert (3 <= zlen (str_bytes (as_str fmt)) <= 5) by (by destruct fmt).
  unfold checked_add. rewrite (proj2 (Z.ltb_lt _ _)) by lia.
  rewrite (proj2 (Z.ltb_ge _ _)) by lia.
  rewrite sub_slice_holds; [|done|by destruct fmt]. cbn [mbind result_bind].
  rewrite from_utf8_str; [done|by destruct fmt].
Qed.

Lemma read_header_layout buf backing fmt vs :
  overlay_layout buf backing fmt vs -> 0 <= vs < 2^64 ->
  zlen (str_bytes backing) <= MAX_BACKING -> utf8_valid (str_bytes backing) = true ->
  read_header_bytes (take (Z.to_nat CLUSTER_SIZE) buf) CLUSTER_SIZE = Ok (overlay_header backing fmt vs).
Proof.
  intros L Hvs Hbk Hu. change MAX_BACKING with 65408 in Hbk. pose proof (zlen_nonneg (str_bytes backing)).
  assert (T : forall o d, holds buf o d -> o + zlen d <= CLUSTER_SIZE ->
    holds (take (Z.to_nat CLUSTER_SIZE) buf) o d) by (intros; by apply holds_take).
  change CLUSTER_SIZE with 65536 in *. set (b := take (Z.to_nat 65536) buf) in *.
  unfold read_header_bytes. change (65536 <? MIN_HEADER_BYTES) with false. cbv iota.
  rewrite (read_be_u32_holds b 0 MAGIC) by (apply T; [apply L|rewrite zlen_be_bytes; lia]).
  rewrite (read_be_u32_holds b 4 VERSION) by (apply T; [apply L|rewrite zlen_be_bytes; lia]).
  rewrite (read_be_u64_holds b 8 128) by (apply T; [apply L|rewrite zlen_be_bytes; lia]).
  rewrite (read_be_u32_holds b 16 (u32 (zlen (str_bytes backing))))
    by (apply T; [apply L|rewrite zlen_be_bytes; lia]).
  rewrite (read_be_u32_holds b 20 CLUSTER_BITS) by (apply T; [apply L|rewrite zlen_be_bytes; lia]).
  rewrite (read_be_u64_holds b 24 vs) by (apply T; [apply L|rewrite zlen_be_bytes; lia]).
  rewrite (read_be_u32_holds b 36 (u32 (div_ceil vs l2_coverage)))
    by (apply T; [apply L|rewrite zlen_be_bytes; lia]).
  rewrite (read_be_u32_holds b 60 0) by (apply T; [apply L|rewrite zlen_be_bytes; lia]).
  rewrite (read_be_u32_holds b 96 REFCOUNT_ORDER) by (apply T; [apply L|rewrite zlen_be_bytes; lia]).
  assert (Hfe : parse_backing_format_extension b HEADER_LENGTH 65536 = Ok (Some (as_str fmt))).
  { apply fmt_ext_holds; [apply T; [apply L|rewrite zlen_be_bytes; lia]..| |lia].
    apply T; [apply L|destruct fmt; vm_compute; discriminate]. }
  assert (Hbf := parse_backing_file_holds b 128 backing 65536 (T _ _ (ol_backing _ _ _ _ L) ltac:(lia))
    Hu ltac:(lia) ltac:(lia)).
  assert (Hm : u32 (zlen (str_bytes backing)) mod 2^32 = zlen (str_bytes backing)).
  { rewrite u32_id by lia. apply Z.mod_small. lia. }
  cbn [mbind result_bind]. rewrite Hm.
  change (128 mod 2^64) with 128. rewrite Hbf, Hfe.
  unfold overlay_header. cbn [mbind result_bind]. 
  rewrite (Z.mod_small vs) by lia. unfold u32 at 1. rewrite Z.mod_mod by lia.
  by destruct fmt.
Qed.

Lemma overlay_header_roundtrip_lemma (σ : fs) (p : path) (backing : string) (fmt : BackingFormat) (vs : Z) :
  0 <= vs < 2^64 ->
  zlen (str_bytes backing) <= MAX_BACKING ->
  utf8_valid (str_bytes backing) = true ->
  exists σ', create_overlay σ p backing fmt vs = Ok σ'
    /\ read_header σ' p = Ok (overlay_header backing fmt vs)
    /\ forall q, q <> p -> σ' !! q = σ !! q.
Proof.
  intros Hvs Hbk Hu. unfold create_overlay.
  destruct (overlay_image_spec backing fmt vs Hbk) as (buf & -> & L).
  eexists. split; [reflexivity|]. split; [|intros; by apply lookup_insert_ne].
  unfold read_header. rewrite lookup_insert_eq. cbn [ok_or mbind result_bind].
  unfold read_first_cluster.
  assert (Ht : zlen (take (Z.to_nat CLUSTER_SIZE) buf) = CLUSTER_SIZE).
  { pose proof (ol_len _ _ _ _ L) as Hl. unfold zlen in *. rewrite length_take.
    change CLUSTER_SIZE with 65536 in *. lia. }
  rewrite Ht, Z.sub_diag. change (zeros 0) with (@nil Z). rewrite app_nil_r.
  by apply read_header_layout.
Qed.

(** An overlay reads back as written: for a UTF-8 backing path that fits
    the header cluster and any 64-bit virtual size, [create_overlay] succeeds
    and [read_header] of the new file returns version 3, the virtual size, 64
    KiB clusters, the backing path and the backing format that were given. *)
Theorem overlay_header_roundtrip (σ : fs) (p : path) (backing : string) (fmt : BackingFormat) (vs : Z) :
  0 <= vs < 2^64 ->
  zlen (str_bytes backing) <= MAX_BACKING ->
  utf8_valid (str_bytes backing) = true ->
  exists σ', create_overlay σ p backing fmt vs = Ok σ'
    /\ read_header σ' p = Ok (overlay_header backing fmt vs)
    /\ forall q, q <> p -> σ' !! q = σ !! q.
Proof. apply overlay_header_roundtrip_lemma. Qed.

Lemma overlay_header_roundtrip_witness :
  let σ : fs := ∅ in
  exists σ', create_overlay σ [RootDir; Normal "o.qcow2"] "/data/base.raw" Raw (2^30) = Ok σ'
    /\ read_header σ' [RootDir; Normal "o.qcow2"] = Ok (overlay_header "/data/base.raw" Raw (2^30))
    /\ forall q, q <> [RootDir; Normal "o.qcow2"] -> σ' !! q = σ !! q.
Proof.
  apply (overlay_header_roundtrip ∅ [RootDir; Normal "o.qcow2"] "/data/base.raw" Raw (2^30)).
  - lia.
  - vm_compute. discriminate.
  - reflexivity.
Defined.

Lemma read_header_total_witness :
  no_abort (read_header {[ [RootDir; Normal "f"] := zeros 100 ]} [RootDir; Normal "f"]).
Proof.
  apply (read_header_total {[ [RootDir; Normal "f"] := zeros 100 ]} [RootDir; Normal "f"]).
  apply map_Forall_singleton. apply Forall_replicate. split; [discriminate | reflexivity].
Defined.
