(* ===== verification/Qcow2Chain.v ===== *)
(** * Backing-chain navigation

    [crates/bux-qcow2/src/chain.rs]: the cheap walk that lists the backing
    files of an image. *)

From S2P Require Import Prelude Files Paths Qcow2Format Qcow2Image.

Definition DEFAULT_MAX_CHAIN_DEPTH : nat := 16.

(** [file.seek(SeekFrom::Start(off))?; file.read_exact(&mut \[0; n\])?]; a
    start offset beyond [i64::MAX] is refused by [lseek]. *)
Definition seek_read (f : list Z) (off n : Z) : result qerror (list Z) :=
  if I64_MAX <? off then Err (Io EkInvalidInput)
  else ok_or (read_exact_at f off n) (Io EkUnexpectedEof).

Definition read_backing_file (σ : fs) (p : path) : result qerror (option string) :=
  f ← ok_or (σ !! p) (Io EkNotFound);
  hdr ← seek_read f 0 20;
  let magic := be_val (slice hdr 0 4) in
  if negb (magic =? MAGIC) then Err (InvalidMagic magic MAGIC) else
  let bf_offset := be_val (slice hdr 8 8) in
  let bf_size := be_val (slice hdr 16 4) in
  if (bf_offset =? 0) || (bf_size =? 0) then Ok None else
  buf ← seek_read f bf_offset bf_size;
  str ← ok_or (from_utf8 buf) InvalidUtf8;
  Ok (Some str).

(** The path a backing-file string of [current] names. *)
Definition resolve_backing (current : path) (backing : string) : path :=
  let backing_path := components backing in
  if is_absolute backing_path then backing_path
  else match parent current with
       | Some par => join par backing_path
       | None => backing_path
       end.

(** The loop [for _ in 0..max_depth]. *)
Fixpoint read_backing_chain_with_depth (σ : fs) (current : path) (max_depth : nat) : list path :=
  match max_depth with
  | O => []
  | S n =>
    match read_backing_file σ current with
    | Ok (Some backing) =>
      let resolved := resolve_backing current backing in
      if decide (is_Some (σ !! resolved))
      then resolved :: read_backing_chain_with_depth σ resolved n
      else []
    | _ => []
    end
  end.

Definition read_backing_chain (σ : fs) (p : path) : list path :=
  read_backing_chain_with_depth σ p DEFAULT_MAX_CHAIN_DEPTH.

Section Dependency.
(** [std::fs::canonicalize]: the operating system's path resolution. *)
Variable canonicalize : path -> option path.

Definition is_backing_dependency (σ : fs) (image candidate : path) : result qerror bool :=
  target ← ok_or (canonicalize candidate) (Io EkNotFound);
  Ok (existsb (fun entry => bool_decide (canonicalize entry = Some target))
        (read_backing_chain σ image)).
End Dependency.

(** ** What the walk returns *)

(** [q] is the existing file that [p]'s header names as its backing file. *)
Definition backs (σ : fs) (p q : path) : Prop :=
  exists s, read_backing_file σ p = Ok (Some s) /\ q = resolve_backing p s /\ is_Some (σ !! q).

Lemma chain_linked σ p n i q :
  read_backing_chain_with_depth σ p n !! i = Some q ->
  exists r, (p :: read_backing_chain_with_depth σ p n) !! i = Some r /\ backs σ r q.
Proof.
  revert p i. induction n as [|n IH]; intros p i H; simpl in *; [done|].
  destruct (read_backing_file σ p) as [[s|]|] eqn:E; try done.
  case_decide as Hex; [|done]. destruct i as [|i]; simpl in *.
  - simplify_eq. exists p. split; [done|]. by exists s.
  - by apply IH.
Qed.

Lemma chain_length σ p n : (length (read_backing_chain_with_depth σ p n) <= n)%nat.
Proof.
  revert p. induction n as [|n IH]; intros p; simpl; [done|].
  destruct (read_backing_file σ p) as [[s|]|]; simpl; try lia.
  case_decide; simpl; [|lia]. specialize (IH (resolve_backing p s)). lia.
Qed.

Lemma chain_stops σ p n :
  (length (read_backing_chain_with_depth σ p n) < n)%nat ->
  forall q, ~ backs σ (default p (last (read_backing_chain_with_depth σ p n))) q.
Proof.
  revert p. induction n as [|n IH]; intros p Hl q; simpl in *; [lia|].
  destruct (read_backing_file σ p) as [[s|]|] eqn:E; simpl in *;
    [|by intros (t & Ht & _); congruence..].
  case_decide as Hex; simpl in *.
  - specialize (IH (resolve_backing p s) ltac:(lia) q).
    rewrite last_cons. destruct (last _); done.
  - intros (t & Ht & -> & H). rewrite E in Ht. by simplify_eq.
Qed.

(** The backing-chain walk: at most [max_depth] entries, every entry is an
    existing file named by its predecessor's header (the first one by the image
    itself), and a walk shorter than the cap ends at an image without an
    existing backing file.  So a cyclic chain is cut at the cap and never makes
    the walk diverge. *)
Theorem backing_chain_sound (σ : fs) (p : path) (n : nat) :
  let chain := read_backing_chain_with_depth σ p n in
  (length chain <= n)%nat
  /\ (forall i q, chain !! i = Some q -> exists r, (p :: chain) !! i = Some r /\ backs σ r q)
  /\ ((length chain < n)%nat -> forall q, ~ backs σ (default p (last chain)) q).
Proof.
  split; [apply chain_length|]. split; [apply chain_linked|apply chain_stops].
Qed.

(** ** Field reads of a header prefix *)

Lemma seek_read_prefix f n :
  0 < n -> n <= zlen f -> seek_read f 0 n = Ok (take (Z.to_nat n) f).
Proof.
  intros. unfold seek_read, read_exact_at. change (I64_MAX <? 0) with false. cbv iota.
  rewrite (proj2 (Z.eqb_neq _ _)), (proj2 (Z.leb_le _ _)) by lia. done.
Qed.

Lemma seek_read_holds f off d :
  holds f off d -> off <= I64_MAX -> seek_read f off (zlen d) = Ok d.
Proof.
  intros H Ho. unfold seek_read. rewrite (proj2 (Z.ltb_ge _ _)) by lia.
  by rewrite (holds_read _ _ _ H).
Qed.

(** A big-endian field of the first [n] bytes. *)
Lemma prefix_field f n off k m v :
  m = Z.of_nat k -> holds f off (be_bytes k v) -> off + m <= n -> 0 <= v < 256 ^ m ->
  be_val (slice (take (Z.to_nat n) f) off m) = v.
Proof.
  intros -> H Hn Hv. rewrite <- (zlen_be_bytes k v) at 1.
  rewrite (holds_slice _ off (be_bytes k v)); [by apply be_val_bytes_id|].
  apply holds_take; [done|]. by rewrite zlen_be_bytes.
Qed.

(** Reading the backing file of a fresh overlay. *)
Lemma read_backing_file_overlay (σ : fs) p buf backing fmt vs :
  overlay_layout buf backing fmt vs -> σ !! p = Some buf ->
  zlen (str_bytes backing) <= MAX_BACKING -> utf8_valid (str_bytes backing) = true ->
  backing <> ""%string ->
  read_backing_file σ p = Ok (Some backing).
Proof.
  intros L Hp Hb Hu Hne. unfold read_backing_file. rewrite Hp. cbn [ok_or mbind result_bind].
  pose proof (ol_len _ _ _ _ L) as Hl. change (4 * CLUSTER_SIZE) with 262144 in Hl.
  change MAX_BACKING with 65408 in Hb.
  assert (0 < zlen (str_bytes backing)) by (destruct backing; [done|]; unfold zlen; simpl; lia).
  rewrite seek_read_prefix by lia. cbn [mbind result_bind].
  rewrite (prefix_field buf 20 0 4 4 MAGIC) by (apply L || done).
  rewrite (prefix_field buf 20 8 8 8 128) by (apply L || done).
  rewrite (prefix_field buf 20 16 4 4 (zlen (str_bytes backing))); [|done| |done|lia].
  2: { rewrite <- (u32_id (zlen (str_bytes backing))) by lia. apply L. }
  change (negb (MAGIC =? MAGIC)) with false. cbv iota.
  rewrite (proj2 (Z.eqb_neq (zlen _) 0)) by lia. change ((128 =? 0) || false) with false. cbv iota.
  rewrite (seek_read_holds buf 128) by (apply L || done). cbn [mbind result_bind].
  by rewrite from_utf8_str.
Qed.

Lemma backs_overlay (σ : fs) p buf base fmt vs :
  overlay_layout buf base fmt vs -> σ !! p = Some buf ->
  zlen (str_bytes base) <= MAX_BACKING -> utf8_valid (str_bytes base) = true ->
  is_absolute (components base) = true -> is_Some (σ !! components base) ->
  backs σ p (components base).
Proof.
  intros L Hp Hb Hu Ha Hex. exists base. split; [|split].
  - apply (read_backing_file_overlay σ p buf base fmt vs); try done. by intros ->.
  - unfold resolve_backing. by rewrite Ha.
  - done.
Qed.

Lemma chain_step σ p q n :
  backs σ p q ->
  read_backing_chain_with_depth σ p (S n) = q :: read_backing_chain_with_depth σ q n.
Proof.
  intros (s & Hs & -> & Hex). cbn [read_backing_chain_with_depth].
  by rewrite Hs, decide_True.
Qed.

Lemma create_overlay_spec (σ : fs) p base fmt vs :
  zlen (str_bytes base) <= MAX_BACKING ->
  exists buf, create_overlay σ p base fmt vs = Ok (<[p := buf]> σ) /\ overlay_layout buf base fmt vs.
Proof.
  intros Hb. unfold create_overlay. destruct (overlay_image_spec base fmt vs Hb) as (buf & -> & L).
  by exists buf.
Qed.

(** A fresh overlay depends on its base: after [create_overlay] over an
    existing absolute UTF-8 path, [is_backing_dependency] of the overlay and the
    base is [true], for any path resolution of the operating system that
    resolves the base. *)
Theorem overlay_depends_on_base (canonicalize : path -> option path) (σ σ' : fs) (p : path)
    (base : string) (fmt : BackingFormat) (vs : Z) (target : path) :
  canonicalize (components base) = Some target ->
  is_absolute (components base) = true ->
  is_Some (σ !! components base) -> components base <> p ->
  zlen (str_bytes base) <= MAX_BACKING -> utf8_valid (str_bytes base) = true ->
  create_overlay σ p base fmt vs = Ok σ' ->
  is_backing_dependency canonicalize σ' p (components base) = Ok true.
Proof.
  intros Hc Ha Hex Hne Hb Hu Hcr.
  destruct (create_overlay_spec σ p base fmt vs Hb) as (buf & E & L).
  rewrite E in Hcr. injection Hcr as <-.
  unfold is_backing_dependency. rewrite Hc. cbn [ok_or mbind result_bind].
  f_equal. apply existsb_exists. exists (components base).
  split; [|by apply bool_decide_eq_true]. unfold read_backing_chain, DEFAULT_MAX_CHAIN_DEPTH.
  rewrite (chain_step _ _ (components base)); [by left|].
  apply (backs_overlay _ p buf base fmt vs); [done|apply lookup_insert_eq|done..|].
  by rewrite lookup_insert_ne.
Qed.

Lemma overlay_depends_on_base_witness :
  let σ : fs := {[ components "/base.raw" := zeros 8 ]} in
  exists σ', create_overlay σ (components "/o.qcow2") "/base.raw" Raw (2^20) = Ok σ'
    /\ is_backing_dependency Some σ' (components "/o.qcow2") (components "/base.raw") = Ok true.
Proof.
  intros σ.
  destruct (create_overlay_spec σ (components "/o.qcow2") "/base.raw" Raw (2^20))
    as (buf & Hc & _); [vm_compute; discriminate|].
  exists (<[components "/o.qcow2" := buf]> σ). split; [exact Hc|].
  apply (overlay_depends_on_base Some σ _ (components "/o.qcow2") "/base.raw" Raw (2^20)
           (components "/base.raw")); [reflexivity|reflexivity| | | |reflexivity|exact Hc].
  - eexists. reflexivity.
  - discriminate.
  - vm_compute. discriminate.
Defined.
