(* ===== verification/Qcow2Flatten.v ===== *)
(** * Flattening a backing chain

    [crates/bux-qcow2/src/ops.rs]: [open_chain], [Layer::read_cluster] and
    [flatten].  Open file handles are the paths they were opened at and reads go
    through the shared file store, so writing [dst] while it is also a layer of
    the chain would be seen by the reads. *)

From S2P Require Import Prelude Files Paths Qcow2Format Qcow2Image Qcow2Chain.

(** ** Layers *)

Inductive Layer : Type :=
  | LQcow2 (file : path) (cluster_bits virtual_size : Z) (l1_table : list Z)
  | LRaw (file : path) (size : Z).

Definition layer_file (l : Layer) : path :=
  match l with LQcow2 f _ _ _ => f | LRaw f _ => f end.

(** [1u64 << n] in a release build: the shift count is taken modulo 64. *)
Definition shl1_u64 (n : Z) : Z := 2 ^ (n mod 64).

(** One cluster of one layer; [None] is "not allocated here". *)
Definition read_cluster (σ : fs) (l : Layer) (vc cluster_size : Z)
    : result qerror (option (list Z)) :=
  match l with
  | LRaw file size =>
    f ← ok_or (σ !! file) (Io EkNotFound);
    let offset := u64 (vc * cluster_size) in
    if size <=? offset then Ok None else
    let remaining := Z.min (size - offset) cluster_size in
    d ← seek_read f offset remaining;
    Ok (Some (d ++ zeros (cluster_size - remaining)))
  | LQcow2 file cluster_bits _ l1_table =>
    f ← ok_or (σ !! file) (Io EkNotFound);
    let cs := shl1_u64 cluster_bits in
    let l2_entries := cs / 8 in
    if l2_entries =? 0 then Err QPanic else
    let l1_idx := vc / l2_entries in
    let l2_idx := vc mod l2_entries in
    match l1_table !! Z.to_nat l1_idx with
    | None => Ok None
    | Some l1_entry =>
      let l2_offset := Z.land l1_entry L2_OFFSET_MASK in
      if l2_offset =? 0 then Ok None else
      entry_buf ← seek_read f (u64 (l2_offset + l2_idx * 8)) 8;
      let l2_entry := be_val entry_buf in
      if negb (Z.land l2_entry L2_COMPRESSED_BIT =? 0) then Err CompressedUnsupported else
      let data_offset := Z.land l2_entry L2_OFFSET_MASK in
      if data_offset =? 0 then Ok None else
      buf ← seek_read f data_offset cs;
      Ok (Some buf)
    end
  end.

(** The chain rooted at [current]; one unit of fuel per layer. *)
Fixpoint open_chain (fuel : nat) (σ : fs) (current : path) : result qerror (list Layer) :=
  match fuel with
  | O => Err QOutOfFuel
  | S fuel =>
    f ← ok_or (σ !! current) (Io EkNotFound);
    magic_buf ← seek_read f 0 4;
    if negb (be_val magic_buf =? MAGIC) then Ok [LRaw current (zlen f)] else
    hdr ← seek_read f 0 104;
    let bf_offset := be_val (slice hdr 8 8) in
    let bf_size := be_val (slice hdr 16 4) in
    let cluster_bits := be_val (slice hdr 20 4) in
    let virtual_size := be_val (slice hdr 24 8) in
    let l1_size := be_val (slice hdr 36 4) in
    let l1_offset := be_val (slice hdr 40 8) in
    l1_buf ← seek_read f l1_offset (l1_size * 8);
    let l1_table := be_val <$> chunks 8 l1_buf in
    backing ←
      (if negb (bf_offset =? 0) && negb (bf_size =? 0) then
         buf ← seek_read f bf_offset bf_size;
         s ← ok_or (from_utf8 buf) InvalidUtf8;
         Ok (Some s)
       else Ok None);
    let layer := LQcow2 current cluster_bits virtual_size l1_table in
    match backing with
    | Some bp => rest ← open_chain fuel σ (components bp); Ok (layer :: rest)
    | None => Ok [layer]
    end
  end.

(** The loop [for layer in &mut chain] of one virtual cluster: the first layer
    that has it wins. *)
Fixpoint read_chain (σ : fs) (chain : list Layer) (vc cluster_size : Z)
    : result qerror (option (list Z)) :=
  match chain with
  | [] => Ok None
  | l :: rest =>
    o ← read_cluster σ l vc cluster_size;
    match o with
    | Some d => Ok (Some d)
    | None => read_chain σ rest vc cluster_size
    end
  end.

(** ** [flatten] *)

(** [output.seek(SeekFrom::Start(off))?; output.write_all(d)?]. *)
Definition seek_write (out : list Z) (off : Z) (d : list Z) : result qerror (list Z) :=
  if I64_MAX <? off then Err (Io EkInvalidInput) else Ok (write_at out off d).

Definition seek_write_each (out : list Z) (off : Z) (ds : list (list Z)) : result qerror (list Z) :=
  if I64_MAX <? off then Err (Io EkInvalidInput) else Ok (write_each out off ds).

(** [l2_tables\[i\]\[j\] = v]. *)
Definition set_l2 (tables : list (list Z)) (i j v : Z) : result qerror (list (list Z)) :=
  match tables !! Z.to_nat i with
  | Some t =>
    if (Z.to_nat j <? length t)%nat
    then Ok (<[Z.to_nat i := <[Z.to_nat j := v]> t]> tables)
    else Err QPanic
  | None => Err QPanic
  end.

(** State of the copy loop: the file store, the L2 tables, the next free cluster. *)
Record copy_state : Type := mkCopy {
  cp_fs : fs;
  cp_l2 : list (list Z);
  cp_next : Z
}.

(** Body of [for vc in 0..num_virtual_clusters]. *)
Definition copy_cluster (chain : list Layer) (dst : path) (cluster_size : Z)
    (st : copy_state) (vc : Z) : result qerror copy_state :=
  let l2_entries := cluster_size / 8 in
  data ← read_chain (cp_fs st) chain vc cluster_size;
  match data with
  | None => Ok st
  | Some d =>
    if decide (d = zeros cluster_size) then Ok st else
    let offset := u64 (cp_next st * cluster_size) in
    out ← seek_write (default [] (cp_fs st !! dst)) offset d;
    l2 ← set_l2 (cp_l2 st) (vc / l2_entries) (vc mod l2_entries) offset;
    Ok (mkCopy (<[dst := out]> (cp_fs st)) l2 (cp_next st + 1))
  end.

(** The refcount-block fixpoint loop. *)
Fixpoint rc_total (fuel : nat) (rc_block_start rc_entries_per_block total : Z) : result qerror Z :=
  match fuel with
  | O => Err QOutOfFuel
  | S fuel =>
    let blocks_needed := div_ceil total rc_entries_per_block in
    let new_total := rc_block_start + blocks_needed in
    if new_total <=? total then Ok total
    else rc_total fuel rc_block_start rc_entries_per_block new_total
  end.

Definition any_nonzero (l2 : list Z) : bool := existsb (fun e => negb (e =? 0)) l2.

(** [used\[c\] = true]. *)
Definition set_used (used : list bool) (c : Z) : result qerror (list bool) :=
  if c <? zlen used then Ok (<[Z.to_nat c := true]> used) else Err QPanic.

(** Body of the L2-table write loop. *)
Definition write_l2 (l2_start cluster_size : Z) (out : list Z) (it : nat * list Z)
    : result qerror (list Z) :=
  let '(i, l2) := it in
  if any_nonzero l2
  then seek_write_each out (u64 ((l2_start + Z.of_nat i) * cluster_size)) (be_bytes 8 <$> l2)
  else Ok out.

Definition mark_l2 (l2_start : Z) (used : list bool) (it : nat * list Z) : result qerror (list bool) :=
  let '(i, l2) := it in
  if any_nonzero l2 then set_used used (l2_start + Z.of_nat i) else Ok used.

(** Which clusters of the new image are in use. *)
Definition used_bitmap (l2_tables : list (list Z))
    (l1_clusters l2_start data_start rc_table_cluster total_clusters : Z) : result qerror (list bool) :=
  let rc_block_start := rc_table_cluster + 1 in
  used ← set_used (replicate (Z.to_nat total_clusters) false) 0;
  used ← foldM set_used used (seqZ 1 l1_clusters);
  used ← foldM (mark_l2 l2_start) used (imap pair l2_tables);
  used ← foldM set_used used (seqZ data_start (rc_table_cluster - data_start));
  used ← set_used used rc_table_cluster;
  foldM set_used used (seqZ rc_block_start (total_clusters - rc_block_start)).

(** Body of the refcount-block loop. *)
Definition write_rc_block (rc_block_start rc_entries_per_block cluster_size : Z) (used : list bool)
    (out : list Z) (bi : Z) : result qerror (list Z) :=
  let first := bi * rc_entries_per_block in
  seek_write_each out (u64 ((rc_block_start + bi) * cluster_size))
    ((fun c => be_bytes 2 (if default false (used !! Z.to_nat (first + c)) then 1 else 0))
       <$> seqZ 0 rc_entries_per_block).

(** The 112-byte header of the flattened image. *)
Definition flat_header (cluster_bits virtual_size num_l1 cluster_size rc_table_offset : Z)
    : result qerror (list Z) :=
  h ← write_be_u32 (zeros 112) 0 MAGIC;
  h ← write_be_u32 h 4 VERSION;
  h ← write_be_u32 h 20 cluster_bits;
  h ← write_be_u64 h 24 virtual_size;
  h ← write_be_u32 h 36 num_l1;
  h ← write_be_u64 h 40 cluster_size;
  h ← write_be_u64 h 48 rc_table_offset;
  h ← write_be_u32 h 56 1;
  h ← write_be_u32 h 96 REFCOUNT_ORDER;
  write_be_u32 h 100 HEADER_LENGTH.

(** Everything after the copy loop: refcount sizing, L1, L2, refcount table and
    blocks, header. *)
Definition write_metadata (out : list Z) (l2_tables : list (list Z))
    (cluster_bits virtual_size num_l1 l1_clusters next_data : Z) : result qerror (list Z) :=
  let cluster_size := shl1_u64 cluster_bits in
  let l2_start := 1 + l1_clusters in
  let data_start := l2_start + num_l1 in
  let rc_entries_per_block := cluster_size / 2 in
  let rc_table_cluster := next_data in
  let rc_block_start := rc_table_cluster + 1 in
  total_clusters ← rc_total (Z.to_nat rc_block_start + 3) rc_block_start rc_entries_per_block rc_block_start;
  let num_rc_blocks := total_clusters - rc_block_start in
  let rc_table_offset := u64 (rc_table_cluster * cluster_size) in
  out ← seek_write_each out cluster_size
    (imap (fun i l2 => be_bytes 8 (if any_nonzero l2 then u64 ((l2_start + Z.of_nat i) * cluster_size) else 0))
       l2_tables);
  out ← foldM (write_l2 l2_start cluster_size) out (imap pair l2_tables);
  out ← seek_write_each out rc_table_offset
    ((fun i => be_bytes 8 (u64 ((rc_block_start + i) * cluster_size))) <$> seqZ 0 num_rc_blocks);
  used ← used_bitmap l2_tables l1_clusters l2_start data_start next_data total_clusters;
  out ← foldM (write_rc_block rc_block_start rc_entries_per_block cluster_size used) out (seqZ 0 num_rc_blocks);
  hdr ← flat_header cluster_bits virtual_size num_l1 cluster_size rc_table_offset;
  seek_write out 0 hdr.

Definition flatten (fuel : nat) (σ : fs) (src dst : path) : result qerror fs :=
  chain ← open_chain fuel σ src;
  match head chain with
  | Some (LQcow2 _ cluster_bits virtual_size _) =>
    let cluster_size := shl1_u64 cluster_bits in
    let num_virtual_clusters := div_ceil virtual_size cluster_size in
    let l2_entries := cluster_size / 8 in
    if l2_entries =? 0 then Err QPanic else
    let num_l1 := u32 (div_ceil num_virtual_clusters l2_entries) in
    let l1_clusters := div_ceil (num_l1 * 8) cluster_size in
    let data_start := 1 + l1_clusters + num_l1 in
    let l2_tables := replicate (Z.to_nat num_l1) (replicate (Z.to_nat l2_entries) 0) in
    st ← foldM (copy_cluster chain dst cluster_size)
           (mkCopy (<[dst := []]> σ) l2_tables data_start) (seqZ 0 num_virtual_clusters);
    out ← write_metadata (default [] (cp_fs st !! dst)) (cp_l2 st)
            cluster_bits virtual_size num_l1 l1_clusters (cp_next st);
    Ok (<[dst := out]> (cp_fs st))
  | _ => Err NotQcow2
  end.

(** ** The guest's view of a chain: what a virtual cluster reads as *)

Definition guest_cluster (σ : fs) (chain : list Layer) (vc cluster_size : Z)
    : result qerror (list Z) :=
  o ← read_chain σ chain vc cluster_size;
  Ok (default (zeros cluster_size) o).
