(* ===== verification/Qcow2FlattenCorrect.v ===== *)
(** * [flatten] preserves the guest's disk

    The refinement theorem for [crates/bux-qcow2/src/ops.rs]: the single image
    [flatten] writes reads, cluster by cluster, as the whole source chain. *)

From S2P Require Import Prelude Files Paths Qcow2Format Qcow2Image Qcow2Chain Qcow2Flatten.

(** ** Reads only depend on the layers' own files *)

Lemma read_cluster_ext (σ σ' : fs) l vc cs :
  σ !! layer_file l = σ' !! layer_file l -> read_cluster σ l vc cs = read_cluster σ' l vc cs.
Proof. intros H. destruct l; simpl in *; by rewrite H. Qed.

Lemma read_chain_insert (σ : fs) dst x chain vc cs :
  dst ∉ (layer_file <$> chain) -> read_chain (<[dst := x]> σ) chain vc cs = read_chain σ chain vc cs.
Proof.
  induction chain as [|l chain IH]; intros Hd; simpl; [done|].
  rewrite fmap_cons, not_elem_of_cons in Hd. destruct Hd as [Hne Hd].
  rewrite (read_cluster_ext (<[dst := x]> σ) σ) by (by apply lookup_insert_ne).
  destruct (read_cluster σ l vc cs) as [[d|]|]; simpl; auto.
Qed.

(** Every QCOW2 layer of the chain has clusters of [2^cb] bytes. *)
Definition uniform (cb : Z) (chain : list Layer) : Prop :=
  Forall (fun l => match l with LQcow2 _ b _ _ => b = cb | LRaw _ _ => True end) chain.

Lemma seek_read_zlen f off n d :
  seek_read f off n = Ok d -> 0 <= off -> 0 <= n -> zlen d = n.
Proof.
  unfold seek_read, read_exact_at. intros H Ho Hn. case_match; [done|].
  destruct (Z.eqb_spec n 0) as [->|]; [by injection H as <-|].
  destruct (Z.leb_spec (off + n) (zlen f)); [|done]. injection H as <-. by apply zlen_slice.
Qed.

Lemma read_cluster_zlen σ l vc cb cs d :
  match l with LQcow2 _ b _ _ => b = cb | LRaw _ _ => True end ->
  shl1_u64 cb = cs -> 0 < cs ->
  read_cluster σ l vc cs = Ok (Some d) -> zlen d = cs.
Proof.
  intros Hu Hcs Hp H. destruct l as [f b vs l1|f size]; simpl in H.
  - subst b. rewrite Hcs in H. destruct (σ !! f) as [fb|]; simpl in H; [|done].
    case_match; [done|]. case_match; [|done]. case_match; [done|].
    inv_bind. case_match; [done|]. case_match; [done|]. inv_bind.
    eapply seek_read_zlen; [done| |lia]. apply Z.land_nonneg. by right.
  - clear Hcs. destruct (σ !! f) as [fb|]; simpl in H; [|done].
    destruct (Z.leb_spec size (u64 (vc * cs))); [done|]. inv_bind.
    assert (0 <= u64 (vc * cs)) by (apply Z.mod_pos_bound; lia).
    apply seek_read_zlen in Hb; [|lia..]. rewrite zlen_app, zlen_zeros by lia. lia.
Qed.

Lemma read_chain_zlen σ chain vc cb cs d :
  uniform cb chain -> shl1_u64 cb = cs -> 0 < cs ->
  read_chain σ chain vc cs = Ok (Some d) -> zlen d = cs.
Proof.
  intros Hu Hcs Hp. induction Hu as [|l chain Hl Hu IH]; simpl; [done|]. intros H.
  inv_bind. destruct a; [|by apply IH]. injection Hk as ->.
  by eapply read_cluster_zlen.
Qed.

(** ** Offsets and the L2 masks *)

Lemma mask_id x : 0 <= x < 2^56 -> x mod 512 = 0 -> Z.land x L2_OFFSET_MASK = x.
Proof.
  intros Hx Hm. apply Z.bits_inj'. intros n Hn. rewrite Z.land_spec.
  destruct (Z.ltb_spec n 9); [|destruct (Z.ltb_spec n 56)].
  - assert (Z.testbit x n = false) as ->; [|done].
    rewrite <- (Z.mod_pow2_bits_low x 9) by lia. change (2^9) with 512. rewrite Hm. apply Z.bits_0.
  - replace (Z.testbit L2_OFFSET_MASK n) with true; [by rewrite andb_true_r|].
    change L2_OFFSET_MASK with (Z.shiftl (Z.ones 47) 9).
    rewrite Z.shiftl_spec, Z.ones_spec_low by lia. done.
  - assert (Z.testbit x n = false) as ->; [|done].
    apply Z.bits_above_log2; [lia|]. destruct (Z.eq_dec x 0) as [->|]; [simpl; lia|].
    apply Z.log2_lt_pow2; [lia|]. apply (Z.lt_le_trans _ (2^56)); [lia|]. apply Z.pow_le_mono_r; lia.
Qed.

Lemma not_compressed x : 0 <= x < 2^56 -> Z.land x L2_COMPRESSED_BIT = 0.
Proof.
  intros Hx. unfold L2_COMPRESSED_BIT. rewrite Z.shiftl_1_l. apply Z.bits_inj'. intros n Hn.
  rewrite Z.land_spec, Z.bits_0. destruct (Z.eq_dec n 62) as [->|].
  - rewrite (Z.bits_above_log2 x 62); [done|lia|].
    destruct (Z.eq_dec x 0) as [->|]; [simpl; lia|]. apply Z.log2_lt_pow2; lia.
  - rewrite (Z.pow2_bits_false 62 n) by lia. apply andb_false_r.
Qed.

(** ** Geometry of the flattened image *)

(** [cs] bytes per cluster, [E] entries per L2 table, [nvc] guest clusters,
    [nl1] L1 entries held in [l1c] clusters. *)
Record geometry (cb vs cs E nvc nl1 l1c : Z) : Prop := mkGeometry {
  geo_shl : shl1_u64 cb = cs;
  geo_cb : 9 <= cb <= 30;
  geo_vs : 0 <= vs <= 2^46;
  geo_cs : cs = 8 * E;
  geo_512 : cs mod 512 = 0;
  geo_E : 64 <= E <= 2^27;
  geo_nvc : 0 <= nvc;
  geo_nvc_cs : nvc * cs <= 2^47;
  geo_nl1 : 0 <= nl1 < 2^32;
  geo_nl1_E : nvc <= nl1 * E;
  geo_nl1_cs : nl1 * cs <= 2^47;
  geo_l1c : 0 <= l1c;
  geo_l1_fits : nl1 * 8 <= l1c * cs;
  geo_l1c_cs : l1c * cs <= 2^47
}.

Lemma shl1_u64_pow cb : 0 <= cb < 64 -> shl1_u64 cb = 2 ^ cb.
Proof. intros. unfold shl1_u64. by rewrite Z.mod_small. Qed.

Lemma make_geometry cb vs :
  9 <= cb <= 30 -> 0 <= vs <= 2^46 ->
  let cs := shl1_u64 cb in
  let nvc := div_ceil vs cs in
  let nl1 := div_ceil nvc (cs / 8) in
  geometry cb vs cs (cs / 8) nvc nl1 (div_ceil (nl1 * 8) cs).
Proof.
  intros Hcb Hvs cs nvc nl1. unfold cs in *. clear cs.
  assert (Hcs : exists m, shl1_u64 cb = 512 * m /\ 1 <= m <= 2^21).
  { exists (2 ^ (cb - 9)). rewrite shl1_u64_pow by lia. split.
    - change 512 with (2^9). rewrite <- Z.pow_add_r by lia. f_equal. lia.
    - split; [apply (Z.pow_le_mono_r 2 0); lia|apply Z.pow_le_mono_r; lia]. }
  destruct Hcs as (m & Hm & Hmb).
  assert (HE : shl1_u64 cb / 8 = 64 * m) by (rewrite Hm; symmetry; apply Z.div_unique with 0; lia).
  pose proof (div_ceil_spec vs (shl1_u64 cb) ltac:(lia) ltac:(lia)) as H1. fold nvc in H1.
  pose proof (div_ceil_nonneg vs (shl1_u64 cb) ltac:(lia) ltac:(lia)) as H1'. fold nvc in H1'.
  pose proof (div_ceil_spec nvc (shl1_u64 cb / 8) ltac:(lia) H1') as H2. fold nl1 in H2.
  pose proof (div_ceil_nonneg nvc (shl1_u64 cb / 8) ltac:(lia) H1') as H2'. fold nl1 in H2'.
  pose proof (div_ceil_spec (nl1 * 8) (shl1_u64 cb) ltac:(lia) ltac:(lia)) as H3.
  pose proof (div_ceil_nonneg (nl1 * 8) (shl1_u64 cb) ltac:(lia) ltac:(lia)) as H3'.
  generalize dependent (div_ceil (nl1 * 8) (shl1_u64 cb)). intros l1c H3 H3'.
  clearbody nl1 nvc. rewrite HE in *. rewrite Hm in *.
  assert (nvc <= 2^38) by nia. assert (nl1 <= 2^32 - 1) by nia.
  constructor; try lia.
  - by rewrite (Z.mul_comm 512), Z.mod_mul.
Qed.

(** ** The copy loop *)

(** The L2 entry of a guest cluster. *)
Definition entry (E : Z) (tables : list (list Z)) (v : Z) : option Z :=
  t ← tables !! Z.to_nat (v / E); t !! Z.to_nat (v mod E).

Definition tables_wf (E nl1 : Z) (tables : list (list Z)) : Prop :=
  zlen tables = nl1 /\ Forall (fun t => zlen t = E) tables.

Lemma entry_index E nl1 v :
  0 < E -> 0 <= v < nl1 * E -> 0 <= v / E < nl1 /\ 0 <= v mod E < E.
Proof.
  intros HE Hv. pose proof (Z.mod_pos_bound v E HE). pose proof (Z.div_mod v E ltac:(lia)).
  split; [|done]. nia.
Qed.

Lemma entry_total E nl1 tables v :
  0 < E -> tables_wf E nl1 tables -> 0 <= v < nl1 * E ->
  exists t e, tables !! Z.to_nat (v / E) = Some t /\ zlen t = E /\
    t !! Z.to_nat (v mod E) = Some e.
Proof.
  intros HE [Hl HF] Hv. destruct (entry_index E nl1 v HE Hv) as [Hi Hj].
  destruct (lookup_lt_is_Some_2 tables (Z.to_nat (v / E))) as [t Ht]; [unfold zlen in Hl; lia|].
  pose proof (Forall_lookup_1 _ _ _ _ HF Ht) as Hlen. simpl in Hlen.
  destruct (lookup_lt_is_Some_2 t (Z.to_nat (v mod E))) as [e He]; [unfold zlen in Hlen; lia|].
  eauto.
Qed.

Lemma set_l2_spec E nl1 tables v x :
  0 < E -> tables_wf E nl1 tables -> 0 <= v < nl1 * E ->
  exists tables', set_l2 tables (v / E) (v mod E) x = Ok tables' /\ tables_wf E nl1 tables' /\
    (forall w, 0 <= w -> entry E tables' w = if decide (w = v) then Some x else entry E tables w).
Proof.
  intros HE Hwf Hv. destruct (entry_total E nl1 tables v HE Hwf Hv) as (t & e & Ht & Hlen & He).
  unfold set_l2. rewrite Ht. pose proof (lookup_lt_Some _ _ _ He) as Hlt.
  rewrite (proj2 (Nat.ltb_lt _ _)) by done. eexists. split; [done|].
  destruct Hwf as [Hl HF]. split; [split|].
  - unfold zlen in *. by rewrite length_insert.
  - apply Forall_insert; [done|]. unfold zlen in *. by rewrite length_insert.
  - intros w Hw. unfold entry. pose proof (Z.mod_pos_bound v E HE). pose proof (Z.mod_pos_bound w E HE).
    pose proof (Z.div_pos w E Hw HE). pose proof (Z.div_pos v E ltac:(lia) HE).
    pose proof (Z.div_mod v E ltac:(lia)). pose proof (Z.div_mod w E ltac:(lia)).
    case_decide as Hwv; [subst w|].
    + rewrite list_lookup_insert_eq by (by apply lookup_lt_Some in Ht). simpl.
      by rewrite list_lookup_insert_eq.
    + destruct (decide (Z.to_nat (w / E) = Z.to_nat (v / E))) as [Ei|Ei].
      * rewrite Ei, list_lookup_insert_eq by (by apply lookup_lt_Some in Ht). rewrite Ht. simpl.
        rewrite list_lookup_insert_ne; [done|]. intros Ej. apply Hwv.
        apply Z2Nat.inj in Ei; [|done..]. apply Z2Nat.inj in Ej; [|lia..]. congruence.
      * by rewrite list_lookup_insert_ne.
Qed.

Section Flat.
Context (cb vs cs E nvc nl1 l1c : Z) (G : geometry cb vs cs E nvc nl1 l1c).
Context (σ : fs) (chain : list Layer) (dst : path).
Context (Huni : uniform cb chain) (Hdst : dst ∉ (layer_file <$> chain)).

Local Abbreviation l2_start := (1 + l1c).
Local Abbreviation data_start := (1 + l1c + nl1).

(** What an L2 entry means for the guest cluster [v]: zero and the guest reads
    zeros, or the offset of a data cluster that holds what the guest reads. *)
Definition cluster_ok (out : list Z) (next v e : Z) : Prop :=
  (e = 0 /\ guest_cluster σ chain v cs = Ok (zeros cs))
  \/ exists c d, e = c * cs /\ data_start <= c < next /\ zlen d = cs /\ holds out e d
      /\ guest_cluster σ chain v cs = Ok d.

Definition copy_inv (k : nat) (st : copy_state) : Prop :=
  exists out, cp_fs st = <[dst := out]> σ
  /\ tables_wf E nl1 (cp_l2 st)
  /\ data_start <= cp_next st <= data_start + Z.of_nat k
  /\ forall v, 0 <= v < nvc ->
       exists e, entry E (cp_l2 st) v = Some e /\
         if v <? Z.of_nat k then cluster_ok out (cp_next st) v e else e = 0.

Lemma geo_pos : 0 < cs /\ 0 < E.
Proof. pose proof (geo_E _ _ _ _ _ _ _ G). pose proof (geo_cs _ _ _ _ _ _ _ G). lia. Qed.

Lemma geo_last : (data_start + nvc + 2) * cs < 2^50.
Proof.
  pose proof (geo_nl1_cs _ _ _ _ _ _ _ G). pose proof (geo_nvc_cs _ _ _ _ _ _ _ G).
  pose proof (geo_l1c_cs _ _ _ _ _ _ _ G). pose proof (geo_cs _ _ _ _ _ _ _ G).
  pose proof (geo_E _ _ _ _ _ _ _ G). lia.
Qed.

Lemma cluster_offset c : 0 <= c <= data_start + nvc + 2 -> 0 <= c * cs < 2^50.
Proof. intros. pose proof geo_last. pose proof geo_pos. nia. Qed.

Lemma entry_replicate v :
  0 <= v < nvc ->
  entry E (replicate (Z.to_nat nl1) (replicate (Z.to_nat E) 0)) v = Some 0.
Proof.
  intros Hv. pose proof geo_pos. pose proof (geo_nl1_E _ _ _ _ _ _ _ G).
  destruct (entry_index E nl1 v) as [Hi Hj]; [lia..|]. unfold entry.
  rewrite lookup_replicate_2 by lia. simpl. by rewrite lookup_replicate_2 by lia.
Qed.

Lemma copy_inv_init :
  copy_inv 0 (mkCopy (<[dst := []]> σ) (replicate (Z.to_nat nl1) (replicate (Z.to_nat E) 0)) data_start).
Proof.
  pose proof geo_pos. pose proof (geo_nl1 _ _ _ _ _ _ _ G).
  exists []. split; [done|]. split; [|split; [simpl; lia|]].
  - cbn [cp_l2]. split; [unfold zlen; rewrite length_replicate; lia|].
    apply Forall_replicate. unfold zlen. rewrite length_replicate. lia.
  - intros v Hv. exists 0. split; [by apply entry_replicate|].
    by rewrite (proj2 (Z.ltb_ge _ _)) by lia.
Qed.

(** Leaving the entry of cluster [k] at zero is right when the guest reads zeros. *)
Lemma copy_inv_skip k st :
  copy_inv k st -> Z.of_nat k < nvc ->
  guest_cluster σ chain (Z.of_nat k) cs = Ok (zeros cs) -> copy_inv (S k) st.
Proof.
  intros (out & Hfs & Hwf & Hn & He) Hk Hz. exists out. do 2 (split; [done|]).
  split; [lia|]. intros v Hv. destruct (He v Hv) as (e & Hl & Hc). exists e. split; [done|].
  destruct (Z.ltb_spec v (Z.of_nat k)), (Z.ltb_spec v (Z.of_nat (S k))); try done; try lia.
  left. split; [done|]. replace v with (Z.of_nat k) by lia. done.
Qed.

Lemma cluster_ok_write out next v e d :
  cluster_ok out next v e -> data_start <= next -> 0 <= l1c -> 0 <= nl1 ->
  cluster_ok (write_at out (next * cs) d) (next + 1) v e.
Proof.
  intros [?|(c & d' & -> & Hc & Hl & Hh & Hg)] Hn H1 H2; [by left|].
  right. exists c, d'. do 2 (split; [lia|]). split; [done|]. split; [|done].
  pose proof geo_pos. apply holds_frame; [done|nia|]. left. nia.
Qed.

Lemma copy_step k st :
  copy_inv k st -> Z.of_nat k < nvc ->
  (exists o, read_chain σ chain (Z.of_nat k) cs = Ok o) ->
  exists st', copy_cluster chain dst cs st (Z.of_nat k) = Ok st' /\ copy_inv (S k) st'.
Proof.
  intros Hinv Hk [o Ho]. pose proof Hinv as (out & Hfs & Hwf & Hn & He).
  unfold copy_cluster. rewrite Hfs, read_chain_insert, Ho by done. cbn [mbind result_bind].
  assert (Hguest : guest_cluster σ chain (Z.of_nat k) cs = Ok (default (zeros cs) o))
    by (unfold guest_cluster; by rewrite Ho).
  destruct o as [d|]; [|exists st; split; [done|]; by apply copy_inv_skip].
  case_decide as Hd; [subst d; exists st; split; [done|]; by apply copy_inv_skip|].
  destruct geo_pos as [Hcs HE]. pose proof (geo_cs _ _ _ _ _ _ _ G) as HcsE.
  pose proof (geo_l1c _ _ _ _ _ _ _ G). pose proof (geo_nl1 _ _ _ _ _ _ _ G).
  pose proof (cluster_offset (cp_next st) ltac:(lia)) as Hoff.
  rewrite u64_id by lia. unfold seek_write. rewrite (proj2 (Z.ltb_ge _ _)) by (unfold I64_MAX; lia).
  cbn [mbind result_bind]. rewrite lookup_insert_eq. cbn [default].
  replace (cs / 8) with E by (rewrite HcsE, Z.mul_comm, Z.div_mul; lia).
  pose proof (geo_nl1_E _ _ _ _ _ _ _ G).
  destruct (set_l2_spec E nl1 (cp_l2 st) (Z.of_nat k) (cp_next st * cs)) as (tb & -> & Hwf' & Hen);
    [done..|lia|].
  cbn [mbind result_bind]. eexists. split; [done|]. exists (write_at out (cp_next st * cs) d).
  cbn [cp_fs cp_l2 cp_next]. split; [apply insert_insert_eq|]. split; [done|]. split; [lia|].
  intros v Hv. rewrite Hen by lia. case_decide as Hvk.
  - eexists. split; [done|]. rewrite (proj2 (Z.ltb_lt _ _)) by lia. subst v.
    right. exists (cp_next st), d. split_and!; [done|lia|lia| |apply holds_write; lia|done].
    eapply read_chain_zlen; [done|apply (geo_shl _ _ _ _ _ _ _ G)|done|done].
  - destruct (He v Hv) as (e & Hl & Hc). exists e. split; [done|].
    destruct (Z.ltb_spec v (Z.of_nat k)), (Z.ltb_spec v (Z.of_nat (S k))); try done; try lia.
    apply cluster_ok_write; [done|lia..].
Qed.

Lemma copy_loop :
  (forall v, 0 <= v < nvc -> exists o, read_chain σ chain v cs = Ok o) ->
  exists st', foldM (copy_cluster chain dst cs)
    (mkCopy (<[dst := []]> σ) (replicate (Z.to_nat nl1) (replicate (Z.to_nat E) 0)) data_start)
    (seqZ 0 nvc) = Ok st' /\ copy_inv (Z.to_nat nvc) st'.
Proof.
  intros Hr. replace (Z.to_nat nvc) with (length (seqZ 0 nvc)) by apply length_seqZ.
  apply foldM_inv; [apply copy_inv_init|].
  intros k x st Hx Hinv. apply lookup_seqZ in Hx as [-> Hlt]. rewrite Z.add_0_l.
  apply copy_step; [done|lia|]. apply Hr. lia.
Qed.
End Flat.

(** ** The metadata writes *)

(** [out'] keeps whatever [out] holds outside [\[a, a + n)]. *)
Definition keeps (a n : Z) (out out' : list Z) : Prop :=
  forall o d, apart o (zlen d) a n -> holds out o d -> holds out' o d.

Lemma keeps_refl a n out : keeps a n out out.
Proof. by intros o d. Qed.

Lemma keeps_trans a n out1 out2 out3 : keeps a n out1 out2 -> keeps a n out2 out3 -> keeps a n out1 out3.
Proof. intros H1 H2 o d Ha Hh. by apply H2, H1. Qed.

Lemma seek_write_each_ok out off ds a n :
  0 <= a <= off -> off + zlen (concat ds) <= a + n -> off < 2^60 ->
  exists out', seek_write_each out off ds = Ok out' /\ holds out' off (concat ds) /\ keeps a n out out'.
Proof.
  intros Ha Hn Ho. unfold seek_write_each. rewrite (proj2 (Z.ltb_ge _ _)) by (unfold I64_MAX; lia).
  eexists. split; [done|]. split; [apply holds_write_each; lia|].
  intros o d Hap Hh. apply write_each_frame; [done|lia|]. unfold apart in *. lia.
Qed.

Lemma zlen_concat {A} (ds : list (list A)) n :
  (forall d, d ∈ ds -> zlen d = n) -> zlen (concat ds) = zlen ds * n.
Proof.
  induction ds as [|d ds IH]; intros Hd; [done|].
  cbn [concat]. rewrite zlen_app, (Hd d), IH by set_solver. unfold zlen. simpl. lia.
Qed.

Lemma set_used_ok used c :
  c < zlen used -> exists used', set_used used c = Ok used' /\ zlen used' = zlen used.
Proof.
  intros Hc. unfold set_used. rewrite (proj2 (Z.ltb_lt _ _)) by done. eexists. split; [done|].
  unfold zlen. by rewrite length_insert.
Qed.

(** A loop whose steps keep the length of the bitmap returns. *)
Lemma fold_used_ok {A} (f : list bool -> A -> result qerror (list bool)) l used n :
  zlen used = n ->
  (forall x u, x ∈ l -> zlen u = n -> exists u', f u x = Ok u' /\ zlen u' = zlen u) ->
  exists used', foldM f used l = Ok used' /\ zlen used' = n.
Proof.
  intros Hu Hf. apply (foldM_inv f (fun _ u => zlen u = n)); [done|].
  intros k x s Hx Hs. destruct (Hf x s) as (u' & Hu' & Hl); [by eapply list_elem_of_lookup_2|done|].
  exists u'. split; [done|congruence].
Qed.

Lemma rc_total_ok start epb fuel total :
  2 <= epb -> 0 <= start <= total -> total <= 2 * start + 2 ->
  2 * start + 2 - total < Z.of_nat fuel ->
  exists t, rc_total fuel start epb total = Ok t /\ total <= t <= 2 * start + 2
    /\ start + div_ceil t epb <= t.
Proof.
  intros He. revert total. induction fuel as [|fuel IH]; intros total Hs Ht Hf; [lia|].
  cbn [rc_total]. pose proof (div_ceil_spec total epb ltac:(lia) ltac:(lia)).
  destruct (Z.leb_spec (start + div_ceil total epb) total); [eexists; split; [done|]; lia|].
  destruct (IH (start + div_ceil total epb)) as (t & -> & Hb & Hr); [lia|nia|lia|].
  exists t. split; [done|]. split; [lia|done].
Qed.

Lemma l2_bytes_zlen t : zlen (concat (be_bytes 8 <$> t)) = zlen t * 8.
Proof.
  rewrite (zlen_concat _ 8); [unfold zlen; by rewrite length_fmap|].
  intros d (x & -> & _)%list_elem_of_fmap. by rewrite zlen_be_bytes.
Qed.

Section Metadata.
Context (cb vs cs E nvc nl1 l1c : Z) (G : geometry cb vs cs E nvc nl1 l1c).
Context (tables : list (list Z)) (Hwf : tables_wf E nl1 tables).
Context (next : Z) (Hnext : 1 + l1c + nl1 <= next <= 1 + l1c + nl1 + nvc).

Local Abbreviation l2_start := (1 + l1c).
Local Abbreviation data_start := (1 + l1c + nl1).

Definition l1_entry (i : nat) (l2 : list Z) : Z :=
  if any_nonzero l2 then u64 ((l2_start + Z.of_nat i) * cs) else 0.

(** What [write_metadata] leaves in the file. *)
Record flat_layout (out : list Z) : Prop := mkFlatLayout {
  fl_magic : holds out 0 (be_bytes 4 MAGIC);
  fl_no_backing : holds out 8 (zeros 12);
  fl_cluster_bits : holds out 20 (be_bytes 4 cb);
  fl_virtual_size : holds out 24 (be_bytes 8 vs);
  fl_l1_size : holds out 36 (be_bytes 4 nl1);
  fl_l1_offset : holds out 40 (be_bytes 8 cs);
  fl_header_end : holds out 100 (be_bytes 4 HEADER_LENGTH);
  fl_version : holds out 4 (be_bytes 4 VERSION);
  fl_snapshots : holds out 60 (zeros 4);
  fl_order : holds out 96 (be_bytes 4 REFCOUNT_ORDER);
  fl_ext_end : holds out 104 (zeros 8);
  fl_l1 : holds out cs (concat (imap (fun i l2 => be_bytes 8 (l1_entry i l2)) tables));
  fl_l2 : forall i t, tables !! i = Some t -> any_nonzero t = true ->
    holds out ((l2_start + Z.of_nat i) * cs) (concat (be_bytes 8 <$> t))
}.

Lemma write_l2_loop out :
  exists out', foldM (write_l2 l2_start cs) out (imap pair tables) = Ok out'
  /\ keeps (l2_start * cs) (nl1 * cs) out out'
  /\ forall i t, tables !! i = Some t -> any_nonzero t = true ->
       holds out' ((l2_start + Z.of_nat i) * cs) (concat (be_bytes 8 <$> t)).
Proof.
  destruct Hwf as [Hl HF]. pose proof (geo_pos _ _ _ _ _ _ _ G) as [Hcs HE].
  pose proof (geo_cs _ _ _ _ _ _ _ G) as HcsE. pose proof (geo_l1c _ _ _ _ _ _ _ G).
  pose proof (geo_nvc _ _ _ _ _ _ _ G).
  destruct (foldM_inv (write_l2 l2_start cs)
    (fun k o => keeps (l2_start * cs) (nl1 * cs) out o /\
       forall i t, (i < k)%nat -> tables !! i = Some t -> any_nonzero t = true ->
         holds o ((l2_start + Z.of_nat i) * cs) (concat (be_bytes 8 <$> t)))
    (imap pair tables) out) as (out' & Hf & Hk & Hh).
  - split; [apply keeps_refl|]. lia.
  - intros k [i t] o Hx [Hk Hh]. rewrite list_lookup_imap in Hx.
    destruct (tables !! k) as [t'|] eqn:Ht; [|done]. simpl in Hx. injection Hx as <- <-.
    pose proof (lookup_lt_Some _ _ _ Ht) as Hlt. pose proof (Forall_lookup_1 _ _ _ _ HF Ht) as Htl.
    simpl in Htl. cbn [write_l2]. unfold zlen in Hl. destruct (any_nonzero t') eqn:Ha.
    + pose proof (cluster_offset _ _ _ _ _ _ _ G (l2_start + Z.of_nat k) ltac:(lia)).
      rewrite u64_id by lia. set (off := (l2_start + Z.of_nat k) * cs) in *.
      destruct (seek_write_each_ok o off (be_bytes 8 <$> t') off cs) as (o' & Ho & Hh' & Hk');
        [lia|rewrite l2_bytes_zlen; lia|lia|].
      exists o'. split; [done|]. split.
      * apply (keeps_trans _ _ _ o); [done|]. intros a d Hap. apply Hk'. unfold apart in *. nia.
      * intros i t Hi Hti Hai.
        destruct (decide (i = k)) as [->|]; [by replace t with t' by congruence|].
        apply Hk'; [|apply Hh; [lia|done..]]. rewrite l2_bytes_zlen.
        pose proof (Forall_lookup_1 _ _ _ _ HF Hti) as Htl2. simpl in Htl2. left. unfold off. nia.
    + exists o. split; [done|]. split; [done|]. intros i t Hi Hti Hai.
      destruct (decide (i = k)) as [->|]; [congruence|]. apply Hh; [lia|done..].
  - exists out'. split; [done|]. split; [done|]. intros i t Hti.
    apply Hh; [|done]. rewrite length_imap. by eapply lookup_lt_Some.
Qed.

Lemma flat_header_ok rc_off :
  exists h, flat_header cb vs nl1 cs rc_off = Ok h /\ zlen h = 112
    /\ holds h 0 (be_bytes 4 MAGIC) /\ holds h 8 (zeros 12) /\ holds h 20 (be_bytes 4 cb)
    /\ holds h 24 (be_bytes 8 vs) /\ holds h 36 (be_bytes 4 nl1) /\ holds h 40 (be_bytes 8 cs)
    /\ holds h 100 (be_bytes 4 HEADER_LENGTH) /\ holds h 4 (be_bytes 4 VERSION) /\ holds h 60 (zeros 4)
    /\ holds h 96 (be_bytes 4 REFCOUNT_ORDER) /\ holds h 104 (zeros 8).
Proof.
  unfold flat_header, write_be_u32, write_be_u64.
  assert (H0 : holds (zeros 112) 8 (zeros 12)) by (apply holds_zeros; lia).
  assert (H1 : holds (zeros 112) 60 (zeros 4)) by (apply holds_zeros; lia).
  assert (H2 : holds (zeros 112) 104 (zeros 8)) by (apply holds_zeros; lia).
  assert (Hz : zlen (zeros 112) = 112) by done. revert H0 H1 H2 Hz. generalize (zeros 112).
  intros b H0 H1 H2 Hz.
  repeat match goal with
  | Hz : zlen ?x = 112 |- context [copy_from_slice ?x ?o ?d] =>
      let y := fresh "h" in let Hy := fresh "Hz" in let Hh := fresh "Hh" in let Hk := fresh "Hk" in
      destruct (copy_from_slice_step x o d 112 Hz) as (y & -> & Hy & Hh & Hk);
        [lia|rewrite zlen_be_bytes; lia|]; cbn [mbind result_bind];
      repeat match goal with
      | H : holds x ?a ?e |- _ =>
          apply Hk in H; [|unfold apart; rewrite ?zlen_be_bytes, ?zlen_zeros; lia]
      end; clear Hk; try clear x Hz
  end.
  eexists. split; [done|]. split_and!; try done.
Qed.

Lemma rc_blocks_loop out used epb n :
  cs = 2 * epb -> 0 <= n -> (next + 1 + n) * cs < 2^60 ->
  exists out', foldM (write_rc_block (next + 1) epb cs used) out (seqZ 0 n) = Ok out'
    /\ keeps (next * cs) (2^61) out out'.
Proof.
  intros He Hn Hb. pose proof (geo_pos _ _ _ _ _ _ _ G) as [Hcs HE].
  pose proof (geo_l1c _ _ _ _ _ _ _ G). pose proof (geo_nl1 _ _ _ _ _ _ _ G).
  apply (foldM_inv _ (fun _ o => keeps (next * cs) (2^61) out o)); [apply keeps_refl|].
  intros k bi o Hk Hkeep. apply lookup_seqZ in Hk as [-> Hk]. unfold write_rc_block.
  set (off := (next + 1 + (0 + Z.of_nat k)) * cs).
  assert (Hoff : next * cs <= off < 2^60) by (unfold off; nia).
  assert (0 <= next * cs) by (apply Z.mul_nonneg_nonneg; lia).
  rewrite u64_id by lia.
  destruct (seek_write_each_ok o off
    ((fun c => be_bytes 2 (if default false (used !! Z.to_nat ((0 + Z.of_nat k) * epb + c)) then 1 else 0))
       <$> seqZ 0 epb) (next * cs) (2^61)) as (o' & Ho & _ & Hk'); [lia| |lia|].
  - rewrite (zlen_concat _ 2); [|intros d (x & -> & _)%list_elem_of_fmap; by rewrite zlen_be_bytes].
    unfold zlen. rewrite length_fmap, length_seqZ.
    pose proof (geo_E _ _ _ _ _ _ _ G). pose proof (geo_cs _ _ _ _ _ _ _ G). lia.
  - exists o'. split; [done|]. by eapply keeps_trans.
Qed.

Lemma used_bitmap_ok total :
  next + 1 <= total -> exists used,
    used_bitmap tables l1c l2_start data_start next total = Ok used /\ zlen used = total.
Proof.
  intros Ht. pose proof (geo_l1c _ _ _ _ _ _ _ G). pose proof (geo_nl1 _ _ _ _ _ _ _ G).
  assert (Hu0 : zlen (replicate (Z.to_nat total) false) = total)
    by (unfold zlen; rewrite length_replicate; lia).
  assert (Hone : forall c u, c < total -> zlen u = total ->
    exists u', set_used u c = Ok u' /\ zlen u' = total).
  { intros c u Hc Hu. rewrite <- Hu in Hc. rewrite <- Hu. by apply set_used_ok. }
  assert (Hseq : forall a n u, a + n <= total -> zlen u = total ->
    exists u', foldM set_used u (seqZ a n) = Ok u' /\ zlen u' = total).
  { intros a n u Han Hu. apply fold_used_ok; [done|]. intros x w Hx Hw.
    apply elem_of_seqZ in Hx. apply set_used_ok. lia. }
  unfold used_bitmap.
  destruct (Hone 0 (replicate (Z.to_nat total) false)) as (u1 & -> & Hu1); [lia|done|].
  cbn [mbind result_bind].
  destruct (Hseq 1 l1c u1) as (u2 & -> & Hu2); [lia|done|]. cbn [mbind result_bind].
  destruct (fold_used_ok (mark_l2 l2_start) (imap pair tables) u2 total Hu2) as (u3 & -> & Hu3).
  { intros [i t] u Hin Hu. apply elem_of_lookup_imap in Hin as (i' & t' & [= -> ->] & Hl).
    apply lookup_lt_Some in Hl. destruct Hwf as [Hlen _]. unfold zlen in Hlen.
    cbn [mark_l2]. destruct (any_nonzero t'); [apply set_used_ok; lia|eauto]. }
  cbn [mbind result_bind].
  destruct (Hseq data_start (next - data_start) u3) as (u4 & -> & Hu4); [lia|done|].
  cbn [mbind result_bind]. destruct (Hone next u4) as (u5 & -> & Hu5); [lia|done|].
  cbn [mbind result_bind]. apply Hseq; [lia|done].
Qed.

Lemma l1_bytes_zlen :
  zlen (concat (imap (fun i l2 => be_bytes 8 (l1_entry i l2)) tables)) = nl1 * 8.
Proof.
  rewrite (zlen_concat _ 8).
  - destruct Hwf as [Hl _]. unfold zlen in *. rewrite length_imap. lia.
  - intros d (i & t & -> & _)%elem_of_lookup_imap. by rewrite zlen_be_bytes.
Qed.

(** The metadata pass returns, lays the image out, and leaves every data
    cluster as the copy loop wrote it. *)
Lemma write_metadata_ok out :
  exists out', write_metadata out tables cb vs nl1 l1c next = Ok out' /\ flat_layout out'
    /\ forall c d, data_start <= c < next -> zlen d = cs -> holds out (c * cs) d -> holds out' (c * cs) d.
Proof.
  pose proof (geo_pos _ _ _ _ _ _ _ G) as [Hcs HE]. pose proof (geo_cs _ _ _ _ _ _ _ G) as HcsE.
  pose proof (geo_E _ _ _ _ _ _ _ G) as HEb. pose proof (geo_l1c _ _ _ _ _ _ _ G).
  pose proof (geo_nl1 _ _ _ _ _ _ _ G). pose proof (geo_l1_fits _ _ _ _ _ _ _ G).
  pose proof (geo_last _ _ _ _ _ _ _ G) as Hlast. pose proof (geo_nvc _ _ _ _ _ _ _ G).
  unfold write_metadata. rewrite (geo_shl _ _ _ _ _ _ _ G).
  assert (Hepb : cs / 2 = 4 * E) by (rewrite HcsE; symmetry; apply Z.div_unique with 0; lia).
  rewrite Hepb.
  destruct (rc_total_ok (next + 1) (4 * E) (Z.to_nat (next + 1) + 3) (next + 1))
    as (total & -> & Htot & _); [lia..|]. cbn [mbind result_bind].
  assert (Hn0 : 0 <= next * cs) by (apply Z.mul_nonneg_nonneg; lia).
  assert (Hnc : next * cs < 2^50) by nia. assert (Htc : (next + 1 + (total - (next + 1))) * cs < 2^53) by nia.
  destruct (seek_write_each_ok out cs (imap (fun i l2 => be_bytes 8 (l1_entry i l2)) tables)
    cs (l1c * cs)) as (o1 & E1 & W1 & K1); [lia|rewrite l1_bytes_zlen; lia|lia|].
  unfold l1_entry in E1. rewrite E1. clear E1. cbn [mbind result_bind].
  destruct (write_l2_loop o1) as (o2 & -> & K2 & W2). cbn [mbind result_bind].
  rewrite (u64_id (next * cs)) by lia.
  destruct (seek_write_each_ok o2 (next * cs)
    ((fun i => be_bytes 8 (u64 ((next + 1 + i) * cs))) <$> seqZ 0 (total - (next + 1)))
    (next * cs) (2^61)) as (o3 & -> & _ & K3); [lia| |lia|].
  { rewrite (zlen_concat _ 8); [|intros d (x & -> & _)%list_elem_of_fmap; by rewrite zlen_be_bytes].
    unfold zlen. rewrite length_fmap, length_seqZ. nia. }
  cbn [mbind result_bind].
  destruct (used_bitmap_ok total) as (used & -> & _); [lia|]. cbn [mbind result_bind].
  destruct (rc_blocks_loop o3 used (4 * E) (total - (next + 1))) as (o4 & -> & K4); [lia..|].
  cbn [mbind result_bind].
  destruct (flat_header_ok (next * cs)) as (h & -> & Hlen & F1 & F2 & F3 & F4 & F5 & F6 & F7 & F8 & F9 & F10 & F11).
  cbn [mbind result_bind]. unfold seek_write. change (I64_MAX <? 0) with false. cbv iota.
  assert (Hlate : forall o d, 112 <= o -> o + zlen d <= next * cs ->
    holds o2 o d -> holds (write_at o4 0 h) o d).
  { intros o d Ho Hd Hh. apply holds_frame; [|lia|right; lia]. apply K4; [by left|]. apply K3; [by left|done]. }
  assert (Hhead : forall o d, holds h o d -> holds (write_at o4 0 h) o d).
  { intros o d. apply holds_sub. by apply holds_write. }
  exists (write_at o4 0 h). split; [done|]. split; [split; try (by apply Hhead)|].
  - apply Hlate; [lia|rewrite l1_bytes_zlen; nia|]. apply K2; [|done].
    rewrite l1_bytes_zlen. left. lia.
  - intros i t Hi Ha. pose proof (lookup_lt_Some _ _ _ Hi) as Hlt.
    destruct Hwf as [Hl HF]. pose proof (Forall_lookup_1 _ _ _ _ HF Hi) as Ht. simpl in Ht.
    unfold zlen in Hl. apply Hlate; [nia|rewrite l2_bytes_zlen; nia|]. by apply W2.
  - intros c d Hc Hd Hh. apply Hlate; [nia|nia|]. apply K2; [right; nia|]. apply K1; [right; nia|done].
Qed.
End Metadata.

(** ** Reading the flattened image *)

Section ReadBack.
Context (cb vs cs E nvc nl1 l1c : Z) (G : geometry cb vs cs E nvc nl1 l1c).
Context (tables : list (list Z)) (Hwf : tables_wf E nl1 tables).
Context (out : list Z) (L : flat_layout cb vs cs nl1 l1c tables out).
Context (σ' : fs) (dst : path) (Hdst : σ' !! dst = Some out).

Definition flat_l1 : list Z := imap (l1_entry cs l1c) tables.

Lemma l1_entry_bound i l2 : 0 <= l1_entry cs l1c i l2 < 2^64.
Proof. unfold l1_entry. case_match; [apply Z.mod_pos_bound; lia|lia]. Qed.

Lemma l1_decode :
  be_val <$> chunks 8 (concat (imap (fun i l2 => be_bytes 8 (l1_entry cs l1c i l2)) tables)) = flat_l1.
Proof.
  rewrite chunks_of_concat; [|lia|].
  - unfold flat_l1. rewrite fmap_imap. apply imap_ext. intros i x _.
    apply (be_val_bytes_id 8). apply l1_entry_bound.
  - intros d (i & t & -> & _)%elem_of_lookup_imap. by rewrite length_be_bytes.
Qed.

Lemma open_flat : open_chain 1 σ' dst = Ok [LQcow2 dst cb vs flat_l1].
Proof.
  cbn [open_chain]. rewrite Hdst. cbn [ok_or mbind result_bind].
  pose proof (holds_bound _ _ _ (fl_header_end _ _ _ _ _ _ _ L) ltac:(done)) as Hb.
  rewrite zlen_be_bytes in Hb.
  pose proof (geo_cb _ _ _ _ _ _ _ G). pose proof (geo_vs _ _ _ _ _ _ _ G).
  pose proof (geo_nl1 _ _ _ _ _ _ _ G). pose proof (geo_pos _ _ _ _ _ _ _ G).
  pose proof (geo_cs _ _ _ _ _ _ _ G). pose proof (geo_E _ _ _ _ _ _ _ G).
  pose proof (seek_read_holds out 0 (be_bytes 4 MAGIC) (fl_magic _ _ _ _ _ _ _ L) ltac:(done)) as Hm.
  rewrite zlen_be_bytes in Hm. change (Z.of_nat 4) with 4 in Hm. rewrite Hm. cbn [mbind result_bind].
  rewrite be_val_bytes_id by done. change (negb (MAGIC =? MAGIC)) with false. cbv iota.
  rewrite seek_read_prefix by lia. cbn [mbind result_bind].
  rewrite (prefix_field out 104 20 4 4 cb) by (apply L || done || lia).
  rewrite (prefix_field out 104 24 8 8 vs) by (apply L || done || lia).
  rewrite (prefix_field out 104 36 4 4 nl1) by (apply L || done || lia).
  rewrite (prefix_field out 104 40 8 8 cs) by (apply L || done || lia).
  rewrite <- (l1_bytes_zlen cs E nl1 l1c tables Hwf).
  rewrite (seek_read_holds out cs) by (apply L || (unfold I64_MAX; lia)). cbn [mbind result_bind].
  rewrite l1_decode.
  rewrite (prefix_field out 104 8 8 8 0); [|done| |lia|done].
  { done. }
  change (be_bytes 8 0) with (zeros 8). pose proof (fl_no_backing _ _ _ _ _ _ _ L) as Hz.
  change (zeros 12) with (zeros 8 ++ zeros 4) in Hz. by apply holds_app in Hz as [Hz _].
Qed.

(** [read_header] of the flattened image. *)
Lemma read_header_flat :
  exists hdr, read_header σ' dst = Ok hdr /\ virtual_size hdr = vs /\ cluster_bits hdr = cb /\ backing_file hdr = None.
Proof.
  unfold read_header. rewrite Hdst. cbn [ok_or mbind result_bind].
  destruct (read_first_cluster out) as [buf n] eqn:Eb. unfold read_first_cluster in Eb. injection Eb as <- <-.
  assert (Hcsz : CLUSTER_SIZE = 65536) by done. generalize dependent CLUSTER_SIZE. intros csz Hcsz.
  set (got := take (Z.to_nat csz) out). set (buf := got ++ zeros (csz - zlen got)).
  pose proof (holds_bound _ _ _ (fl_ext_end _ _ _ _ _ _ _ L) ltac:(done)) as Hlen. change (104 + zlen (zeros 8)) with 112 in Hlen.
  assert (Hgot : 112 <= zlen got).
  { unfold got, zlen in *. rewrite length_take. lia. }
  assert (T : forall o d, holds out o d -> 0 <= o -> o + zlen d <= 112 -> holds buf o d).
  { intros o d Hh Ho Hb. apply (holds_sub _ got); [|by apply holds_take; [|lia]].
    split; [done|]. intros i Hi. unfold buf. rewrite Nat.add_0_l. by apply lookup_app_l. }
  pose proof (geo_cb _ _ _ _ _ _ _ G). pose proof (geo_vs _ _ _ _ _ _ _ G).
  unfold read_header_bytes. change MIN_HEADER_BYTES with 72. rewrite (proj2 (Z.ltb_ge _ _)) by lia.
  assert (Hz12 : holds buf 8 (be_bytes 8 0) /\ holds buf 16 (be_bytes 4 0)).
  { pose proof (T 8 (zeros 12) (fl_no_backing _ _ _ _ _ _ _ L) ltac:(lia) ltac:(done)) as Hz.
    change (zeros 12) with (be_bytes 8 0 ++ be_bytes 4 0) in Hz. by apply holds_app in Hz as [? ?]. }
  assert (Hz8 : holds buf 104 (be_bytes 4 0) /\ holds buf 108 (be_bytes 4 0)).
  { pose proof (T 104 (zeros 8) (fl_ext_end _ _ _ _ _ _ _ L) ltac:(lia) ltac:(done)) as Hz.
    change (zeros 8) with (be_bytes 4 0 ++ be_bytes 4 0) in Hz. by apply holds_app in Hz as [? ?]. }
  rewrite (read_be_u32_holds buf 0 MAGIC) by (apply T; [apply L|lia|done]).
  rewrite (read_be_u32_holds buf 4 VERSION) by (apply T; [apply L|lia|done]).
  rewrite (read_be_u64_holds buf 8 0) by apply Hz12. rewrite (read_be_u32_holds buf 16 0) by apply Hz12.
  rewrite (read_be_u32_holds buf 20 cb) by (apply T; [apply L|lia|rewrite zlen_be_bytes; lia]).
  rewrite (read_be_u64_holds buf 24 vs) by (apply T; [apply L|lia|rewrite zlen_be_bytes; lia]).
  rewrite (read_be_u32_holds buf 36 nl1) by (apply T; [apply L|lia|rewrite zlen_be_bytes; lia]).
  rewrite (read_be_u32_holds buf 60 0) by (apply T; [apply L|lia|done]).
  rewrite (read_be_u32_holds buf 96 REFCOUNT_ORDER) by (apply T; [apply L|lia|done]).
  cbn [mbind result_bind]. change (negb (MAGIC mod 2 ^ 32 =? MAGIC)) with false.
  change (negb ((2 <=? VERSION mod 2 ^ 32) && (VERSION mod 2 ^ 32 <=? 3))) with false. cbv iota.
  rewrite (Z.mod_small cb), (Z.mod_small vs) by lia.
  rewrite (proj2 (Z.leb_le 9 cb)), (proj2 (Z.leb_le cb 30)) by lia. cbn [negb andb].
  change (3 <=? VERSION mod 2 ^ 32) with true. rewrite (proj2 (Z.leb_le 100 _)) by lia. cbn [andb mbind result_bind].
  change (parse_backing_file buf (0 mod 2 ^ 64) (0 mod 2 ^ 32) (zlen got)) with (Ok (E := qerror) (@None string)).
  cbn [mbind result_bind]. change (HEADER_LENGTH + 8) with 112. rewrite (proj2 (Z.leb_le 112 _)) by lia.
  unfold parse_backing_format_extension. cbn [parse_ext_loop]. change HEADER_LENGTH with 104.
  rewrite (proj2 (Z.ltb_ge _ _)) by lia. rewrite (read_be_u32_holds buf 104 0) by apply Hz8.
  change (104 + 4) with 108. rewrite (read_be_u32_holds buf 108 0) by apply Hz8. cbn [mbind result_bind].
  change (0 mod 2 ^ 32 =? EXT_END) with true. cbv iota. cbn [mbind result_bind].
  eexists. split; [reflexivity|]. done.
Qed.

Lemma any_nonzero_lookup t j e : any_nonzero t = false -> t !! j = Some e -> e = 0.
Proof.
  intros Ha Hj. destruct (Z.eq_dec e 0) as [|Hne]; [done|exfalso].
  assert (any_nonzero t = true); [|congruence]. apply existsb_exists. exists e.
  split; [by eapply list_elem_of_In, list_elem_of_lookup_2|]. by rewrite (proj2 (Z.eqb_neq _ _)).
Qed.

Lemma cluster_mask c : 0 <= c -> c * cs < 2^56 -> Z.land (c * cs) L2_OFFSET_MASK = c * cs.
Proof.
  intros Hc Hb. pose proof (geo_pos _ _ _ _ _ _ _ G). apply mask_id; [nia|].
  by rewrite Zmult_mod, (geo_512 _ _ _ _ _ _ _ G), Z.mul_0_r.
Qed.

(** The L2 entry a read of guest cluster [v] finds. *)
Lemma read_flat v e :
  0 <= v < nvc -> entry E tables v = Some e -> 0 <= e < 2^56 ->
  read_cluster σ' (LQcow2 dst cb vs flat_l1) v cs =
    if Z.land e L2_OFFSET_MASK =? 0 then Ok None
    else buf ← seek_read out (Z.land e L2_OFFSET_MASK) cs; Ok (Some buf).
Proof.
  intros Hv He Heb. pose proof (geo_pos _ _ _ _ _ _ _ G) as [Hcs HE].
  pose proof (geo_cs _ _ _ _ _ _ _ G) as HcsE. pose proof (geo_E _ _ _ _ _ _ _ G).
  pose proof (geo_nl1_E _ _ _ _ _ _ _ G). pose proof (geo_l1c _ _ _ _ _ _ _ G).
  destruct (entry_index E nl1 v HE ltac:(lia)) as [Hi Hj].
  unfold entry in He. destruct (tables !! Z.to_nat (v / E)) as [t|] eqn:Ht; [|done]. simpl in He.
  cbn [read_cluster]. rewrite Hdst. cbn [ok_or mbind result_bind].
  rewrite (geo_shl _ _ _ _ _ _ _ G).
  replace (cs / 8) with E by (rewrite HcsE, Z.mul_comm, Z.div_mul; lia).
  rewrite (proj2 (Z.eqb_neq E 0)) by lia.
  unfold flat_l1. rewrite list_lookup_imap, Ht. cbn [fmap option_fmap option_map].
  unfold l1_entry. destruct (any_nonzero t) eqn:Ha.
  2: { rewrite Z.land_0_l. cbv iota. by rewrite (any_nonzero_lookup t _ e Ha He), Z.land_0_l. }
  pose proof (cluster_offset _ _ _ _ _ _ _ G (1 + l1c + v / E) ltac:(lia)) as Hoff.
  rewrite Z2Nat.id by lia. rewrite u64_id by lia. rewrite cluster_mask by lia.
  rewrite (proj2 (Z.eqb_neq ((1 + l1c + v / E) * cs) 0)) by nia. cbv iota.
  pose proof (fl_l2 _ _ _ _ _ _ _ L _ _ Ht Ha) as Hh. rewrite Z2Nat.id in Hh by lia.
  eapply (holds_concat _ _ _ (Z.to_nat (v mod E)) (be_bytes 8 e) 8) in Hh.
  2: { rewrite list_lookup_fmap, He. done. }
  2: { intros d (x & -> & _)%list_elem_of_fmap. by rewrite zlen_be_bytes. }
  rewrite Z2Nat.id in Hh by lia. pose proof (geo_last _ _ _ _ _ _ _ G).
  rewrite u64_id by nia.
  apply seek_read_holds in Hh; [|unfold I64_MAX; nia]. rewrite zlen_be_bytes in Hh.
  change (Z.of_nat 8) with 8 in Hh. rewrite Hh. cbn [mbind result_bind].
  rewrite (be_val_bytes_id 8) by (simpl; lia). by rewrite not_compressed by done.
Qed.

Lemma guest_flat σ chain v e next :
  0 <= v < nvc -> entry E tables v = Some e -> next <= 1 + l1c + nl1 + nvc ->
  cluster_ok cs nl1 l1c σ chain out next v e ->
  guest_cluster σ' [LQcow2 dst cb vs flat_l1] v cs = guest_cluster σ chain v cs.
Proof.
  intros Hv He Hn Hok. unfold guest_cluster at 1. cbn [read_chain].
  pose proof (geo_l1c _ _ _ _ _ _ _ G). pose proof (geo_nl1 _ _ _ _ _ _ _ G).
  destruct Hok as [[-> ->]|(c & d & -> & Hc & Hd & Hh & ->)].
  - rewrite (read_flat v 0) by (done || lia). done.
  - pose proof (cluster_offset _ _ _ _ _ _ _ G c ltac:(lia)). pose proof (geo_pos _ _ _ _ _ _ _ G).
    rewrite (read_flat v (c * cs)) by (done || lia). rewrite cluster_mask by lia.
    rewrite (proj2 (Z.eqb_neq (c * cs) 0)) by nia.
    apply seek_read_holds in Hh; [|unfold I64_MAX; lia]. rewrite Hd in Hh. by rewrite Hh.
Qed.
End ReadBack.

Lemma flatten_ok (fuel : nat) (σ : fs) (src dst f0 : path) (cb vs : Z)
    (l1 : list Z) (rest : list Layer) :
  let chain := LQcow2 f0 cb vs l1 :: rest in
  let cs := shl1_u64 cb in
  open_chain fuel σ src = Ok chain ->
  9 <= cb <= 30 -> 0 <= vs <= 2^46 ->
  uniform cb chain -> dst ∉ (layer_file <$> chain) ->
  (forall v, 0 <= v < div_ceil vs cs -> exists o, read_chain σ chain v cs = Ok o) ->
  exists σ' l1', flatten fuel σ src dst = Ok σ'
    /\ (forall p, p <> dst -> σ' !! p = σ !! p)
    /\ open_chain 1 σ' dst = Ok [LQcow2 dst cb vs l1']
    /\ (forall v, 0 <= v < div_ceil vs cs ->
         guest_cluster σ' [LQcow2 dst cb vs l1'] v cs = guest_cluster σ chain v cs)
    /\ (exists hdr, read_header σ' dst = Ok hdr /\ virtual_size hdr = vs /\ cluster_bits hdr = cb /\ backing_file hdr = None)
    /\ exists out, σ' !! dst = Some out /\ holds out 0 (be_bytes 4 MAGIC).
Proof.
  intros chain cs Hopen Hcb Hvs Huni Hdst Hread.
  pose proof (make_geometry cb vs Hcb Hvs) as G. cbv zeta in G. fold cs in G.
  set (nvc := div_ceil vs cs) in *. set (nl1 := div_ceil nvc (cs / 8)) in *.
  set (l1c := div_ceil (nl1 * 8) cs) in *.
  destruct (copy_loop _ _ _ _ _ _ _ G σ chain dst Huni Hdst Hread) as (st & Hst & out & Hfs & Hwf & Hn & Hent).
  pose proof (geo_nvc _ _ _ _ _ _ _ G) as Hnvc. rewrite Z2Nat.id in Hn, Hent by done.
  destruct (write_metadata_ok _ _ _ _ _ _ _ G (cp_l2 st) Hwf (cp_next st) Hn out) as (out' & Hout & L & Hkeep).
  exists (<[dst := out']> σ), (flat_l1 cs l1c (cp_l2 st)). split_and!.
  - unfold flatten. rewrite Hopen. cbn [mbind result_bind head chain]. fold cs. fold nvc.
    pose proof (geo_E _ _ _ _ _ _ _ G). rewrite (proj2 (Z.eqb_neq (cs / 8) 0)) by lia. fold nl1.
    rewrite (u32_id nl1) by apply (geo_nl1 _ _ _ _ _ _ _ G). fold l1c. fold chain.
    rewrite Hst. cbn [mbind result_bind]. rewrite Hfs, lookup_insert_eq. cbn [from_option id].
    rewrite Hout. cbn [mbind result_bind]. by rewrite insert_insert_eq.
  - intros p Hp. by rewrite lookup_insert_ne.
  - eapply open_flat; [exact G|exact Hwf|exact L|apply lookup_insert_eq].
  - intros v Hv. destruct (Hent v Hv) as (e & He & Hok). rewrite (proj2 (Z.ltb_lt _ _)) in Hok by lia.
    eapply (guest_flat _ _ _ _ _ _ _ G _ out' L _ dst (lookup_insert_eq _ _ _) σ chain v e (cp_next st));
      [done|done|lia|].
    destruct Hok as [?|(c & d & -> & Hc & Hd & Hh & Hg)]; [by left|]. right. exists c, d.
    split_and!; try done; try lia. by apply Hkeep.
  - eapply read_header_flat; [exact G|exact L|apply lookup_insert_eq].
  - exists out'. split; [apply lookup_insert_eq|apply L].
Qed.

(** C1.  Flattening preserves the guest's disk: when the source chain can be
    opened and read, its QCOW2 layers share one cluster size of 512 bytes to 1 GiB, the
    disk is at most 64 TiB and the destination is not one of the layers,
    [flatten] succeeds, changes no other file, and the destination it writes
    opens as a standalone image of the same geometry in which every guest
    cluster reads exactly as it did through the whole chain. *)
Theorem flatten_preserves_guest (fuel : nat) (σ : fs) (src dst f0 : path) (cb vs : Z)
    (l1 : list Z) (rest : list Layer) :
  let chain := LQcow2 f0 cb vs l1 :: rest in
  let cs := shl1_u64 cb in
  open_chain fuel σ src = Ok chain ->
  9 <= cb <= 30 -> 0 <= vs <= 2^46 ->
  uniform cb chain -> dst ∉ (layer_file <$> chain) ->
  (forall v, 0 <= v < div_ceil vs cs -> exists o, read_chain σ chain v cs = Ok o) ->
  exists σ' l1', flatten fuel σ src dst = Ok σ'
    /\ (forall p, p <> dst -> σ' !! p = σ !! p)
    /\ open_chain 1 σ' dst = Ok [LQcow2 dst cb vs l1']
    /\ forall v, 0 <= v < div_ceil vs cs ->
         guest_cluster σ' [LQcow2 dst cb vs l1'] v cs = guest_cluster σ chain v cs.
Proof.
  intros chain cs Hopen Hcb Hvs Huni Hdst Hread.
  destruct (flatten_ok fuel σ src dst f0 cb vs l1 rest Hopen Hcb Hvs Huni Hdst Hread) as (σ' & l1' & H1 & H2 & H3 & H4 & _).
  by exists σ', l1'.
Qed.

(** A one-cluster image over an eight-byte raw base. *)
Definition small_image : list Z :=
  be_bytes 4 MAGIC ++ be_bytes 4 VERSION ++ be_bytes 8 104 ++ be_bytes 4 2 ++ be_bytes 4 9
  ++ be_bytes 8 512 ++ zeros 4 ++ be_bytes 4 1 ++ be_bytes 8 112 ++ zeros 56
  ++ str_bytes "/b" ++ zeros 6 ++ be_bytes 8 0.

Definition small_fs : fs :=
  {[ components "/s" := small_image; components "/b" := [1; 2; 3; 4; 5; 6; 7; 8] ]}.

Lemma flatten_preserves_guest_witness :
  let chain := [LQcow2 (components "/s") 9 512 [0]; LRaw (components "/b") 8] in
  exists σ' l1', flatten 2 small_fs (components "/s") (components "/d") = Ok σ'
    /\ (forall p, p <> components "/d" -> σ' !! p = small_fs !! p)
    /\ open_chain 1 σ' (components "/d") = Ok [LQcow2 (components "/d") 9 512 l1']
    /\ forall v, 0 <= v < div_ceil 512 (shl1_u64 9) ->
         guest_cluster σ' [LQcow2 (components "/d") 9 512 l1'] v (shl1_u64 9)
         = guest_cluster small_fs chain v (shl1_u64 9).
Proof.
  intros chain.
  apply (flatten_preserves_guest 2 small_fs (components "/s") (components "/d") (components "/s")
           9 512 [0] [LRaw (components "/b") 8]).
  - vm_compute. reflexivity.
  - lia.
  - lia.
  - repeat constructor.
  - rewrite !fmap_cons, !not_elem_of_cons. split; [discriminate|]. split; [discriminate|apply not_elem_of_nil].
  - intros v Hv. change (div_ceil 512 (shl1_u64 9)) with 1 in Hv. replace v with 0 by lia.
    eexists. vm_compute. reflexivity.
Defined.
