(* ===== verification/Qcow2Overlay.v ===== *)
(** * Overlays in a chain

    What [create_overlay] ([overlay.rs]) and [open_chain] ([ops.rs]) do
    together: a fresh overlay shows the guest exactly its backing chain, and an
    overlay whose chain comes back to itself is never fully opened. *)

From S2P Require Import Prelude Files Paths Qcow2Format Qcow2Image Qcow2Chain Qcow2Flatten Qcow2FlattenCorrect.

(** The largest disk whose L1 table fits the single cluster the overlay has for it. *)
Definition MAX_OVERLAY_SIZE : Z := 2^42.

Lemma overlay_l1_fits vs :
  0 <= vs <= MAX_OVERLAY_SIZE ->
  0 <= div_ceil vs l2_coverage /\ div_ceil vs l2_coverage * 8 <= CLUSTER_SIZE.
Proof.
  intros Hvs. change MAX_OVERLAY_SIZE with (2^42) in Hvs.
  change l2_coverage with (2^29). change CLUSTER_SIZE with (2^16).
  pose proof (div_ceil_nonneg vs (2^29)). pose proof (div_ceil_le vs (2^29) (2^13)). lia.
Qed.

Lemma zeros_app n m : 0 <= n -> 0 <= m -> zeros (n + m) = zeros n ++ zeros m.
Proof. intros. unfold zeros. rewrite Z2Nat.inj_add by lia. apply replicate_add. Qed.

Lemma chunks_zeros n : chunks 8 (zeros (Z.of_nat n * 8)) = replicate n (replicate 8 0).
Proof.
  rewrite <- (chunks_of_concat 8 (replicate n (replicate 8 0))); [|lia|].
  - f_equal. unfold zeros. induction n as [|n IH]; [done|].
    rewrite replicate_S. cbn [concat]. rewrite <- IH, <- replicate_add. f_equal. lia.
  - intros d Hd. apply elem_of_replicate in Hd as [-> _]. done.
Qed.

(** Opening a fresh overlay: a QCOW2 layer with an empty L1 table on top of
    whatever its backing path opens as. *)
Lemma open_chain_overlay fuel (σ : fs) p buf backing fmt vs :
  overlay_layout buf backing fmt vs -> σ !! p = Some buf ->
  0 <= vs <= MAX_OVERLAY_SIZE -> zlen (str_bytes backing) <= MAX_BACKING ->
  utf8_valid (str_bytes backing) = true -> backing <> ""%string ->
  open_chain (S fuel) σ p =
    (rest ← open_chain fuel σ (components backing);
     Ok (LQcow2 p CLUSTER_BITS vs (replicate (Z.to_nat (div_ceil vs l2_coverage)) 0) :: rest)).
Proof.
  intros L Hp Hvs Hb Hu Hne. destruct (overlay_l1_fits vs Hvs) as [Hn0 Hn8].
  change MAX_OVERLAY_SIZE with (2^42) in Hvs. change MAX_BACKING with 65408 in Hb.
  assert (0 < zlen (str_bytes backing)) by (destruct backing; [done|]; unfold zlen; simpl; lia).
  pose proof (ol_len _ _ _ _ L) as Hl. change (4 * CLUSTER_SIZE) with 262144 in Hl.
  set (n := div_ceil vs l2_coverage) in *. change CLUSTER_SIZE with 65536 in *.
  assert (Hn : u32 n = n) by (apply u32_id; lia).
  cbn [open_chain]. rewrite Hp. cbn [ok_or mbind result_bind].
  pose proof (seek_read_holds buf 0 _ (ol_magic _ _ _ _ L) ltac:(done)) as Hm.
  rewrite zlen_be_bytes in Hm. change (Z.of_nat 4) with 4 in Hm. rewrite Hm. cbn [mbind result_bind].
  rewrite be_val_bytes_id by done. change (negb (MAGIC =? MAGIC)) with false. cbv iota.
  rewrite seek_read_prefix by lia. cbn [mbind result_bind].
  rewrite (prefix_field buf 104 8 8 8 128) by (apply L || done).
  rewrite (prefix_field buf 104 16 4 4 (zlen (str_bytes backing))); [|done| |done|lia].
  2: { rewrite <- (u32_id (zlen (str_bytes backing))) by lia. apply L. }
  rewrite (prefix_field buf 104 20 4 4 CLUSTER_BITS) by (apply L || done).
  rewrite (prefix_field buf 104 24 8 8 vs) by (apply L || done || lia).
  rewrite (prefix_field buf 104 36 4 4 n); [|done| |done|lia].
  2: { rewrite <- Hn. apply L. }
  rewrite (prefix_field buf 104 40 8 8 65536) by (apply L || done).
  assert (Hz : holds buf 65536 (zeros (n * 8))).
  { pose proof (ol_l1 _ _ _ _ L) as H1. change CLUSTER_SIZE with 65536 in H1.
    replace 65536 with (n * 8 + (65536 - n * 8)) in H1 at 2 by lia.
    rewrite zeros_app in H1 by lia. by apply holds_app in H1 as [H1 _]. }
  apply seek_read_holds in Hz; [|done]. rewrite zlen_zeros in Hz by lia. rewrite Hz. cbn [mbind result_bind].
  rewrite (proj2 (Z.eqb_neq (zlen _) 0)) by lia. change (negb (128 =? 0) && negb false) with true. cbv iota.
  rewrite (seek_read_holds buf 128) by (apply L || done). cbn [mbind result_bind].
  rewrite from_utf8_str by done. cbn [ok_or mbind result_bind].
  replace (n * 8) with (Z.of_nat (Z.to_nat n) * 8) by lia. rewrite chunks_zeros, fmap_replicate.
  rewrite be_val_zeros. done.
Qed.

Lemma read_cluster_empty (σ : fs) f cb vs n v cs :
  is_Some (σ !! f) -> 0 < shl1_u64 cb / 8 ->
  read_cluster σ (LQcow2 f cb vs (replicate n 0)) v cs = Ok None.
Proof.
  intros [b Hb] Hp. cbn [read_cluster]. rewrite Hb. cbn [ok_or mbind result_bind].
  rewrite (proj2 (Z.eqb_neq _ _)) by lia.
  destruct (replicate n 0 !! _) as [e|] eqn:E; [|done].
  by apply lookup_replicate_1 in E as [-> _].
Qed.

(** Opening a chain only looks at the files that become its layers, and so does
    reading it. *)
Lemma open_chain_ext fuel (σ σ' : fs) q chain :
  open_chain fuel σ q = Ok chain -> (forall f, f ∈ (layer_file <$> chain) -> σ' !! f = σ !! f) ->
  open_chain fuel σ' q = Ok chain.
Proof.
  revert q chain. induction fuel as [|fuel IH]; intros q chain H Hsame; [done|].
  cbn [open_chain] in *.
  destruct (σ !! q) as [f|] eqn:Eq; [|done]. cbn [ok_or mbind result_bind] in H.
  destruct (seek_read f 0 4) as [m|] eqn:E1; [|done]. cbn [mbind result_bind] in H.
  destruct (negb _) eqn:E2.
  { injection H as <-. rewrite Hsame, Eq by set_solver. cbn [ok_or mbind result_bind].
    rewrite E1. cbn [mbind result_bind]. by rewrite E2. }
  destruct (seek_read f 0 104) as [h|] eqn:E3; [|done]. cbn [mbind result_bind] in H.
  destruct (seek_read f (be_val (slice h 40 8)) _) as [l1|] eqn:E4; [|done]. cbn [mbind result_bind] in H.
  destruct (if _ && _ then _ else _) as [o|] eqn:E5 in H; [|done]. cbn [mbind result_bind] in H.
  assert (Hpq : σ' !! q = Some f).
  { rewrite <- Eq. apply Hsame. destruct o; [apply bind_Ok_inv in H as (r & _ & H)|]; injection H as <-; set_solver. }
  rewrite Hpq. cbn [ok_or mbind result_bind]. rewrite E1. cbn [mbind result_bind].
  rewrite E2, E3. cbn [mbind result_bind]. rewrite E4. cbn [mbind result_bind]. rewrite E5.
  cbn [mbind result_bind]. destruct o as [bp|]; [|done].
  apply bind_Ok_inv in H as (r & Hr & H). injection H as <-.
  rewrite (IH _ r); [done|done|]. intros g Hg. apply Hsame. set_solver.
Qed.

Lemma open_chain_insert fuel (σ : fs) p x q chain :
  open_chain fuel σ q = Ok chain -> p ∉ (layer_file <$> chain) ->
  open_chain fuel (<[p := x]> σ) q = Ok chain.
Proof. intros H Hp. apply (open_chain_ext _ σ); [done|]. intros f Hf. apply lookup_insert_ne. by intros ->. Qed.

Lemma read_chain_ext (σ σ' : fs) chain vc cs :
  (forall f, f ∈ (layer_file <$> chain) -> σ' !! f = σ !! f) -> read_chain σ' chain vc cs = read_chain σ chain vc cs.
Proof.
  induction chain as [|l chain IH]; intros Hs; simpl; [done|].
  rewrite (read_cluster_ext σ' σ) by (apply Hs; set_solver).
  destruct (read_cluster σ l vc cs) as [[d|]|]; simpl; auto. apply IH. intros f Hf. apply Hs. set_solver.
Qed.

(** C5.  A fresh overlay is transparent: over a backing chain that opens and
    does not contain the overlay's own path, the overlay (up to 4 TiB) opens as
    one more layer and the guest reads through it exactly what it reads from
    the backing chain, errors included. *)
Theorem overlay_transparent (fuel : nat) (σ : fs) (p : path) (base : string)
    (fmt : BackingFormat) (vs : Z) (rest : list Layer) :
  0 <= vs <= MAX_OVERLAY_SIZE -> zlen (str_bytes base) <= MAX_BACKING ->
  utf8_valid (str_bytes base) = true -> base <> ""%string ->
  open_chain fuel σ (components base) = Ok rest -> p ∉ (layer_file <$> rest) ->
  exists σ' l1, create_overlay σ p base fmt vs = Ok σ'
    /\ open_chain (S fuel) σ' p = Ok (LQcow2 p CLUSTER_BITS vs l1 :: rest)
    /\ forall v cs, guest_cluster σ' (LQcow2 p CLUSTER_BITS vs l1 :: rest) v cs = guest_cluster σ rest v cs.
Proof.
  intros Hvs Hb Hu Hne Hopen Hnot.
  destruct (create_overlay_spec σ p base fmt vs Hb) as (buf & Hc & L).
  exists (<[p := buf]> σ), (replicate (Z.to_nat (div_ceil vs l2_coverage)) 0). split; [done|].
  split.
  - rewrite (open_chain_overlay fuel _ p buf base fmt vs L (lookup_insert_eq _ _ _) Hvs Hb Hu Hne).
    by rewrite (open_chain_insert _ _ _ _ _ rest).
  - intros v cs. unfold guest_cluster. cbn [read_chain].
    rewrite read_cluster_empty; [|rewrite lookup_insert_eq; by eexists|done]. cbn [mbind result_bind].
    by rewrite read_chain_insert.
Qed.

Lemma overlay_transparent_witness :
  let σ : fs := {[ components "/b" := zeros 8 ]} in
  let rest := [LRaw (components "/b") 8] in
  exists σ' l1, create_overlay σ (components "/o") "/b" Raw (2^20) = Ok σ'
    /\ open_chain 2 σ' (components "/o") = Ok (LQcow2 (components "/o") CLUSTER_BITS (2^20) l1 :: rest)
    /\ forall v cs, guest_cluster σ' (LQcow2 (components "/o") CLUSTER_BITS (2^20) l1 :: rest) v cs
                    = guest_cluster σ rest v cs.
Proof.
  intros σ rest.
  apply (overlay_transparent 1 σ (components "/o") "/b" Raw (2^20) rest).
  - split; vm_compute; discriminate.
  - vm_compute. discriminate.
  - reflexivity.
  - discriminate.
  - reflexivity.
  - unfold rest. apply not_elem_of_cons. split; [discriminate|apply not_elem_of_nil].
Defined.

(** An image that names itself as its backing file: [open_chain] never
    returns a chain, whatever the number of iterations allowed, while the
    capped walk of [chain.rs] stops after sixteen entries. *)
Theorem self_backed_never_opens (σ σ' : fs) (p : path) (base : string) (fmt : BackingFormat) (vs : Z) :
  0 <= vs <= MAX_OVERLAY_SIZE -> zlen (str_bytes base) <= MAX_BACKING ->
  utf8_valid (str_bytes base) = true ->
  components base = p -> is_absolute p = true ->
  create_overlay σ p base fmt vs = Ok σ' ->
  (forall fuel, open_chain fuel σ' p = Err QOutOfFuel)
  /\ read_backing_chain σ' p = replicate DEFAULT_MAX_CHAIN_DEPTH p.
Proof.
  intros Hvs Hb Hu Hp Ha Hcr.
  destruct (create_overlay_spec σ p base fmt vs Hb) as (buf & E & L).
  rewrite E in Hcr. injection Hcr as <-.
  assert (Hne : base <> ""%string) by (intros ->; rewrite <- Hp in Ha; discriminate Ha).
  clear E. split.
  - induction fuel as [|fuel IH]; [done|].
    rewrite (open_chain_overlay fuel _ p buf base fmt vs L (lookup_insert_eq _ _ _) Hvs Hb Hu Hne).
    by rewrite Hp, IH.
  - assert (Hbk : backs (<[p := buf]> σ) p p).
    { pose proof (backs_overlay _ p buf base fmt vs L (lookup_insert_eq σ p buf) Hb Hu) as H.
      rewrite Hp in H. apply H; [done|]. rewrite lookup_insert_eq. by eexists. }
    unfold read_backing_chain. induction DEFAULT_MAX_CHAIN_DEPTH as [|n IH]; [done|].
    by rewrite (chain_step _ _ _ _ Hbk), IH.
Qed.

Lemma self_backed_never_opens_witness :
  exists σ', create_overlay ∅ (components "/o") "/o" Qcow2 (2^20) = Ok σ'
    /\ (forall fuel, open_chain fuel σ' (components "/o") = Err QOutOfFuel)
    /\ read_backing_chain σ' (components "/o") = replicate DEFAULT_MAX_CHAIN_DEPTH (components "/o").
Proof.
  destruct (create_overlay_spec ∅ (components "/o") "/o" Qcow2 (2^20)) as (buf & Hc & _);
    [vm_compute; discriminate|].
  exists (<[components "/o" := buf]> ∅). split; [exact Hc|].
  apply (self_backed_never_opens ∅ _ (components "/o") "/o" Qcow2 (2^20));
    [|vm_compute; discriminate|reflexivity|reflexivity|reflexivity|exact Hc].
  split; vm_compute; discriminate.
Defined.
