(* ===== verification/Seccomp.v ===== *)
(** * The seccomp filter of the VMM shim

    [crates/bux-seccomp/src]: [bpf.rs] (instruction encoding), [filter.rs] (the
    program), [arch.rs] (audit architectures and allowlists) and [install.rs]
    (installation).  The classic-BPF machine the program runs on is written out
    for the three instruction shapes the filter uses. *)

From S2P Require Import Prelude Files.

(** ** bpf.rs *)

Definition MAX_LEN : Z := 4096.
Definition BPF_LD : Z := 0x00.
Definition BPF_JMP : Z := 0x05.
Definition BPF_RET : Z := 0x06.
Definition BPF_W : Z := 0x00.
Definition BPF_ABS : Z := 0x20.
Definition BPF_JEQ : Z := 0x10.
Definition BPF_K : Z := 0x00.
Definition SECCOMP_RET_ALLOW : Z := 0x7fff0000.
Definition SECCOMP_RET_KILL_PROCESS : Z := 0x80000000.
Definition SECCOMP_NR_OFFSET : Z := 0.
Definition SECCOMP_ARCH_OFFSET : Z := 4.

(** [instruction]: one [struct sock_filter] packed into a [u64]. *)
Definition instruction (code jt jf k : Z) : Z :=
  Z.lor (Z.lor (Z.lor code (Z.shiftl jt 16)) (Z.shiftl jf 24)) (Z.shiftl k 32).

(** ** arch.rs *)

Inductive target_arch : Type := X86_64 | AArch64.

Definition AUDIT_ARCH (a : target_arch) : Z :=
  match a with X86_64 => 0xc000003e | AArch64 => 0xc00000b7 end.

Definition X86_64_ALLOWLIST : list Z :=
  [
    0; 1; 2; 3; 4; 5; 6; 7; 8; 9; 10; 11; 12; 13; 14; 15; 16; 17; 18; 19; 20; 21; 22; 23; 24;
    25; 27; 28; 32; 33; 35; 38; 39; 41; 42; 43; 44; 45; 46; 47; 48; 49; 50; 51; 52; 54; 55; 56;
    57; 60; 62; 63; 72; 73; 74; 75; 78; 79; 80; 82; 83; 87; 89; 91; 96; 97; 102; 104; 107; 108;
    110; 131; 157; 158; 186; 200; 202; 204; 217; 218; 222; 223; 226; 228; 230; 231; 232; 233;
    234; 257; 262; 269; 271; 273; 280; 281; 282; 284; 288; 290; 291; 292; 293; 302; 309; 318;
    332; 334; 435; 439; 441; 448; 449; 451 ].

Definition AARCH64_ALLOWLIST : list Z :=
  [
    0; 17; 19; 20; 21; 22; 23; 24; 25; 29; 34; 35; 38; 46; 48; 49; 52; 56; 57; 59; 61; 62; 63;
    64; 65; 66; 67; 68; 73; 78; 79; 80; 82; 83; 93; 94; 96; 98; 99; 101; 103; 107; 110; 111;
    113; 115; 122; 123; 124; 129; 130; 131; 132; 133; 134; 135; 137; 139; 160; 167; 172; 173;
    174; 175; 176; 177; 178; 179; 196; 198; 200; 201; 202; 203; 204; 205; 206; 207; 208; 209;
    210; 211; 212; 214; 215; 216; 220; 221; 222; 226; 232; 233; 242; 260; 261; 278; 291; 293;
    435; 439; 441; 449 ].

Definition DEFAULT_ALLOWLIST (a : target_arch) : list Z :=
  match a with X86_64 => X86_64_ALLOWLIST | AArch64 => AARCH64_ALLOWLIST end.

(** ** filter.rs *)

(** The loop body: a match jumps [n - i] instructions ahead. *)
Definition allow_jump (n : nat) (i : nat) (syscall : Z) : Z :=
  let allow_offset := u8 (Z.of_nat (n - i)) in
  instruction (Z.lor (Z.lor BPF_JMP BPF_JEQ) BPF_K) allow_offset 0 syscall.

Definition build (allowlist : list Z) (audit_arch : Z) : list Z :=
  let n := length allowlist in
  let kill_offset := u8 (Z.of_nat n + 2) in
  [ instruction (Z.lor (Z.lor BPF_LD BPF_W) BPF_ABS) 0 0 SECCOMP_ARCH_OFFSET;
    instruction (Z.lor (Z.lor BPF_JMP BPF_JEQ) BPF_K) 0 kill_offset audit_arch;
    instruction (Z.lor (Z.lor BPF_LD BPF_W) BPF_ABS) 0 0 SECCOMP_NR_OFFSET ]
  ++ imap (allow_jump n) allowlist
  ++ [ instruction (Z.lor BPF_RET BPF_K) 0 0 SECCOMP_RET_KILL_PROCESS;
       instruction (Z.lor BPF_RET BPF_K) 0 0 SECCOMP_RET_ALLOW ].

Definition build_default (a : target_arch) : list Z := build (DEFAULT_ALLOWLIST a) (AUDIT_ARCH a).

(** ** install.rs *)

Inductive seccomp_error : Type :=
  | FilterTooLarge (len : Z)
  | NoNewPrivs
  | TsyncFailed (tid : Z)
  | Install.

(** [prctl_rc] is what [prctl(PR_SET_NO_NEW_PRIVS, 1, ...)] returns and
    [seccomp len filter] what the [seccomp] system call returns for the program
    it is handed. *)
Definition install (prctl_rc : Z) (seccomp : Z -> list Z -> Z) (program : list Z)
    : result seccomp_error () :=
  if MAX_LEN <? zlen program then Err (FilterTooLarge (zlen program)) else
  filter_len ← (if zlen program <? 2^16 then Ok (zlen program) else Err (FilterTooLarge (zlen program)));
  if negb (prctl_rc =? 0) then Err NoNewPrivs else
  let syscall_rc := seccomp filter_len program in
  if 0 <? syscall_rc then Err (TsyncFailed syscall_rc)
  else if negb (syscall_rc =? 0) then Err Install
  else Ok ().

Definition install_default (a : target_arch) (prctl_rc : Z) (seccomp : Z -> list Z -> Z)
    : result seccomp_error () :=
  install prctl_rc seccomp (build_default a).

Definition default_allowlist_size (a : target_arch) : Z := zlen (DEFAULT_ALLOWLIST a).

(** ** The classic-BPF machine, restricted to [LD W ABS], [JEQ K] and [RET K]

    The accumulator, the program counter, and [struct seccomp_data] with the
    fields [nr] and [arch]; [None] is a program the kernel's verifier refuses. *)

Record seccomp_data : Type := mkData { nr : Z; arch : Z }.

Definition f_code (i : Z) : Z := Z.land i 0xffff.
Definition f_jt (i : Z) : Z := Z.land (Z.shiftr i 16) 0xff.
Definition f_jf (i : Z) : Z := Z.land (Z.shiftr i 24) 0xff.
Definition f_k (i : Z) : Z := Z.shiftr i 32.

Definition load (d : seccomp_data) (k : Z) : option Z :=
  if k =? 0 then Some (nr d) else if k =? 4 then Some (arch d) else None.

Fixpoint run (fuel : nat) (prog : list Z) (d : seccomp_data) (pc : nat) (acc : Z) : option Z :=
  match fuel with
  | O => None
  | S fuel =>
    match prog !! pc with
    | None => None
    | Some i =>
      if f_code i =? 0x20 then
        match load d (f_k i) with
        | Some a => run fuel prog d (S pc) a
        | None => None
        end
      else if f_code i =? 0x15 then
        let off := if acc =? f_k i then f_jt i else f_jf i in
        run fuel prog d (S pc + Z.to_nat off) acc
      else if f_code i =? 0x06 then Some (f_k i)
      else None
    end
  end.

Definition decide_syscall (prog : list Z) (d : seccomp_data) : option Z := run (length prog) prog d 0 0.

(** ** Encoding *)

Definition wf_insn (code jt jf k : Z) : Prop :=
  0 <= code < 2^16 /\ 0 <= jt < 2^8 /\ 0 <= jf < 2^8 /\ 0 <= k < 2^32.

Lemma lor_disjoint a b n : 0 <= a < 2^n -> 0 <= n -> Z.lor a (Z.shiftl b n) = a + b * 2^n.
Proof.
  intros Ha Hn. rewrite Z.shiftl_mul_pow2 by done.
  assert (Hland : Z.land a (b * 2^n) = 0);
    [|by rewrite Z.add_nocarry_lxor, Z.lxor_lor].
  apply Z.bits_inj'. intros m Hm. rewrite Z.land_spec, Z.bits_0. destruct (Z.ltb_spec m n).
  - rewrite Z.mul_pow2_bits_low by lia. apply andb_false_r.
  - replace (Z.testbit a m) with false; [done|]. symmetry.
    destruct (Z.eq_dec a 0) as [->|]; [apply Z.bits_0|]. apply Z.bits_above_log2; [lia|].
    apply Z.log2_lt_pow2; [lia|]. apply Z.lt_le_trans with (2^n); [lia|]. apply Z.pow_le_mono_r; lia.
Qed.

Lemma instruction_sum code jt jf k :
  wf_insn code jt jf k -> instruction code jt jf k = code + jt * 2^16 + jf * 2^24 + k * 2^32.
Proof.
  intros (?&?&?&?). unfold instruction.
  rewrite (lor_disjoint code jt 16), (lor_disjoint _ jf 24), (lor_disjoint _ k 32) by lia. lia.
Qed.

Lemma decode_instruction code jt jf k :
  wf_insn code jt jf k ->
  let i := instruction code jt jf k in f_code i = code /\ f_jt i = jt /\ f_jf i = jf /\ f_k i = k.
Proof.
  intros Hw i. unfold i, f_code, f_jt, f_jf, f_k. rewrite instruction_sum by done.
  destruct Hw as (?&?&?&?). rewrite !Z.shiftr_div_pow2 by lia.
  change 0xffff with (Z.ones 16). change 0xff with (Z.ones 8). rewrite !Z.land_ones by lia.
  split_and!; symmetry.
  - apply Z.mod_unique with (jt + jf * 2^8 + k * 2^16); lia.
  - apply Z.mod_unique with (jf + k * 2^8); [lia|]. symmetry. apply Z.div_unique with code; lia.
  - apply Z.mod_unique with k; [lia|]. symmetry. apply Z.div_unique with (code + jt * 2^16); lia.
  - apply Z.div_unique with (code + jt * 2^16 + jf * 2^24); lia.
Qed.

(** ** Running the filter *)

Definition is_u32 (z : Z) : Prop := 0 <= z < 2^32.

(** Field ranges of an instruction. *)
Ltac insn_range := unfold wf_insn, is_u32 in *; split_and!; lia.

Lemma run_load fuel prog d pc acc k x :
  prog !! pc = Some (instruction 0x20 0 0 k) -> is_u32 k -> load d k = Some x ->
  run (S fuel) prog d pc acc = run fuel prog d (S pc) x.
Proof.
  intros Hp Hk Hl. cbn [run]. rewrite Hp.
  destruct (decode_instruction 0x20 0 0 k) as (-> & _ & _ & ->); [insn_range|]. by rewrite Hl.
Qed.

Lemma run_jeq fuel prog d pc acc jt jf k :
  prog !! pc = Some (instruction 0x15 jt jf k) -> wf_insn 0x15 jt jf k ->
  run (S fuel) prog d pc acc
  = run fuel prog d (S pc + Z.to_nat (if acc =? k then jt else jf)) acc.
Proof.
  intros Hp Hw. cbn [run]. rewrite Hp.
  by destruct (decode_instruction 0x15 jt jf k Hw) as (-> & -> & -> & ->).
Qed.

Lemma run_ret fuel prog d pc acc k :
  prog !! pc = Some (instruction 0x06 0 0 k) -> is_u32 k ->
  run (S fuel) prog d pc acc = Some k.
Proof.
  intros Hp Hk. cbn [run]. rewrite Hp.
  by destruct (decode_instruction 0x06 0 0 k) as (-> & _ & _ & ->); [insn_range|].
Qed.

Section Filter.
Context (allowlist : list Z) (audit_arch : Z).
Context (Hlist : Forall is_u32 allowlist) (Harch : is_u32 audit_arch).
Context (Hlen : (length allowlist <= 253)%nat).
Local Abbreviation n := (length allowlist).
Local Abbreviation prog := (build allowlist audit_arch).

Lemma prog_length : length prog = (n + 5)%nat.
Proof. unfold build. rewrite !length_app, length_imap. simpl. lia. Qed.

Lemma prog_jump i x :
  allowlist !! i = Some x -> prog !! (3 + i)%nat = Some (instruction 0x15 (Z.of_nat (n - i)) 0 x).
Proof.
  intros Hi. unfold build. rewrite lookup_app_r by (simpl; lia). cbn [length].
  replace (3 + i - 3)%nat with i by lia. pose proof (lookup_lt_Some _ _ _ Hi).
  rewrite lookup_app_l by (rewrite length_imap; lia). rewrite list_lookup_imap, Hi. simpl.
  unfold allow_jump. by rewrite u8_id by lia.
Qed.

Lemma prog_ret j : prog !! (3 + n + j)%nat =
  [instruction 0x06 0 0 SECCOMP_RET_KILL_PROCESS; instruction 0x06 0 0 SECCOMP_RET_ALLOW] !! j.
Proof.
  unfold build. rewrite lookup_app_r by (simpl; lia). cbn [length].
  replace (3 + n + j - 3)%nat with (n + j)%nat by lia.
  rewrite lookup_app_r by (rewrite length_imap; lia). rewrite length_imap.
  by replace (n + j - n)%nat with j by lia.
Qed.

(** From the [i]-th comparison on, the program searches the rest of the list. *)
Lemma run_search m fuel d i x :
  (i + m = n)%nat -> (m + 2 <= fuel)%nat ->
  run fuel prog d (3 + i) x
  = Some (if decide (x ∈ drop i allowlist) then SECCOMP_RET_ALLOW else SECCOMP_RET_KILL_PROCESS).
Proof.
  revert fuel i. induction m as [|m IH]; intros fuel i Hi Hf; destruct fuel as [|fuel]; try lia.
  - rewrite decide_False by (rewrite drop_ge by lia; apply not_elem_of_nil).
    apply run_ret; [|done]. replace (3 + i)%nat with (3 + n + 0)%nat by lia. by rewrite prog_ret.
  - destruct (lookup_lt_is_Some_2 allowlist i) as [y Hy]; [lia|].
    pose proof (Forall_lookup_1 _ _ _ _ Hlist Hy) as Hyb. unfold is_u32 in Hyb.
    rewrite (run_jeq _ _ _ _ _ _ _ _ (prog_jump i y Hy)) by insn_range.
    rewrite (drop_S allowlist y i Hy). destruct (Z.eqb_spec x y) as [->|Hne].
    + rewrite decide_True by set_solver. destruct fuel as [|fuel]; [lia|].
      apply run_ret; [|done]. replace (S (3 + i) + _)%nat with (3 + n + 1)%nat by lia.
      by rewrite prog_ret.
    + replace (S (3 + i) + Z.to_nat 0)%nat with (3 + S i)%nat by lia.
      rewrite IH by lia. f_equal.
      destruct (decide (x ∈ drop (S i) allowlist)), (decide (x ∈ y :: drop (S i) allowlist));
        set_solver.
Qed.

Lemma decide_prefix d :
  decide_syscall prog d =
    if arch d =? audit_arch then run (n + 2) prog d 3 (nr d) else Some SECCOMP_RET_ALLOW.
Proof.
  unfold decide_syscall. rewrite prog_length.
  replace (n + 5)%nat with (S (S (n + 3))) by lia.
  rewrite (run_load _ _ _ _ _ 4 (arch d)) by done.
  rewrite (run_jeq _ _ _ _ _ 0 (Z.of_nat n + 2) audit_arch);
    [| |insn_range].
  2: { unfold build. cbn [lookup list_lookup app]. by rewrite u8_id by lia. }
  replace (n + 3)%nat with (S (n + 2)) by lia. destruct (arch d =? audit_arch).
  - by rewrite (run_load _ _ _ _ _ 0 (nr d)).
  - apply run_ret; [|done]. replace (2 + Z.to_nat _)%nat with (3 + n + 1)%nat by lia. by rewrite prog_ret.
Qed.
End Filter.

Lemma filter_decides allowlist audit_arch d :
  Forall is_u32 allowlist -> is_u32 audit_arch -> (length allowlist <= 253)%nat ->
  arch d = audit_arch ->
  decide_syscall (build allowlist audit_arch) d
  = Some (if decide (nr d ∈ allowlist) then SECCOMP_RET_ALLOW else SECCOMP_RET_KILL_PROCESS).
Proof.
  intros Hl Ha Hn Hd. rewrite decide_prefix by done. rewrite (proj2 (Z.eqb_eq _ _)) by done.
  change 3%nat with (3 + 0)%nat.
  by rewrite (run_search _ _ Hl Ha Hn (length allowlist)) by lia.
Qed.

(** C6.  The filter decides the allowlist: on the audited architecture the
    program allows a system call exactly when its number is on the list and
    kills the process otherwise, for any list of at most 253 numbers. *)
Theorem filter_decides_allowlist (allowlist : list Z) (audit_arch : Z) (d : seccomp_data) :
  Forall is_u32 allowlist -> is_u32 audit_arch -> (length allowlist <= 253)%nat ->
  arch d = audit_arch ->
  decide_syscall (build allowlist audit_arch) d
  = Some (if decide (nr d ∈ allowlist) then SECCOMP_RET_ALLOW else SECCOMP_RET_KILL_PROCESS).
Proof. apply filter_decides. Qed.

Lemma filter_decides_allowlist_witness :
  decide_syscall (build [0; 1; 435] 0xc000003e) (mkData 435 0xc000003e) = Some SECCOMP_RET_ALLOW
  /\ decide_syscall (build [0; 1; 435] 0xc000003e) (mkData 101 0xc000003e) = Some SECCOMP_RET_KILL_PROCESS.
Proof.
  assert (Hl : Forall is_u32 [0; 1; 435]) by (repeat constructor; discriminate || reflexivity).
  split.
  - apply (filter_decides_allowlist [0; 1; 435] 0xc000003e (mkData 435 0xc000003e));
      [exact Hl|split; [discriminate|reflexivity]|simpl; lia|reflexivity].
  - apply (filter_decides_allowlist [0; 1; 435] 0xc000003e (mkData 101 0xc000003e));
      [exact Hl|split; [discriminate|reflexivity]|simpl; lia|reflexivity].
Defined.

(** The architecture check is one instruction off: a system call that
    arrives with any other audit architecture is allowed, whatever its number,
    because the false branch of the check lands on the [ALLOW] return and not on
    the [KILL] return before it. *)
Theorem wrong_arch_allowed (allowlist : list Z) (audit_arch : Z) (d : seccomp_data) :
  Forall is_u32 allowlist -> is_u32 audit_arch -> (length allowlist <= 253)%nat ->
  arch d <> audit_arch ->
  decide_syscall (build allowlist audit_arch) d = Some SECCOMP_RET_ALLOW.
Proof.
  intros Hl Ha Hn Hd. rewrite decide_prefix by done. by rewrite (proj2 (Z.eqb_neq _ _)).
Qed.

Lemma wrong_arch_allowed_witness :
  decide_syscall (build [0; 1] 0xc000003e) (mkData 101 0x40000003) = Some SECCOMP_RET_ALLOW.
Proof.
  apply (wrong_arch_allowed [0; 1] 0xc000003e (mkData 101 0x40000003));
    [repeat constructor; discriminate || reflexivity|split; [discriminate|reflexivity]|simpl; lia|discriminate].
Defined.

(** ** The shipped filters *)

Definition sorted_unique (l : list Z) : bool :=
  forallb (fun '(a, b) => a <? b) (zip l (tail l)).

Lemma default_list_ok a :
  Forall is_u32 (DEFAULT_ALLOWLIST a) /\ (length (DEFAULT_ALLOWLIST a) <= 253)%nat.
Proof.
  split; [|destruct a; vm_compute; lia].
  apply Forall_forall. intros x Hx. assert (forallb (fun z => (0 <=? z) && (z <? 2^32)) (DEFAULT_ALLOWLIST a) = true) as H
    by (by destruct a). rewrite forallb_forall in H. apply list_elem_of_In in Hx.
  specialize (H x Hx). zify_bool. done.
Qed.

(** The shipped filters: on both architectures the default program fits
    the kernel's limit and is accepted for installation when the two system
    calls succeed, the allowlist is strictly sorted, and on the native
    architecture [clone3] and [rseq] are allowed while [ptrace], [mount],
    [reboot], [kexec_load], [init_module] and [pivot_root] kill the process. *)
Theorem default_filter_ok (a : target_arch) :
  zlen (build_default a) <= MAX_LEN
  /\ install_default a 0 (fun _ _ => 0) = Ok ()
  /\ sorted_unique (DEFAULT_ALLOWLIST a) = true
  /\ forall d, arch d = AUDIT_ARCH a ->
       let allowed := match a with X86_64 => [435; 334] | AArch64 => [435; 293] end in
       let blocked := match a with
                      | X86_64 => [101; 165; 169; 246; 175; 155]
                      | AArch64 => [117; 40; 142; 104; 105; 41] end in
       (nr d ∈ allowed -> decide_syscall (build_default a) d = Some SECCOMP_RET_ALLOW)
       /\ (nr d ∈ blocked -> decide_syscall (build_default a) d = Some SECCOMP_RET_KILL_PROCESS).
Proof.
  destruct (default_list_ok a) as [Hl Hn]. split_and!; [by destruct a..|].
  intros d Hd allowed blocked.
  assert (Ha : is_u32 (AUDIT_ARCH a)) by (by destruct a).
  pose proof (filter_decides (DEFAULT_ALLOWLIST a) (AUDIT_ARCH a) d Hl Ha Hn Hd) as H. unfold build_default.
  rewrite H. split; intros Hin; [rewrite decide_True|rewrite decide_False]; try done.
  - destruct a; unfold allowed in Hin; rewrite !elem_of_cons, elem_of_nil in Hin;
      (destruct Hin as [->|[->|[]]]; by apply (bool_decide_unpack _)).
  - destruct a; unfold blocked in Hin; rewrite !elem_of_cons, elem_of_nil in Hin;
      (repeat destruct Hin as [Hin|Hin]; try done; rewrite Hin; by apply (bool_decide_unpack _)).
Qed.
