(* ===== verification/ProtoMessages.v ===== *)
(** * Host/guest protocol messages

    [crates/bux-proto/src/message.rs]: the message types of the per-operation
    connections, and the builder of an exec request. *)

From S2P Require Import Prelude.

Definition PROTOCOL_VERSION : Z := 10.
Definition STREAM_CHUNK_SIZE : Z := Z.shiftl 1 20.
Definition MAX_UPLOAD_BYTES : Z := 512 * 1024 * 1024.
Definition MAX_DOWNLOAD_BYTES : Z := MAX_UPLOAD_BYTES.
Definition AGENT_PORT : Z := 1024.

(** ** Errors *)

Inductive ErrorCode : Type :=
  | VersionMismatch
  | InvalidRequest
  | NotFound
  | PermissionDenied
  | Timeout
  | LimitExceeded
  | Internal.

#[global] Instance ErrorCode_eq_dec : EqDecision ErrorCode.
Proof. solve_decision. Defined.

Record ErrorInfo : Type := mkErrorInfo {
  ei_code : ErrorCode;
  ei_message : string
}.

#[global] Instance ErrorInfo_eq_dec : EqDecision ErrorInfo.
Proof. solve_decision. Defined.

Definition ErrorInfo_new (code : ErrorCode) (message : string) : ErrorInfo := mkErrorInfo code message.
Definition internal (message : string) : ErrorInfo := ErrorInfo_new Internal message.
Definition not_found (message : string) : ErrorInfo := ErrorInfo_new NotFound message.
Definition invalid_request (message : string) : ErrorInfo := ErrorInfo_new InvalidRequest message.
Definition permission_denied (message : string) : ErrorInfo := ErrorInfo_new PermissionDenied message.
Definition version_mismatch (message : string) : ErrorInfo := ErrorInfo_new VersionMismatch message.

(** ** Exec requests *)

Record TtyConfig : Type := mkTty {
  tty_rows : Z;
  tty_cols : Z;
  tty_x_pixels : Z;
  tty_y_pixels : Z
}.

Definition TtyConfig_new (rows cols x_pixels y_pixels : Z) : TtyConfig := mkTty rows cols x_pixels y_pixels.

Record ExecStart : Type := mkExecStart {
  es_cmd : string;
  es_args : list string;
  es_env : list string;
  es_cwd : option string;
  es_uid : option Z;
  es_gid : option Z;
  es_stdin : bool;
  es_tty : option TtyConfig;
  es_timeout_ms : Z;
  es_user : option string
}.

Definition ExecStart_new (cmd : string) : ExecStart :=
  mkExecStart cmd [] [] None None None false None 0 None.

Definition with_args (e : ExecStart) (args : list string) : ExecStart :=
  mkExecStart (es_cmd e) args (es_env e) (es_cwd e) (es_uid e) (es_gid e) (es_stdin e) (es_tty e)
    (es_timeout_ms e) (es_user e).

Definition with_env (e : ExecStart) (env : list string) : ExecStart :=
  mkExecStart (es_cmd e) (es_args e) env (es_cwd e) (es_uid e) (es_gid e) (es_stdin e) (es_tty e)
    (es_timeout_ms e) (es_user e).

Definition with_cwd (e : ExecStart) (cwd : string) : ExecStart :=
  mkExecStart (es_cmd e) (es_args e) (es_env e) (Some cwd) (es_uid e) (es_gid e) (es_stdin e) (es_tty e)
    (es_timeout_ms e) (es_user e).

Definition with_user (e : ExecStart) (uid gid : Z) : ExecStart :=
  mkExecStart (es_cmd e) (es_args e) (es_env e) (es_cwd e) (Some uid) (Some gid) (es_stdin e) (es_tty e)
    (es_timeout_ms e) None.

Definition user_name (e : ExecStart) (spec : string) : ExecStart :=
  mkExecStart (es_cmd e) (es_args e) (es_env e) (es_cwd e) None None (es_stdin e) (es_tty e)
    (es_timeout_ms e) (Some spec).

Definition with_stdin (e : ExecStart) : ExecStart :=
  mkExecStart (es_cmd e) (es_args e) (es_env e) (es_cwd e) (es_uid e) (es_gid e) true (es_tty e)
    (es_timeout_ms e) (es_user e).

Definition with_tty (e : ExecStart) (rows cols : Z) : ExecStart :=
  mkExecStart (es_cmd e) (es_args e) (es_env e) (es_cwd e) (es_uid e) (es_gid e) (es_stdin e)
    (Some (mkTty rows cols 0 0)) (es_timeout_ms e) (es_user e).

Definition with_timeout (e : ExecStart) (ms : Z) : ExecStart :=
  mkExecStart (es_cmd e) (es_args e) (es_env e) (es_cwd e) (es_uid e) (es_gid e) (es_stdin e) (es_tty e)
    ms (es_user e).

(** ** Connection messages *)

Inductive Hello : Type :=
  | HControl (version : Z)
  | HExec (start : ExecStart)
  | HFileRead (path : string)
  | HFileWrite (path : string) (mode : Z)
  | HCopyIn (dest : string)
  | HCopyOut (path : string) (follow_symlinks : bool).

Inductive HelloAck : Type :=
  | AckControl (version : Z)
  | AckExecStarted (exec_id : string) (pid : Z)
  | AckReady
  | AckError (e : ErrorInfo).

Inductive ControlReq : Type := Ping | Shutdown | Quiesce | Thaw.

Inductive ControlResp : Type :=
  | Pong (version : string) (uptime_ms : Z)
  | ShutdownOk
  | QuiesceOk (frozen_count : Z)
  | ThawOk (thawed_count : Z)
  | ControlError (e : ErrorInfo).

Inductive ExecIn : Type :=
  | Stdin (d : list Z)
  | StdinClose
  | Signal (sig : Z)
  | ResizeTty (t : TtyConfig).

Inductive ExecOut : Type :=
  | Stdout (d : list Z)
  | Stderr (d : list Z)
  | Exit (code : Z) (signal : option Z) (timed_out : bool) (duration_ms : Z) (error_message : option string)
  | ExecError (e : ErrorInfo).

Inductive Upload : Type :=
  | UChunk (d : list Z)
  | UDone.

Inductive UploadResult : Type :=
  | UploadOk
  | UploadError (e : ErrorInfo).

Inductive Download : Type :=
  | DChunk (d : list Z)
  | DDone
  | DError (e : ErrorInfo).

(** ** The builder keeps the two ways of naming a user apart *)

(** Requests a host can assemble with the public builder. *)
Inductive built : ExecStart -> Prop :=
  | built_new cmd : built (ExecStart_new cmd)
  | built_args e a : built e -> built (with_args e a)
  | built_env e a : built e -> built (with_env e a)
  | built_cwd e a : built e -> built (with_cwd e a)
  | built_user e u g : built e -> built (with_user e u g)
  | built_user_name e s : built e -> built (user_name e s)
  | built_stdin e : built e -> built (with_stdin e)
  | built_tty e r c : built e -> built (with_tty e r c)
  | built_timeout e ms : built e -> built (with_timeout e ms).

(** The guest reads the user name only when the numeric ids are unset, so a
    request must not carry both: every request built with the builder has
    either a user name and no ids, or both ids and no name, or neither, in
    whatever order the setters are called. *)
Theorem exec_user_exclusive (e : ExecStart) :
  built e ->
  (es_user e = None /\ (es_uid e = None <-> es_gid e = None))
  \/ (es_uid e = None /\ es_gid e = None /\ is_Some (es_user e)).
Proof. induction 1; simpl in *; try done; naive_solver. Qed.

Lemma exec_user_exclusive_witness :
  let e := user_name (with_user (ExecStart_new "sh") 0 0) "alice" in
  (es_user e = None /\ (es_uid e = None <-> es_gid e = None))
  \/ (es_uid e = None /\ es_gid e = None /\ is_Some (es_user e)).
Proof. apply (exec_user_exclusive (user_name (with_user (ExecStart_new "sh") 0 0) "alice")). repeat constructor. Defined.
