(* ===== verification/Codec.v ===== *)
(** * The frame codec

    [crates/bux-proto/src/codec.rs]: length-prefixed postcard frames, and the
    chunked upload and download streams.  A writer is the bytes written so far,
    a reader the bytes still to come; reading past the end is [UnexpectedEof].
    postcard is a parameter: a type class of the two functions the codec calls
    and the laws it relies on. *)

From S2P Require Import Prelude Files ProtoMessages.

(** ** postcard *)

Class Postcard (T : Type) := {
  to_allocvec : T -> option (list Z);
  from_bytes : list Z -> option T
}.

(** What postcard documents of a serde type: it decodes what it encoded. *)
Class PostcardLaws (T : Type) {P : Postcard T} := {
  from_to : forall m p, to_allocvec m = Some p -> from_bytes p = Some m
}.

(** ** Frames *)

Definition MAX_FRAME : Z := 16 * 1024 * 1024.

Inductive cerror : Type :=
  | CIo (k : io_kind)
  | CRemote (message : string)
  | CPanic
  | COutOfFuel.

Definition send {T} `{Postcard T} (w : list Z) (msg : T) : result cerror (list Z) :=
  payload ← ok_or (to_allocvec msg) (CIo EkInvalidData);
  len ← (if zlen payload <? 2^32 then Ok (zlen payload) else Err (CIo EkInvalidData));
  Ok (w ++ be_bytes 4 len ++ payload).

(** [read_exact] of [n] bytes. *)
Definition read_exact (r : list Z) (n : Z) : result cerror (list Z * list Z) :=
  if n <=? zlen r then Ok (take (Z.to_nat n) r, drop (Z.to_nat n) r) else Err (CIo EkUnexpectedEof).

Definition recv {T} `{Postcard T} (r : list Z) : result cerror (T * list Z) :=
  '(hdr, r) ← read_exact r 4;
  let len := be_val hdr in
  if MAX_FRAME <? len then Err (CIo EkInvalidData) else
  '(payload, r) ← read_exact r len;
  m ← ok_or (from_bytes payload) (CIo EkInvalidData);
  Ok (m, r).

(** ** Streams *)

(** [for chunk in data.chunks(chunk_size)]; a chunk size of zero panics. *)
Definition send_upload `{Postcard Upload} (w : list Z) (data : list Z) (chunk_size : Z)
    : result cerror (list Z) :=
  if chunk_size =? 0 then Err CPanic else
  w ← foldM (fun w chunk => send w (UChunk chunk)) w (chunks (Z.to_nat chunk_size) data);
  send w UDone.

Definition send_download `{Postcard Download} (w : list Z) (data : list Z) (chunk_size : Z)
    : result cerror (list Z) :=
  if chunk_size =? 0 then Err CPanic else
  w ← foldM (fun w chunk => send w (DChunk chunk)) w (chunks (Z.to_nat chunk_size) data);
  send w DDone.

Fixpoint recv_upload_loop `{Postcard Upload} (fuel : nat) (r : list Z) (max_bytes : Z) (buf : list Z)
    : result cerror (list Z * list Z) :=
  match fuel with
  | O => Err COutOfFuel
  | S fuel =>
    '(m, r) ← recv (T := Upload) r;
    match m with
    | UChunk data =>
      let buf := buf ++ data in
      if max_bytes <? zlen buf then Err (CIo EkInvalidData)
      else recv_upload_loop fuel r max_bytes buf
    | UDone => Ok (buf, r)
    end
  end.

(** Each frame takes at least four bytes off the reader. *)
Definition recv_upload `{Postcard Upload} (r : list Z) (max_bytes : Z) : result cerror (list Z * list Z) :=
  recv_upload_loop (S (length r)) r max_bytes [].

Definition account_download_chunk (total chunk_len max_bytes : Z) : result cerror Z :=
  let next := saturating_add total chunk_len in
  if max_bytes <? next then Err (CIo EkFileTooLarge) else Ok next.

Fixpoint recv_download_loop `{Postcard Download} (fuel : nat) (r : list Z) (max_bytes : Z)
    (buf : list Z) (total : Z) : result cerror (list Z * list Z) :=
  match fuel with
  | O => Err COutOfFuel
  | S fuel =>
    '(m, r) ← recv (T := Download) r;
    match m with
    | DChunk data =>
      total ← account_download_chunk total (zlen data) max_bytes;
      recv_download_loop fuel r max_bytes (buf ++ data) total
    | DDone => Ok (buf, r)
    | DError e => Err (CRemote (ei_message e))
    end
  end.

Definition recv_download `{Postcard Download} (r : list Z) (max_bytes : Z) : result cerror (list Z * list Z) :=
  recv_download_loop (S (length r)) r max_bytes [] 0.

(** The results of successive [src.read(&mut buf)] calls with a buffer of
    [chunk_size] bytes; the first empty one is the end of the stream. *)
Fixpoint send_upload_reads `{Postcard Upload} (w : list Z) (reads : list (list Z)) (total : Z)
    : result cerror (list Z * Z) :=
  match reads with
  | [] | [] :: _ => Ok (w, total)
  | buf :: reads =>
    let total := u64 (total + zlen buf) in
    w ← send w (UChunk buf);
    send_upload_reads w reads total
  end.

Definition send_upload_from_reader `{Postcard Upload} (w : list Z) (reads : list (list Z))
    : result cerror (list Z * Z) :=
  '(w, total) ← send_upload_reads w reads 0;
  w ← send w UDone;
  Ok (w, total).

Fixpoint send_download_reads `{Postcard Download} (w : list Z) (reads : list (list Z)) (total : Z)
    : result cerror (list Z * Z) :=
  match reads with
  | [] | [] :: _ => Ok (w, total)
  | buf :: reads =>
    let total := u64 (total + zlen buf) in
    w ← send w (DChunk buf);
    send_download_reads w reads total
  end.

Definition send_download_from_reader `{Postcard Download} (w : list Z) (reads : list (list Z))
    : result cerror (list Z * Z) :=
  '(w, total) ← send_download_reads w reads 0;
  w ← send w DDone;
  Ok (w, total).

(** The streaming receivers: what was written to [dst] is part of the outcome
    also when the call fails. *)
Fixpoint recv_upload_writer_loop `{Postcard Upload} (fuel : nat) (r dst : list Z) (max_bytes total : Z)
    : result cerror (Z * list Z) * list Z :=
  match fuel with
  | O => (Err COutOfFuel, dst)
  | S fuel =>
    match recv (T := Upload) r with
    | Err e => (Err e, dst)
    | Ok (UChunk data, r) =>
      let total := u64 (total + zlen data) in
      if max_bytes <? total then (Err (CIo EkInvalidData), dst)
      else recv_upload_writer_loop fuel r (dst ++ data) max_bytes total
    | Ok (UDone, r) => (Ok (total, r), dst)
    end
  end.

Definition recv_upload_to_writer `{Postcard Upload} (r dst : list Z) (max_bytes : Z) :=
  recv_upload_writer_loop (S (length r)) r dst max_bytes 0.

Fixpoint recv_download_writer_loop `{Postcard Download} (fuel : nat) (r dst : list Z) (max_bytes total : Z)
    : result cerror (Z * list Z) * list Z :=
  match fuel with
  | O => (Err COutOfFuel, dst)
  | S fuel =>
    match recv (T := Download) r with
    | Err e => (Err e, dst)
    | Ok (DChunk data, r) =>
      match account_download_chunk total (zlen data) max_bytes with
      | Err e => (Err e, dst)
      | Ok total => recv_download_writer_loop fuel r (dst ++ data) max_bytes total
      end
    | Ok (DDone, r) => (Ok (total, r), dst)
    | Ok (DError e, r) => (Err (CRemote (ei_message e)), dst)
    end
  end.

Definition recv_download_to_writer `{Postcard Download} (r dst : list Z) (max_bytes : Z) :=
  recv_download_writer_loop (S (length r)) r dst max_bytes 0.

(** ** One frame *)

Definition fits {T} `{Postcard T} (m : T) : Prop :=
  exists p, to_allocvec m = Some p /\ zlen p <= MAX_FRAME.

(** The bytes of a message on the wire. *)
Definition enc {T} `{Postcard T} (m : T) : list Z :=
  match to_allocvec m with Some p => be_bytes 4 (zlen p) ++ p | None => [] end.

Lemma send_enc {T} `{Postcard T} (w : list Z) (m : T) : fits m -> send w m = Ok (w ++ enc m).
Proof.
  intros (p & Hp & Hl). unfold send, enc. rewrite Hp. cbn [ok_or mbind result_bind].
  change MAX_FRAME with 16777216 in Hl. by rewrite (proj2 (Z.ltb_lt _ _)) by lia.
Qed.

Lemma read_exact_app d r : read_exact (d ++ r) (zlen d) = Ok (d, r).
Proof.
  unfold read_exact. pose proof (zlen_nonneg r). rewrite zlen_app, (proj2 (Z.leb_le _ _)) by lia.
  unfold zlen. by rewrite Nat2Z.id, take_app_length, drop_app_length.
Qed.

Lemma recv_payload {T} `{Postcard T} p r :
  zlen p <= MAX_FRAME ->
  recv (be_bytes 4 (zlen p) ++ p ++ r) = (m ← ok_or (from_bytes p) (CIo EkInvalidData); Ok (m, r)).
Proof.
  intros Hl. unfold recv. pose proof (zlen_nonneg p).
  pose proof (read_exact_app (be_bytes 4 (zlen p)) (p ++ r)) as Hh.
  rewrite zlen_be_bytes in Hh. change (Z.of_nat 4) with 4 in Hh. rewrite Hh. cbn [mbind result_bind].
  change MAX_FRAME with 16777216 in *.
  rewrite be_val_bytes_id by (change (256 ^ Z.of_nat 4) with (2^32); lia).
  rewrite (proj2 (Z.ltb_ge _ _)) by lia. by rewrite read_exact_app.
Qed.

Lemma recv_enc {T} `{PostcardLaws T} (m : T) r : fits m -> recv (enc m ++ r) = Ok (m, r).
Proof.
  intros (p & Hp & Hl). unfold enc. rewrite Hp, <- app_assoc, recv_payload by done.
  by rewrite (from_to m p Hp).
Qed.

Lemma enc_length {T} `{Postcard T} (m : T) : fits m -> (4 <= length (enc m))%nat.
Proof. intros (p & Hp & _). unfold enc. rewrite Hp, length_app, length_be_bytes. lia. Qed.

Lemma recv_shrinks {T} `{Postcard T} r (m : T) r' : recv r = Ok (m, r') -> (length r' < length r)%nat.
Proof.
  unfold recv. intros Hr. inv_bind. destruct a as [hdr r1]. case_match; [done|]. inv_bind.
  destruct a as [p r2]. inv_bind. simplify_eq. unfold read_exact in *.
  destruct (Z.leb_spec 4 (zlen r)); [|done]. destruct (be_val hdr <=? zlen r1); [|done]. simplify_eq.
  rewrite !length_drop. unfold zlen in *. lia.
Qed.

(** Frames round trip: a message whose payload is at most 16 MiB is
    appended to the stream as one frame, and receiving from a stream that
    starts with the frame returns the message and leaves the rest untouched, so
    frames do not run into each other; a larger payload (below 4 GiB) is sent
    but refused by the receiver. *)
Theorem frame_roundtrip {T} `{PostcardLaws T} (w rest : list Z) (m : T) (p : list Z) :
  to_allocvec m = Some p -> zlen p < 2^32 ->
  exists frame, send w m = Ok (w ++ frame)
    /\ recv (frame ++ rest) = if zlen p <=? MAX_FRAME then Ok (m, rest) else Err (CIo EkInvalidData).
Proof.
  intros Hp Hl. exists (be_bytes 4 (zlen p) ++ p). unfold send. rewrite Hp. cbn [ok_or mbind result_bind].
  rewrite (proj2 (Z.ltb_lt _ _)) by lia. split; [done|]. rewrite <- app_assoc.
  destruct (Z.leb_spec (zlen p) MAX_FRAME).
  - rewrite recv_payload by done. by rewrite (from_to m p Hp).
  - unfold recv. pose proof (read_exact_app (be_bytes 4 (zlen p)) (p ++ rest)) as Hh.
    rewrite zlen_be_bytes in Hh. change (Z.of_nat 4) with 4 in Hh. rewrite Hh. cbn [mbind result_bind].
    pose proof (zlen_nonneg p).
    rewrite be_val_bytes_id by (change (256 ^ Z.of_nat 4) with (2^32); lia).
    by rewrite (proj2 (Z.ltb_lt _ _)) by lia.
Qed.

(** ** Sending a sequence of messages *)

Definition encs {T} `{Postcard T} (ms : list T) : list Z := concat (enc <$> ms).

Lemma encs_cons {T} `{Postcard T} (m : T) ms (w : list Z) : (w ++ enc m) ++ encs ms = w ++ encs (m :: ms).
Proof. unfold encs. rewrite fmap_cons. cbn [concat]. by rewrite app_assoc. Qed.

Lemma encs_one {T} `{Postcard T} (m : T) : encs [m] = enc m.
Proof. unfold encs. cbn. apply app_nil_r. Qed.

Lemma sends_enc {T} `{Postcard T} (ms : list T) w :
  Forall fits ms -> foldM send w ms = Ok (w ++ encs ms).
Proof.
  intros HF. revert w. induction HF as [|m ms Hm HF IH]; intros w; simpl; [by rewrite app_nil_r|].
  rewrite send_enc by done. simpl. rewrite IH. unfold encs. rewrite fmap_cons. simpl.
  by rewrite <- app_assoc.
Qed.

Lemma encs_length {T} `{Postcard T} (ms : list T) : Forall fits ms -> (length ms <= length (encs ms))%nat.
Proof.
  unfold encs. induction 1 as [|m ms Hm HF IH]; [done|]. rewrite fmap_cons. cbn [concat length].
  rewrite length_app. pose proof (enc_length m Hm). lia.
Qed.

(** ** Uploads *)

Lemma recv_upload_stream `{PostcardLaws Upload} (ds : list (list Z)) fuel rest max_bytes buf :
  Forall fits (UChunk <$> ds) -> fits UDone -> zlen buf <= max_bytes -> (length ds < fuel)%nat ->
  recv_upload_loop fuel (encs (UChunk <$> ds) ++ enc UDone ++ rest) max_bytes buf
  = if zlen (buf ++ concat ds) <=? max_bytes then Ok (buf ++ concat ds, rest) else Err (CIo EkInvalidData).
Proof.
  intros HF Hd. revert fuel buf. induction ds as [|d ds IH]; intros fuel buf Hb Hf;
    (destruct fuel as [|fuel]; [lia|]).
  - cbn [recv_upload_loop]. unfold encs. cbn [fmap list_fmap concat app]. rewrite app_nil_r.
    rewrite recv_enc by done. cbn [mbind result_bind]. by rewrite (proj2 (Z.leb_le _ _)).
  - rewrite fmap_cons, Forall_cons in HF. destruct HF as [Hm HF].
    cbn [recv_upload_loop]. unfold encs. rewrite !fmap_cons. cbn [concat].
    rewrite <- app_assoc, recv_enc by done. cbn [mbind result_bind].
    destruct (Z.ltb_spec max_bytes (zlen (buf ++ d))).
    + rewrite (proj2 (Z.leb_gt _ _)); [done|].
      pose proof (zlen_nonneg (concat ds)). rewrite !zlen_app in *. lia.
    + change (concat (enc <$> (UChunk <$> ds))) with (encs (UChunk <$> ds)).
      rewrite IH; [|done|lia|simpl in Hf; lia]. by rewrite <- app_assoc.
Qed.

Lemma recv_download_stream `{PostcardLaws Download} (ds : list (list Z)) fuel rest max_bytes buf :
  Forall fits (DChunk <$> ds) -> fits DDone -> zlen buf <= max_bytes < U64_MAX -> (length ds < fuel)%nat ->
  recv_download_loop fuel (encs (DChunk <$> ds) ++ enc DDone ++ rest) max_bytes buf (zlen buf)
  = if zlen (buf ++ concat ds) <=? max_bytes then Ok (buf ++ concat ds, rest) else Err (CIo EkFileTooLarge).
Proof.
  intros HF Hd. revert fuel buf. induction ds as [|d ds IH]; intros fuel buf Hb Hf;
    (destruct fuel as [|fuel]; [lia|]).
  - cbn [recv_download_loop]. unfold encs. cbn [fmap list_fmap concat app]. rewrite app_nil_r.
    rewrite recv_enc by done. cbn [mbind result_bind]. by rewrite (proj2 (Z.leb_le _ _)) by lia.
  - rewrite fmap_cons, Forall_cons in HF. destruct HF as [Hm HF].
    cbn [recv_download_loop]. unfold encs. rewrite !fmap_cons. cbn [concat].
    rewrite <- app_assoc, recv_enc by done. cbn [mbind result_bind].
    unfold account_download_chunk, saturating_add. rewrite <- zlen_app.
    destruct (Z.ltb_spec max_bytes (Z.min (zlen (buf ++ d)) U64_MAX)).
    + rewrite (proj2 (Z.leb_gt _ _)); [done|].
      pose proof (zlen_nonneg (concat ds)). rewrite !zlen_app in *. lia.
    + rewrite Z.min_l by lia. cbn [mbind result_bind].
      change (concat (enc <$> (DChunk <$> ds))) with (encs (DChunk <$> ds)).
      rewrite IH; [|done|lia|simpl in Hf; lia]. by rewrite <- app_assoc.
Qed.

Lemma stream_fuel {T} `{Postcard T} (g : list Z -> T) ds d rest :
  Forall fits (g <$> ds) -> (length ds < S (length (encs (g <$> ds) ++ enc d ++ rest)))%nat.
Proof.
  intros HF. pose proof (encs_length _ HF) as Hl. rewrite length_fmap in Hl. rewrite !length_app. lia.
Qed.

(** C12.  Uploads round trip: what [send_upload] writes, [recv_upload] collects
    back into the same bytes when they are within the limit and refuses
    otherwise, for any chunk size whose frames fit the frame limit. *)
Theorem upload_roundtrip `{PostcardLaws Upload} (w data rest : list Z) (chunk_size max_bytes : Z) :
  0 < chunk_size -> 0 <= max_bytes ->
  Forall fits (UChunk <$> chunks (Z.to_nat chunk_size) data) -> fits UDone ->
  exists s, send_upload w data chunk_size = Ok (w ++ s)
    /\ recv_upload (s ++ rest) max_bytes
       = if zlen data <=? max_bytes then Ok (data, rest) else Err (CIo EkInvalidData).
Proof.
  intros Hc Hm HF Hd. set (ds := chunks (Z.to_nat chunk_size) data) in *.
  exists (encs (UChunk <$> ds) ++ enc UDone). split.
  - unfold send_upload. rewrite (proj2 (Z.eqb_neq _ _)) by lia.
    rewrite (foldM_fmap send UChunk), sends_enc by done. cbn [mbind result_bind].
    by rewrite send_enc, <- app_assoc by done.
  - unfold recv_upload. rewrite <- app_assoc.
    rewrite (recv_upload_stream ds); [|done|done|done|by apply stream_fuel].
    simpl. unfold ds. by rewrite chunks_concat by lia.
Qed.

(** Downloads round trip, with the limit checked before the buffer grows. *)
Theorem download_roundtrip `{PostcardLaws Download} (w data rest : list Z) (chunk_size max_bytes : Z) :
  0 < chunk_size -> 0 <= max_bytes < U64_MAX ->
  Forall fits (DChunk <$> chunks (Z.to_nat chunk_size) data) -> fits DDone ->
  exists s, send_download w data chunk_size = Ok (w ++ s)
    /\ recv_download (s ++ rest) max_bytes
       = if zlen data <=? max_bytes then Ok (data, rest) else Err (CIo EkFileTooLarge).
Proof.
  intros Hc Hm HF Hd. set (ds := chunks (Z.to_nat chunk_size) data) in *.
  exists (encs (DChunk <$> ds) ++ enc DDone). split.
  - unfold send_download. rewrite (proj2 (Z.eqb_neq _ _)) by lia.
    rewrite (foldM_fmap send DChunk), sends_enc by done. cbn [mbind result_bind].
    by rewrite send_enc, <- app_assoc by done.
  - unfold recv_download. rewrite <- app_assoc. change 0 with (zlen (@nil Z)) at 1.
    rewrite (recv_download_stream ds); [|done|done|done|by apply stream_fuel].
    simpl. unfold ds. by rewrite chunks_concat by lia.
Qed.

(** ** A hostile peer *)

Lemma recv_max {T} `{Postcard T} r (m : T) r' :
  recv r = Ok (m, r') -> exists p, from_bytes p = Some m /\ zlen p <= MAX_FRAME.
Proof.
  unfold recv. intros Hr. inv_bind. destruct a as [hdr r1].
  destruct (Z.ltb_spec MAX_FRAME (be_val hdr)) as [|Hm]; [done|]. inv_bind.
  destruct a as [p r2]. inv_bind. simplify_eq. exists p.
  apply ok_or_Ok in Hb1. split; [done|]. unfold read_exact in Hb0.
  destruct (Z.leb_spec (be_val hdr) (zlen r1)); [|done]. simplify_eq.
  destruct (Z.leb_spec 0 (be_val hdr)); [by rewrite zlen_take_le by lia|].
  unfold zlen. rewrite length_take. change MAX_FRAME with 16777216. lia.
Qed.

(** How a streaming receiver's outcome relates to the collecting one: [ext] is
    what was appended to the destination. *)
Definition stream_agrees (collect : result cerror (list Z * list Z))
    (stream : result cerror (Z * list Z) * list Z) (dst : list Z) (max_bytes : Z) (buf : list Z) : Prop :=
  exists ext, stream.2 = dst ++ ext /\ zlen (buf ++ ext) <= max_bytes
    /\ stream.1 <> Err COutOfFuel
    /\ match stream.1 with
       | Ok (total, r) => total = zlen (buf ++ ext) /\ collect = Ok (buf ++ ext, r)
       | Err e => collect = Err e
       end.

Lemma stream_agrees_stop e dst max_bytes buf :
  e <> COutOfFuel -> zlen buf <= max_bytes -> stream_agrees (Err e) (Err e, dst) dst max_bytes buf.
Proof. intros He Hb. exists []. rewrite !app_nil_r. split_and!; simpl; congruence. Qed.

Lemma stream_agrees_done r dst max_bytes buf :
  zlen buf <= max_bytes -> stream_agrees (Ok (buf, r)) (Ok (zlen buf, r), dst) dst max_bytes buf.
Proof. intros Hb. exists []. by rewrite !app_nil_r. Qed.

Lemma stream_agrees_chunk c s dst max_bytes buf d :
  stream_agrees c s (dst ++ d) max_bytes (buf ++ d) -> stream_agrees c s dst max_bytes buf.
Proof. intros (ext & ?). exists (d ++ ext). by rewrite !app_assoc. Qed.

Lemma recv_not_fuel {T} `{Postcard T} r : recv (T := T) r <> Err COutOfFuel.
Proof.
  unfold recv, read_exact. repeat (case_match; simpl; try done).
  destruct (from_bytes _); simpl; done.
Qed.

Lemma download_loop_agrees `{Postcard Download} fuel r dst max_bytes buf :
  (length r < fuel)%nat -> zlen buf <= max_bytes < U64_MAX ->
  stream_agrees (recv_download_loop fuel r max_bytes buf (zlen buf))
    (recv_download_writer_loop fuel r dst max_bytes (zlen buf)) dst max_bytes buf.
Proof.
  revert r dst buf. induction fuel as [|fuel IH]; intros r dst buf Hf Hb; [lia|].
  cbn [recv_download_loop recv_download_writer_loop].
  pose proof (recv_not_fuel (T := Download) r) as Hnf.
  destruct (recv r) as [[[d| |e] r']|e] eqn:Hr; cbn [mbind result_bind];
    [|apply stream_agrees_done; lia|apply stream_agrees_stop; [done|lia]|apply stream_agrees_stop; [congruence|lia]].
  apply recv_shrinks in Hr. unfold account_download_chunk, saturating_add. rewrite <- zlen_app.
  destruct (Z.ltb_spec max_bytes (Z.min (zlen (buf ++ d)) U64_MAX)); cbn [mbind result_bind];
    [apply stream_agrees_stop; [done|lia]|].
  rewrite Z.min_l by lia. apply (stream_agrees_chunk _ _ _ _ _ d). apply IH; lia.
Qed.

(** A download is bounded whatever the guest sends: on any byte stream the
    call ends, writes at most [max_bytes] to the destination also when it fails,
    reports exactly the bytes written, and agrees with the collecting
    [recv_download] on the bytes, the remaining stream and the error. *)
Theorem download_to_writer_bounded `{Postcard Download} (r dst : list Z) (max_bytes : Z) :
  0 <= max_bytes < U64_MAX ->
  stream_agrees (recv_download r max_bytes) (recv_download_to_writer r dst max_bytes) dst max_bytes [].
Proof.
  intros Hm. unfold recv_download, recv_download_to_writer. change 0 with (zlen (@nil Z)).
  apply download_loop_agrees; [lia|done].
Qed.

(** postcard stores a byte vector with its length: the decoded chunk is no longer
    than the payload it came from. *)
Class UploadSizes `{Postcard Upload} := {
  chunk_size_le : forall p d, from_bytes p = Some (UChunk d) -> zlen d <= zlen p
}.

Lemma upload_loop_agrees `{Postcard Upload, !UploadSizes} fuel r dst max_bytes buf :
  (length r < fuel)%nat -> zlen buf <= max_bytes -> max_bytes + MAX_FRAME < 2^64 ->
  stream_agrees (recv_upload_loop fuel r max_bytes buf)
    (recv_upload_writer_loop fuel r dst max_bytes (zlen buf)) dst max_bytes buf.
Proof.
  revert r dst buf. induction fuel as [|fuel IH]; intros r dst buf Hf Hb Hm; [lia|].
  cbn [recv_upload_loop recv_upload_writer_loop].
  pose proof (recv_not_fuel (T := Upload) r) as Hnf.
  destruct (recv r) as [[[d|] r']|e] eqn:Hr; cbn [mbind result_bind];
    [|apply stream_agrees_done; lia|apply stream_agrees_stop; [congruence|lia]].
  destruct (recv_max _ _ _ Hr) as (p & Hp & Hpm). apply chunk_size_le in Hp. apply recv_shrinks in Hr.
  pose proof (zlen_nonneg (buf ++ d)). rewrite <- zlen_app.
  rewrite u64_id by (split; [done|rewrite zlen_app; lia]).
  destruct (Z.ltb_spec max_bytes (zlen (buf ++ d))); [apply stream_agrees_stop; [done|lia]|].
  apply (stream_agrees_chunk _ _ _ _ _ d). apply IH; lia.
Qed.

(** An upload is bounded whatever the host sends: as for downloads, with
    the guest's limit. *)
Theorem upload_to_writer_bounded `{Postcard Upload, !UploadSizes} (r dst : list Z) (max_bytes : Z) :
  0 <= max_bytes -> max_bytes + MAX_FRAME < 2^64 ->
  stream_agrees (recv_upload r max_bytes) (recv_upload_to_writer r dst max_bytes) dst max_bytes [].
Proof.
  intros Hm Hf. unfold recv_upload, recv_upload_to_writer. change 0 with (zlen (@nil Z)) at 1.
  apply upload_loop_agrees; [lia|done|done].
Qed.

(** ** Sending from a reader *)

Lemma send_upload_reads_spec `{Postcard Upload} (ds : list (list Z)) w total :
  Forall fits (UChunk <$> ds) -> Forall (fun d => d <> []) ds ->
  0 <= total -> total + zlen (concat ds) < 2^64 ->
  send_upload_reads w ds total = Ok (w ++ encs (UChunk <$> ds), total + zlen (concat ds)).
Proof.
  intros HF Hne. revert w total. induction Hne as [|d ds Hd Hne IH]; intros w total Ht Hb; simpl.
  - by rewrite app_nil_r, Z.add_0_r.
  - rewrite fmap_cons, Forall_cons in HF. destruct HF as [Hm HF]. cbn [concat] in Hb.
    rewrite zlen_app in *. destruct d as [|x d]; [done|].
    pose proof (zlen_nonneg (x :: d)). pose proof (zlen_nonneg (concat ds)).
    rewrite send_enc by done. cbn [mbind result_bind]. rewrite u64_id by lia. rewrite IH by (done || lia).
    unfold encs. rewrite fmap_cons. cbn [concat]. rewrite <- app_assoc, Z.add_assoc. done.
Qed.

(** Streaming a reader: whatever pieces the reader returns before its end
    of file, [send_upload_from_reader] reports their total length and the
    receiver collects their concatenation. *)
Theorem reader_upload_roundtrip `{PostcardLaws Upload} (ds : list (list Z)) (w rest : list Z) (max_bytes : Z) :
  Forall (fun d => d <> []) ds -> Forall fits (UChunk <$> ds) -> fits UDone ->
  zlen (concat ds) <= max_bytes < 2^64 ->
  exists s, send_upload_from_reader w ds = Ok (w ++ s, zlen (concat ds))
    /\ recv_upload (s ++ rest) max_bytes = Ok (concat ds, rest).
Proof.
  intros Hne HF Hd Hm. pose proof (zlen_nonneg (concat ds)).
  exists (encs (UChunk <$> ds) ++ enc UDone). split.
  - unfold send_upload_from_reader. rewrite send_upload_reads_spec by (done || lia).
    cbn [mbind result_bind]. by rewrite send_enc, <- app_assoc, Z.add_0_l by done.
  - unfold recv_upload. rewrite <- app_assoc.
    rewrite (recv_upload_stream ds); [|done|done|change (zlen []) with 0; lia|by apply stream_fuel].
    simpl. by rewrite (proj2 (Z.leb_le _ _)) by lia.
Qed.

(** ** An instance: a tag byte and the chunk *)

Module Sample.
#[global] Instance upload_postcard : Postcard Upload := {
  to_allocvec m := Some (match m with UChunk d => 0 :: d | UDone => [1] end);
  from_bytes p := match p with 0 :: d => Some (UChunk d) | [1] => Some UDone | _ => None end
}.
#[global] Instance upload_laws : PostcardLaws Upload.
Proof. split. intros [d|] p H; by injection H as <-. Qed.
#[global] Instance upload_sizes : UploadSizes.
Proof.
  split. intros q d H. destruct q as [|b q]; [done|]. destruct b as [|b|b]; simpl in H; try done.
  - injection H as ->. unfold zlen. simpl. lia.
  - by destruct b, q.
Qed.
#[global] Instance download_postcard : Postcard Download := {
  to_allocvec m := match m with
    | DChunk d => Some (0 :: d)
    | DDone => Some [1]
    | DError (mkErrorInfo Internal msg) => Some (2 :: str_bytes msg)
    | DError _ => None end;
  from_bytes p := match p with
    | 0 :: d => Some (DChunk d)
    | [1] => Some DDone
    | 2 :: m => Some (DError (internal (bytes_str m)))
    | _ => None end
}.
#[global] Instance download_laws : PostcardLaws Download.
Proof.
  split. intros [d| |[[] msg]] p H; try done; injection H as <-; [done..|]. simpl. by rewrite bytes_str_bytes.
Qed.

Lemma small_fits (d : list Z) : zlen d < MAX_FRAME -> fits (UChunk d).
Proof. intros Hd. exists (0 :: d). split; [done|]. unfold zlen in *. simpl. lia. Qed.

Lemma small_fits_down (d : list Z) : zlen d < MAX_FRAME -> fits (DChunk d).
Proof. intros Hd. exists (0 :: d). split; [done|]. unfold zlen in *. simpl. lia. Qed.

Lemma done_fits : fits UDone.
Proof. by exists [1]. Qed.

Lemma done_fits_down : fits DDone.
Proof. by exists [1]. Qed.

Lemma frame_roundtrip_witness :
  exists frame, send [] (UChunk [7; 8]) = Ok frame /\ recv (frame ++ [9]) = Ok (UChunk [7; 8], [9]).
Proof. apply (frame_roundtrip [] [9] (UChunk [7; 8]) [0; 7; 8]); reflexivity. Defined.

Lemma upload_roundtrip_witness :
  exists s, send_upload [] [1; 2; 3] 2 = Ok s /\ recv_upload (s ++ [9]) 3 = Ok ([1; 2; 3], [9]).
Proof.
  apply (upload_roundtrip [] [1; 2; 3] [9] 2 3); [reflexivity|discriminate| |apply done_fits].
  repeat constructor; apply small_fits; reflexivity.
Defined.

Lemma download_roundtrip_witness :
  exists s, send_download [] [1; 2; 3] 2 = Ok s /\ recv_download (s ++ [9]) 2 = Err (CIo EkFileTooLarge).
Proof.
  apply (download_roundtrip [] [1; 2; 3] [9] 2 2);
    [reflexivity|split; [discriminate|reflexivity]| |apply done_fits_down].
  repeat constructor; apply small_fits_down; reflexivity.
Defined.

Lemma download_to_writer_bounded_witness :
  stream_agrees (recv_download (enc (DChunk [1; 2; 3])) 2)
    (recv_download_to_writer (enc (DChunk [1; 2; 3])) [5] 2) [5] 2 [].
Proof. apply (download_to_writer_bounded (enc (DChunk [1; 2; 3])) [5] 2). split; [discriminate|reflexivity]. Defined.

Lemma upload_to_writer_bounded_witness :
  stream_agrees (recv_upload (enc (UChunk [1; 2; 3])) 2)
    (recv_upload_to_writer (enc (UChunk [1; 2; 3])) [5] 2) [5] 2 [].
Proof. apply (upload_to_writer_bounded (enc (UChunk [1; 2; 3])) [5] 2); [discriminate|reflexivity]. Defined.

Lemma reader_upload_roundtrip_witness :
  exists s, send_upload_from_reader [] [[1]; [2; 3]] = Ok (s, 3)
    /\ recv_upload (s ++ []) 5 = Ok ([1; 2; 3], []).
Proof.
  apply (reader_upload_roundtrip [[1]; [2; 3]] [] [] 5);
    [repeat constructor; discriminate| |apply done_fits|split; [discriminate|reflexivity]].
  repeat constructor; apply small_fits; reflexivity.
Defined.
End Sample.
