(* ===== verification/Boot.v ===== *)
(** * The guest boot configuration

    [crates/bux-proto/src/boot.rs]: the volumes and network mode the host hands
    to the guest agent, the check on guest mount points, and the environment
    assignment that has to survive the kernel command line.  [serde_json] is a
    parameter.  The kernel's [next_arg] is written out from the reference
    implementation in the file's tests. *)

From S2P Require Import Prelude Paths.

Definition GUEST_BOOT_CONFIG_ENV : string := "BUX_GUEST_CONFIG".

Inductive GuestNetworkMode : Type := NetEnabled | NetDisabled.

Record GuestVolume : Type := mkGuestVolume {
  gv_tag : string;
  gv_guest_path : string;
  gv_read_only : bool
}.

Record GuestBootConfig : Type := mkBootConfig {
  bc_network : GuestNetworkMode;
  bc_mitm_ca_pem : option string;
  bc_vm_id : string;
  bc_volumes : list GuestVolume
}.

(** The messages of the check, by what they report. *)
Inductive path_error : Type :=
  | TagEmpty
  | MustBeAbsolute (p : string)
  | MustNotContainParent (p : string)
  | MustNotBeRoot (p : string).

(** The component loop: [saw_name] so far. *)
Fixpoint check_components (guest_path : string) (cs : path) (saw_name : bool) : result path_error bool :=
  match cs with
  | [] => Ok saw_name
  | ParentDir :: _ => Err (MustNotContainParent guest_path)
  | Normal _ :: cs => check_components guest_path cs true
  | (RootDir | CurDir) :: cs => check_components guest_path cs saw_name
  end.

Definition validate_guest_mount_path (guest_path : string) : result path_error () :=
  match guest_path with
  | String "/" _ =>
    saw_name ← check_components guest_path (components guest_path) false;
    if negb saw_name then Err (MustNotBeRoot guest_path) else Ok ()
  | _ => Err (MustBeAbsolute guest_path)
  end.

Definition validate (v : GuestVolume) : result path_error () :=
  if decide (gv_tag v = "")%string then Err TagEmpty
  else validate_guest_mount_path (gv_guest_path v).

(** [json.replace(' ', "\\u0020")]. *)
Fixpoint cmdline_safe_json (json : string) : string :=
  match json with
  | EmptyString => EmptyString
  | String " " r => "\u0020" +:+ cmdline_safe_json r
  | String c r => String c (cmdline_safe_json r)
  end.

Definition GuestBootConfig_new (vm_id : string) (network : GuestNetworkMode) : GuestBootConfig :=
  mkBootConfig network None vm_id [].

Section Serde.
(** [serde_json::to_string] and [from_str] of the configuration. *)
Variable to_string : GuestBootConfig -> option string.
Variable from_str : string -> option GuestBootConfig.

Inductive env_error : Type := SerialiseFailed | MissingEnv | InvalidEnv.

Definition to_env_assignment (c : GuestBootConfig) : result env_error string :=
  json ← ok_or (to_string c) SerialiseFailed;
  Ok (GUEST_BOOT_CONFIG_ENV +:+ "=" +:+ cmdline_safe_json json).

(** [env] is the process environment. *)
Definition from_env (env : string -> option string) : result env_error GuestBootConfig :=
  raw ← ok_or (env GUEST_BOOT_CONFIG_ENV) MissingEnv;
  ok_or (from_str raw) InvalidEnv.
End Serde.

(** ** The kernel's command-line tokenizer, [lib/cmdline.c] [next_arg] *)

Definition kernel_isspace (b : Z) : bool :=
  (b =? 32) || (b =? 9) || (b =? 10) || (b =? 13) || (b =? 12) || (b =? 11).

(** The scan loop from [args]; returns [i] and [equals]. *)
Fixpoint scan_arg (l : list Z) (i equals : nat) (in_quote : bool) : option (nat * nat) :=
  match l with
  | [] => None
  | b :: r =>
    if b =? 0 then Some (i, equals)
    else if kernel_isspace b && negb in_quote then Some (i, equals)
    else
      let equals := if Nat.eqb equals 0 && (b =? 61) then i else equals in
      let in_quote := if b =? 34 then negb in_quote else in_quote in
      scan_arg r (S i) equals in_quote
  end.

(** The bytes up to the first NUL. *)
Fixpoint until_nul (l : list Z) : option (list Z) :=
  match l with
  | [] => None
  | b :: r => if b =? 0 then Some [] else cons b <$> until_nul r
  end.

Definition nul_if_quote (buf : list Z) (j : nat) : list Z :=
  if decide (buf !! j = Some 34) then <[j := 0]> buf else buf.

Definition next_arg_val (cmdline : string) : option string :=
  let buf := str_bytes cmdline ++ [0] in
  let quoted := bool_decide (head buf = Some 34) in
  let args := if quoted then 1%nat else 0%nat in
  '(i, equals) ← scan_arg (drop args buf) 0 0 quoted;
  if Nat.eqb equals 0 then None else
  let buf := <[(args + equals)%nat := 0]> buf in
  let val := (args + equals + 1)%nat in
  let '(buf, val) :=
    if decide (buf !! val = Some 34)
    then (if (0 <? i)%nat then nul_if_quote buf (args + i - 1) else buf, S val)
    else (buf, val) in
  let buf := if quoted && (0 <? i)%nat then nul_if_quote buf (args + i - 1) else buf in
  let buf := if decide (is_Some (buf !! (args + i)%nat)) then <[(args + i)%nat := 0]> buf else buf in
  bytes ← until_nul (drop val buf);
  from_utf8 bytes.

(** ** Mount points *)

Definition names_entry (c : component) : bool := match c with Normal _ => true | _ => false end.

Lemma check_components_spec g cs saw b :
  check_components g cs saw = Ok b <-> (ParentDir ∉ cs) /\ b = saw || existsb names_entry cs.
Proof.
  revert saw. induction cs as [|c cs IH]; intros saw; simpl.
  - rewrite orb_false_r. split; [intros [= ->]; split; [apply not_elem_of_nil|done]|by intros [_ ->]].
  - destruct c; simpl; rewrite ?IH, not_elem_of_cons; rewrite ?orb_true_r; simpl; intuition congruence.
Qed.

Lemma components_relative c r :
  c <> "/"%char -> components (String c r) = rel_components (split_on "/" (String c r)).
Proof.
  intros Hc. unfold components.
  destruct c as [[] [] [] [] [] [] [] []]; first [reflexivity | by destruct Hc].
Qed.

Lemma omap_not_absolute l : is_absolute (omap comp_of_part l) = false.
Proof. induction l as [|x l IH]; [done|]. simpl. unfold comp_of_part. by repeat case_decide. Qed.

Lemma relative_not_absolute l : is_absolute (rel_components l) = false.
Proof. unfold rel_components. repeat case_match; subst; try done; apply omap_not_absolute. Qed.

(** Guest mount points: a path is accepted exactly when it is absolute, has
    no [..] component and names at least one entry, so a volume can be mounted
    neither over the guest's root nor through a parent directory. *)
Theorem mount_path_safe (guest_path : string) :
  validate_guest_mount_path guest_path = Ok ()
  <-> (is_absolute (components guest_path) = true /\ (ParentDir ∉ components guest_path)
       /\ existsb names_entry (components guest_path) = true).
Proof.
  assert (Habs : is_absolute (components guest_path) = true <-> exists r, guest_path = String "/" r).
  { split; [|by intros [r ->]]. destruct guest_path as [|c r]; [done|].
    destruct (decide (c = "/"%char)) as [->|Hc]; [by exists r|].
    intros H. exfalso. rewrite components_relative in H by done. by rewrite relative_not_absolute in H. }
  rewrite Habs. split.
  - intros H. unfold validate_guest_mount_path in H.
    destruct guest_path as [|c r]; [done|].
    destruct (decide (c = "/"%char)) as [->|Hc].
    + apply bind_Ok_inv in H as (b & Hb & H). apply check_components_spec in Hb as [Hp ->].
      destruct (existsb _ _); [|done]. split; [by exists r|done].
    + exfalso. destruct c as [[] [] [] [] [] [] [] []]; first [discriminate H | by destruct Hc].
  - intros ([r Hr] & Hp & Hn). unfold validate_guest_mount_path.
    pose proof (proj2 (check_components_spec guest_path (components guest_path) false true)) as Hc.
    rewrite Hn in Hc. specialize (Hc (conj Hp eq_refl)). rewrite Hr in *. by rewrite Hc.
Qed.

(** ** The environment assignment *)

Definition clean (b : Z) : Prop := b <> 0 /\ kernel_isspace b = false.

(** Escaping leaves no blank. *)
Lemma cmdline_safe_clean json :
  Forall (fun b => b = 32 \/ clean b) (str_bytes json) -> Forall clean (str_bytes (cmdline_safe_json json)).
Proof.
  induction json as [|c json IH]; intros H; [constructor|].
  apply Forall_cons in H as [Hc H]. specialize (IH H).
  destruct (decide (c = " "%char)) as [->|Hne].
  - change (cmdline_safe_json (String " " json)) with ("\u0020" +:+ cmdline_safe_json json).
    rewrite str_bytes_app. apply Forall_app. split; [|done]. repeat constructor; done.
  - replace (cmdline_safe_json (String c json)) with (String c (cmdline_safe_json json))
      by (destruct c as [[] [] [] [] [] [] [] []]; done).
    constructor; [|done]. destruct Hc as [Hc|]; [|done]. exfalso. apply Hne.
    rewrite <- (ascii_of_byte_of c), Hc. done.
Qed.

(** Without blanks the scan runs to the terminator, whatever quotes it meets. *)
Lemma scan_arg_clean l i equals q :
  Forall clean l ->
  exists e, scan_arg (l ++ [0]) i equals q = Some ((i + length l)%nat, e)
    /\ (equals <> 0%nat -> e = equals).
Proof.
  intros H. revert i equals q. induction H as [|b l [Hb Hs] H IH]; intros i equals q; simpl.
  - exists equals. rewrite Nat.add_0_r. done.
  - rewrite (proj2 (Z.eqb_neq _ _)) by done. rewrite Hs. simpl.
    destruct (IH (S i) (if Nat.eqb equals 0 && (b =? 61) then i else equals)
                (if b =? 34 then negb q else q)) as (e & -> & He).
    exists e. split; [do 2 f_equal; lia|]. intros Hne. rewrite He; destruct (Nat.eqb_spec equals 0); done.
Qed.

Lemma scan_arg_key k l i q :
  Forall clean k -> Forall (fun b => b <> 61) k -> (0 < i + length k)%nat -> Forall clean l ->
  exists n, scan_arg (k ++ 61 :: l ++ [0]) i 0 q = Some (n, (i + length k)%nat)
    /\ n = (i + length k + 1 + length l)%nat.
Proof.
  intros Hk. revert i q. induction Hk as [|b k [Hb Hs] Hk IH]; intros i q He Hp Hl; simpl in *.
  - rewrite Nat.add_0_r in *. destruct (scan_arg_clean l (S i) i q Hl) as (e & -> & Heq).
    rewrite Heq by lia.
    eexists. split; [done|]. lia.
  - apply Forall_cons in He as [He1 He]. rewrite (proj2 (Z.eqb_neq b 0)) by done. rewrite Hs. simpl.
    rewrite (proj2 (Z.eqb_neq b 61)) by done.
    destruct (IH (S i) (if b =? 34 then negb q else q)) as (n & -> & ->); [done|lia|done|].
    eexists. split; [do 2 f_equal; lia|]. lia.
Qed.

Lemma until_nul_clean s r : Forall clean s -> until_nul (s ++ 0 :: r) = Some s.
Proof.
  induction 1 as [|b s [Hb _] H IH]; simpl; [done|].
  rewrite (proj2 (Z.eqb_neq b 0)) by done. by rewrite IH.
Qed.

Lemma list_insert_mid {A} (l k : list A) x y : <[length l := y]> (l ++ x :: k) = l ++ y :: k.
Proof. rewrite <- (Nat.add_0_r (length l)). by rewrite insert_app_r. Qed.

Lemma lookup_mid {A} (l k : list A) x : (l ++ x :: k) !! length l = Some x.
Proof. by rewrite list_lookup_middle. Qed.

Lemma nul_if_quote_mid l k : nul_if_quote (l ++ 34 :: k) (length l) = l ++ 0 :: k.
Proof. unfold nul_if_quote. by rewrite lookup_mid, decide_True, list_insert_mid. Qed.

Definition DQ : string := String (Ascii.Ascii false true false false false true false false) EmptyString.

(** libkrun's [collapse_str_array]: each assignment in quotes. *)
Definition wrap (s : string) : string := DQ +:+ s +:+ DQ.

(** A wrapped [KEY=VALUE] without blanks comes back whole. *)
Lemma next_arg_wrapped key s :
  Forall clean (str_bytes key) -> Forall (fun b => b <> 61) (str_bytes key) -> key <> ""%string ->
  Forall clean (str_bytes s) -> head (str_bytes s) <> Some 34 -> s <> ""%string ->
  utf8_valid (str_bytes s) = true ->
  next_arg_val (wrap (key +:+ "=" +:+ s)) = Some s.
Proof.
  intros Hk Hk61 Hkne Hs Hsq Hsne Hu. unfold next_arg_val.
  assert (Hb : str_bytes (wrap (key +:+ "=" +:+ s)) ++ [0]
    = 34 :: str_bytes key ++ 61 :: (str_bytes s ++ [34]) ++ [0]).
  { unfold wrap. rewrite !str_bytes_app. simpl. by rewrite <- !app_assoc. }
  rewrite Hb. cbv zeta. cbn [head]. rewrite bool_decide_eq_true_2 by done. cbv iota. cbn [drop]. rewrite drop_0.
  assert (Hc : Forall clean (str_bytes s ++ [34])) by (apply Forall_app; split; [done|by repeat constructor]).
  assert (Hkl : (0 < length (str_bytes key))%nat) by (destruct key; [done|simpl; lia]).
  destruct (scan_arg_key (str_bytes key) (str_bytes s ++ [34]) 0 true Hk Hk61) as (n & -> & ->);
    [simpl; lia|done|]. cbn [mbind option_bind].
  set (kb := str_bytes key) in *. set (sb := str_bytes s) in *.
  rewrite (proj2 (Nat.eqb_neq _ _)) by (simpl; lia).
  change (34%Z :: kb ++ 61 :: (sb ++ [34%Z]) ++ [0%Z]) with ((34%Z :: kb) ++ 61 :: (sb ++ [34%Z]) ++ [0%Z]).
  replace (1 + (0 + length kb))%nat with (length (34%Z :: kb)) by (simpl; lia). rewrite list_insert_mid.
  replace (length (34%Z :: kb) + 1)%nat with (length ((34%Z :: kb) ++ [0%Z])) by (rewrite length_app; simpl; lia).
  assert (Hbuf : (34%Z :: kb) ++ 0%Z :: (sb ++ [34%Z]) ++ [0%Z] = ((34%Z :: kb) ++ 0%Z :: sb) ++ 34%Z :: [0%Z])
    by (by rewrite <- !app_assoc).
  assert (Hval : ((34%Z :: kb) ++ 0%Z :: (sb ++ [34%Z]) ++ [0%Z]) !! length ((34%Z :: kb) ++ [0%Z]) <> Some 34).
  { change (0%Z :: (sb ++ [34%Z]) ++ [0%Z]) with ([0%Z] ++ (sb ++ [34%Z]) ++ [0%Z]). rewrite app_assoc.
    rewrite lookup_app_r, Nat.sub_diag by lia.
    destruct s as [|c s']; [done|]. unfold sb in *. simpl in *. congruence. }
  rewrite decide_False by done. cbn [andb].
  rewrite (proj2 (Nat.ltb_lt _ _)) by (rewrite length_app; simpl; lia). rewrite Hbuf.
  replace (1 + (0 + length kb + 1 + length (sb ++ [34%Z])) - 1)%nat with (length ((34%Z :: kb) ++ 0%Z :: sb))
    by (rewrite !length_app; simpl; lia).
  rewrite nul_if_quote_mid.
  replace (1 + (0 + length kb + 1 + length (sb ++ [34%Z])))%nat with (length (((34%Z :: kb) ++ 0%Z :: sb) ++ [0%Z]))
    by (rewrite !length_app; simpl; lia).
  change (0%Z :: [0%Z]) with ([0%Z] ++ [0%Z]). rewrite app_assoc.
  rewrite lookup_mid, decide_True by (by eexists). rewrite list_insert_mid.
  replace ((((34%Z :: kb) ++ 0%Z :: sb) ++ [0%Z]) ++ [0%Z]) with (((34%Z :: kb) ++ [0%Z]) ++ sb ++ 0%Z :: [0%Z])
    by (by rewrite <- !app_assoc).
  rewrite drop_app_length, until_nul_clean by done. cbn [mbind option_bind]. by apply from_utf8_str.
Qed.

(** ** Reading the escaped JSON *)

(** Where the reader of a JSON text is after a prefix of it: outside the
    strings, in one, after a backslash in one, or before the [n] remaining hex
    digits of an escape. *)
Inductive json_pos : Type := Outside | Inside | AfterBackslash | HexDigits (n : nat).

Definition json_step (p : json_pos) (c : ascii) : json_pos :=
  match p with
  | Outside => if decide (byte_of_ascii c = 34) then Inside else Outside
  | Inside => if decide (byte_of_ascii c = 34) then Outside
              else if decide (byte_of_ascii c = 92) then AfterBackslash else Inside
  | AfterBackslash => if decide (c = "u"%char) then HexDigits 4 else Inside
  | HexDigits (S (S n)) => HexDigits (S n)
  | HexDigits _ => Inside
  end.

Fixpoint json_walk (p : json_pos) (s : string) : json_pos :=
  match s with EmptyString => p | String c s => json_walk (json_step p c) s end.

Definition json_at (s : string) : json_pos := json_walk Outside s.

(** RFC 8259, section 7: the six-character escape of an ASCII character. *)
Definition hex_digit (n : Z) : ascii := ascii_of_byte (if n <? 10 then 48 + n else 87 + n).

Definition json_escape (c : ascii) : string :=
  "\u00" +:+ String (hex_digit (byte_of_ascii c / 16)) (String (hex_digit (byte_of_ascii c mod 16)) "").

(** What the code relies on of [serde_json]'s compact writer and reader: the
    writer never fails on this type, gives an object, valid UTF-8, no raw control character and
    no blank outside the strings; the reader reads the text back, and an
    escape of a printable character in a string as the character. *)
Class JsonLaws (to_string : GuestBootConfig -> option string)
    (from_str : string -> option GuestBootConfig) : Prop := {
  json_total c : is_Some (to_string c);
  json_read_back c j : to_string c = Some j -> from_str j = Some c;
  json_object c j : to_string c = Some j -> head (str_bytes j) = Some 123;
  json_utf8 c j : to_string c = Some j -> utf8_valid (str_bytes j) = true;
  json_no_control c j : to_string c = Some j -> Forall (fun b => 32 <= b) (str_bytes j);
  json_compact c j a b :
    to_string c = Some j -> j = a +:+ " " +:+ b -> json_at a = Inside;
  json_unescape a ch b :
    json_at a = Inside -> 32 <= byte_of_ascii ch < 127 ->
    byte_of_ascii ch <> 34 -> byte_of_ascii ch <> 92 ->
    utf8_valid (str_bytes (a +:+ String ch b)) = true ->
    from_str (a +:+ json_escape ch +:+ b) = from_str (a +:+ String ch b)
}.

(** An ASCII byte never continues a sequence. *)
Lemma utf8_valid_ascii l x r :
  0 <= x < 128 -> utf8_valid (l ++ x :: r) = utf8_valid l && utf8_valid r.
Proof.
  intros Hx. remember (length l) as n eqn:Hn. revert l Hn.
  induction n as [n IH] using lt_wf_ind. intros l ->.
  assert (Hc : is_cont x = false) by (unfold is_cont; apply andb_false_iff; left; lia).
  assert (Hlo : forall (c : bool) y, (128 <=? y) = true -> ((if c then y else 128) <=? x) = false)
    by (intros [] y ?; lia).
  assert (Hr : forall l', (length l' < length l)%nat -> utf8_valid (l' ++ x :: r) = utf8_valid l' && utf8_valid r)
    by (intros l' ?; by eapply IH).
  destruct l as [|b0 l]; simpl; [by rewrite (proj2 (Z.ltb_lt x 128)) by lia|].
  destruct (b0 <? 128); [apply Hr; simpl; lia|].
  destruct l as [|b1 l]; simpl.
  { rewrite Hc, !Hlo by done. destruct r as [|? [|? r]]; simpl; repeat case_match; rewrite ?andb_false_r; done. }
  destruct (_ && _); [rewrite Hr by (simpl; lia); by rewrite andb_assoc|].
  destruct l as [|b2 l]; simpl.
  { rewrite Hc. destruct r; simpl; repeat case_match; rewrite ?andb_false_r; done. }
  destruct (_ && _); [rewrite Hr by (simpl; lia); by rewrite !andb_assoc|].
  destruct l as [|b3 l]; simpl; [by rewrite Hc, ?andb_false_r|].
  rewrite Hr by (simpl; lia). by rewrite !andb_assoc.
Qed.

Lemma json_walk_app p a b : json_walk p (a +:+ b) = json_walk (json_walk p a) b.
Proof. revert p. induction a as [|c a IH]; intros p; simpl; [done|apply IH]. Qed.

Lemma str_app_assoc (a b c : string) : (a +:+ b) +:+ c = a +:+ (b +:+ c).
Proof. induction a as [|x a IH]; [done|].
  change (String x ((a +:+ b) +:+ c) = String x (a +:+ (b +:+ c))). by rewrite IH.
Qed.

Lemma str_app_nil (a : string) : a +:+ "" = a.
Proof.
  induction a as [|x a IH]; [done|]. change (String x (a +:+ "") = String x a). by rewrite IH.
Qed.

(** Escaping leaves UTF-8. *)
Lemma utf8_escape a b :
  utf8_valid (str_bytes (a +:+ String " " b)) = true -> utf8_valid (str_bytes (a +:+ "\u0020" +:+ b)) = true.
Proof.
  rewrite !str_bytes_app. cbn [str_bytes String.append app]. rewrite !(utf8_valid_ascii (str_bytes a)) by (by vm_compute).
  intros H. exact H.
Qed.

Lemma cmdline_safe_utf8 a b :
  utf8_valid (str_bytes (a +:+ b)) = true -> utf8_valid (str_bytes (a +:+ cmdline_safe_json b)) = true.
Proof.
  revert a. induction b as [|c b IH]; intros a H; [done|].
  destruct (decide (c = " "%char)) as [->|Hne].
  - change (cmdline_safe_json (String " " b)) with ("\u0020" +:+ cmdline_safe_json b).
    rewrite <- str_app_assoc. apply IH. rewrite str_app_assoc. by apply utf8_escape.
  - replace (cmdline_safe_json (String c b)) with (String c "" +:+ cmdline_safe_json b)
      by (destruct c as [[] [] [] [] [] [] [] []]; done).
    rewrite <- str_app_assoc. apply IH. by rewrite str_app_assoc.
Qed.

Section Reading.
Context (to_string : GuestBootConfig -> option string) (from_str : string -> option GuestBootConfig).
Context `{!JsonLaws to_string from_str}.

(** The reader takes the escaped text for the text: one blank at a time, [a0]
    being read and [a] its escaped form. *)
Lemma from_str_safe a0 a b :
  json_at a = json_at a0 -> utf8_valid (str_bytes (a +:+ b)) = true ->
  (forall x y, b = x +:+ " " +:+ y -> json_at (a0 +:+ x) = Inside) ->
  from_str (a +:+ cmdline_safe_json b) = from_str (a +:+ b).
Proof.
  revert a0 a. induction b as [|c b IH]; intros a0 a Ha Hu Hb; [done|].
  assert (Hstep : forall x y, b = x +:+ " " +:+ y -> json_at ((a0 +:+ String c "") +:+ x) = Inside).
  { intros x y ->. rewrite str_app_assoc. by apply (Hb (String c x) y). }
  destruct (decide (c = " "%char)) as [->|Hne].
  - assert (Hin : json_at a0 = Inside) by (rewrite <- (Hb "" b)%string by done; by rewrite str_app_nil).
    change (cmdline_safe_json (String " " b)) with ("\u0020" +:+ cmdline_safe_json b).
    rewrite <- str_app_assoc, (IH (a0 +:+ String " " "")); [|
      unfold json_at in *; rewrite !json_walk_app, Ha, Hin; done|
      rewrite str_app_assoc; by apply utf8_escape|done].
    rewrite str_app_assoc. apply (json_unescape a " "%char b); [congruence|vm_compute; done..|done].
  - replace (cmdline_safe_json (String c b)) with (String c "" +:+ cmdline_safe_json b)
      by (destruct c as [[] [] [] [] [] [] [] []]; done).
    rewrite <- str_app_assoc, (IH (a0 +:+ String c "")); [by rewrite str_app_assoc| |by rewrite str_app_assoc|done].
    unfold json_at in *. by rewrite !json_walk_app, Ha.
Qed.
End Reading.

(** C15.  The boot configuration survives the kernel command line: for every
    configuration the host builds one assignment to [BUX_GUEST_CONFIG]; wrapped in
    quotes as libkrun does, the kernel's tokenizer gives its value back whole,
    spaces and quotes included; and the guest that finds that value in its
    environment reads the configuration the host had. *)
Theorem env_assignment_survives_cmdline (to_string : GuestBootConfig -> option string)
    (from_str : string -> option GuestBootConfig) (L : JsonLaws to_string from_str)
    (c : GuestBootConfig) (env : string -> option string) :
  exists a raw, to_env_assignment to_string c = Ok a
    /\ a = GUEST_BOOT_CONFIG_ENV +:+ "=" +:+ raw
    /\ next_arg_val (wrap a) = Some raw
    /\ (env GUEST_BOOT_CONFIG_ENV = next_arg_val (wrap a) -> from_env from_str env = Ok c).
Proof.
  destruct (json_total c) as [json Hj]. pose proof (json_object _ _ Hj) as Hh.
  assert (Hv : next_arg_val (wrap (GUEST_BOOT_CONFIG_ENV +:+ "=" +:+ cmdline_safe_json json))
    = Some (cmdline_safe_json json)).
  { apply next_arg_wrapped; try (by repeat constructor).
    - apply cmdline_safe_clean. eapply Forall_impl; [by apply (json_no_control c)|]. intros b Hb. simpl in Hb.
      destruct (decide (b = 32)) as [|Hne]; [by left|right]. split; [lia|].
      unfold kernel_isspace. repeat (apply orb_false_iff; split); lia.
    - destruct json as [|x json]; [done|]. simpl in Hh.
      destruct x as [[] [] [] [] [] [] [] []]; vm_compute in Hh |- *; congruence.
    - destruct json as [|x json]; [done|].
      destruct x as [[] [] [] [] [] [] [] []]; discriminate.
    - apply (cmdline_safe_utf8 ""). by apply (json_utf8 c). }
  exists (GUEST_BOOT_CONFIG_ENV +:+ "=" +:+ cmdline_safe_json json), (cmdline_safe_json json).
  unfold to_env_assignment. rewrite Hj. do 3 (split; [done|]).
  rewrite Hv. intros He. unfold from_env. rewrite He. cbn [ok_or mbind result_bind].
  assert (Hsafe : from_str (cmdline_safe_json json) = from_str json)
    by (apply (from_str_safe to_string from_str "" "" json); [done|by apply (json_utf8 c)|
      intros x y E; by apply (json_compact c json x y)]).
  by rewrite Hsafe, (json_read_back c json).
Qed.

(** ** A codec that obeys the laws *)

Module SampleJson.
#[export] Instance network_eq_dec : EqDecision GuestNetworkMode.
Proof. solve_decision. Defined.

#[export] Instance network_countable : Countable GuestNetworkMode.
Proof.
  refine (inj_countable' (fun m => match m with NetEnabled => true | NetDisabled => false end)
    (fun b : bool => if b then NetEnabled else NetDisabled) _). by intros [].
Defined.

#[export] Instance volume_eq_dec : EqDecision GuestVolume.
Proof. solve_decision. Defined.

#[export] Instance volume_countable : Countable GuestVolume.
Proof.
  refine (inj_countable' (fun v => (gv_tag v, gv_guest_path v, gv_read_only v))
    (fun '(t, g, r) => mkGuestVolume t g r) _). by intros [].
Defined.

#[export] Instance config_eq_dec : EqDecision GuestBootConfig.
Proof. solve_decision. Defined.

#[export] Instance config_countable : Countable GuestBootConfig.
Proof.
  refine (inj_countable' (fun c => (bc_network c, bc_mitm_ca_pem c, bc_vm_id c, bc_volumes c))
    (fun '(n, p, i, v) => mkBootConfig n p i v) _). by intros [].
Defined.

(** A number as a word of blanks and crosses, ended by the closing quote. *)
Fixpoint word (p : positive) : string :=
  match p with
  | xH => DQ +:+ "}"
  | xI p => String " " (word p)
  | xO p => String "x" (word p)
  end.

Fixpoint number (s : string) : positive :=
  match s with
  | String " " s => xI (number s)
  | String "x" s => xO (number s)
  | _ => xH
  end.

Lemma number_word p : number (word p) = p.
Proof. induction p as [p IH|p IH|]; [| |done]; simpl; by rewrite IH. Qed.

Definition to_string (c : GuestBootConfig) : option string :=
  Some ("{" +:+ DQ +:+ word (encode c)).

(** The reader's escapes: what is pending of one, and what a character completes. *)
Definition hex_value (c : ascii) : Z :=
  let b := byte_of_ascii c in if b <? 65 then b - 48 else b - 87.

Definition decode_pending (s : string) : string :=
  match s with
  | String _ (String _ (String _ (String _ (String h (String l EmptyString))))) =>
    String (ascii_of_byte (16 * hex_value h + hex_value l)) ""
  | _ => s
  end.

Definition read_step (p : json_pos) (pending : string) (c : ascii) : string * string :=
  match p, json_step p c with
  | Outside, _ => ("", String c "")
  | Inside, AfterBackslash => (String c "", "")
  | Inside, _ => ("", String c "")
  | _, Inside => ("", decode_pending (pending +:+ String c ""))
  | _, _ => (pending +:+ String c "", "")
  end.

Fixpoint unescape (p : json_pos) (pending s : string) : string :=
  match s with
  | EmptyString => pending
  | String c s =>
    let '(pending', out) := read_step p pending c in out +:+ unescape (json_step p c) pending' s
  end.

Definition from_str (s : string) : option GuestBootConfig :=
  match unescape Outside "" s with
  | String _ (String _ w) => decode (number w)
  | _ => None
  end.

Definition in_text (p : json_pos) : Prop := p = Inside \/ p = Outside.

Lemma read_step_pending p pending c :
  in_text (json_step p c) -> (read_step p pending c).1 = "".
Proof.
  intros H. destruct p as [| | |n]; [done| |simpl|simpl]; simpl in *;
    [..|destruct n as [|[|n]]]; repeat case_decide; try done; by destruct H.
Qed.

Lemma unescape_app p pending a :
  (in_text p -> pending = "") ->
  exists out pending', (in_text (json_walk p a) -> pending' = "")
    /\ forall x, unescape p pending (a +:+ x) = out +:+ unescape (json_walk p a) pending' x.
Proof.
  revert p pending. induction a as [|c a IH]; intros p pending Hp; [by exists "", pending|].
  destruct (read_step p pending c) as [pending' out] eqn:E.
  destruct (IH (json_step p c) pending') as (out' & pending'' & Hi & He).
  { intros Hs. pose proof (read_step_pending p pending c Hs) as H. by rewrite E in H. }
  exists (out +:+ out'), pending''. split; [done|]. intros x.
  change (unescape p pending (String c a +:+ x)) with (unescape p pending (String c (a +:+ x))).
  cbn [unescape json_walk]. by rewrite E, He, str_app_assoc.
Qed.

Lemma unescape_escape ch b :
  32 <= byte_of_ascii ch < 127 -> unescape Inside "" (json_escape ch +:+ b) = String ch (unescape Inside "" b).
Proof.
  intros H. destruct ch as [[] [] [] [] [] [] [] []]; first [reflexivity | exfalso; vm_compute in H; by destruct H].
Qed.

Lemma unescape_char ch b :
  byte_of_ascii ch <> 34 -> byte_of_ascii ch <> 92 ->
  unescape Inside "" (String ch b) = String ch (unescape Inside "" b).
Proof. intros Hq Hb. cbn [unescape read_step json_step]. by rewrite !decide_False by done. Qed.

(** A word is read as it is written. *)
Lemma unescape_word q : unescape Inside "" (word q) = word q.
Proof.
  induction q as [q IH|q IH|]; [| |done].
  - change (String " " (unescape Inside "" (word q)) = String " " (word q)). by rewrite IH.
  - change (String "x" (unescape Inside "" (word q)) = String "x" (word q)). by rewrite IH.
Qed.

Lemma word_bytes q : Forall (fun b => 32 <= b < 128) (str_bytes (word q)).
Proof. induction q; repeat (constructor; [by vm_compute|]); done. Qed.

Lemma ascii_utf8 l : Forall (fun b => 32 <= b < 128) l -> utf8_valid l = true.
Proof.
  induction 1 as [|b l Hb H IH]; [done|]. simpl. by rewrite (proj2 (Z.ltb_lt b 128)) by lia.
Qed.

Lemma word_compact q a b : word q = a +:+ " " +:+ b -> json_walk Inside a = Inside.
Proof.
  revert a. induction q as [q IH|q IH|]; intros a H.
  - destruct a as [|c a]; [done|]. injection H as <- H. exact (IH a H).
  - destruct a as [|c a]; [done|]. injection H as <- H. exact (IH a H).
  - destruct a as [|c [|d [|e a]]]; try discriminate H.
Qed.

#[export] Instance sample_laws : JsonLaws to_string from_str.
Proof.
  split.
  - intros c. by eexists.
  - intros c j [= <-]. unfold from_str.
    change (unescape Outside "" ("{" +:+ DQ +:+ word (encode c)))
      with (String "{" (DQ +:+ unescape Inside "" (word (encode c)))).
    rewrite unescape_word. change (decode (number (word (encode c))) = Some c).
    rewrite number_word. apply decode_encode.
  - by intros c j [= <-].
  - intros c j [= <-]. apply ascii_utf8. do 2 (constructor; [by vm_compute|]). apply word_bytes.
  - intros c j [= <-]. do 2 (constructor; [by vm_compute|]).
    eapply Forall_impl; [apply word_bytes|]. simpl. lia.
  - intros c j a b [= <-] H. destruct a as [|x a]; [done|]. injection H as <- H.
    destruct a as [|y a]; [done|]. injection H as <- H. by apply (word_compact (encode c) a b).
  - intros a ch b Ha Hr Hq Hb _. unfold from_str.
    destruct (unescape_app Outside "" a) as (out & pending & Hp & He); [done|].
    rewrite !He. unfold json_at in Ha. rewrite Ha in *. rewrite Hp by (by left).
    by rewrite unescape_escape, unescape_char.
Qed.
End SampleJson.

Lemma env_assignment_survives_cmdline_witness :
  let pem := "-----BEGIN CERTIFICATE-----" in
  let c := mkBootConfig NetEnabled (Some pem) "vm1" [mkGuestVolume "v0" "/data dir" false] in
  exists a raw, to_env_assignment SampleJson.to_string c = Ok a
    /\ a = GUEST_BOOT_CONFIG_ENV +:+ "=" +:+ raw
    /\ next_arg_val (wrap a) = Some raw
    /\ from_env SampleJson.from_str (fun k => if decide (k = GUEST_BOOT_CONFIG_ENV) then next_arg_val (wrap a) else None) = Ok c.
Proof.
  intros pem c.
  assert (H : forall env, exists a raw, to_env_assignment SampleJson.to_string c = Ok a
    /\ a = GUEST_BOOT_CONFIG_ENV +:+ "=" +:+ raw
    /\ next_arg_val (wrap a) = Some raw
    /\ (env GUEST_BOOT_CONFIG_ENV = next_arg_val (wrap a) -> from_env SampleJson.from_str env = Ok c))
    by (intros env; apply (env_assignment_survives_cmdline _ _ SampleJson.sample_laws)).
  destruct (H (fun _ => None)) as (a & raw & Ha & Hr & Hv & _). exists a, raw.
  split; [done|]. split; [done|]. split; [done|].
  destruct (H (fun k => if decide (k = GUEST_BOOT_CONFIG_ENV) then next_arg_val (wrap a) else None))
    as (a' & raw' & Ha' & _ & _ & Hf). rewrite Ha in Ha'. injection Ha' as <-. by apply Hf.
Defined.
