(* ===== verification/Vfs.v ===== *)
(** * A directory tree with symbolic links

    The part of the operating system that the layer extractor works on, as
    [std::fs] exposes it: a tree of directories, files (through inodes, so hard
    links share contents) and symbolic links, and the kernel's path walk, which
    follows symbolic links in every component but, for the no-follow calls, the
    last.  Permission checks are not part of the model. *)

From S2P Require Import Prelude Files Paths.

(** An absolute path without [.] and [..]: the names from the file-system root. *)
Abbreviation loc := (list string).

Definition SYMLOOP_MAX : nat := 40.

Inductive ent : Type :=
  | EDir (mode : Z)
  | EFile (ino : nat)
  | ESym (target : path).

Record inode : Type := mkInode { i_mode : Z; i_data : list Z }.

Record vfs : Type := mkVfs {
  ents : gmap loc ent;
  inodes : gmap nat inode;
  next_ino : nat
}.

Definition with_ents (σ : vfs) (e : gmap loc ent) : vfs := mkVfs e (inodes σ) (next_ino σ).

Definition parent_loc (l : loc) : loc := take (length l - 1) l.

(** The kernel's walk from directory [cur].  [links] bounds the symbolic links
    followed, [follow] says whether a link in the last component is followed,
    [missing] whether the last component may be absent. *)
Fixpoint walk (links : nat) (σ : vfs) (follow missing : bool) : loc -> path -> result io_kind loc :=
  fix go (cur : loc) (rest : path) : result io_kind loc :=
    match rest with
    | [] => Ok cur
    | RootDir :: r => go [] r
    | CurDir :: r => go cur r
    | ParentDir :: r => go (parent_loc cur) r
    | Normal n :: r =>
      match ents σ !! (cur ++ [n]) with
      | None => if missing && bool_decide (r = []) then Ok (cur ++ [n]) else Err EkNotFound
      | Some (EDir _) => go (cur ++ [n]) r
      | Some (EFile _) => if decide (r = []) then Ok (cur ++ [n]) else Err EkNotADirectory
      | Some (ESym t) =>
        if bool_decide (r = []) && negb follow then Ok (cur ++ [n]) else
        match links with
        | O => Err EkOther
        | S links => walk links σ follow missing cur (t ++ r)
        end
      end
    end.

Definition lookup_path (σ : vfs) (follow missing : bool) (p : loc) : result io_kind loc :=
  walk SYMLOOP_MAX σ follow missing [] (Normal <$> p).

(** ** A state and error monad for file-system code *)

Definition fsM (E A : Type) : Type := vfs -> result E A * vfs.

#[global] Instance fsM_ret {E} : MRet (fsM E) := fun A a σ => (Ok a, σ).
#[global] Instance fsM_bind {E} : MBind (fsM E) :=
  fun A B f m σ => match m σ with
                   | (Ok a, σ') => f a σ'
                   | (Err e, σ') => (Err e, σ')
                   end.

Definition fail {E A} (e : E) : fsM E A := fun σ => (Err e, σ).

(** A computation that reads the tree and may fail. *)
Definition reading {E A} (f : vfs -> result E A) : fsM E A := fun σ => (f σ, σ).

(** [r?] where the error is converted with [From]. *)
Definition lift_err {E F A} (g : E -> F) (m : fsM E A) : fsM F A :=
  fun σ => match m σ with (r, σ') => (map_err g r, σ') end.

(** The outcome as a value, for [match result { Ok .. Err .. }]. *)
Definition try {E F A} (m : fsM E A) : fsM F (result E A) :=
  fun σ => match m σ with (r, σ') => (Ok r, σ') end.

Fixpoint forM {E St A} (f : St -> A -> fsM E St) (s : St) (l : list A) : fsM E St :=
  match l with
  | [] => mret s
  | x :: r => s' ← f s x; forM f s' r
  end.

(** ** System calls *)

Definition sys (A : Type) : Type := fsM io_kind A.

Definition lstat (p : loc) (σ : vfs) : result io_kind ent :=
  l ← lookup_path σ false false p; ok_or (ents σ !! l) EkNotFound.
#[global] Arguments lstat : simpl never.

Definition symlink_metadata (p : loc) : sys ent := reading (lstat p).

Definition read_link (p : loc) : sys path :=
  e ← symlink_metadata p;
  match e with ESym t => mret t | _ => fail EkInvalidInput end.

(** [Path::is_dir]: follows symbolic links. *)
Definition is_dir_at (σ : vfs) (p : loc) : bool :=
  match lookup_path σ true false p with
  | Ok l => match ents σ !! l with Some (EDir _) => true | _ => false end
  | Err _ => false
  end.

Definition exists_at (σ : vfs) (p : loc) : bool := is_ok (lookup_path σ true false p).

(** Adds an entry where the walk finds none. *)
Definition add_entry (p : loc) (e : ent) : sys () :=
  fun σ => match lookup_path σ false true p with
           | Err k => (Err k, σ)
           | Ok l => match ents σ !! l with
                     | Some _ => (Err EkOther, σ)
                     | None => (Ok (), with_ents σ (<[l := e]> (ents σ)))
                     end
           end.

Definition create_dir (p : loc) : sys () := add_entry p (EDir 0x1ff).

Definition symlink (target : path) (p : loc) : sys () := add_entry p (ESym target).

(** [std::fs::create_dir_all]; [n] is the number of components of [p]. *)
Fixpoint create_dir_all_aux (n : nat) (p : loc) : sys () :=
  r ← try (create_dir p);
  match r with
  | Ok _ => mret tt
  | Err EkNotFound =>
    match n with
    | O => fail EkOther
    | S n =>
      create_dir_all_aux n (parent_loc p) ≫= fun _ =>
      r ← try (create_dir p);
      match r with
      | Ok _ => mret tt
      | Err k => d ← reading (fun σ => Ok (is_dir_at σ p)); if d : bool then mret tt else fail k
      end
    end
  | Err k => d ← reading (fun σ => Ok (is_dir_at σ p)); if d : bool then mret tt else fail k
  end.

Definition create_dir_all (p : loc) : sys () := create_dir_all_aux (length p) p.

Definition remove_file (p : loc) : sys () :=
  fun σ => match lookup_path σ false false p with
           | Err k => (Err k, σ)
           | Ok l => match ents σ !! l with
                     | Some (EFile _ | ESym _) => (Ok (), with_ents σ (delete l (ents σ)))
                     | _ => (Err EkOther, σ)
                     end
           end.

(** [std::fs::remove_dir_all] of a directory: the whole subtree, without
    following the links inside it. *)
Definition remove_dir_all (p : loc) : sys () :=
  fun σ => match lookup_path σ false false p with
           | Err k => (Err k, σ)
           | Ok l => match ents σ !! l with
                     | Some (EDir _) =>
                         (Ok (), with_ents σ (filter (fun x => negb (bool_decide (l `prefix_of` x.1))) (ents σ)))
                     | _ => (Err EkOther, σ)
                     end
           end.

(** [link(2)]: a symbolic link is linked, not followed. *)
Definition hard_link (src dst : loc) : sys () :=
  e ← symlink_metadata src;
  match e with
  | EDir _ => fail EkPermissionDenied
  | _ => add_entry dst e
  end.

(** [open(O_WRONLY | O_CREAT | O_TRUNC, mode)] followed by writing [data]. *)
Definition write_new (p : loc) (mode : Z) (data : list Z) : sys () :=
  fun σ => match lookup_path σ true true p with
           | Err k => (Err k, σ)
           | Ok l => match ents σ !! l with
                     | None => (Ok (), mkVfs (<[l := EFile (next_ino σ)]> (ents σ))
                                        (<[next_ino σ := mkInode mode data]> (inodes σ)) (S (next_ino σ)))
                     | Some (EFile i) =>
                         (Ok (), mkVfs (ents σ)
                                   (alter (fun n => mkInode (i_mode n) data) i (inodes σ)) (next_ino σ))
                     | Some _ => (Err EkOther, σ)
                     end
           end.

(** [chmod(2)]: follows symbolic links. *)
Definition set_permissions (p : loc) (mode : Z) : sys () :=
  fun σ => match lookup_path σ true false p with
           | Err k => (Err k, σ)
           | Ok l => match ents σ !! l with
                     | Some (EDir _) => (Ok (), with_ents σ (<[l := EDir mode]> (ents σ)))
                     | Some (EFile i) =>
                         (Ok (), mkVfs (ents σ)
                                   (alter (fun n => mkInode mode (i_data n)) i (inodes σ)) (next_ino σ))
                     | _ => (Err EkOther, σ)
                     end
           end.

(** [read_dir]: the names in a directory. *)
Definition read_dir (p : loc) : sys (list string) :=
  reading (fun σ =>
    l ← lookup_path σ true false p;
    match ents σ !! l with
    | Some (EDir _) =>
        Ok (omap (fun x : loc * ent => match last x.1 with
                          | Some n => if decide (x.1 = l ++ [n]) then Some n else None
                          | None => None end) (map_to_list (ents σ)))
    | _ => Err EkNotADirectory
    end).
