(* ===== verification/SafeRoot.v ===== *)
(** * Rooted path resolution

    [crates/bux-oci/src/safe_root]: [path.rs] (the walk that keeps symbolic
    links inside the extraction root), [mod.rs] ([SafeRoot]), and the two
    backends, [fallback.rs] and [linux.rs].  pathrs ([openat2] with
    [RESOLVE_IN_ROOT]) is a parameter of the Linux backend.  Resolved paths are
    the names below the file-system root ([loc]). *)

From S2P Require Import Prelude Files Paths Vfs.

(** ** [OciError], with the messages of [Extract] by what they report *)

Inductive extract_msg : Type :=
  | EscapesRootfs
  | HopLimit
  | Readlink
  | ResolveFailed (k : io_kind)
  | PathrsFailed
  | HardlinkWithoutTarget
  | HardlinkTargetEscapes
  | HardlinkTargetMissing
  | SymlinkWithoutTarget
  | InvalidWhiteout (base : string).

Inductive OciError : Type :=
  | InvalidReference
  | ImageNotFound (reference : string)
  | DbError
  | Registry
  | OIo (k : io_kind)
  | Json
  | Extract (m : extract_msg)
  | OOutOfFuel.

Definition SYMLINK_HOP_LIMIT : nat := 255.

(** ** path.rs *)

(** Strip [/], collapse [.] and [..]; [None] when [..] walks above the root. *)
Definition normalize_relative (p : path) : option (list string) :=
  foldl (fun acc c =>
    components ← acc;
    match c with
    | RootDir | CurDir => Some components
    | ParentDir => match last components with
                   | None => None
                   | Some _ => Some (take (length components - 1) components)
                   end
    | Normal n => Some (components ++ [n])
    end) (Some []) p.

(** Components queued for the walk: names and [..]. *)
Definition push_components (p : path) : path :=
  List.filter (fun c => match c with Normal _ | ParentDir => true | _ => false end) p.

(** The loop of [resolve_walk]; [hops] is how many more links may be followed. *)
Fixpoint resolve_loop (hops : nat) (σ : vfs) (root : loc)
    : list string -> path -> result OciError (list string) :=
  fix go (resolved : list string) (remaining : path) : result OciError (list string) :=
    match remaining with
    | [] => Ok resolved
    | Normal n :: rest =>
      match lstat (root ++ resolved ++ [n]) σ with
      | Ok (ESym target) =>
        match hops with
        | O => Err (Extract HopLimit)
        | S hops =>
          let resolved := if is_absolute target then [] else resolved in
          resolve_loop hops σ root resolved (push_components target ++ rest)
        end
      | Ok _ | Err EkNotFound | Err EkNotADirectory => go (resolved ++ [n]) rest
      | Err k => Err (Extract (ResolveFailed k))
      end
    | _ :: rest => go (parent_loc resolved) rest
    end.

Definition resolve_walk (root : loc) (rel : list string) (σ : vfs) : result OciError loc :=
  resolved ← resolve_loop SYMLINK_HOP_LIMIT σ root [] (Normal <$> rel);
  Ok (root ++ resolved).

(** ** What a backend promises *)

(** No component of [cur/ns] that the kernel's walk meets is a symbolic link. *)
Fixpoint nolink (σ : vfs) (cur : loc) (ns : list string) : Prop :=
  match ns with
  | [] => True
  | n :: ns =>
    match ents σ !! (cur ++ [n]) with
    | Some (ESym _) => False
    | _ => nolink σ (cur ++ [n]) ns
    end
  end.

(** Parents of entries are directories, and the root and its ancestors exist. *)
Definition wf_tree (σ : vfs) : Prop :=
  forall l n e, ents σ !! (l ++ [n]) = Some e -> exists m, ents σ !! l = Some (EDir m).

Definition root_dir (root : loc) (σ : vfs) : Prop :=
  forall k, k `prefix_of` root -> exists m, ents σ !! k = Some (EDir m).

(** A resolver of relative paths below [root]: what it returns lies below the
    root and goes through no symbolic link. *)
Class Backend (resolve : loc -> list string -> vfs -> result OciError loc) : Prop := {
  backend_resolves : forall root rel σ p,
    wf_tree σ -> root_dir root σ -> resolve root rel σ = Ok p ->
    exists q, p = root ++ q /\ nolink σ root q
}.

(** ** linux.rs *)

Inductive pathrs_error : Type := ENOENT | ENOTDIR | ELOOP | PathrsOther.

(** [pathrs_resolve root rel σ] is [Root::resolve] followed by reading the link
    [/proc/self/fd/N] of the handle. *)
Definition linux_resolve (pathrs_resolve : loc -> list string -> vfs -> result pathrs_error (result io_kind loc))
    (root : loc) (rel : list string) (σ : vfs) : result OciError loc :=
  match pathrs_resolve root rel σ with
  | Ok (Ok p) => Ok p
  | Ok (Err _) => Err (Extract Readlink)
  | Err (ENOENT | ENOTDIR) => resolve_walk root rel σ
  | Err ELOOP => Err (Extract HopLimit)
  | Err PathrsOther => Err (Extract PathrsFailed)
  end.

(** ** mod.rs *)

Section SafeRoot.
Variable backend : loc -> list string -> vfs -> result OciError loc.

(** [SafeRoot::resolve] for a canonical [root]. *)
Definition safe_resolve (root : loc) (rel : path) (σ : vfs) : result OciError loc :=
  rel ← ok_or (normalize_relative rel) (Extract EscapesRootfs);
  if decide (rel = []) then Ok root else
  resolved ← backend root rel σ;
  if negb (bool_decide (root `prefix_of` resolved)) then Err (Extract EscapesRootfs) else Ok resolved.

Definition resolve_or_root (root : loc) (rel : path) (σ : vfs) : result OciError loc :=
  if decide (rel = []) then Ok root else safe_resolve root rel σ.
End SafeRoot.

(** ** The kernel's walk on a path without links *)

Lemma wf_prefix σ l n k e :
  wf_tree σ -> ents σ !! (l ++ n :: k) = Some e -> exists m, ents σ !! l = Some (EDir m).
Proof.
  intros Hwf. revert e. induction k as [|x k IH] using rev_ind; intros e He; [by eapply Hwf|].
  replace (l ++ n :: k ++ [x]) with ((l ++ n :: k) ++ [x]) in He by (by rewrite <- app_assoc).
  destruct (Hwf _ _ _ He) as [m Hm]. by eapply IH.
Qed.

Lemma nolink_app σ cur a b : nolink σ cur (a ++ b) <-> nolink σ cur a /\ nolink σ (cur ++ a) b.
Proof.
  revert cur. induction a as [|x a IH]; intros cur; simpl; [rewrite app_nil_r; tauto|].
  replace (cur ++ x :: a) with ((cur ++ [x]) ++ a) by (by rewrite <- app_assoc).
  destruct (ents σ !! (cur ++ [x])) as [[]|]; rewrite ?IH; tauto.
Qed.

Lemma nolink_snoc σ cur a n :
  nolink σ cur a -> (forall t, ents σ !! (cur ++ a ++ [n]) <> Some (ESym t)) -> nolink σ cur (a ++ [n]).
Proof.
  intros Ha Hn. apply nolink_app. split; [done|]. simpl. rewrite <- app_assoc.
  destruct (ents σ !! _) as [[]|]; try done. by destruct (Hn target).
Qed.

Lemma nolink_parent σ cur a : nolink σ cur a -> nolink σ cur (parent_loc a).
Proof.
  intros H. unfold parent_loc. rewrite <- (take_drop (length a - 1) a) in H.
  by apply nolink_app in H as [H _].
Qed.

Lemma nolink_root σ root : root_dir root σ -> nolink σ [] root.
Proof.
  intros H. assert (Hg : forall cur ns, root = cur ++ ns -> nolink σ cur ns); [|by apply Hg].
  intros cur ns. revert cur. induction ns as [|n ns IH]; intros cur E; simpl; [done|].
  destruct (H (cur ++ [n])) as [m ->]; [exists ns; rewrite <- app_assoc; done|].
  apply IH. rewrite <- app_assoc. done.
Qed.

(** Without links the walk ends where the path says. *)
Lemma walk_nolink links σ follow missing cur ns l :
  nolink σ cur ns -> walk links σ follow missing cur (Normal <$> ns) = Ok l -> l = cur ++ ns.
Proof.
  destruct links; revert cur; induction ns as [|n ns IH]; intros cur H Hw; simpl in *;
    try (injection Hw as <-; by rewrite app_nil_r);
    (destruct (ents σ !! (cur ++ [n])) as [[]|]; [apply IH in Hw; [|done]| |done|];
     [subst; by rewrite <- app_assoc|..]).
  all: destruct ns; simpl in Hw; rewrite ?andb_false_r in Hw; try done;
    destruct missing; simpl in Hw; simplify_eq; done.
Qed.

(** The no-follow walk may end on a link, but goes through none. *)
Lemma walk_nolink_last links σ missing cur ns n l :
  nolink σ cur ns -> walk links σ false missing cur (Normal <$> (ns ++ [n])) = Ok l -> l = cur ++ ns ++ [n].
Proof.
  destruct links; revert cur; induction ns as [|x ns IH]; intros cur H Hw; simpl in *.
  1, 3: repeat case_match; simplify_eq; try done.
  all: destruct (ents σ !! (cur ++ [x])) as [[]|]; [apply IH in Hw; [|done]| |done|];
    [subst; by rewrite <- app_assoc|..].
  all: destruct ns; simpl in Hw; rewrite ?andb_false_r in Hw; done.
Qed.

(** An entry below a path without links is found. *)
Lemma walk_exists links σ missing cur ns n e :
  wf_tree σ -> nolink σ cur ns -> ents σ !! (cur ++ ns ++ [n]) = Some e ->
  walk links σ false missing cur (Normal <$> (ns ++ [n])) = Ok (cur ++ ns ++ [n]).
Proof.
  intros Hwf. destruct links; revert cur; induction ns as [|x ns IH]; intros cur H He; simpl in *.
  1, 3: rewrite He; by destruct e.
  all: replace (cur ++ x :: ns ++ [n]) with ((cur ++ [x]) ++ ns ++ [n]) in * by (by rewrite <- app_assoc);
    destruct (ents σ !! (cur ++ [x])) as [[m|i|t]|] eqn:E; [by apply IH| |done|];
    exfalso; (destruct ns as [|y ns]; simpl in He;
    [apply Hwf in He as [m Hm]; congruence|
     apply (wf_prefix σ (cur ++ [x]) y (ns ++ [n])) in He as [m Hm]; [congruence|done]]).
Qed.

(** What [symlink_metadata] says of an entry below a path without links. *)
Lemma lstat_nolink σ p n :
  wf_tree σ -> nolink σ [] p ->
  match lstat (p ++ [n]) σ with
  | Ok e => ents σ !! (p ++ [n]) = Some e
  | Err _ => ents σ !! (p ++ [n]) = None
  end.
Proof.
  intros Hwf Hp. unfold lstat, lookup_path.
  destruct (ents σ !! (p ++ [n])) as [e|] eqn:E.
  - rewrite (walk_exists _ _ _ [] p n e) by done. cbn [mbind result_bind].
    pose proof E as E'. change (p ++ [n]) with ([] ++ p ++ [n]) in E'. by rewrite E'.
  - destruct (walk _ _ _ _ _ _) as [l|k] eqn:Ew; [|done]. cbn [mbind result_bind].
    apply walk_nolink_last in Ew as ->; [|done].
    change (p ++ [n]) with ([] ++ p ++ [n]) in E. by rewrite E.
Qed.

Lemma resolve_loop_nolink hops σ root resolved remaining q :
  wf_tree σ -> root_dir root σ -> nolink σ root resolved ->
  resolve_loop hops σ root resolved remaining = Ok q -> nolink σ root q.
Proof.
  intros Hwf Hroot. revert resolved remaining. induction hops as [|hops IHh];
    intros resolved remaining; revert resolved; induction remaining as [|c rest IH];
    intros resolved Hn H; simpl in H; try (injection H as <-; done);
    (destruct c as [| | |n]; [by apply IH in H; [|apply nolink_parent]..|]).
  all: pose proof (lstat_nolink σ (root ++ resolved) n Hwf) as Hl; rewrite <- app_assoc in Hl;
    (specialize (Hl (proj2 (nolink_app _ _ _ _) (conj (nolink_root _ _ Hroot) Hn))));
    (assert (Hstep : (forall t, ents σ !! (root ++ resolved ++ [n]) <> Some (ESym t)) ->
       nolink σ root (resolved ++ [n])) by (by apply nolink_snoc)).
  all: destruct (lstat (root ++ resolved ++ [n]) σ) as [[m|i|t]|k]; simpl in H, Hl;
    try (apply IH in H; [done|]; apply Hstep; intros t' Ht; congruence); try done.
  1, 3: destruct k; try done; (apply IH in H; [done|]; apply Hstep; intros t' Ht; congruence).
  apply IHh in H; [done|]. by destruct (is_absolute t).
Qed.

#[global] Instance fallback_backend : Backend resolve_walk.
Proof.
  split. intros root rel σ p Hwf Hroot H. unfold resolve_walk in H. inv_bind.
  exists a. split; [done|]. exact (resolve_loop_nolink _ _ _ [] _ _ Hwf Hroot I Hb).
Qed.

(** ** linux.rs: the promise of [openat2(RESOLVE_IN_ROOT)] *)

(** The tree as a process sees it whose root directory is [root]. *)
Definition chroot (root : loc) (σ : vfs) : vfs :=
  mkVfs (set_to_map (fun l => (l, default (EDir 0) (ents σ !! (root ++ l))))
           (set_map (drop (length root)) (filter (fun l => root `prefix_of` l) (dom (ents σ))) : gset loc))
        (inodes σ) (next_ino σ).

Lemma chroot_lookup root σ l : ents (chroot root σ) !! l = ents σ !! (root ++ l).
Proof.
  unfold chroot. cbn [ents]. apply option_eq. intros e. rewrite lookup_set_to_map by (by intros ? ? _ _ [= ->]).
  split.
  - intros (y & Hy & [= -> <-]). apply elem_of_map in Hy as (k & -> & Hk). apply elem_of_filter in Hk as [[x ->] Hk].
    rewrite drop_app_length. apply elem_of_dom in Hk as [e' ->]. done.
  - intros H. exists l. rewrite H. split; [|done]. apply elem_of_map. exists (root ++ l).
    split; [by rewrite drop_app_length|]. apply elem_of_filter. split; [by exists l|]. apply elem_of_dom. by exists e.
Qed.

#[global] Opaque chroot.

Lemma nolink_chroot root σ cur ns : nolink (chroot root σ) cur ns <-> nolink σ (root ++ cur) ns.
Proof.
  revert cur. induction ns as [|n ns IH]; intros cur; [done|]. cbn [nolink]. rewrite chroot_lookup.
  rewrite (app_assoc root cur [n]). destruct (ents σ !! _) as [[]|]; rewrite ?IH, ?(app_assoc root cur [n]); done.
Qed.

(** What the kernel's walk arrives at, following links, has no link in its name. *)
Lemma walk_result_nolink links σ missing cur rest l :
  nolink σ [] cur -> walk links σ true missing cur rest = Ok l -> nolink σ [] l.
Proof.
  revert cur rest. induction links as [|links IHl]; intros cur rest; revert cur;
    induction rest as [|c rest IH]; intros cur Hc H; simpl in H; try (injection H as <-; done);
    (destruct c as [| | |n]; [by apply IH in H|by apply IH in H|by apply IH in H; [|apply nolink_parent]|]).
  all: assert (Hs : (forall t, ents σ !! (cur ++ [n]) <> Some (ESym t)) -> nolink σ [] (cur ++ [n]))
    by (intros K; by apply nolink_snoc).
  all: destruct (ents σ !! (cur ++ [n])) as [[m|i|t]|];
    [apply IH in H; [done|by apply Hs]|case_decide; [injection H as <-; by apply Hs|done]| |
     destruct (missing && _); [injection H as <-; by apply Hs|done]].
  - by rewrite andb_false_r in H.
  - rewrite andb_false_r in H. by apply IHl in H.
Qed.

(** A handle is what the kernel's walk finds for a process rooted at [root], and
    its [/proc] link is the path of that object. *)
Class PathrsLaw (pathrs_resolve : loc -> list string -> vfs -> result pathrs_error (result io_kind loc)) : Prop := {
  pathrs_in_root : forall root rel σ p,
    pathrs_resolve root rel σ = Ok (Ok p) ->
    exists q, walk SYMLOOP_MAX (chroot root σ) true false [] (Normal <$> rel) = Ok q /\ p = root ++ q
}.

#[global] Instance linux_backend pathrs_resolve `{!PathrsLaw pathrs_resolve} :
  Backend (linux_resolve pathrs_resolve).
Proof.
  split. intros root rel σ p Hwf Hroot H. unfold linux_resolve in H.
  destruct (pathrs_resolve root rel σ) as [[q|k]|[]] eqn:E; try done.
  - injection H as <-. apply pathrs_in_root in E as (r & Hr & ->). exists r. split; [done|].
    apply walk_result_nolink in Hr; [|done]. apply nolink_chroot in Hr. by rewrite app_nil_r in Hr.
  - by eapply backend_resolves.
  - by eapply backend_resolves.
Qed.

(** ** The walk against the kernel's *)

(** Links as [Path::components] reads them: [/] only in front. *)
Definition plain_links (σ : vfs) : Prop := forall l t, ents σ !! l = Some (ESym t) -> RootDir ∉ tail t.

Lemma lstat_absent σ p n k :
  wf_tree σ -> nolink σ [] p -> lstat (p ++ [n]) σ = Err k -> k = EkNotFound \/ k = EkNotADirectory.
Proof.
  intros Hwf Hp. unfold lstat, lookup_path. 
  destruct (walk _ _ _ _ _ _) as [l|k'] eqn:H; cbn [mbind result_bind];
    [destruct (ents σ !! l); simpl; intros [= <-]; by left|intros [= ->]].
  revert H. assert (Hg : forall cur ns, nolink σ cur ns ->
    walk SYMLOOP_MAX σ false false cur (Normal <$> (ns ++ [n])) = Err k -> k = EkNotFound \/ k = EkNotADirectory); [|by apply Hg].
  unfold SYMLOOP_MAX. intros cur ns. revert cur. induction ns as [|x ns IH]; intros cur Hn H; simpl in *.
  - destruct (ents σ !! (cur ++ [n])) as [[]|]; simplify_eq; auto.
  - destruct (ents σ !! (cur ++ [x])) as [[]|]; [by eapply IH| |done|by injection H as <-; left].
    rewrite decide_False in H by (by destruct ns). injection H as <-. by right.
Qed.
Lemma push_components_app a b : push_components (a ++ b) = push_components a ++ push_components b.
Proof. apply List.filter_app. Qed.

(** Where the kernel's walk in the re-rooted tree succeeds, the walk of [path.rs]
    arrives at the same place. *)
Lemma walk_agrees links hops σ root missing cur rest l :
  wf_tree σ -> root_dir root σ -> plain_links σ -> (links <= hops)%nat -> RootDir ∉ rest -> nolink σ root cur ->
  walk links (chroot root σ) true missing cur rest = Ok l ->
  resolve_loop hops σ root cur (push_components rest) = Ok l.
Proof.
  intros Hwf Hroot Hpl. revert hops cur rest. induction links as [|links IHl]; intros hops cur rest;
    revert cur; induction rest as [|c rest IH]; intros cur Hle Hrd Hc H; simpl in H;
    try (injection H as <-; by destruct hops);
    apply not_elem_of_cons in Hrd as [Hc0 Hrd];
    (destruct c as [| | |n]; [done|by apply IH|destruct hops; simpl; (apply IH; [done..|by apply nolink_parent|done])|]).
  all: rewrite chroot_lookup in H.
  all: pose proof (lstat_nolink σ (root ++ cur) n Hwf (proj2 (nolink_app _ _ _ _) (conj (nolink_root _ _ Hroot) Hc))) as Hl.
  all: pose proof (fun k => lstat_absent σ (root ++ cur) n k Hwf (proj2 (nolink_app _ _ _ _) (conj (nolink_root _ _ Hroot) Hc))) as Ha.
  all: rewrite <- app_assoc in Hl, Ha.
  all: assert (Hs : (forall t, ents σ !! (root ++ cur ++ [n]) <> Some (ESym t)) -> nolink σ root (cur ++ [n])) by (by apply nolink_snoc).
  all: assert (Hgo : forall r, lstat (root ++ cur ++ [n]) σ = r -> (forall t, r <> Ok (ESym t)) ->
    resolve_loop hops σ root cur (Normal n :: push_components rest) = resolve_loop hops σ root (cur ++ [n]) (push_components rest)).
  1, 3: intros r Er Hr; destruct hops; simpl; rewrite Er; destruct r as [[m|i|t]|k]; try done; try (by destruct (Hr t));
    (destruct (Ha k Er) as [->| ->]; done).
  all: change (push_components (Normal n :: rest)) with (Normal n :: push_components rest).
  all: destruct (lstat (root ++ cur ++ [n]) σ) as [e|k] eqn:El; rewrite Hl in H;
    [destruct e as [m|i|t]|].
  all: try (rewrite (Hgo _ eq_refl) by done; apply IH; [done..|apply Hs; congruence|done]).
  all: try (rewrite (Hgo _ eq_refl) by done; case_decide; [subst rest; injection H as <-; by destruct hops|done]).
  all: try (rewrite (Hgo _ eq_refl) by done; destruct missing; [|done]; cbn in H; case_bool_decide; [subst rest; injection H as <-; by destruct hops|done]).
  all: rewrite andb_false_r in H; try done.
  destruct hops as [|hops]; [lia|]. simpl. rewrite El. rewrite <- push_components_app.
  pose proof (Hpl _ _ Hl) as Ht. destruct t as [|c t]; [by apply IHl; [lia|..]|].
  assert (Hn : RootDir ∉ t ++ rest) by (by intros [K|K]%elem_of_app).
  destruct c as [| | |x]; [apply (IHl hops [] (t ++ rest)); [lia|done|done|by destruct links]|..].
  all: apply IHl; [lia| |done..]; by intros [[=]|K]%elem_of_cons.
Qed.

(** ** The resolver *)

Section Resolver.
Context (backend : loc -> list string -> vfs -> result OciError loc) `{!Backend backend}.

Lemma safe_resolve_nolink root rel σ p :
  wf_tree σ -> root_dir root σ -> resolve_or_root backend root rel σ = Ok p ->
  exists q, p = root ++ q /\ nolink σ root q.
Proof.
  intros Hwf Hroot H. unfold resolve_or_root, safe_resolve in H.
  case_decide; [injection H as <-; exists []; by rewrite app_nil_r|].
  apply bind_Ok_inv in H as (r & _ & H).
  case_decide; [injection H as <-; exists []; by rewrite app_nil_r|].
  apply bind_Ok_inv in H as (x & Hx & H). case_match; [done|]. injection H as <-.
  by eapply backend_resolves.
Qed.

Lemma resolved_inside root rel σ p :
  wf_tree σ -> root_dir root σ -> resolve_or_root backend root rel σ = Ok p ->
  root `prefix_of` p /\ forall follow missing l, lookup_path σ follow missing p = Ok l -> l = p.
Proof.
  intros Hwf Hroot H. destruct (safe_resolve_nolink _ _ _ _ Hwf Hroot H) as (q & -> & Hq).
  split; [by exists q|]. intros follow missing l Hl.
  apply walk_nolink in Hl; [done|]. apply nolink_app. split; [by apply nolink_root|done].
Qed.
End Resolver.

Lemma walk_missing links σ follow cur rest l :
  walk links σ follow false cur rest = Ok l -> walk links σ follow true cur rest = Ok l.
Proof.
  revert cur rest. induction links as [|links IHl]; intros cur rest; revert cur;
    induction rest as [|c rest IH]; intros cur H; simpl in *; try done; (destruct c as [| | |n]; [by apply IH..|]).
  all: destruct (ents σ !! (cur ++ [n])) as [[m|i|t]|]; [by apply IH|done| |done].
  all: destruct (bool_decide (rest = []) && negb follow); [done|]; first [done|by apply IHl].
Qed.

(** What both resolvers return when the kernel's walk in the re-rooted tree ends at [l]. *)
Lemma resolvers_agree pathrs_resolve `{!PathrsLaw pathrs_resolve} root rel ns σ l :
  wf_tree σ -> root_dir root σ -> plain_links σ -> normalize_relative rel = Some ns ->
  walk SYMLOOP_MAX (chroot root σ) true true [] (Normal <$> ns) = Ok l ->
  resolve_or_root resolve_walk root rel σ = Ok (root ++ l)
  /\ forall p, resolve_or_root (linux_resolve pathrs_resolve) root rel σ = Ok p -> p = root ++ l.
Proof.
  intros Hwf Hroot Hpl Hn Hw.
  assert (Hr : resolve_walk root ns σ = Ok (root ++ l)).
  { unfold resolve_walk. replace (Normal <$> ns) with (push_components (Normal <$> ns))
      by (clear; induction ns as [|n ns IH]; [done|]; cbn; by f_equal).
    rewrite (walk_agrees SYMLOOP_MAX _ _ _ true [] (Normal <$> ns) l); [done|done..|unfold SYMLOOP_MAX, SYMLINK_HOP_LIMIT; lia| |done|done].
    by intros (n & [=] & _)%list_elem_of_fmap. }
  unfold resolve_or_root, safe_resolve. rewrite Hn. cbn [ok_or mbind result_bind].
  case_decide as Hd; [subst rel; injection Hn as <-; injection Hw as <-; rewrite app_nil_r; by split; [|intros p [= <-]]|].
  case_decide as Hd'; [subst ns; injection Hw as <-; rewrite app_nil_r; by split; [|intros p [= <-]]|].
  rewrite Hr. cbn [mbind result_bind]. rewrite bool_decide_eq_true_2 by (by exists l). split; [done|].
  intros p H. apply bind_Ok_inv in H as (x & Hx & H). case_match; [done|]. injection H as <-.
  unfold linux_resolve in Hx. destruct (pathrs_resolve root ns σ) as [[q|k]|[]] eqn:E; try done; [|congruence..].
  injection Hx as <-. apply pathrs_in_root in E as (q' & Hq & ->). apply walk_missing in Hq. congruence.
Qed.

(** C13.  Paths are resolved as by a kernel rooted at the extraction root: whatever links the tree holds and
    whatever member path is resolved, by the walk or on Linux with pathrs, the
    path that [SafeRoot] returns lies below the root, and when the kernel then
    opens it, following links, it arrives at exactly that location; and wherever
    the kernel's own walk of a process whose root directory is the extraction root
    arrives, absolute targets and [..] at the root included, there is the path. *)
Theorem resolved_path_stays_inside pathrs_resolve `{!PathrsLaw pathrs_resolve} (root : loc) (rel : path) (σ : vfs) :
  wf_tree σ -> root_dir root σ ->
  (forall p, resolve_or_root resolve_walk root rel σ = Ok p \/ resolve_or_root (linux_resolve pathrs_resolve) root rel σ = Ok p ->
     root `prefix_of` p /\ forall follow missing l, lookup_path σ follow missing p = Ok l -> l = p)
  /\ (forall ns l, plain_links σ -> normalize_relative rel = Some ns ->
        walk SYMLOOP_MAX (chroot root σ) true true [] (Normal <$> ns) = Ok l ->
        resolve_or_root resolve_walk root rel σ = Ok (root ++ l)
        /\ forall p, resolve_or_root (linux_resolve pathrs_resolve) root rel σ = Ok p -> p = root ++ l).
Proof.
  intros Hwf Hroot. split; [|by intros ns l; apply resolvers_agree].
  intros p [H|H]; [exact (resolved_inside resolve_walk root rel σ p Hwf Hroot H)|
                   exact (resolved_inside (linux_resolve pathrs_resolve) root rel σ p Hwf Hroot H)].
Qed.

(** A tree in which [/r/a] points at [/etc] and [/r/etc] is a directory. *)
Definition sample_tree : vfs :=
  mkVfs {[ [] := EDir 0; ["r"] := EDir 0; ["r"; "a"] := ESym [RootDir; Normal "etc"];
           ["etc"] := EDir 0; ["r"; "etc"] := EDir 0 ]}%string ∅ 0.

(** Executable checks of the two tree conditions. *)
Definition is_dir_ent (o : option ent) : bool := match o with Some (EDir _) => true | _ => false end.

Definition wf_check (σ : vfs) : bool :=
  forallb (fun x : loc * ent => bool_decide (x.1 = []) || is_dir_ent (ents σ !! parent_loc x.1))
    (map_to_list (ents σ)).

Definition root_check (root : loc) (σ : vfs) : bool :=
  forallb (fun i => is_dir_ent (ents σ !! take i root)) (seq 0 (S (length root))).

Lemma is_dir_ent_true o : is_dir_ent o = true -> exists m, o = Some (EDir m).
Proof. destruct o as [[]|]; naive_solver. Qed.

Lemma wf_check_ok σ : wf_check σ = true -> wf_tree σ.
Proof.
  intros Hc l n e H. unfold wf_check in Hc. rewrite forallb_forall in Hc.
  apply elem_of_map_to_list, list_elem_of_In in H. specialize (Hc _ H). simpl in Hc.
  rewrite bool_decide_eq_false_2 in Hc by (by destruct l). simpl in Hc.
  apply is_dir_ent_true in Hc as [m Hm]. exists m. unfold parent_loc in Hm.
  rewrite length_app in Hm. simpl in Hm. rewrite Nat.add_sub, take_app_length in Hm. done.
Qed.

Lemma root_check_ok root σ : root_check root σ = true -> root_dir root σ.
Proof.
  intros Hc k [s ->]. unfold root_check in Hc. rewrite forallb_forall in Hc.
  specialize (Hc (length k)). rewrite take_app_length in Hc. apply is_dir_ent_true, Hc.
  apply in_seq. rewrite length_app. lia.
Qed.

(** A pathrs that asks the kernel. *)
Definition sample_pathrs (root : loc) (rel : list string) (σ : vfs) : result pathrs_error (result io_kind loc) :=
  match walk SYMLOOP_MAX (chroot root σ) true false [] (Normal <$> rel) with
  | Ok q => Ok (Ok (root ++ q))
  | Err EkNotFound => Err ENOENT
  | Err EkNotADirectory => Err ENOTDIR
  | Err _ => Err ELOOP
  end.

Lemma sample_pathrs_law : PathrsLaw sample_pathrs.
Proof.
  split. intros root rel σ p. unfold sample_pathrs. destruct (walk _ _ _ _ _ _) as [q|[]]; try done. intros [= <-]. by exists q.
Qed.

Lemma sample_plain : plain_links sample_tree.
Proof.
  intros l t H. unfold sample_tree in H. cbn [ents] in H.
  repeat (apply lookup_insert_Some in H as [[_ H]|[_ H]]; [simplify_eq/=; by (apply (bool_decide_unpack _); vm_compute; exact I)|]).
  by rewrite lookup_singleton_Some in H; destruct H as [_ [=]].
Qed.

Lemma resolved_path_stays_inside_witness :
  resolve_or_root (linux_resolve sample_pathrs) ["r"%string] [Normal "a"; Normal "passwd"] sample_tree
    = Ok ["r"; "etc"; "passwd"]%string
  /\ (forall follow missing l,
       lookup_path sample_tree follow missing ["r"; "etc"; "passwd"]%string = Ok l -> l = ["r"; "etc"; "passwd"]%string)
  /\ resolve_or_root resolve_walk ["r"%string] [Normal "a"; Normal "passwd"] sample_tree = Ok ["r"; "etc"; "passwd"]%string.
Proof.
  assert (H : resolve_or_root (linux_resolve sample_pathrs) ["r"%string] [Normal "a"; Normal "passwd"] sample_tree
    = Ok ["r"; "etc"; "passwd"]%string) by (vm_compute; reflexivity).
  split; [exact H|].
  destruct (@resolved_path_stays_inside sample_pathrs sample_pathrs_law ["r"%string] [Normal "a"; Normal "passwd"] sample_tree) as [H1 H2];
    [apply wf_check_ok; vm_compute; reflexivity|apply root_check_ok; vm_compute; reflexivity|].
  split; [exact (proj2 (H1 _ (or_intror H)))|].
  apply (H2 ["a"; "passwd"]%string ["etc"; "passwd"]%string sample_plain); vm_compute; reflexivity.
Defined.

(** ** Lexical normalisation *)

Definition names (p : path) : nat := length (List.filter (fun c => match c with Normal _ => true | _ => false end) p).
Definition ups (p : path) : nat := length (List.filter (fun c => match c with ParentDir => true | _ => false end) p).

Lemma names_snoc p c : names (p ++ [c]) = (names p + match c with Normal _ => 1 | _ => 0 end)%nat.
Proof. unfold names. rewrite List.filter_app, length_app. by destruct c. Qed.

Lemma ups_snoc p c : ups (p ++ [c]) = (ups p + match c with ParentDir => 1 | _ => 0 end)%nat.
Proof. unfold ups. rewrite List.filter_app, length_app. by destruct c. Qed.

Lemma normalize_snoc p c :
  normalize_relative (p ++ [c]) =
    (q ← normalize_relative p;
     match c with
     | RootDir | CurDir => Some q
     | ParentDir => match last q with None => None | Some _ => Some (take (length q - 1) q) end
     | Normal n => Some (q ++ [n])
     end).
Proof. unfold normalize_relative. by rewrite foldl_app. Qed.

Lemma normalize_depth p q : normalize_relative p = Some q -> (length q + ups p = names p)%nat.
Proof.
  revert q. induction p as [|c p IH] using rev_ind; intros q H; [by injection H as <-|].
  rewrite normalize_snoc in H. destruct (normalize_relative p) as [r|]; [|done]. simpl in H.
  rewrite names_snoc, ups_snoc. specialize (IH r eq_refl).
  destruct c; simplify_eq/=; try lia; [|rewrite length_app; simpl; lia].
  destruct (last r) as [x|] eqn:E; simplify_eq. rewrite length_take.
  destruct r; [done|]. simpl in *. lia.
Qed.

(** Member paths are confined lexically: normalisation refuses a path
    exactly when some prefix of it climbs above the extraction root (has more
    [..] than names); otherwise it returns as many names as are left. *)
Theorem normalize_refuses_climbing (p : path) :
  (normalize_relative p = None <-> exists k, k `prefix_of` p /\ (names k < ups k)%nat)
  /\ forall q, normalize_relative p = Some q -> (length q + ups p = names p)%nat.
Proof.
  split; [|apply normalize_depth]. induction p as [|c p IH] using rev_ind.
  - split; [done|]. intros (k & Hk & Hlt). apply prefix_nil_inv in Hk as ->. unfold names, ups in Hlt. simpl in Hlt. lia.
  - rewrite normalize_snoc. destruct (normalize_relative p) as [r|] eqn:E; simpl.
    + apply normalize_depth in E as Hd.
      assert (Hno : ~ exists k, k `prefix_of` p /\ (names k < ups k)%nat).
      { intros Hk. apply IH in Hk. done. }
      split.
      * intros H. exists (p ++ [c]). split; [done|]. rewrite names_snoc, ups_snoc.
        destruct c; try done. destruct r; [simpl in *; lia|]. destruct (last _) eqn:El; [done|].
        by apply last_None in El.
      * intros (k & Hk & Hlt). destruct Hk as [s Hs]. destruct s as [|x s _] using rev_ind.
        -- rewrite app_nil_r in Hs. subst k. rewrite names_snoc, ups_snoc in Hlt.
           destruct c; try lia. destruct r; [done|simpl in *; lia].
        -- rewrite app_assoc in Hs. apply app_inj_tail in Hs as [-> _]. exfalso. apply Hno.
           exists k. split; [by exists s|done].
    + split; [|done]. intros _. destruct (proj1 IH eq_refl) as (k & Hk & Hlt).
      exists k. split; [by apply prefix_app_r|done].
Qed.
