(* ===== verification/LayerExtract.v ===== *)
(** * Layer extraction

    [crates/bux-oci/src/extract.rs]: the members of each layer tarball applied
    to a root file system, with OCI whiteouts, hard links and deferred directory
    modes.  The tar and gzip readers are parameters: a layer is the sequence of
    members, or read errors, they yield.  Permission checks are not part of the
    tree model, so the retry after [PermissionDenied] is written out but never
    taken. *)

From S2P Require Import Prelude Files Paths Vfs SafeRoot.

Definition xM (A : Type) : Type := fsM OciError A.

Definition io {A} (m : sys A) : xM A := lift_err OIo m.

(** ** Members *)

Inductive EntryType : Type :=
  | TRegular | TGNUSparse | TContinuous | TDirectory | TLink | TSymlink
  | TChar | TBlock | TFifo | TXGlobalHeader | TXHeader | TOther.

#[global] Instance EntryType_eq_dec : EqDecision EntryType.
Proof. solve_decision. Defined.

Record entry : Type := mkEntry {
  e_path : path;
  e_type : EntryType;
  e_mode : option Z;
  e_link_name : result io_kind (option path);
  e_data : list Z;
  e_copy_error : option io_kind
}.

Definition GZIP_MEDIA_TYPES : list string :=
  ["application/vnd.oci.image.layer.v1.tar+gzip"; "application/vnd.docker.image.rootfs.diff.tar.gzip"]%string.

Fixpoint ends_with (suffix s : string) : bool :=
  bool_decide (s = suffix) || match s with EmptyString => false | String _ r => ends_with suffix r end.

Definition is_gzip (media_type : string) : bool :=
  bool_decide (media_type ∈ GZIP_MEDIA_TYPES) || ends_with "+gzip" media_type.

(** ** Helpers *)

Definition split_parent_leaf (rel : list string) : list string * list string :=
  match last rel with
  | Some leaf => (take (length rel - 1) rel, [leaf])
  | None => ([], [])
  end.

Definition ensure_inside (root p : loc) : xM () :=
  if bool_decide (root `prefix_of` p) then mret tt else fail (Extract EscapesRootfs).

(** The loop of [ensure_dir]: removes the first non-directory on the way up. *)
Fixpoint unblock (n : nat) (root cursor : loc) : xM () :=
  if bool_decide (root `prefix_of` cursor) && negb (bool_decide (cursor = root)) then
    r ← try (symlink_metadata cursor);
    match r with
    | Ok (EFile _ | ESym _) => io (remove_file cursor)
    | _ => match n with
           | O => mret tt
           | S n => unblock n root (parent_loc cursor)
           end
    end
  else mret tt.

Definition ensure_dir (p root : loc) : xM () :=
  r ← try (create_dir_all p);
  match r with
  | Ok _ => mret tt
  | Err _ => unblock (length p) root p ≫= fun _ => io (create_dir_all p)
  end.

Definition perm_bits (σ : vfs) (e : ent) : Z :=
  match e with
  | EDir m => m
  | EFile i => match inodes σ !! i with Some n => i_mode n | None => 0 end
  | ESym _ => 0x1ff
  end.

Definition make_user_writable (p : loc) : xM () :=
  r ← try (symlink_metadata p);
  match r with
  | Ok (ESym _) | Err _ => mret tt
  | Ok e =>
    mode ← reading (fun σ => Ok (perm_bits σ e));
    if Z.land mode 0x80 =? 0 then
      _ ← try (F := OciError) (set_permissions p (Z.lor mode 0x80)); mret tt
    else mret tt
  end.

Definition remove_nofollow (p : loc) (keep_if_dir : bool) : xM () :=
  r ← try (symlink_metadata p);
  match r with
  | Ok e =>
    let is_real_dir := match e with EDir _ => true | _ => false end in
    if keep_if_dir && is_real_dir then mret tt else
    let remove := if is_real_dir then remove_dir_all p else remove_file p in
    first ← try remove;
    match first with
    | Err EkPermissionDenied =>
      make_user_writable (parent_loc p) ≫= fun _ =>
      make_user_writable p ≫= fun _ => io remove
    | Err k => fail (OIo k)
    | Ok _ => mret tt
    end
  | Err EkNotFound => mret tt
  | Err k => fail (OIo k)
  end.

(** Ancestors of an unpacked path, up to the root. *)
Fixpoint remember_aux (n : nat) (unpacked : gset loc) (root current : loc) : gset loc :=
  if decide (current = root) then unpacked else
  match n with
  | O => {[current]} ∪ unpacked
  | S n => remember_aux n ({[current]} ∪ unpacked) root (parent_loc current)
  end.

Definition remember_unpacked (unpacked : gset loc) (root p : loc) : gset loc :=
  remember_aux (length p) unpacked root p.

(** ** Whiteouts *)

Inductive HostFollow : Type := HEscape | HRel | HAbs (in_root : list string).

Definition lexical_normalize (p : path) : path :=
  foldl (fun acc c => match c with
    | RootDir => [RootDir]
    | CurDir => acc
    | ParentDir => pop acc
    | Normal n => acc ++ [Normal n] end) [] p.

Fixpoint relative_escapes (root acc : loc) (target : path) : bool :=
  match target with
  | [] => negb (bool_decide (root `prefix_of` acc))
  | ParentDir :: r => if decide (acc = root) then true else relative_escapes root (parent_loc acc) r
  | Normal n :: r => relative_escapes root (acc ++ [n]) r
  | _ :: r => relative_escapes root acc r
  end.

Definition relative_target_escapes (root link_parent : loc) (target : path) : bool :=
  relative_escapes root link_parent target.

Definition abs_path (l : loc) : path := RootDir :: (Normal <$> l).

Definition normal_names (p : path) : list string := omap (fun c => match c with Normal n => Some n | _ => None end) p.

Definition classify_host_target (root link_parent : loc) (target : path) : HostFollow :=
  if negb (is_absolute target) then
    if relative_target_escapes root link_parent target then HEscape else HRel
  else
    let norm := lexical_normalize target in
    match strip_prefix norm (abs_path root) with
    | None => HEscape
    | Some in_root => HAbs (normal_names in_root)
    end.

Fixpoint escapes_loop (hops : nat) (σ : vfs) (root : loc)
    : list string -> path -> result OciError bool :=
  fix go (resolved : list string) (remaining : path) : result OciError bool :=
    match remaining with
    | [] => Ok false
    | Normal n :: rest =>
      match lstat (root ++ resolved ++ [n]) σ with
      | Err EkNotFound => Ok false
      | Err k => Err (OIo k)
      | Ok (ESym target) =>
        match hops with
        | O => Err (Extract HopLimit)
        | S hops =>
          match classify_host_target root (root ++ resolved) target with
          | HEscape => Ok true
          | HRel => escapes_loop hops σ root resolved (push_components target ++ rest)
          | HAbs in_root => escapes_loop hops σ root in_root rest
          end
        end
      | Ok _ => go (resolved ++ [n]) rest
      end
    | _ :: rest => match resolved with [] => Ok true | _ => go (parent_loc resolved) rest end
    end.

Definition whiteout_parent_escapes (root : loc) (parent_rel : list string) (σ : vfs) : result OciError bool :=
  escapes_loop SYMLINK_HOP_LIMIT σ root [] (Normal <$> parent_rel).

Definition refuse_whiteout_escape (root : loc) (parent_rel : list string) : xM () :=
  b ← reading (whiteout_parent_escapes root parent_rel);
  if b : bool then fail (Extract EscapesRootfs) else mret tt.

(** One unit of fuel per directory level. *)
Fixpoint clear_dir (fuel : nat) (dir : loc) (unpacked : gset loc) : xM () :=
  match fuel with
  | O => fail OOutOfFuel
  | S fuel =>
    kids ← io (read_dir dir);
    forM (fun _ n =>
      let p := dir ++ [n] in
      r ← try (symlink_metadata p);
      match r with
      | Err EkNotFound => mret tt
      | Err k => fail (OIo k)
      | Ok e =>
        if decide (p ∈ unpacked) then
          match e with EDir _ => clear_dir fuel p unpacked | _ => mret tt end
        else remove_nofollow p false
      end) tt kids
  end.

Section Extractor.
Variable backend : loc -> list string -> vfs -> result OciError loc.
(** Bound on the depth of [clear_dir]. *)
Variable depth : nat.

Definition resolve_dir (root : loc) (rel : list string) : xM loc :=
  reading (resolve_or_root backend root (Normal <$> rel)).

Definition apply_opaque_whiteout (root : loc) (dir_rel : list string) (unpacked : gset loc) : xM () :=
  refuse_whiteout_escape root dir_rel ≫= fun _ =>
  dir_abs ← resolve_dir root dir_rel;
  ensure_inside root dir_abs ≫= fun _ =>
  present ← reading (fun σ => Ok (exists_at σ dir_abs));
  if present : bool then clear_dir depth dir_abs unpacked else mret tt.

Definition apply_whiteout (root : loc) (rel : list string) (unpacked : gset loc) (ty : EntryType) : xM bool :=
  match ty, last rel with
  | (TRegular | TGNUSparse), Some base =>
    let parent_rel := take (length rel - 1) rel in
    if decide (base = ".wh..wh..opq"%string) then
      apply_opaque_whiteout root parent_rel unpacked ≫= fun _ => mret true
    else match strip_prefix_str ".wh." base with
    | Some target_name =>
      if decide (target_name = "" \/ target_name = "." \/ target_name = "..")%string
      then fail (Extract (InvalidWhiteout base)) else
      refuse_whiteout_escape root parent_rel ≫= fun _ =>
      dir ← resolve_dir root parent_rel;
      let target_safe := dir ++ [target_name] in
      ensure_inside root target_safe ≫= fun _ =>
      r ← try (symlink_metadata target_safe);
      match r with
      | Ok _ => remove_nofollow target_safe false ≫= fun _ => mret true
      | Err _ => mret true
      end
    | None => mret false
    end
  | _, _ => mret false
  end.

(** ** [LayerExtractor] *)

Definition place_leaf (root : loc) (normalized : list string) (keep_dir : bool) : xM loc :=
  let '(parent_rel, leaf) := split_parent_leaf normalized in
  safe_parent ← resolve_dir root parent_rel;
  ensure_dir safe_parent root ≫= fun _ =>
  let safe_path := safe_parent ++ leaf in
  ensure_inside root safe_path ≫= fun _ =>
  remove_nofollow safe_path keep_dir ≫= fun _ =>
  mret safe_path.

Record xstate : Type := mkX {
  x_deferred_dirs : gmap loc Z;
  x_unpacked : gset loc;
  x_written : gset (list string);
  x_links : list (list string * list string)
}.

Definition create_directory (dirs : gmap loc Z) (safe_path : loc) (mode : Z) : xM (gmap loc Z) :=
  r ← try (symlink_metadata safe_path);
  match r with
  | Ok _ => mret (<[safe_path := Z.land mode 0xfff]> dirs)
  | Err _ => io (create_dir safe_path) ≫= fun _ => mret (<[safe_path := Z.land mode 0xfff]> dirs)
  end.

Definition write_regular (safe_path : loc) (mode : Z) (e : entry) : xM () :=
  io (write_new safe_path (Z.land mode 0xfff) (e_data e)) ≫= fun _ =>
  match e_copy_error e with
  | Some k => fail (OIo k)
  | None => io (set_permissions safe_path (Z.land mode 0xfff))
  end.

Definition skip_member (ty : EntryType) : bool :=
  match ty with
  | TBlock | TChar | TFifo => true
  | TXGlobalHeader | TXHeader => true
  | TDirectory | TRegular | TGNUSparse | TContinuous | TLink | TSymlink => false
  | TOther => true
  end.

Definition link_target (e : entry) (without : extract_msg) : xM path :=
  match e_link_name e with
  | Err k => fail (OIo k)
  | Ok None => fail (Extract without)
  | Ok (Some t) => mret t
  end.

Definition create_symlink (safe_path : loc) (e : entry) : xM () :=
  target ← link_target e SymlinkWithoutTarget;
  io (symlink target safe_path).

Definition link_source (root : loc) (target_rel : list string) : xM loc :=
  let '(tp, tl) := split_parent_leaf target_rel in
  dir ← resolve_dir root tp;
  ensure_inside root (dir ++ tl) ≫= fun _ => mret (dir ++ tl).

Definition apply_hardlink (root : loc) (normalized : list string) (e : entry) (x : xstate) : xM xstate :=
  target ← link_target e HardlinkWithoutTarget;
  match normalize_relative target with
  | None => fail (Extract HardlinkTargetEscapes)
  | Some target_rel =>
    target_safe ← link_source root target_rel;
    r ← try (symlink_metadata target_safe);
    match r with
    | Ok _ =>
      safe_path ← place_leaf root normalized false;
      io (hard_link target_safe safe_path) ≫= fun _ =>
      mret (mkX (x_deferred_dirs x) (remember_unpacked (x_unpacked x) root safe_path)
              ({[normalized]} ∪ x_written x) (x_links x))
    | Err _ =>
      mret (mkX (x_deferred_dirs x) (x_unpacked x) (x_written x) (x_links x ++ [(normalized, target_rel)]))
    end
  end.

Definition flush_hardlinks (root : loc) (x : xstate) : xM () :=
  forM (fun _ '(link_rel, target_rel) =>
    if decide (link_rel ∈ x_written x) then mret tt else
    target_safe ← link_source root target_rel;
    r ← try (symlink_metadata target_safe);
    match r with
    | Err _ => fail (Extract HardlinkTargetMissing)
    | Ok _ =>
      safe_path ← place_leaf root link_rel false;
      io (hard_link target_safe safe_path)
    end) tt (x_links x).

(** Body of [for raw_entry in archive.entries()]. *)
Definition extract_entry (root : loc) (x : xstate) (raw : result io_kind entry) : xM xstate :=
  match raw with
  | Err k => fail (OIo k)
  | Ok e =>
    match normalize_relative (e_path e) with
    | None | Some [] => mret x
    | Some normalized =>
      let mode := default 0x1a4 (e_mode e) in
      handled ← apply_whiteout root normalized (x_unpacked x) (e_type e);
      if (handled : bool) || skip_member (e_type e) then mret x else
      if decide (e_type e = TLink) then apply_hardlink root normalized e x else
      safe_path ← place_leaf root normalized (bool_decide (e_type e = TDirectory));
      let unpacked' := remember_unpacked (x_unpacked x) root safe_path in
      let written' := {[normalized]} ∪ x_written x in
      match e_type e with
      | TDirectory =>
        dirs ← create_directory (x_deferred_dirs x) safe_path mode;
        mret (mkX dirs unpacked' written' (x_links x))
      | TRegular | TGNUSparse | TContinuous =>
        write_regular safe_path mode e ≫= fun _ =>
        mret (mkX (x_deferred_dirs x) unpacked' written' (x_links x))
      | TSymlink =>
        create_symlink safe_path e ≫= fun _ =>
        mret (mkX (x_deferred_dirs x) unpacked' written' (x_links x))
      | _ => mret x
      end
    end
  end.

(** [extract_reader]: one layer; the directory modes go on to the next one. *)
Definition extract_reader (root : loc) (dirs : gmap loc Z) (members : list (result io_kind entry))
    : xM (gmap loc Z) :=
  x ← forM (extract_entry root) (mkX dirs ∅ ∅ []) members;
  flush_hardlinks root x ≫= fun _ => mret (x_deferred_dirs x).

(** Path order: component by component. *)
Fixpoint loc_leb (a b : loc) : bool :=
  match a, b with
  | [], _ => true
  | _, [] => false
  | x :: a, y :: b => if decide (x = y) then loc_leb a b else String.leb x y
  end.

Fixpoint insert_desc (x : loc * Z) (l : list (loc * Z)) : list (loc * Z) :=
  match l with
  | [] => [x]
  | y :: r => if loc_leb y.1 x.1 then x :: l else y :: insert_desc x r
  end.

Definition sort_desc (l : list (loc * Z)) : list (loc * Z) := foldr insert_desc [] l.

Definition finalize (dirs : gmap loc Z) : xM () :=
  forM (fun _ '(p, mode) =>
    r ← try (symlink_metadata p);
    match r with
    | Ok (EDir _) => io (set_permissions p mode)
    | _ => mret tt
    end) tt (sort_desc (map_to_list dirs)).

(** [extract_layer_files] for a root directory that exists: every layer, then
    the directory modes. *)
Definition extract_layers (root : loc) (layers : list (list (result io_kind entry))) : xM (gmap loc Z) :=
  forM (extract_reader root) ∅ layers.

Definition extract_layer_files (root : loc) (layers : list (list (result io_kind entry))) : xM () :=
  dirs ← extract_layers root layers;
  finalize dirs.
End Extractor.
