(* ===== verification/ExtractConfined.v ===== *)
(** * Extraction stays inside its root

    The confinement theorem for [crates/bux-oci/src/extract.rs], by a small
    program logic over the file-system monad: every step of the extractor keeps
    the tree well formed and changes nothing outside the extraction root. *)

From S2P Require Import Prelude Files Paths Vfs SafeRoot LayerExtract.

(** ** The program logic *)

(** Strictly below the root. *)
Definition below (R l : loc) : Prop := exists n s, l = R ++ n :: s.

(** Nothing outside the root changes: no entry, and no file that existed. *)
Definition confined (R : loc) (σ σ' : vfs) : Prop :=
  (forall l, ~ below R l -> ents σ' !! l = ents σ !! l)
  /\ (forall i, (i < next_ino σ)%nat -> inodes σ' !! i = inodes σ !! i)
  /\ (next_ino σ <= next_ino σ')%nat.

Definition inv (R : loc) (σ : vfs) : Prop := wf_tree σ /\ root_dir R σ.

Definition triple {E A} (R : loc) (P : vfs -> Prop) (m : fsM E A) (Q : A -> vfs -> Prop) : Prop :=
  forall σ, inv R σ -> P σ ->
    inv R (m σ).2 /\ confined R σ (m σ).2 /\ forall a, (m σ).1 = Ok a -> Q a (m σ).2.

Lemma confined_refl R σ : confined R σ σ.
Proof. done. Qed.

Lemma confined_trans R σ1 σ2 σ3 : confined R σ1 σ2 -> confined R σ2 σ3 -> confined R σ1 σ3.
Proof.
  intros (A1 & B1 & C1) (A2 & B2 & C2). split_and!; [|intros i Hi; rewrite B2 by lia; auto|lia].
  intros l Hl. by rewrite A2, A1.
Qed.

Lemma triple_ret {E A} R (P : vfs -> Prop) (a : A) (Q : A -> vfs -> Prop) :
  (forall σ, P σ -> Q a σ) -> triple (E := E) R P (mret a) Q.
Proof. intros H σ Hi Hp. split_and!; [done..|]. intros b [= <-]. by apply H. Qed.

Lemma triple_fail {E A} R P (e : E) (Q : A -> vfs -> Prop) : triple R P (fail e) Q.
Proof. intros σ Hi Hp. by split_and!. Qed.

Lemma triple_bind {E A B} R P (m : fsM E A) (f : A -> fsM E B) Q S :
  triple R P m Q -> (forall a, triple R (Q a) (f a) S) -> triple R P (m ≫= f) S.
Proof.
  intros Hm Hf σ Hi Hp. destruct (Hm σ Hi Hp) as (I1 & C1 & Q1).
  unfold mbind, fsM_bind. destruct (m σ) as [[a|e] σ1]; simpl in *; [|by split_and!].
  destruct (Hf a σ1 I1 (Q1 a eq_refl)) as (I2 & C2 & Q2). split_and!; [done|by eapply confined_trans|done].
Qed.

Lemma triple_conseq {E A} R (P P' : vfs -> Prop) (m : fsM E A) (Q Q' : A -> vfs -> Prop) :
  triple R P' m Q' -> (forall σ, P σ -> P' σ) -> (forall a σ, Q' a σ -> Q a σ) -> triple R P m Q.
Proof. intros H HP HQ σ Hi Hp. destruct (H σ Hi (HP _ Hp)) as (?&?&?). split_and!; auto. Qed.

Lemma triple_reading {E A} R P (f : vfs -> result E A) (Q : A -> vfs -> Prop) :
  (forall σ a, inv R σ -> P σ -> f σ = Ok a -> Q a σ) -> triple R P (reading f) Q.
Proof. intros H σ Hi Hp. split_and!; [done..|]. intros a Ha. by apply H. Qed.

Lemma triple_lift {E F A} R P (g : E -> F) (m : fsM E A) (Q : A -> vfs -> Prop) :
  triple R P m Q -> triple R P (lift_err g m) Q.
Proof.
  intros H σ Hi Hp. destruct (H σ Hi Hp) as (?&?&HQ). unfold lift_err.
  destruct (m σ) as [[a|e] σ']; simpl in *; split_and!; try done; intros b [= <-]; by apply HQ.
Qed.

(** [try]: the state condition [I] holds however the call ends. *)
Lemma triple_try {E F A} R (P I : vfs -> Prop) (m : fsM E A) (Q : A -> vfs -> Prop) :
  (forall σ, inv R σ -> P σ -> I (m σ).2) -> triple R P m Q ->
  triple (E := F) R P (try m) (fun r σ => I σ /\ match r with Ok a => Q a σ | Err _ => True end).
Proof.
  intros HI H σ Hi Hp. destruct (H σ Hi Hp) as (?&?&HQ). specialize (HI σ Hi Hp). unfold try.
  destruct (m σ) as [[a|e] σ']; simpl in *; split_and!; try done; intros b [= <-]; split; auto.
Qed.

Lemma triple_forM {E St A} R (I : St -> vfs -> Prop) (f : St -> A -> fsM E St) s l :
  (forall s x, triple R (I s) (f s x) I) -> triple R (I s) (forM f s l) I.
Proof.
  intros Hf. revert s. induction l as [|x l IH]; intros s; simpl; [by apply triple_ret|].
  eapply triple_bind; [apply Hf|]. intros a. apply IH.
Qed.

(** ** The state changes of the system calls *)

Lemma below_snoc R q n : below R (R ++ q ++ [n]).
Proof.
  destruct q as [|x q]; [by exists n, []|]. exists x, (q ++ [n]). done.
Qed.

Lemma inv_add R σ l n e :
  inv R σ -> below R (l ++ [n]) -> ents σ !! (l ++ [n]) = None ->
  (exists m, ents σ !! l = Some (EDir m)) ->
  let σ' := with_ents σ (<[l ++ [n] := e]> (ents σ)) in inv R σ' /\ confined R σ σ'.
Proof.
  intros [Hwf Hr] Hb Hn [m Hm] σ'. split; [split|].
  - intros l' n' e' H. simpl in *.
    assert (Hd : exists m, ents σ !! l' = Some (EDir m)).
    { destruct (decide (l ++ [n] = l' ++ [n'])) as [E|E].
      - apply app_inj_tail in E as [-> _]. eauto.
      - rewrite lookup_insert_ne in H by done. by eapply Hwf. }
    destruct Hd as [m' Hm']. exists m'. rewrite lookup_insert_ne; [done|congruence].
  - intros k Hk. destruct (Hr k Hk) as [m' Hm']. exists m'. simpl.
    rewrite lookup_insert_ne; [done|congruence].
  - split_and!; simpl; [|done..]. intros k Hk. rewrite lookup_insert_ne; [done|]. intros <-. by apply Hk.
Qed.

Lemma below_not_prefix R l k : below R l -> k `prefix_of` R -> ~ l `prefix_of` k.
Proof.
  intros (n & s & ->) [x ->] [y Hy]. apply (f_equal length) in Hy. rewrite !length_app in Hy. simpl in Hy. lia.
Qed.

Lemma inv_del_leaf R σ l e :
  inv R σ -> below R l -> ents σ !! l = Some e -> (forall m, e <> EDir m) ->
  let σ' := with_ents σ (delete l (ents σ)) in inv R σ' /\ confined R σ σ'.
Proof.
  intros [Hwf Hr] Hb He Hnd σ'. split; [split|].
  - intros l' n' e' H. simpl in *. rewrite lookup_delete_Some in H. destruct H as [_ H].
    destruct (Hwf _ _ _ H) as [m Hm]. exists m. rewrite lookup_delete_ne; [done|].
    intros ->. rewrite He in Hm. by injection Hm as ->; destruct (Hnd m).
  - intros k Hk. destruct (Hr k Hk) as [m Hm]. exists m. simpl. rewrite lookup_delete_ne; [done|].
    intros ->. by destruct (below_not_prefix _ _ _ Hb Hk).
  - split_and!; simpl; [|done..]. intros k Hk. rewrite lookup_delete_ne; [done|]. intros <-. by apply Hk.
Qed.

Lemma below_prefix R l k : below R l -> l `prefix_of` k -> below R k.
Proof. intros (n & s & ->) [y ->]. exists n, (s ++ y). by rewrite <- app_assoc. Qed.

Lemma inv_del_tree R σ l :
  inv R σ -> below R l ->
  let σ' := with_ents σ (filter (fun x => negb (bool_decide (l `prefix_of` x.1))) (ents σ)) in
  inv R σ' /\ confined R σ σ'.
Proof.
  intros [Hwf Hr] Hb σ'.
  assert (Hlook : forall k, ~ l `prefix_of` k -> ents σ' !! k = ents σ !! k).
  { intros k Hk. simpl. destruct (ents σ !! k) as [e|] eqn:E.
    - apply map_lookup_filter_Some. split; [done|]. simpl. by rewrite bool_decide_eq_false_2.
    - apply map_lookup_filter_None. by left. }
  split; [split|].
  - intros l' n' e' H. simpl in H. apply map_lookup_filter_Some in H as [H Hp]. simpl in Hp.
    apply Is_true_true, negb_true_iff, bool_decide_eq_false in Hp.
    destruct (Hwf _ _ _ H) as [m Hm]. exists m. rewrite Hlook; [done|].
    intros Hc. apply Hp. by apply prefix_app_r.
  - intros k Hk. destruct (Hr k Hk) as [m Hm]. exists m.
    rewrite Hlook; [done|]. by apply (below_not_prefix R).
  - split_and!; [|done..]. intros k Hk. apply Hlook. intros Hc. apply Hk. by eapply below_prefix.
Qed.

(** Links never appear where there were none. *)
Definition no_new_links (σ σ' : vfs) : Prop :=
  forall l t, ents σ' !! l = Some (ESym t) -> ents σ !! l = Some (ESym t).

Lemma nolink_mono σ σ' R q : no_new_links σ σ' -> nolink σ R q -> nolink σ' R q.
Proof.
  intros Hl. revert R. induction q as [|n q IH]; intros R H; simpl in *; [done|].
  destruct (ents σ' !! (R ++ [n])) as [[]|] eqn:E;
    try (apply IH; by destruct (ents σ !! (R ++ [n])) as [[]|]).
  by rewrite (Hl _ _ E) in H.
Qed.

Lemma nolink_below R q σ : inv R σ -> nolink σ R q -> nolink σ [] (R ++ q).
Proof. intros [_ Hr] Hq. apply nolink_app. split; [by apply nolink_root|done]. Qed.

(** ** System calls at a path whose directory part has no links *)

Lemma walk_parent_dir links σ follow missing cur ns n l :
  (exists m, ents σ !! cur = Some (EDir m)) -> nolink σ cur ns ->
  walk links σ follow missing cur (Normal <$> (ns ++ [n])) = Ok l ->
  exists m, ents σ !! (cur ++ ns) = Some (EDir m).
Proof.
  destruct links; revert cur; induction ns as [|x ns IH]; intros cur Hc H Hw; simpl in *.
  1, 3: by rewrite app_nil_r.
  all: replace (cur ++ x :: ns) with ((cur ++ [x]) ++ ns) by (by rewrite <- app_assoc);
    destruct (ents σ !! (cur ++ [x])) as [[m|i|t]|] eqn:E; [by apply IH; [exists m| |]| |done|].
  all: destruct ns; simpl in Hw; rewrite ?andb_false_r in Hw; done.
Qed.

(** The no-follow lookup of [R/q/n]. *)
Lemma lookup_leaf R σ q n missing l :
  inv R σ -> nolink σ R q -> lookup_path σ false missing (R ++ q ++ [n]) = Ok l ->
  l = (R ++ q) ++ [n] /\ exists m, ents σ !! (R ++ q) = Some (EDir m).
Proof.
  intros Hi Hq H. pose proof (nolink_below _ _ _ Hi Hq) as Hn. unfold lookup_path in H.
  rewrite (app_assoc R q [n]) in H. split; [by apply (walk_nolink_last _ _ _ [] _ _ _ Hn H)|].
  apply (walk_parent_dir SYMLOOP_MAX σ false missing [] (R ++ q) n l); [|done..].
  destruct Hi as [_ Hr]. apply (Hr []). by exists R.
Qed.

Lemma add_entry_cases R σ q n e :
  inv R σ -> nolink σ R q ->
  (exists k, add_entry (R ++ q ++ [n]) e σ = (Err k, σ))
  \/ (add_entry (R ++ q ++ [n]) e σ = (Ok (), with_ents σ (<[(R ++ q) ++ [n] := e]> (ents σ)))
      /\ ents σ !! ((R ++ q) ++ [n]) = None /\ exists m, ents σ !! (R ++ q) = Some (EDir m)).
Proof.
  intros Hi Hq. unfold add_entry.
  destruct (lookup_path σ false true (R ++ q ++ [n])) as [l|k] eqn:E; [|left; eauto].
  destruct (lookup_leaf _ _ _ _ _ _ Hi Hq E) as [-> Hd].
  destruct (ents σ !! ((R ++ q) ++ [n])) eqn:En; [left; eauto|right; done].
Qed.

Lemma triple_add_entry R q n e :
  triple R (fun σ => nolink σ R q) (add_entry (R ++ q ++ [n]) e) (fun _ _ => True).
Proof.
  intros σ Hi Hq. destruct (add_entry_cases R σ q n e Hi Hq) as [[k ->]|(-> & Hn & Hd)];
    [by split_and!|]. simpl.
  pose proof (below_snoc R q n) as Hb. rewrite app_assoc in Hb.
  destruct (inv_add R σ (R ++ q) n e Hi Hb Hn Hd). split_and!; done.
Qed.

(** Adding something that is not a link keeps paths free of links. *)
Lemma add_entry_links R σ q n e q' :
  inv R σ -> nolink σ R q -> (forall t, e <> ESym t) -> nolink σ R q' ->
  nolink (add_entry (R ++ q ++ [n]) e σ).2 R q'.
Proof.
  intros Hi Hq He Hq'. destruct (add_entry_cases R σ q n e Hi Hq) as [[k ->]|(-> & _)]; [done|].
  eapply nolink_mono; [|done]. intros l t H. simpl in H.
  apply lookup_insert_Some in H as [[_ H]|[_ H]]; [by destruct (He t)|done].
Qed.

Lemma remove_file_cases R σ q n :
  inv R σ -> nolink σ R q ->
  (exists k, remove_file (R ++ q ++ [n]) σ = (Err k, σ))
  \/ (exists e, remove_file (R ++ q ++ [n]) σ = (Ok (), with_ents σ (delete ((R ++ q) ++ [n]) (ents σ)))
      /\ ents σ !! ((R ++ q) ++ [n]) = Some e /\ forall m, e <> EDir m).
Proof.
  intros Hi Hq. unfold remove_file.
  destruct (lookup_path σ false false (R ++ q ++ [n])) as [l|k] eqn:E; [|left; eauto].
  destruct (lookup_leaf _ _ _ _ _ _ Hi Hq E) as [-> Hd].
  destruct (ents σ !! ((R ++ q) ++ [n])) as [[]|] eqn:En; [left; eauto|right; eauto..|left; eauto].
Qed.

Lemma remove_dir_all_cases R σ q n :
  inv R σ -> nolink σ R q ->
  (exists k, remove_dir_all (R ++ q ++ [n]) σ = (Err k, σ))
  \/ remove_dir_all (R ++ q ++ [n]) σ
     = (Ok (), with_ents σ (filter (fun x => negb (bool_decide ((R ++ q) ++ [n] `prefix_of` x.1))) (ents σ))).
Proof.
  intros Hi Hq. unfold remove_dir_all.
  destruct (lookup_path σ false false (R ++ q ++ [n])) as [l|k] eqn:E; [|left; eauto].
  destruct (lookup_leaf _ _ _ _ _ _ Hi Hq E) as [-> Hd].
  destruct (ents σ !! ((R ++ q) ++ [n])) as [[]|] eqn:En; [right; done|left; eauto..].
Qed.

(** Removals keep the invariant, stay inside and add no links. *)

Lemma remove_file_safe R σ q n :
  inv R σ -> nolink σ R q ->
  let σ' := (remove_file (R ++ q ++ [n]) σ).2 in inv R σ' /\ confined R σ σ' /\ no_new_links σ σ'.
Proof.
  intros Hi Hq. destruct (remove_file_cases R σ q n Hi Hq) as [[k ->]|(e & -> & He & Hnd)];
    [split_and!; [done|done|by intros l t]|].
  pose proof (below_snoc R q n) as Hb. rewrite app_assoc in Hb.
  destruct (inv_del_leaf R σ _ e Hi Hb He Hnd) as [Hi' Hc]. split_and!; [done..|].
  intros l t H. simpl in H. by apply lookup_delete_Some in H as [_ H].
Qed.

Lemma remove_dir_all_safe R σ q n :
  inv R σ -> nolink σ R q ->
  let σ' := (remove_dir_all (R ++ q ++ [n]) σ).2 in inv R σ' /\ confined R σ σ' /\ no_new_links σ σ'.
Proof.
  intros Hi Hq. destruct (remove_dir_all_cases R σ q n Hi Hq) as [[k ->]| ->];
    [split_and!; [done|done|by intros l t]|].
  pose proof (below_snoc R q n) as Hb. rewrite app_assoc in Hb.
  destruct (inv_del_tree R σ _ Hi Hb) as [Hi' Hc]. split_and!; [done..|].
  intros l t H. simpl in H. by apply map_lookup_filter_Some in H as [H _].
Qed.

(** ** Directories *)

Lemma root_lookup R σ follow missing : inv R σ -> lookup_path σ follow missing R = Ok R.
Proof.
  intros [_ Hr]. unfold lookup_path.
  assert (Hg : forall ns cur, R = cur ++ ns ->
    walk SYMLOOP_MAX σ follow missing cur (Normal <$> ns) = Ok R); [|by apply Hg].
  unfold SYMLOOP_MAX. induction ns as [|n ns IH]; intros cur E; simpl; [by rewrite E, app_nil_r|].
  destruct (Hr (cur ++ [n])) as [m ->]; [exists ns; rewrite <- app_assoc; done|].
  apply IH. rewrite <- app_assoc. done.
Qed.

Lemma create_root R σ : inv R σ -> create_dir R σ = (Err EkOther, σ).
Proof.
  intros Hi. unfold create_dir, add_entry. rewrite root_lookup by done.
  destruct Hi as [_ Hr]. by destruct (Hr R) as [m ->].
Qed.

Lemma parent_snoc (l : loc) n : parent_loc (l ++ [n]) = l.
Proof. unfold parent_loc. rewrite length_app. simpl. by rewrite Nat.add_sub, take_app_length. Qed.

(** *** Quiet computations: inside the root and without new links, however they end *)

Definition quiet {E A} (R : loc) (P : vfs -> Prop) (m : fsM E A) : Prop :=
  forall σ, inv R σ -> P σ -> inv R (m σ).2 /\ confined R σ (m σ).2 /\ no_new_links σ (m σ).2.

Definition stable (P : vfs -> Prop) : Prop := forall σ σ', no_new_links σ σ' -> P σ -> P σ'.

Lemma stable_nolink R q : stable (fun σ => nolink σ R q).
Proof. intros σ σ'. apply nolink_mono. Qed.

Lemma no_new_links_trans σ1 σ2 σ3 : no_new_links σ1 σ2 -> no_new_links σ2 σ3 -> no_new_links σ1 σ3.
Proof. intros H1 H2 l t H. by apply H1, H2. Qed.

Lemma quiet_pure {E A} R P (m : fsM E A) : (forall σ, (m σ).2 = σ) -> quiet R P m.
Proof. intros H σ Hi Hp. rewrite H. split_and!; [done..|by intros l t]. Qed.

Lemma quiet_bind {E A B} R P (m : fsM E A) (f : A -> fsM E B) :
  stable P -> quiet R P m -> (forall a, quiet R P (f a)) -> quiet R P (m ≫= f).
Proof.
  intros Hs Hm Hf σ Hi Hp. destruct (Hm σ Hi Hp) as (I1 & C1 & L1).
  unfold mbind, fsM_bind. destruct (m σ) as [[a|e] σ1]; simpl in *; [|by split_and!].
  destruct (Hf a σ1 I1 (Hs _ _ L1 Hp)) as (I2 & C2 & L2).
  split_and!; [done|by eapply confined_trans|by eapply no_new_links_trans].
Qed.

Lemma quiet_try {E F A} R P (m : fsM E A) : quiet R P m -> quiet (E := F) R P (try m).
Proof. intros H σ Hi Hp. specialize (H σ Hi Hp). unfold try. by destruct (m σ). Qed.

Lemma quiet_lift {E F A} R P (g : E -> F) (m : fsM E A) : quiet R P m -> quiet R P (lift_err g m).
Proof. intros H σ Hi Hp. specialize (H σ Hi Hp). unfold lift_err. by destruct (m σ). Qed.

Lemma quiet_forM {E St A} R P (f : St -> A -> fsM E St) s l :
  stable P -> (forall s x, quiet R P (f s x)) -> quiet R P (forM f s l).
Proof.
  intros Hs Hf. revert s. induction l as [|x l IH]; intros s; simpl; [by apply quiet_pure|].
  apply quiet_bind; auto.
Qed.

Lemma quiet_weaken {E A} R (P P' : vfs -> Prop) (m : fsM E A) :
  quiet R P' m -> (forall σ, inv R σ -> P σ -> P' σ) -> quiet R P m.
Proof. intros H HP σ Hi Hp. apply H; auto. Qed.

(** Splits a computation into its quiet parts; the extractor's own steps are
    resolved by the hint database. *)
Create HintDb quiet.

Ltac quiet_tac :=
  repeat first
    [ solve [auto with quiet nocore]
    | apply quiet_bind; [apply stable_nolink| |intros ?]
    | apply quiet_try | apply quiet_lift
    | apply quiet_pure; done
    | progress case_match ].

Lemma quiet_create_dir R q : quiet R (fun σ => nolink σ R q) (create_dir (R ++ q)).
Proof.
  intros σ Hi Hq. destruct q as [|n q _] using rev_ind.
  - rewrite app_nil_r, create_root by done. split_and!; [done..|by intros l t].
  - apply nolink_app in Hq as [Hq _]. unfold create_dir.
    destruct (add_entry_cases R σ q n (EDir 0x1ff) Hi Hq) as [[k ->]|(-> & Hn & Hd)];
      [split_and!; [done..|by intros l t]|]. simpl.
    pose proof (below_snoc R q n) as Hb. rewrite app_assoc in Hb.
    destruct (inv_add R σ (R ++ q) n (EDir 0x1ff) Hi Hb Hn Hd) as [H1 H2]. split_and!; [done..|].
    intros l t H. simpl in H. by apply lookup_insert_Some in H as [[_ H]|[_ H]].
Qed.

Lemma quiet_create_dir_all R n q : quiet R (fun σ => nolink σ R q) (create_dir_all_aux n (R ++ q)).
Proof.
  revert q. induction n as [|n IH]; intros q; cbn [create_dir_all_aux].
  - apply quiet_bind; [apply stable_nolink|apply quiet_try, quiet_create_dir|]. intros r. quiet_tac.
  - destruct q as [|x q _] using rev_ind.
    + (* the root exists, so its creation is not retried *)
      intros σ Hi Hq. rewrite app_nil_r. unfold mbind, fsM_bind, try, reading.
      rewrite create_root by done. destruct (is_dir_at σ R); split_and!; try done; by intros l t.
    + apply quiet_bind; [apply stable_nolink|apply quiet_try, quiet_create_dir|]. intros r.
      rewrite app_assoc, parent_snoc, <- app_assoc. quiet_tac; try apply quiet_create_dir.
      eapply quiet_weaken; [apply IH|]. intros σ _ Hσ. by apply nolink_app in Hσ as [Hσ _].
Qed.

Lemma quiet_remove_file R q n : quiet R (fun σ => nolink σ R q) (remove_file (R ++ q ++ [n])).
Proof. intros σ Hi Hq. by apply remove_file_safe. Qed.

Lemma quiet_remove_dir_all R q n : quiet R (fun σ => nolink σ R q) (remove_dir_all (R ++ q ++ [n])).
Proof. intros σ Hi Hq. by apply remove_dir_all_safe. Qed.

Lemma quiet_unblock R n q : quiet R (fun σ => nolink σ R q) (unblock n R (R ++ q)).
Proof.
  revert q. induction n as [|n IH]; intros q; cbn [unblock];
    (destruct q as [|x q _] using rev_ind;
     [rewrite app_nil_r, (bool_decide_eq_true_2 (R = R)) by done; rewrite andb_false_r; by apply quiet_pure|]).
  all: case_match; [|by apply quiet_pure]; apply quiet_bind;
    [apply stable_nolink|by apply quiet_try, quiet_pure|]; intros r.
  all: assert (Hrm : quiet R (fun σ => nolink σ R (q ++ [x])) (io (remove_file (R ++ q ++ [x]))))
    by (apply quiet_lift; eapply quiet_weaken; [apply quiet_remove_file|];
        intros σ _ Hσ; by apply nolink_app in Hσ as [Hσ _]).
  - destruct r as [[]|]; first [done | by apply quiet_pure].
  - rewrite app_assoc, parent_snoc, <- app_assoc in *.
    destruct r as [[]|]; first [done | eapply quiet_weaken; [apply IH|]; intros σ _ Hσ; by apply nolink_app in Hσ as [Hσ _]].
Qed.

Lemma quiet_ensure_dir R q : quiet R (fun σ => nolink σ R q) (ensure_dir (R ++ q) R).
Proof.
  unfold ensure_dir, create_dir_all. apply quiet_bind; [apply stable_nolink|apply quiet_try, quiet_create_dir_all|].
  intros r. quiet_tac; [apply quiet_unblock|apply quiet_create_dir_all].
Qed.

(** ** Removing the old entry *)

Lemma lookup_existing R σ q n e missing :
  inv R σ -> nolink σ R q -> ents σ !! ((R ++ q) ++ [n]) = Some e ->
  lookup_path σ false missing (R ++ q ++ [n]) = Ok ((R ++ q) ++ [n]).
Proof.
  intros Hi Hq He. unfold lookup_path. rewrite (app_assoc R q [n]).
  rewrite (walk_exists _ _ _ [] (R ++ q) n e); [done|apply Hi|by apply nolink_below|done].
Qed.

Lemma remove_ok R σ q n e :
  inv R σ -> nolink σ R q -> ents σ !! ((R ++ q) ++ [n]) = Some e ->
  let p := R ++ q ++ [n] in
  let m := match e with EDir _ => remove_dir_all p | _ => remove_file p end in
  (m σ).1 = Ok () /\ ents (m σ).2 !! ((R ++ q) ++ [n]) = None.
Proof.
  intros Hi Hq He. cbv zeta. unfold remove_dir_all, remove_file.
  destruct e; rewrite (lookup_existing _ _ _ _ _ _ Hi Hq He), He; simpl; (split; [done|]).
  - apply map_lookup_filter_None. right. intros x _. cbn [fst]. rewrite bool_decide_eq_true_2 by done. by intros [].
  - apply lookup_delete_eq.
  - apply lookup_delete_eq.
Qed.

Definition remove_any (p : loc) (e : ent) : sys () :=
  match e with EDir _ => remove_dir_all p | _ => remove_file p end.

Lemma remove_nofollow_gone p keep σ k :
  lstat p σ = Err k -> (remove_nofollow p keep σ).2 = σ.
Proof.
  intros H. unfold remove_nofollow, mbind, fsM_bind, try, symlink_metadata, reading. rewrite H. by destruct k.
Qed.

Lemma remove_nofollow_keep p σ d : lstat p σ = Ok (EDir d) -> remove_nofollow p true σ = (Ok (), σ).
Proof. intros H. unfold remove_nofollow, mbind, fsM_bind, try, symlink_metadata, reading. by rewrite H. Qed.

Lemma remove_nofollow_remove p keep σ e σ' :
  lstat p σ = Ok e -> (keep = true -> forall d, e <> EDir d) -> remove_any p e σ = (Ok (), σ') ->
  remove_nofollow p keep σ = (Ok (), σ').
Proof.
  intros H Hk Hr. unfold remove_nofollow, mbind, fsM_bind, try, symlink_metadata, reading. rewrite H.
  destruct e, keep; simpl in *; rewrite ?Hr; try done. by destruct (Hk eq_refl mode).
Qed.

(** After [remove_nofollow] the name is free, or is a directory that was to be kept. *)
Lemma remove_nofollow_safe R σ q n keep :
  inv R σ -> nolink σ R q ->
  let m := remove_nofollow (R ++ q ++ [n]) keep in
  (inv R (m σ).2 /\ confined R σ (m σ).2 /\ no_new_links σ (m σ).2)
  /\ ((m σ).1 = Ok () ->
      ents (m σ).2 !! ((R ++ q) ++ [n]) = None
      \/ (keep = true /\ exists d, ents (m σ).2 !! ((R ++ q) ++ [n]) = Some (EDir d))).
Proof.
  intros Hi Hq. cbv zeta.
  pose proof (lstat_nolink σ (R ++ q) n (proj1 Hi) (nolink_below _ _ _ Hi Hq)) as Hl.
  replace (lstat ((R ++ q) ++ [n]) σ) with (lstat (R ++ q ++ [n]) σ) in Hl by (by rewrite app_assoc).
  destruct (lstat (R ++ q ++ [n]) σ) as [e|k] eqn:E.
  - assert (Hcase : keep = true /\ (exists d, e = EDir d) \/ (keep = true -> forall d, e <> EDir d))
      by (destruct keep, e; naive_solver).
    destruct Hcase as [[-> [d ->]]|Hk].
    { rewrite (remove_nofollow_keep _ _ d E). split; [split_and!; [done..|by intros l t]|]. eauto. }
    destruct (remove_ok R σ q n e Hi Hq Hl) as [Hr1 Hr2].
    assert (Hs : let σ' := (remove_any (R ++ q ++ [n]) e σ).2 in
      inv R σ' /\ confined R σ σ' /\ no_new_links σ σ').
    { destruct e; [by apply remove_dir_all_safe|by apply remove_file_safe..]. }
    change (match e with EDir _ => remove_dir_all (R ++ q ++ [n]) | _ => remove_file (R ++ q ++ [n]) end)
      with (remove_any (R ++ q ++ [n]) e) in Hr1, Hr2.
    destruct (remove_any (R ++ q ++ [n]) e σ) as [r σ'] eqn:Er. simpl in *. subst r.
    rewrite (remove_nofollow_remove _ _ _ _ _ E Hk Er). split; [done|]. by left.
  - rewrite (remove_nofollow_gone _ _ _ _ E). split; [split_and!; [done..|by intros l t]|]. by left.
Qed.

Lemma quiet_remove_nofollow R q n keep :
  quiet R (fun σ => nolink σ R q) (remove_nofollow (R ++ q ++ [n]) keep).
Proof. intros σ Hi Hq. by apply remove_nofollow_safe. Qed.

#[export] Hint Resolve quiet_create_dir quiet_create_dir_all quiet_unblock quiet_ensure_dir
  quiet_remove_nofollow : quiet.

(** ** Whiteouts *)

Lemma quiet_clear_dir R fuel q unpacked :
  quiet R (fun σ => nolink σ R q) (clear_dir fuel (R ++ q) unpacked).
Proof.
  revert q. induction fuel as [|fuel IH]; intros q; cbn [clear_dir]; [by apply quiet_pure|].
  apply quiet_bind; [apply stable_nolink|by apply quiet_lift, quiet_pure|]. intros kids.
  apply quiet_forM; [apply stable_nolink|]. intros _ n. rewrite <- app_assoc.
  (* the metadata just read says whether the child is a directory *)
  intros σ Hi Hq. unfold mbind, fsM_bind, try, symlink_metadata, reading.
  pose proof (lstat_nolink σ (R ++ q) n (proj1 Hi) (nolink_below _ _ _ Hi Hq)) as Hl.
  rewrite <- app_assoc in Hl. destruct (lstat (R ++ q ++ [n]) σ) as [e|k].
  - case_decide; [|by apply quiet_remove_nofollow].
    destruct e; try (split_and!; [done..|by intros l t]).
    apply IH; [done|]. apply nolink_snoc; [done|]. intros t Ht. congruence.
  - destruct k; (split_and!; [done..|by intros l t]).
Qed.

#[export] Hint Resolve quiet_clear_dir : quiet.

Section Confinement.
Context (backend : loc -> list string -> vfs -> result OciError loc) `{!Backend backend}.
Context (depth : nat) (R : loc).

Lemma resolve_dir_spec rel σ p :
  inv R σ -> (resolve_dir backend R rel σ).1 = Ok p ->
  (resolve_dir backend R rel σ).2 = σ /\ exists q, p = R ++ q /\ nolink σ R q.
Proof.
  intros [Hwf Hr] H. split; [done|].
  exact (safe_resolve_nolink backend R (Normal <$> rel) σ p Hwf Hr H).
Qed.

(** Sequencing after a resolved directory. *)
Lemma quiet_resolved {A} rel (f : loc -> xM A) :
  (forall q, quiet R (fun σ => nolink σ R q) (f (R ++ q))) ->
  quiet R (fun _ => True) (resolve_dir backend R rel ≫= f).
Proof.
  intros Hf σ Hi _. unfold mbind, fsM_bind.
  pose proof (resolve_dir_spec rel σ) as Hs.
  destruct (resolve_dir backend R rel σ) as [[p|e] σ'] eqn:E; simpl in *.
  - destruct (Hs p Hi eq_refl) as (-> & q & -> & Hq). by apply Hf.
  - assert (σ' = σ) as -> by (by injection E). split_and!; [done..|by intros l t].
Qed.

Lemma stable_True : stable (fun _ => True).
Proof. done. Qed.

Lemma quiet_apply_whiteout rel unpacked ty :
  quiet R (fun _ => True) (apply_whiteout backend depth R rel unpacked ty).
Proof.
  unfold apply_whiteout, apply_opaque_whiteout, refuse_whiteout_escape.
  destruct ty; try by apply quiet_pure.
  all: destruct (last rel) as [base|]; [|by apply quiet_pure]; case_decide.
  1, 3: apply quiet_bind; [apply stable_True| |intros _; by apply quiet_pure];
    apply quiet_bind; [apply stable_True| |intros _];
    [apply quiet_bind; [apply stable_True|by apply quiet_pure|intros []; by apply quiet_pure]|];
    apply quiet_resolved; intros q; unfold ensure_inside; quiet_tac.
  all: destruct (strip_prefix_str _ base) as [t|]; [|by apply quiet_pure];
    case_decide; [by apply quiet_pure|];
    apply quiet_bind; [apply stable_True| |intros _];
    [apply quiet_bind; [apply stable_True|by apply quiet_pure|intros []; by apply quiet_pure]|];
    apply quiet_resolved; intros q; unfold ensure_inside; rewrite <- app_assoc; quiet_tac.
Qed.

(** ** Placing a member *)

Lemma triple_quiet {E A} P (m : fsM E A) : stable P -> quiet R P m -> triple R P m (fun _ => P).
Proof. intros Hs Hm σ Hi Hp. destruct (Hm σ Hi Hp) as (?&?&?). split_and!; [done..|]. intros a Ha. by eapply Hs. Qed.

Lemma triple_pure {E A} (P : vfs -> Prop) (φ : Prop) (m : fsM E A) (Q : A -> vfs -> Prop) :
  (φ -> triple R P m Q) -> triple R (fun σ => φ /\ P σ) m Q.
Proof. intros H σ Hi [Hφ Hp]. by apply H. Qed.

Lemma triple_ex {E A X} (P : X -> vfs -> Prop) (m : fsM E A) (Q : A -> vfs -> Prop) :
  (forall x, triple R (P x) m Q) -> triple R (fun σ => exists x, P x σ) m Q.
Proof. intros H σ Hi [x Hp]. by apply (H x). Qed.

(** A name below the root whose directory part has no links, and which is free
    or a directory to be kept. *)
Definition placed (keep : bool) (p : loc) (σ : vfs) : Prop :=
  exists q n, p = R ++ q ++ [n] /\ nolink σ R q
    /\ (ents σ !! ((R ++ q) ++ [n]) = None \/ (keep = true /\ exists d, ents σ !! ((R ++ q) ++ [n]) = Some (EDir d))).

Lemma triple_resolve_dir rel :
  triple R (fun _ => True) (resolve_dir backend R rel) (fun p σ => exists q, p = R ++ q /\ nolink σ R q).
Proof. intros σ Hi _. split_and!; [done..|]. intros p Hp. by destruct (resolve_dir_spec rel σ p Hi Hp). Qed.

Lemma triple_place_leaf rel keep :
  rel <> [] -> triple R (fun _ => True) (place_leaf backend R rel keep) (placed keep).
Proof.
  intros Hne. destruct rel as [|leaf rel _] using rev_ind; [done|]. clear Hne.
  unfold place_leaf, split_parent_leaf. rewrite last_snoc.
  eapply triple_bind; [apply triple_resolve_dir|]. intros p. apply triple_ex. intros q.
  apply triple_pure. intros ->.
  eapply triple_bind; [apply triple_quiet; [apply stable_nolink|apply quiet_ensure_dir]|]. intros [].
  eapply triple_bind; [apply triple_quiet; [apply stable_nolink|unfold ensure_inside; quiet_tac]|]. intros [].
  apply (triple_bind _ _ _ _ (fun _ => placed keep ((R ++ q) ++ [leaf]))).
  - rewrite <- app_assoc. intros σ Hi Hq.
    destruct (remove_nofollow_safe R σ q leaf keep Hi Hq) as [(H1 & H2 & H3) H4]. split_and!; [done..|].
    intros [] Ha. exists q, leaf. split_and!; [done|by eapply nolink_mono|by apply H4].
  - intros _. by apply triple_ret.
Qed.

(** ** Writing a member *)

Lemma triple_add_placed keep p e : triple R (placed keep p) (add_entry p e) (fun _ _ => True).
Proof.
  intros σ Hi (q & n & -> & Hq & _). by apply triple_add_entry.
Qed.

(** The directories whose modes are still to be set lie below the root. *)
Definition dirs_below (dirs : gmap loc Z) : Prop := forall p, is_Some (dirs !! p) -> below R p.

Lemma dirs_below_insert dirs p mode : dirs_below dirs -> below R p -> dirs_below (<[p := mode]> dirs).
Proof. intros Hd Hp q [m [[<- _]|[_ H]]%lookup_insert_Some]; [done|]. apply Hd. by exists m. Qed.

Lemma triple_create_directory dirs keep p mode :
  dirs_below dirs -> triple R (placed keep p) (create_directory dirs p mode) (fun dirs' _ => dirs_below dirs').
Proof.
  intros Hd. unfold create_directory. apply (triple_bind _ _ _ _ (fun _ => placed keep p)).
  - intros σ Hi Hp. by split_and!.
  - assert (Hb : forall σ, placed keep p σ -> below R p) by (intros σ (q & n & -> & _); apply below_snoc).
    intros [e|k]; [apply triple_ret; intros σ Hp; apply dirs_below_insert; [done|by eapply Hb]|].
    intros σ Hi Hp. specialize (Hb σ Hp). revert σ Hi Hp.
    change (triple R (placed keep p) (io (create_dir p) ≫= fun _ => mret (<[p := Z.land mode 0xfff]> dirs)) (fun dirs' _ => dirs_below dirs')).
    eapply triple_bind; [apply triple_lift, triple_add_placed|].
    intros []. apply triple_ret. intros σ _. by apply dirs_below_insert.
Qed.

Lemma triple_create_symlink keep p e : triple R (placed keep p) (create_symlink p e) (fun _ _ => True).
Proof.
  unfold create_symlink, link_target. apply (triple_bind _ _ _ _ (fun _ => placed keep p)).
  - destruct (e_link_name e) as [[t|]|k]; [by apply triple_ret|apply triple_fail..].
  - intros t. apply triple_lift, triple_add_placed.
Qed.

Lemma lookup_free q n σ follow missing l :
  inv R σ -> nolink σ R q -> (forall t, ents σ !! ((R ++ q) ++ [n]) <> Some (ESym t)) ->
  lookup_path σ follow missing (R ++ q ++ [n]) = Ok l -> l = (R ++ q) ++ [n].
Proof.
  intros Hi Hq Hn H. unfold lookup_path in H. rewrite app_assoc in H.
  apply walk_nolink in H; [done|]. rewrite <- app_assoc. apply nolink_below; [done|].
  apply nolink_snoc; [done|]. by rewrite app_assoc.
Qed.

Lemma write_regular_safe q n mode e σ :
  inv R σ -> nolink σ R q -> ents σ !! ((R ++ q) ++ [n]) = None ->
  exists r σ', write_regular (R ++ q ++ [n]) mode e σ = (r, σ') /\ inv R σ' /\ confined R σ σ'.
Proof.
  intros Hi Hq Hn. unfold write_regular, mbind, fsM_bind, io, lift_err, write_new.
  destruct (lookup_path σ true true (R ++ q ++ [n])) as [l|k] eqn:E; [|by do 2 eexists].
  apply lookup_free in E as El; [|done|done|congruence]. subst l. rewrite Hn. cbn [map_err].
  set (σ1 := mkVfs _ _ _).
  pose proof (below_snoc R q n) as Hb. rewrite app_assoc in Hb.
  assert (Hd : exists m, ents σ !! (R ++ q) = Some (EDir m)).
  { unfold lookup_path in E. rewrite (app_assoc R q [n]) in E.
    apply (walk_parent_dir _ _ _ _ [] (R ++ q) n) in E; [done| |by apply nolink_below].
    apply (proj2 Hi []). by exists R. }
  destruct (inv_add R σ (R ++ q) n (EFile (next_ino σ)) Hi Hb Hn Hd) as [Hi1 (Hc1 & _ & _)].
  assert (Hi1' : inv R σ1) by exact Hi1.
  assert (Hc : confined R σ σ1).
  { split_and!; [exact Hc1| |simpl; lia]. intros i Hlt. simpl. rewrite lookup_insert_ne; [done|lia]. }
  destruct (e_copy_error e) as [k|]; [by do 2 eexists|].
  assert (Hq1 : nolink σ1 R q).
  { eapply nolink_mono; [|exact Hq]. intros l t H. simpl in H.
    by apply lookup_insert_Some in H as [[_ H]|[_ H]]. }
  unfold set_permissions. destruct (lookup_path σ1 true false (R ++ q ++ [n])) as [l|k] eqn:E1; [|by do 2 eexists].
  assert (Hf : ents σ1 !! ((R ++ q) ++ [n]) = Some (EFile (next_ino σ))) by apply lookup_insert_eq.
  apply lookup_free in E1 as ->; [|done|done|congruence]. rewrite Hf. do 2 eexists. split; [done|].
  split; [done|]. destruct Hc as (Ha & Hino & Hnx). split_and!; [done| |done]. intros i Hlt. simpl.
  rewrite lookup_alter_ne by lia. by apply Hino.
Qed.

Lemma triple_write_regular p mode e : triple R (placed false p) (write_regular p mode e) (fun _ _ => True).
Proof.
  intros σ Hi (q & n & -> & Hq & [Hn|[? _]]); [|done].
  destruct (write_regular_safe q n mode e σ Hi Hq Hn) as (r & σ' & -> & ? & ?). by split_and!.
Qed.

(** ** One member, one layer, all layers *)

Definition links_ok (x : xstate) (σ : vfs) : Prop := Forall (fun l => l.1 <> []) (x_links x) /\ dirs_below (x_deferred_dirs x).

Lemma triple_link_source target_rel :
  triple R (fun _ => True) (link_source backend R target_rel) (fun _ _ => True).
Proof.
  unfold link_source. destruct (split_parent_leaf target_rel) as [tp tl].
  eapply triple_bind; [eapply triple_conseq; [apply triple_resolve_dir|done|]; intros a σ H; exact H|].
  intros dir σ Hi Hp. unfold ensure_inside. case_match; by split_and!.
Qed.

Lemma triple_stat_then {A} p (f : result io_kind ent -> xM A) (P : vfs -> Prop) Q :
  (forall r, triple R P (f r) Q) -> triple R P (try (symlink_metadata p) ≫= f) Q.
Proof. intros Hf. apply (triple_bind _ _ _ _ (fun _ => P)); [intros σ Hi Hp; by split_and!|done]. Qed.

Lemma triple_hard_link src p keep : triple R (placed keep p) (hard_link src p) (fun _ _ => True).
Proof.
  unfold hard_link. apply (triple_bind _ _ _ _ (fun _ => placed keep p)); [intros σ Hi Hp; by split_and!|].
  intros []; [apply triple_fail|apply triple_add_placed..].
Qed.

Lemma triple_apply_hardlink rel e x :
  rel <> [] -> triple R (links_ok x) (apply_hardlink backend R rel e x) links_ok.
Proof.
  intros Hrel. unfold apply_hardlink, link_target.
  apply (triple_bind _ _ _ _ (fun _ => links_ok x)).
  { destruct (e_link_name e) as [[t|]|k]; [by apply triple_ret|apply triple_fail..]. }
  intros t. destruct (normalize_relative t) as [target_rel|]; [|apply triple_fail].
  assert (Hpure : forall A (m : xM A) Q, triple R (fun _ => True) m Q ->
    triple R (links_ok x) m (fun a σ => links_ok x σ /\ Q a σ)).
  { intros A m Q Hm σ Hi Hx. destruct (Hm σ Hi I) as (?&?&?). split_and!; [done..|]. intros a Ha. split; auto. }
  eapply triple_bind; [apply Hpure, triple_link_source|]. intros src.
  apply triple_stat_then. intros [en|k].
  - apply (triple_pure (fun _ => True) (Forall (fun l => l.1 <> []) (x_links x) /\ dirs_below (x_deferred_dirs x))). intros Hx.
    eapply triple_bind; [by apply triple_place_leaf|]. intros p.
    eapply triple_bind; [apply triple_lift, triple_hard_link|]. intros []. by apply triple_ret.
  - apply triple_ret. intros σ [[Hx Hd] _]. split; [|exact Hd]. cbn. apply Forall_app. split; [done|]. by constructor.
Qed.

Lemma triple_extract_entry x raw :
  triple R (links_ok x) (extract_entry backend depth R x raw) links_ok.
Proof.
  unfold extract_entry. destruct raw as [e|k]; [|apply triple_fail].
  destruct (normalize_relative (e_path e)) as [[|n0 rel]|] eqn:En; [by apply triple_ret| |by apply triple_ret].
  apply (triple_bind _ _ _ _ (fun _ => links_ok x)).
  { intros σ Hi Hx. destruct (quiet_apply_whiteout (n0 :: rel) (x_unpacked x) (e_type e) σ Hi I) as (?&?&?).
    by split_and!. }
  intros handled. destruct (handled || skip_member (e_type e)); [by apply triple_ret|].
  case_decide as Ht; [by apply triple_apply_hardlink|].
  intros σ Hi Hx.
  assert (Hmain : triple R (fun _ => True) (safe_path ← place_leaf backend R (n0 :: rel) (bool_decide (e_type e = TDirectory));
      match e_type e with
      | TDirectory => dirs ← create_directory (x_deferred_dirs x) safe_path (default 0x1a4 (e_mode e));
          mret (mkX dirs (remember_unpacked (x_unpacked x) R safe_path) ({[n0 :: rel]} ∪ x_written x) (x_links x))
      | TRegular | TGNUSparse | TContinuous =>
          write_regular safe_path (default 0x1a4 (e_mode e)) e ≫= fun _ =>
          mret (mkX (x_deferred_dirs x) (remember_unpacked (x_unpacked x) R safe_path) ({[n0 :: rel]} ∪ x_written x) (x_links x))
      | TSymlink => create_symlink safe_path e ≫= fun _ =>
          mret (mkX (x_deferred_dirs x) (remember_unpacked (x_unpacked x) R safe_path) ({[n0 :: rel]} ∪ x_written x) (x_links x))
      | _ => mret x
      end) links_ok); [|by apply Hmain].
  eapply triple_bind; [by apply triple_place_leaf|]. intros p.
  destruct (e_type e); rewrite ?bool_decide_eq_false_2, ?bool_decide_eq_true_2 by done;
    try (by apply triple_ret);
    (eapply triple_bind;
      [first [apply triple_write_regular | apply triple_create_symlink | apply triple_create_directory, Hx]
      |intros ?; apply triple_ret; intros σ1 Hd; split; [apply Hx|first [exact Hd|apply Hx]]]).
Qed.

Lemma triple_flush_hardlinks x : triple R (links_ok x) (flush_hardlinks backend R x) (fun _ _ => True).
Proof.
  unfold flush_hardlinks. intros σ Hi [Hx _].
  assert (Hloop : forall ls, Forall (fun l : list string * list string => l.1 <> []) ls ->
    triple R (fun _ => True) (forM (fun _ '(link_rel, target_rel) =>
      if decide (link_rel ∈ x_written x) then mret tt else
      target_safe ← link_source backend R target_rel;
      r ← try (symlink_metadata target_safe);
      match r with
      | Err _ => fail (Extract HardlinkTargetMissing)
      | Ok _ => safe_path ← place_leaf backend R link_rel false; io (hard_link target_safe safe_path)
      end) tt ls) (fun _ _ => True)); [|by apply Hloop].
  induction 1 as [|[link_rel target_rel] ls Hne HF IH]; simpl; [by apply triple_ret|].
  apply (triple_bind _ _ _ _ (fun _ _ => True)); [|intros []; exact IH].
  case_decide; [by apply triple_ret|].
  eapply triple_bind; [apply triple_link_source|]. intros src. apply triple_stat_then.
  intros [en|k]; [|apply triple_fail].
  eapply triple_bind; [by apply triple_place_leaf|]. intros p. apply triple_lift, triple_hard_link.
Qed.

Lemma triple_extract_reader dirs members :
  triple R (fun _ => dirs_below dirs) (extract_reader backend depth R dirs members) (fun dirs' _ => dirs_below dirs').
Proof.
  unfold extract_reader. eapply triple_bind.
  - eapply triple_conseq; [apply (triple_forM R links_ok _ (mkX dirs ∅ ∅ []) members); apply triple_extract_entry| |].
    + intros σ Hd. split; [by constructor|exact Hd].
    + intros x σ Hx. exact Hx.
  - intros x. apply (triple_bind _ _ _ _ (fun _ _ => dirs_below (x_deferred_dirs x))).
    + intros σ Hi Hx. destruct (triple_flush_hardlinks x σ Hi Hx) as (?&?&_). split_and!; [done..|]. intros _ _. apply Hx.
    + intros []. by apply triple_ret.
Qed.

Lemma triple_extract_layers layers :
  triple R (fun _ => True) (extract_layers backend depth R layers) (fun dirs _ => dirs_below dirs).
Proof.
  eapply triple_conseq; [apply (triple_forM R (fun dirs _ => dirs_below dirs)); apply triple_extract_reader| |].
  - intros σ _ p [m Hm]. by apply lookup_empty_Some in Hm.
  - by intros dirs σ Hd.
Qed.
End Confinement.

(** ** The final pass: the modes of directories *)

(** A directory may change its mode, nothing else does. *)
Definition same_but_mode (o o' : option ent) : Prop := o' = o \/ exists m m', o = Some (EDir m) /\ o' = Some (EDir m').

Definition retouched (σ σ' : vfs) : Prop :=
  (forall l, same_but_mode (ents σ !! l) (ents σ' !! l)) /\ inodes σ' = inodes σ /\ next_ino σ' = next_ino σ.

#[export] Instance retouched_preorder : PreOrder retouched.
Proof.
  split; [intros σ; by repeat split; left|]. intros σ1 σ2 σ3 (A1 & B1 & C1) (A2 & B2 & C2). split; [|split; congruence].
  intros l. destruct (A1 l) as [E1|(m1 & m2 & E1 & E2)], (A2 l) as [E3|(m3 & m4 & E3 & E4)].
  - left. congruence.
  - right. exists m3, m4. split; congruence.
  - right. exists m1, m2. split; congruence.
  - right. exists m1, m4. split; congruence.
Qed.

Lemma retouched_dir σ σ' l : retouched σ σ' -> (exists m, ents σ !! l = Some (EDir m)) -> exists m, ents σ' !! l = Some (EDir m).
Proof. intros (H & _) [m Hm]. destruct (H l) as [->|(m1 & m2 & _ & ->)]; eauto. Qed.

Lemma retouched_inv R σ σ' : retouched σ σ' -> inv R σ -> inv R σ'.
Proof.
  intros H [Hwf Hr]. split; [|intros k Hk; by eapply retouched_dir, Hr]. intros l n e He.
  destruct (proj1 H (l ++ [n])) as [E|(m1 & m2 & E & _)]; eapply retouched_dir; [done|eapply Hwf; by rewrite <- E|done|by eapply Hwf].
Qed.

Lemma retouched_links σ σ' : retouched σ σ' -> no_new_links σ σ'.
Proof. intros (H & _) l t Ht. destruct (H l) as [E|(m1 & m2 & _ & E)]; congruence. Qed.

(** The no-follow walk to something that is not a link is the walk that follows. *)
Lemma walk_follow links σ missing cur rest l :
  (forall t, ents σ !! l <> Some (ESym t)) ->
  walk links σ false missing cur rest = Ok l -> walk links σ true missing cur rest = Ok l.
Proof.
  intros Hl. revert cur rest. induction links as [|links IHl]; intros cur rest; revert cur;
    induction rest as [|c rest IH]; intros cur H; simpl in *; try done; (destruct c as [| | |n]; [by apply IH..|]).
  all: destruct (ents σ !! (cur ++ [n])) as [[m|i|t]|] eqn:E; [by apply IH|done| |done].
  all: rewrite andb_true_r in H; rewrite andb_false_r.
  all: destruct (bool_decide (rest = [])); [injection H as <-; by destruct (Hl t)|]; first [done|by apply IHl].
Qed.

Section Finalize.
Context (R : loc).

Definition chmod_dir (p : loc) (mode : Z) : xM () :=
  r ← try (symlink_metadata p);
  match r with
  | Ok (EDir _) => io (set_permissions p mode)
  | _ => mret tt
  end.

Lemma chmod_dir_cases p mode σ :
  (chmod_dir p mode σ).2 = σ
  \/ exists l m, lookup_path σ true false p = Ok l /\ ents σ !! l = Some (EDir m)
       /\ (chmod_dir p mode σ).2 = with_ents σ (<[l := EDir mode]> (ents σ)).
Proof.
  unfold chmod_dir, mbind, fsM_bind, try, symlink_metadata, reading. destruct (lstat p σ) as [[m|i|t]|k] eqn:E; [|by left..].
  unfold lstat, mbind, result_bind in E. destruct (lookup_path σ false false p) as [l|] eqn:El; [|done].
  destruct (ents σ !! l) as [e|] eqn:Ee; [|done]. injection E as ->. right. exists l, m.
  assert (Ef : lookup_path σ true false p = Ok l) by (apply walk_follow; [congruence|done]).
  split; [done|]. split; [done|]. unfold io, lift_err, set_permissions. by rewrite Ef, Ee.
Qed.

Lemma chmod_dir_retouches p mode σ : retouched σ (chmod_dir p mode σ).2.
Proof.
  destruct (chmod_dir_cases p mode σ) as [->|(l & m & _ & Em & ->)]; [reflexivity|]. split; [|done]. intros k. cbn.
  destruct (decide (l = k)) as [<-|]; [right; exists m, mode; by rewrite lookup_insert_eq|left; by rewrite lookup_insert_ne].
Qed.

Lemma chmod_dir_here q mode σ l :
  inv R σ -> nolink σ R q -> l <> R ++ q -> ents (chmod_dir (R ++ q) mode σ).2 !! l = ents σ !! l.
Proof.
  intros Hi Hq Hl. destruct (chmod_dir_cases (R ++ q) mode σ) as [->|(k & m & Ek & _ & ->)]; [done|].
  apply walk_nolink in Ek; [|by apply nolink_below]. cbn. rewrite lookup_insert_ne; [done|]. subst k. cbn. congruence.
Qed.

Definition finalize_list (l : list (loc * Z)) : xM () := forM (fun _ '(p, mode) => chmod_dir p mode) tt l.

Lemma finalize_list_retouches l σ : retouched σ (finalize_list l σ).2.
Proof.
  revert σ. induction l as [|[p mode] l IH]; intros σ; [reflexivity|].
  pose proof (chmod_dir_retouches p mode σ) as H. cbn. unfold mbind, fsM_bind.
  destruct (chmod_dir p mode σ) as [[[]|e] σ1]; [|done]. etrans; [exact H|apply IH].
Qed.

Lemma finalize_list_inside l σ k :
  inv R σ -> Forall (fun x => below R x.1 /\ exists q, x.1 = R ++ q /\ nolink σ R q) l -> ~ below R k ->
  ents (finalize_list l σ).2 !! k = ents σ !! k.
Proof.
  revert σ. induction l as [|[p mode] l IH]; intros σ Hi HF Hk; [done|].
  apply Forall_cons in HF as [(Hb & q & Hp & Hq) HF]. cbn in Hb, Hp. subst p.
  pose proof (chmod_dir_retouches (R ++ q) mode σ) as Hr.
  pose proof (chmod_dir_here q mode σ k Hi Hq ltac:(congruence)) as He. cbn. unfold mbind, fsM_bind.
  destruct (chmod_dir (R ++ q) mode σ) as [[[]|e] σ1]; [|done]. cbn in Hr, He. rewrite <- He. apply IH; [|..|done].
  - by eapply retouched_inv.
  - eapply Forall_impl; [exact HF|]. intros x (Hx & q' & E & Hq'). split; [done|]. exists q'. split; [done|].
    eapply nolink_mono; [by apply retouched_links|done].
Qed.

Lemma sort_desc_elem x l : x ∈ sort_desc l -> x ∈ l.
Proof.
  assert (Hi : forall y l, x ∈ insert_desc y l -> x = y \/ x ∈ l).
  { intros y. induction l0 as [|z r IH]; cbn; [by intros ->%list_elem_of_singleton; left|].
    case_match; [by intros [->|?]%elem_of_cons; auto|]. intros [->|Hx]%elem_of_cons; [right; left|].
    destruct (IH Hx) as [->|]; [by left|right; by right]. }
  unfold sort_desc. induction l as [|y l IH]; [done|]. cbn. intros [->|H]%Hi; [left|right; auto].
Qed.
End Finalize.

(** C2.  Unpacking is confined: whatever members the layers hold, in whatever
    order, and however the run ends, applying every layer (members, whiteouts and
    hard links) and then the directory modes leaves each directory entry that is
    not strictly below the extraction root, and each file that existed before, as
    they were, up to the modes of directories.  Only the last pass changes modes
    outside, and it does not if no link lies on the way to a directory whose mode
    was put off: then nothing outside changes at all. *)
Theorem unpacking_confined (backend : loc -> list string -> vfs -> result OciError loc)
    (depth : nat) (R : loc) (layers : list (list (result io_kind entry))) (σ : vfs) :
  Backend backend -> wf_tree σ -> root_dir R σ ->
  let σ' := (extract_layer_files backend depth R layers σ).2 in
  let '(dirs, σ1) := extract_layers backend depth R layers σ in
  (forall l, ~ below R l -> same_but_mode (ents σ !! l) (ents σ' !! l))
  /\ (forall i, (i < next_ino σ)%nat -> inodes σ' !! i = inodes σ !! i)
  /\ wf_tree σ'
  /\ ((forall d q, dirs = Ok d -> is_Some (d !! (R ++ q)) -> nolink σ1 R q) ->
      forall l, ~ below R l -> ents σ' !! l = ents σ !! l).
Proof.
  intros Hb Hwf Hr. destruct (triple_extract_layers backend depth R layers σ (conj Hwf Hr) I)
    as (Hi & (He & Hino & Hnx) & Hd). unfold extract_layer_files, mbind, fsM_bind.
  destruct (extract_layers backend depth R layers σ) as [[dirs|e] σ1]; cbn [fst snd] in *.
  2: { split_and!; [by intros l Hl; left; apply He|done|apply Hi|done]. }
  specialize (Hd dirs eq_refl). change (finalize dirs σ1) with (finalize_list (sort_desc (map_to_list dirs)) σ1).
  pose proof (finalize_list_retouches (sort_desc (map_to_list dirs)) σ1) as Hf. split_and!.
  - intros l Hl. rewrite <- He by done. apply Hf.
  - intros i Hlt. rewrite (proj1 (proj2 Hf)). by apply Hino.
  - by apply (retouched_inv R σ1).
  - intros Hn l Hl. rewrite <- He by done. apply (finalize_list_inside R); [done| |done].
    apply Forall_forall. intros [p mode] Hp%sort_desc_elem%elem_of_map_to_list. cbn [fst].
    assert (Hs : is_Some (dirs !! p)) by (by exists mode). specialize (Hd p Hs). split; [done|].
    destruct Hd as (n & s & ->). exists (n :: s). split; [done|]. by apply (Hn dirs).
Qed.

(** ** A sample run, and the final pass *)

Definition dir_member (p : path) (mode : Z) : result io_kind entry :=
  Ok (mkEntry p TDirectory (Some mode) (Ok None) [] None).
Definition symlink_member (p target : path) : result io_kind entry :=
  Ok (mkEntry p TSymlink (Some 0x1ff) (Ok (Some target)) [] None).
Definition file_member (p : path) (data : list Z) : result io_kind entry :=
  Ok (mkEntry p TRegular (Some 0x1a4) (Ok None) data None).

(** [/home] (mode 0700) beside the extraction root [/r]. *)
Definition host : vfs :=
  mkVfs {[ [] := EDir 0x1ed; ["home"] := EDir 0x1c0; ["r"] := EDir 0x1ed ]}%string ∅ 0.

Lemma unpacking_confined_witness :
  let layer := [dir_member [Normal "d"] 0x1c0; symlink_member [Normal "a"] [RootDir; Normal "home"];
                file_member [Normal "a"; Normal "f"] [1; 2]] in
  let σ' := (extract_layer_files resolve_walk 10 ["r"%string] [layer] host).2 in
  (forall l, ~ below ["r"%string] l -> ents σ' !! l = ents host !! l)
  /\ (forall i, (i < next_ino host)%nat -> inodes σ' !! i = inodes host !! i)
  /\ wf_tree σ'.
Proof.
  intros layer σ'.
  pose proof (unpacking_confined resolve_walk 10 ["r"%string] [layer] host fallback_backend
    (wf_check_ok host ltac:(vm_compute; reflexivity)) (root_check_ok ["r"%string] host ltac:(vm_compute; reflexivity))) as H.
  rewrite (surjective_pairing (extract_layers resolve_walk 10 ["r"%string] [layer] host)) in H.
  destruct H as (_ & Hi & Hw & Hx). split; [|by split]. apply Hx. intros d q Hd [m Hq].
  assert (E : match (extract_layers resolve_walk 10 ["r"%string] [layer] host).1 with
              | Ok d => bool_decide (map_to_list d = [(["r"; "d"]%string, 0x1c0)])
              | Err _ => false
              end = true) by (vm_compute; reflexivity).
  rewrite Hd in E. apply bool_decide_eq_true in E. apply elem_of_map_to_list in Hq. rewrite E in Hq.
  apply list_elem_of_singleton in Hq. injection Hq as Hq _. assert (q = ["d"%string]) as -> by (cbn in Hq; congruence).
  vm_compute. exact I.
Defined.

(** The final pass is not confined: an image with a directory [a/home] and
    then a link [a -> /] makes a successful extraction change the mode of the
    host's own [/home] to the mode in the image, because the deferred mode is
    applied through [a], which by then is a link. *)
Theorem finalize_changes_host_mode (mode : Z) :
  let layer := [dir_member [Normal "a"; Normal "home"] mode; symlink_member [Normal "a"] [RootDir]] in
  let '(r, σ') := extract_layer_files resolve_walk 10 ["r"%string] [layer] host in
  r = Ok () /\ ents host !! ["home"%string] = Some (EDir 0x1c0)
  /\ ents σ' !! ["home"%string] = Some (EDir (Z.land mode 0xfff))
  /\ ~ below ["r"%string] ["home"%string].
Proof.
  cbv zeta. vm_compute (extract_layer_files _ _ _ _ _). split; [reflexivity|]. split; [reflexivity|].
  split; [vm_compute; reflexivity|]. by intros (n & s & [=]).
Qed.
