(* ===== verification/ImageStore.v ===== *)
(** * The local image store

    [crates/bux-oci/src/store.rs] and the image operations of [lib.rs]: the
    SQLite tables with their keys and foreign keys ([foreign_keys=ON]), the
    content-addressed files beside them, and [pull], [ensure] and [remove] on
    top.  SQLite's rules are written out for the statements used: a primary key
    is unique, [image_layers] rows need their layer, deleting an image deletes
    its [image_layers] rows, deleting a layer that still has such rows is
    refused, and an error before [COMMIT] undoes the transaction.  The registry
    and the extractor are parameters. *)

From S2P Require Import Prelude Files Paths SafeRoot.

(** ** Tables and files *)

Record image_row : Type := mkImage {
  im_digest : string;
  im_size : Z;
  im_config : option string;
  im_created : string
}.

(** In rowid order. *)
Record layer_row : Type := mkLayer {
  la_digest : string;
  la_media_type : string;
  la_size : Z;
  la_ref_count : Z
}.

Record link_row : Type := mkLink {
  lk_image : string;
  lk_layer : string;
  lk_position : Z
}.

Record db : Type := mkDb {
  images : gmap string image_row;
  layers : list layer_row;
  image_layers : list link_row
}.

Record store : Type := mkStore {
  st_db : db;
  st_layer_files : gset string;
  st_layer_staging : gset string;
  st_configs : gmap string string;
  st_rootfs : gset string;
  st_rootfs_staging : gset string
}.

Definition with_db (s : store) (d : db) : store :=
  mkStore d (st_layer_files s) (st_layer_staging s) (st_configs s) (st_rootfs s) (st_rootfs_staging s).

Definition with_layer_files (s : store) (f g : gset string) : store :=
  mkStore (st_db s) f g (st_configs s) (st_rootfs s) (st_rootfs_staging s).

Definition with_rootfs (s : store) (f g : gset string) : store :=
  mkStore (st_db s) (st_layer_files s) (st_layer_staging s) (st_configs s) f g.

(** [digest.replace(':', "-")]. *)
Fixpoint file_stem (digest : string) : string :=
  match digest with
  | EmptyString => EmptyString
  | String c r => String (if decide (c = ":"%char) then "-"%char else c) (file_stem r)
  end.

Definition layer_path (digest : string) : string := file_stem digest +:+ ".tar.gz".
Definition layer_staging_path (digest : string) : string := file_stem digest +:+ ".tar.gz.tmp".
Definition config_path (digest : string) : string := file_stem digest +:+ ".json".
Definition rootfs_path (digest : string) : string := file_stem digest.
Definition rootfs_staging_path (digest : string) : string := file_stem digest +:+ ".tmp".

Definition has_layer (s : store) (digest : string) : bool := bool_decide (layer_path digest ∈ st_layer_files s).
Definition rootfs_complete (s : store) (digest : string) : bool := bool_decide (rootfs_path digest ∈ st_rootfs s).

(** [i64::try_from(size).unwrap_or(i64::MAX)]. *)
Definition clamp_i64 (n : Z) : Z := Z.min n I64_MAX.

(** ** Store operations: the outcome and the store it leaves *)

Definition storeM (A : Type) : Type := store -> result OciError A * store.

#[global] Instance storeM_ret : MRet storeM := fun A a s => (Ok a, s).
#[global] Instance storeM_bind : MBind storeM :=
  fun A B f m s => match m s with (Ok a, s') => f a s' | (Err e, s') => (Err e, s') end.

Definition sfail {A} (e : OciError) : storeM A := fun s => (Err e, s).
Definition sread {A} (f : store -> A) : storeM A := fun s => (Ok (f s), s).

(** [INSERT ... ON CONFLICT(digest) DO UPDATE SET ref_count = ref_count + 1]. *)
Fixpoint upsert_layer (digest media_type : string) (size : Z) (ls : list layer_row) : list layer_row :=
  match ls with
  | [] => [mkLayer digest media_type size 1]
  | l :: r =>
    if decide (la_digest l = digest)
    then mkLayer (la_digest l) (la_media_type l) (la_size l) (la_ref_count l + 1) :: r
    else l :: upsert_layer digest media_type size r
  end.

Definition commit_layer (digest media_type : string) (size : Z) : storeM () := fun s =>
  if bool_decide (layer_staging_path digest ∈ st_layer_staging s) then
    let s := with_layer_files s ({[layer_path digest]} ∪ st_layer_files s)
               (st_layer_staging s ∖ {[layer_staging_path digest]}) in
    (Ok (), with_db s (mkDb (images (st_db s))
              (upsert_layer digest media_type (clamp_i64 size) (layers (st_db s)))
              (image_layers (st_db s))))
  else (Err (OIo EkNotFound), s).

Definition save_config (digest data : string) : storeM () := fun s =>
  match st_configs s !! config_path digest with
  | Some _ => (Ok (), s)
  | None => (Ok (), mkStore (st_db s) (st_layer_files s) (st_layer_staging s)
                      (<[config_path digest := data]> (st_configs s)) (st_rootfs s) (st_rootfs_staging s))
  end.

(** A failed [remove_dir_all] of the staging directory is ignored. *)
Definition commit_rootfs (digest : string) : storeM () := fun s =>
  if rootfs_complete s digest then
    (Ok (), with_rootfs s (st_rootfs s) (st_rootfs_staging s ∖ {[rootfs_staging_path digest]}))
  else if bool_decide (rootfs_staging_path digest ∈ st_rootfs_staging s) then
    (Ok (), with_rootfs s ({[rootfs_path digest]} ∪ st_rootfs s)
              (st_rootfs_staging s ∖ {[rootfs_staging_path digest]}))
  else (Err (OIo EkNotFound), s).

(** [INSERT OR IGNORE INTO image_layers]: the primary key is (image, layer); a
    missing layer violates the foreign key, which [OR IGNORE] does not excuse. *)
Definition insert_link (reference : string) (d : db) (it : Z * string) : result OciError db :=
  let '(pos, layer) := it in
  if existsb (fun k => bool_decide (lk_image k = reference) && bool_decide (lk_layer k = layer)) (image_layers d)
  then Ok d
  else if existsb (fun l => bool_decide (la_digest l = layer)) (layers d)
  then Ok (mkDb (images d) (layers d) (image_layers d ++ [mkLink reference layer (clamp_i64 pos)]))
  else Err DbError.

Definition upsert_image (now reference digest : string) (size : Z) (config_digest : string)
    (layer_digests : list string) : storeM () := fun s =>
  let config_json := st_configs s !! config_path config_digest in
  let d := st_db s in
  let d := mkDb (<[reference := mkImage digest (clamp_i64 size) config_json now]> (images d)) (layers d)
             (List.filter (fun k => negb (bool_decide (lk_image k = reference))) (image_layers d)) in
  match foldM (insert_link reference) d (imap (fun i l => (Z.of_nat i, l)) layer_digests) with
  | Ok d => (Ok (), with_db s d)
  | Err e => (Err e, s)
  end.

Definition get_digest (s : store) (reference : string) : option string :=
  im_digest <$> images (st_db s) !! reference.

Definition load_image_config (s : store) (reference : string) : result OciError (option string) :=
  match images (st_db s) !! reference with
  | None => Ok None
  | Some r => match im_config r with Some j => Ok (Some j) | None => Err DbError end
  end.

(** ** [remove_image] *)

Definition decrement (digest : string) (ls : list layer_row) : list layer_row :=
  (fun l => if decide (la_digest l = digest)
            then mkLayer (la_digest l) (la_media_type l) (la_size l) (la_ref_count l - 1) else l) <$> ls.

(** [DELETE FROM layers WHERE digest = ?]: refused while a link row needs it. *)
Definition delete_layer (digest : string) (d : db) : result OciError db :=
  if existsb (fun k => bool_decide (lk_layer k = digest)) (image_layers d) then Err DbError
  else Ok (mkDb (images d) (List.filter (fun l => negb (bool_decide (la_digest l = digest))) (layers d))
             (image_layers d)).

(** The orphan loop: the row, then the file, one after the other. *)
Fixpoint delete_orphans (orphans : list string) (d : db) (files : gset string)
    : result OciError db * gset string :=
  match orphans with
  | [] => (Ok d, files)
  | o :: r =>
    match delete_layer o d with
    | Err e => (Err e, files)
    | Ok d => delete_orphans r d (files ∖ {[layer_path o]})
    end
  end.

Definition layers_of (d : db) (reference : string) : list string :=
  lk_layer <$> List.filter (fun k => bool_decide (lk_image k = reference)) (image_layers d).

(** The tables after the decrements and the cascading delete of the image. *)
Definition without_image (d : db) (reference : string) : db :=
  mkDb (delete reference (images d)) (foldl (fun ls ld => decrement ld ls) (layers d) (layers_of d reference))
    (List.filter (fun k => negb (bool_decide (lk_image k = reference))) (image_layers d)).

Definition orphans (d : db) : list string :=
  la_digest <$> List.filter (fun l => la_ref_count l <=? 0) (layers d).

Definition remove_image (reference : string) : storeM () := fun s =>
  let digest := get_digest s reference in
  let d := without_image (st_db s) reference in
  match delete_orphans (orphans d) d (st_layer_files s) with
  | (Err e, files) => (Err e, with_layer_files s files (st_layer_staging s))
  | (Ok d, files) =>
    let s := with_db (with_layer_files s files (st_layer_staging s)) d in
    match digest with
    | Some dg => (Ok (), with_rootfs s (st_rootfs s ∖ {[rootfs_path dg]}) (st_rootfs_staging s))
    | None => (Ok (), s)
    end
  end.

(** ** lib.rs *)

Record descriptor : Type := mkDescriptor { de_digest : string; de_media_type : string; de_size : Z }.
Record manifest : Type := mkManifest { mf_layers : list descriptor; mf_config_digest : string }.

Record ImageConfig : Type := mkImageConfig {
  cmd : option (list string);
  entrypoint : option (list string);
  env : option (list string);
  working_dir : option string;
  user : option string;
  exposed_ports : option string;
  labels : option (list (string * string))
}.

(** [ImageConfig::command]: the entrypoint, then the command. *)
Definition command (c : ImageConfig) : list string :=
  let parts := [] in
  let parts := match entrypoint c with Some ep => parts ++ ep | None => parts end in
  match cmd c with Some c => parts ++ c | None => parts end.

Record PullResult : Type := mkPull {
  pr_reference : string;
  pr_digest : string;
  pr_rootfs : string;
  pr_config : option ImageConfig
}.

(** The platform of an index entry: its operating system and architecture. *)
Record index_entry : Type := mkIndexEntry { ie_digest : string; ie_platform : option (string * string) }.

Definition target_oci_arch (arch : string) : string :=
  if decide (arch = "x86_64"%string) then "amd64"
  else if decide (arch = "aarch64"%string) then "arm64"
  else arch.

Fixpoint linux_platform_resolver (arch : string) (platforms : list index_entry) : option string :=
  match platforms with
  | [] => None
  | e :: r =>
    match ie_platform e with
    | Some (os, a) =>
      if bool_decide (os = "linux"%string) && bool_decide (a = target_oci_arch arch) then Some (ie_digest e)
      else linux_platform_resolver arch r
    | None => linux_platform_resolver arch r
    end
  end.

Section Registry.
(** [Reference::from_str] and its canonical text. *)
Variable parse_reference : string -> option string.
(** [pull_manifest_and_config], [pull_blob] of one layer, and
    [extract_layer_files] of the layers into a staging directory. *)
Variable pull_manifest : string -> option (manifest * string * string).
Variable pull_blob : string -> descriptor -> bool.
Variable extract : list (string * string) -> result OciError ().
(** [datetime('now')]. *)
Variable now : string.
(** [serde_json::from_str::<TopLevel>]: the [config] field of the document. *)
Variable from_str : string -> option (option ImageConfig).

Definition parse_image_config (data : string) : option ImageConfig := top ← from_str data; top.

Definition canonical_reference (image : string) : result OciError string :=
  match parse_reference image with None => Err InvalidReference | Some r => Ok r end.

(** [u64::try_from(layer.size).unwrap_or(0)]. *)
Definition layer_size (l : descriptor) : Z := if de_size l <? 0 then 0 else de_size l.

(** One layer of the download loop. *)
Definition fetch_layer (reference : string) (total_size : Z) (l : descriptor) : storeM Z := fun s =>
  let total := u64 (total_size + layer_size l) in
  if has_layer s (de_digest l) then (Ok total, s) else
  let s := with_layer_files s (st_layer_files s) ({[layer_staging_path (de_digest l)]} ∪ st_layer_staging s) in
  if pull_blob reference l then
    (commit_layer (de_digest l) (de_media_type l) (layer_size l) ≫= fun _ => mret total) s
  else (Err Registry, s).

Fixpoint fetch_layers (reference : string) (total_size : Z) (ls : list descriptor) : storeM Z :=
  match ls with
  | [] => mret total_size
  | l :: r => t ← fetch_layer reference total_size l; fetch_layers reference t r
  end.

(** Step 4: extraction into a fresh staging directory, then the rename. *)
Definition ensure_rootfs (m : manifest) (digest : string) : storeM () := fun s =>
  if rootfs_complete s digest then (Ok (), s) else
  let s := with_rootfs s (st_rootfs s) ({[rootfs_staging_path digest]} ∪ st_rootfs_staging s) in
  match extract ((fun l => (layer_path (de_digest l), de_media_type l)) <$> mf_layers m) with
  | Ok _ => commit_rootfs digest s
  | Err e => (Err e, s)
  end.

Definition pull (image : string) : storeM PullResult :=
  match parse_reference image with
  | None => sfail InvalidReference
  | Some ref_str =>
    match pull_manifest ref_str with
    | None => sfail Registry
    | Some (m, manifest_digest, config_json) =>
      total_size ← fetch_layers ref_str 0 (mf_layers m);
      save_config (mf_config_digest m) config_json ≫= fun _ =>
      ensure_rootfs m manifest_digest ≫= fun _ =>
      upsert_image now ref_str manifest_digest total_size (mf_config_digest m) (de_digest <$> mf_layers m) ≫= fun _ =>
      mret (mkPull ref_str manifest_digest (rootfs_path manifest_digest) (parse_image_config config_json))
    end
  end.

Definition ensure (image : string) : storeM PullResult :=
  match parse_reference image with
  | None => sfail InvalidReference
  | Some ref_str =>
    fun s =>
    match get_digest s ref_str with
    | Some digest =>
      if rootfs_complete s digest then
        match load_image_config s ref_str with
        | Err e => (Err e, s)
        | Ok json => (Ok (mkPull ref_str digest (rootfs_path digest) (json ← json; parse_image_config json)), s)
        end
      else pull image s
    | None => pull image s
    end
  end.

Definition remove (image : string) : storeM () :=
  match parse_reference image with
  | None => sfail InvalidReference
  | Some ref_str =>
    fun s => match get_digest s ref_str with
             | None => (Err (ImageNotFound ref_str), s)
             | Some _ => remove_image ref_str s
             end
  end.

Definition manifest_compressed_bytes (image : string) : result OciError Z :=
  match parse_reference image with
  | None => Err InvalidReference
  | Some ref_str =>
    match pull_manifest ref_str with
    | None => Err Registry
    | Some (m, _, _) => Ok (foldl (fun a b => u64 (a + b)) 0 (layer_size <$> mf_layers m))
    end
  end.
End Registry.

(** ** Platform selection *)

Definition is_target (arch : string) (e : index_entry) : Prop :=
  ie_platform e = Some ("linux"%string, target_oci_arch arch).

(** The platform resolver picks the first index entry for Linux on the
    host's architecture, and nothing when there is none: no entry of another
    architecture or operating system is ever chosen. *)
Theorem platform_resolver_first_match (arch : string) (ps : list index_entry) :
  match linux_platform_resolver arch ps with
  | Some d => exists pre e post, ps = pre ++ e :: post /\ is_target arch e /\ ie_digest e = d
                                 /\ forall x, x ∈ pre -> ~ is_target arch x
  | None => forall x, x ∈ ps -> ~ is_target arch x
  end.
Proof.
  assert (Hskip : forall e ps, ~ is_target arch e ->
    linux_platform_resolver arch (e :: ps) = linux_platform_resolver arch ps).
  { intros e l He. unfold is_target in He. simpl. destruct (ie_platform e) as [[os a]|]; [|done].
    repeat case_bool_decide; [by subst|done..]. }
  induction ps as [|e ps IH]; [intros x Hx; by apply not_elem_of_nil in Hx|].
  destruct (decide (ie_platform e = Some ("linux"%string, target_oci_arch arch))) as [He|He].
  - simpl. rewrite He, !bool_decide_true by done. exists [], e, ps. split_and!; [done..|].
    intros x Hx. by apply not_elem_of_nil in Hx.
  - rewrite (Hskip e ps He). destruct (linux_platform_resolver arch ps) as [d|].
    + destruct IH as (pre & e' & post & -> & Ht & Hd & Hpre). exists (e :: pre), e', post. split_and!; [done..|].
      intros x Hx. apply elem_of_cons in Hx as [->|Hx]; [done|by apply Hpre].
    + intros x Hx. apply elem_of_cons in Hx as [->|Hx]; [done|by apply IH].
Qed.

(** ** A pulled image is cached *)

Lemma sbind_Ok {A B} (m : storeM A) (f : A -> storeM B) s b s' :
  (m ≫= f) s = (Ok b, s') -> exists a s1, m s = (Ok a, s1) /\ f a s1 = (Ok b, s').
Proof. unfold mbind, storeM_bind. destruct (m s) as [[a|e] s1]; [eauto|done]. Qed.

Lemma fetch_layers_configs pull_blob reference ls total s t s' :
  fetch_layers pull_blob reference total ls s = (Ok t, s') -> st_configs s' = st_configs s.
Proof.
  revert total s. induction ls as [|l ls IH]; intros total s H; simpl in H; [by injection H as _ <-|].
  apply sbind_Ok in H as (t1 & s1 & H1 & H). apply IH in H as ->.
  unfold fetch_layer in H1. destruct (has_layer s _); [by injection H1 as _ <-|]. destruct (pull_blob _ _); [|done].
  apply sbind_Ok in H1 as (u & s2 & H1 & H2). injection H2 as _ <-.
  unfold commit_layer in H1. case_bool_decide; [|done]. by injection H1 as _ <-.
Qed.

Lemma ensure_rootfs_ok extract m dg s u s' :
  ensure_rootfs extract m dg s = (Ok u, s') -> st_configs s' = st_configs s /\ rootfs_complete s' dg = true.
Proof.
  unfold ensure_rootfs. destruct (rootfs_complete s dg) eqn:E; [intros [= _ <-]; done|].
  destruct (extract _); [|done]. unfold commit_rootfs, rootfs_complete in *. simpl. rewrite E.
  rewrite (bool_decide_true (rootfs_staging_path dg ∈ _)) by set_solver. intros [= _ <-]. simpl. split; [done|]. apply bool_decide_eq_true. set_solver.
Qed.

Lemma insert_links_images reference ls d d' :
  foldM (insert_link reference) d ls = Ok d' -> images d' = images d.
Proof.
  revert d. induction ls as [|[z l] ls IH]; intros d H; simpl in H; [by simplify_eq|].
  apply bind_Ok_inv in H as (d1 & Hs & H). rewrite (IH _ H). unfold insert_link in Hs.
  repeat case_match; by simplify_eq.
Qed.

(** C16.  A pulled image is cached: after a successful [pull] (with any
    configuration blob already stored under the manifest's config digest being
    that blob), [ensure] of the same image returns the very same result from the
    local store and leaves the store as it is. *)
Theorem pull_then_ensure parse_reference pull_manifest pull_blob extract now from_str image (s s' : store) r :
  (forall r0 m dg cj j, pull_manifest r0 = Some (m, dg, cj) ->
     st_configs s !! config_path (mf_config_digest m) = Some j -> j = cj) ->
  pull parse_reference pull_manifest pull_blob extract now from_str image s = (Ok r, s') ->
  ensure parse_reference pull_manifest pull_blob extract now from_str image s' = (Ok r, s').
Proof.
  intros Hcas H. unfold pull in H. unfold ensure. destruct (parse_reference image) as [ref|]; [|done].
  destruct (pull_manifest ref) as [[[m dg] cj]|] eqn:Em; [|done].
  apply sbind_Ok in H as (total & s1 & Hf & H). apply fetch_layers_configs in Hf.
  apply sbind_Ok in H as (u1 & s2 & Hcfg & H).
  apply sbind_Ok in H as (u2 & s3 & Hroot & H). apply sbind_Ok in H as (u3 & s4 & Hup & H).
  injection H as <- <-.
  assert (Hc2 : st_configs s2 !! config_path (mf_config_digest m) = Some cj).
  { unfold save_config in Hcfg. destruct (st_configs s1 !! _) eqn:E; simplify_eq.
    - rewrite E. f_equal. apply (Hcas ref m dg cj); [done|]. by rewrite <- Hf.
    - simpl. by rewrite lookup_insert_eq. }
  apply ensure_rootfs_ok in Hroot as [Hc3 Hr]. rewrite <- Hc3 in Hc2.
  unfold upsert_image in Hup. rewrite Hc2 in Hup.
  destruct (foldM _ _ _) as [d|] eqn:Ef; [|done]. injection Hup as _ <-.
  apply insert_links_images in Ef. simpl in Ef.
  unfold get_digest, load_image_config. simpl. rewrite Ef, lookup_insert_eq. simpl.
  unfold rootfs_complete in Hr |- *. simpl. by rewrite Hr.
Qed.

(** ** Foreign keys *)

Definition has_row (ls : list layer_row) (digest : string) : Prop := exists l, l ∈ ls /\ la_digest l = digest.

Definition fk_ok (d : db) : Prop :=
  forall k, k ∈ image_layers d -> is_Some (images d !! lk_image k) /\ has_row (layers d) (lk_layer k).

Lemma has_row_upsert ls digest mt size x :
  has_row ls x -> has_row (upsert_layer digest mt size ls) x.
Proof.
  intros (l & Hl & <-). induction ls as [|y ls IH]; [by apply not_elem_of_nil in Hl|].
  simpl. apply elem_of_cons in Hl as [->|Hl].
  - case_decide; eexists; (split; [by left|done]).
  - case_decide; [exists l; split; [by right|done]|].
    destruct (IH Hl) as (z & Hz & E). exists z. split; [by right|done].
Qed.

Lemma has_row_decrement ls digest x : has_row ls x -> has_row (decrement digest ls) x.
Proof.
  intros (l & Hl & <-). unfold decrement. eexists.
  split; [apply list_elem_of_fmap; exists l; split; [done|exact Hl]|]. by case_decide.
Qed.

Lemma has_row_decrements digests ls x :
  has_row ls x -> has_row (foldl (fun ls ld => decrement ld ls) ls digests) x.
Proof. revert ls. induction digests as [|g gs IH]; intros ls H; simpl; [done|]. by apply IH, has_row_decrement. Qed.

Lemma existsb_bool_decide {A} (P : A -> Prop) `{!forall x, Decision (P x)} l :
  existsb (fun x => bool_decide (P x)) l = true <-> exists x, x ∈ l /\ P x.
Proof.
  rewrite existsb_exists. split; intros (x & Hx & Hp); exists x.
  - apply list_elem_of_In in Hx. by apply bool_decide_eq_true in Hp.
  - apply list_elem_of_In in Hx. split; [done|]. by apply bool_decide_eq_true.
Qed.

Lemma insert_links_fk reference ls d d' :
  foldM (insert_link reference) d ls = Ok d' ->
  is_Some (images d !! reference) -> fk_ok d -> fk_ok d'.
Proof.
  revert d. induction ls as [|[z l] ls IH]; intros d H Hi Hfk; simpl in H; [by simplify_eq|].
  apply bind_Ok_inv in H as (d1 & Hs & H). unfold insert_link in Hs.
  case_match; [simplify_eq; by eapply IH|]. case_match eqn:E; [|done]. simplify_eq.
  apply (existsb_bool_decide (fun r => la_digest r = l)) in E.
  eapply IH; [exact H|done|]. intros k Hk. simpl in *.
  apply elem_of_app in Hk as [Hk| ->%list_elem_of_singleton]; [by apply Hfk|done].
Qed.

(** What the orphan loop leaves: link rows untouched, and only rows and files
    that no link row needs are gone. *)
Lemma delete_orphans_spec os d files res files' :
  delete_orphans os d files = (res, files') ->
  (forall f, f ∈ files -> f ∉ files' ->
     exists o, o ∈ os /\ layer_path o = f /\ forall k, k ∈ image_layers d -> lk_layer k <> o)
  /\ match res with
     | Ok d' => image_layers d' = image_layers d /\ images d' = images d
                /\ (forall k, k ∈ image_layers d -> has_row (layers d) (lk_layer k) -> has_row (layers d') (lk_layer k))
     | Err e => e = DbError
     end.
Proof.
  revert d files. induction os as [|o os IH]; intros d files H; simpl in H.
  - injection H as <- <-. split; [done|]. done.
  - unfold delete_layer in H. destruct (existsb _ _) eqn:E.
    { injection H as <- <-. split; [done|done]. }
    assert (Hno : forall k, k ∈ image_layers d -> lk_layer k <> o).
    { intros k Hk Ho. assert (existsb (fun k => bool_decide (lk_layer k = o)) (image_layers d) = true); [|congruence].
      apply existsb_bool_decide. eauto. }
    apply IH in H as [Hf Hr]. simpl in Hf, Hr. split.
    + intros f Hin Hout. destruct (decide (f = layer_path o)) as [->|Hne].
      * exists o. split_and!; [by left|done|done].
      * destruct (Hf f) as (o' & Ho' & ? & ?); [set_solver|done|]. exists o'. split_and!; [by right|done..].
    + destruct res as [d'|e]; [|done]. destruct Hr as (Hl & Hi & Hk). split_and!; [done..|].
      intros k Hin (l & Hl1 & Hl2). apply Hk; [done|]. exists l. split; [|done].
      apply list_elem_of_In, filter_In. split; [by apply list_elem_of_In|].
      apply negb_true_iff, bool_decide_eq_false. rewrite Hl2. by apply Hno.
Qed.

Lemma elem_of_list_filter {A} (f : A -> bool) l x : x ∈ List.filter f l <-> x ∈ l /\ f x = true.
Proof. by rewrite !list_elem_of_In, filter_In. Qed.

Lemma without_image_link d reference k :
  k ∈ image_layers (without_image d reference) <-> k ∈ image_layers d /\ lk_image k <> reference.
Proof. simpl. rewrite elem_of_list_filter, negb_true_iff, bool_decide_eq_false. done. Qed.

Lemma without_image_fk d reference : fk_ok d -> fk_ok (without_image d reference).
Proof.
  intros Hfk k Hk. apply without_image_link in Hk as [Hk Hne]. destruct (Hfk k Hk) as [Hi Hr].
  split; [simpl; by rewrite lookup_delete_ne|]. by apply has_row_decrements.
Qed.

(** ** Every operation keeps the foreign keys *)

Lemma remove_image_db reference s :
  st_db (remove_image reference s).2 =
  match (delete_orphans (orphans (without_image (st_db s) reference)) (without_image (st_db s) reference)
           (st_layer_files s)).1 with
  | Ok d => d | Err _ => st_db s end.
Proof.
  unfold remove_image. destruct (delete_orphans _ _ _) as [[d|e] files]; [|done].
  by destruct (get_digest s reference).
Qed.

Lemma remove_image_fk reference s : fk_ok (st_db s) -> fk_ok (st_db (remove_image reference s).2).
Proof.
  intros Hfk. rewrite remove_image_db.
  destruct (delete_orphans _ _ _) as [res files] eqn:E. apply delete_orphans_spec in E as [_ Hr]. simpl.
  destruct res as [d|e]; [|done]. destruct Hr as (Hl & Hi & Hk). intros k Hin. rewrite Hl in Hin.
  pose proof (without_image_fk _ reference Hfk k Hin) as [H1 H2]. rewrite Hi. split; [done|]. by apply Hk.
Qed.

Definition keeps_fk {A} (m : storeM A) : Prop := forall s, fk_ok (st_db s) -> fk_ok (st_db (m s).2).

Lemma keeps_fk_bind {A B} (m : storeM A) (f : A -> storeM B) :
  keeps_fk m -> (forall a, keeps_fk (f a)) -> keeps_fk (m ≫= f).
Proof.
  intros Hm Hf s Hs. specialize (Hm s Hs). unfold mbind, storeM_bind.
  destruct (m s) as [[a|e] s']; [by apply Hf|done].
Qed.

Lemma keeps_fk_same_db {A} (m : storeM A) : (forall s, st_db (m s).2 = st_db s) -> keeps_fk m.
Proof. intros H s Hs. by rewrite H. Qed.

Lemma commit_layer_fk digest mt size : keeps_fk (commit_layer digest mt size).
Proof.
  intros s Hs. unfold commit_layer. case_bool_decide; [|done]. simpl. intros k Hk.
  destruct (Hs k Hk) as [H1 H2]. split; [done|]. by apply has_row_upsert.
Qed.

Lemma upsert_image_fk now r dg size cd ls : keeps_fk (upsert_image now r dg size cd ls).
Proof.
  intros s Hs. unfold upsert_image. destruct (foldM _ _ _) as [d|e] eqn:E; [|done]. simpl.
  eapply insert_links_fk; [exact E|simpl; by rewrite lookup_insert_eq|].
  intros k Hk. simpl in Hk. apply elem_of_list_filter in Hk as [Hk Hne].
  apply negb_true_iff, bool_decide_eq_false in Hne. destruct (Hs k Hk) as [H1 H2]. simpl.
  by rewrite lookup_insert_ne.
Qed.

Lemma fetch_layers_fk pull_blob reference ls total : keeps_fk (fetch_layers pull_blob reference total ls).
Proof.
  revert total. induction ls as [|l ls IH]; intros total; [by apply keeps_fk_same_db|].
  simpl. apply keeps_fk_bind; [|done].
  intros s Hs. unfold fetch_layer. case_match; [done|]. case_match; [|done].
  apply (keeps_fk_bind _ _ (commit_layer_fk _ _ _)); [|done]. intros _. by apply keeps_fk_same_db.
Qed.

Lemma pull_fk parse pm pb ex now fs image : keeps_fk (pull parse pm pb ex now fs image).
Proof.
  unfold pull. destruct (parse image) as [r|]; [|by apply keeps_fk_same_db].
  destruct (pm r) as [[[m dg] cj]|]; [|by apply keeps_fk_same_db].
  apply keeps_fk_bind; [apply fetch_layers_fk|]. intros t.
  apply keeps_fk_bind; [apply keeps_fk_same_db; intros s; unfold save_config; by case_match|]. intros _.
  apply keeps_fk_bind; [|intros _; apply keeps_fk_bind; [apply upsert_image_fk|intros _; by apply keeps_fk_same_db]].
  apply keeps_fk_same_db. intros s. unfold ensure_rootfs, commit_rootfs. repeat (case_match; simpl; try done).
Qed.

Inductive image_op : Type := OpPull (image : string) | OpEnsure (image : string) | OpRemove (image : string).

(** Referential integrity: starting from a consistent database, any
    sequence of pulls, cached pulls and removals, each possibly failing at any
    point, leaves every image-layer link with its image row and its layer row. *)
Theorem image_store_fk parse pm pb ex now fs (ops : list image_op) (s : store) :
  fk_ok (st_db s) ->
  fk_ok (st_db (foldl (fun s o => match o with
    | OpPull i => (pull parse pm pb ex now fs i s).2
    | OpEnsure i => (ensure parse pm pb ex now fs i s).2
    | OpRemove i => (remove parse i s).2 end) s ops)).
Proof.
  revert s. induction ops as [|o ops IH]; intros s Hs; simpl; [done|]. apply IH. destruct o.
  - by apply pull_fk.
  - unfold ensure. destruct (parse image); [|done]. repeat case_match; try done; by apply pull_fk.
  - unfold remove. destruct (parse image); [|done]. case_match; [by apply remove_image_fk|done].
Qed.

(** ** Removal and sharing *)

(** Removal spares what others use: after [remove_image], however it ends,
    every link of another image is still there with its layer row, and a layer
    file of another image that was on disk still is (when no other layer's
    digest maps to the same file name). *)
Theorem remove_spares_shared_layers (reference : string) (s : store) (k : link_row) :
  fk_ok (st_db s) -> k ∈ image_layers (st_db s) -> lk_image k <> reference ->
  (forall l, l ∈ layers (st_db s) -> layer_path (la_digest l) = layer_path (lk_layer k) -> la_digest l = lk_layer k) ->
  let s' := (remove_image reference s).2 in
  k ∈ image_layers (st_db s') /\ has_row (layers (st_db s')) (lk_layer k)
  /\ (has_layer s (lk_layer k) = true -> has_layer s' (lk_layer k) = true).
Proof.
  intros Hfk Hk Hne Hinj s'. pose proof (remove_image_fk reference s Hfk) as Hfk'.
  assert (Hk1 : k ∈ image_layers (without_image (st_db s) reference)) by (by apply without_image_link).
  assert (Hlink : k ∈ image_layers (st_db s')).
  { unfold s'. rewrite remove_image_db. destruct (delete_orphans _ _ _) as [res files] eqn:E.
    apply delete_orphans_spec in E as [_ Hr]. simpl. destruct res as [d|e]; [|done].
    destruct Hr as [-> _]. done. }
  split; [done|]. split; [by apply Hfk'|].
  unfold has_layer. rewrite !bool_decide_eq_true. intros Hf. destruct (decide (layer_path (lk_layer k) ∈ st_layer_files s'))
    as [|Hgone]; [done|exfalso]. unfold s', remove_image in Hgone.
  destruct (delete_orphans _ _ _) as [res files] eqn:E. apply delete_orphans_spec in E as [Hfiles _].
  destruct (Hfiles (layer_path (lk_layer k)) Hf) as (o & Ho & Hp & Hno).
  { destruct res; [|done]. by destruct (get_digest s reference). }
  apply (Hno k Hk1). unfold orphans in Ho. apply list_elem_of_fmap in Ho as (l & -> & Hl).
  apply elem_of_list_filter in Hl as [Hl _].
  assert (Hrow : exists l0, l0 ∈ layers (st_db s) /\ la_digest l0 = la_digest l).
  { simpl in Hl. revert Hl. generalize (layers_of (st_db s) reference). intros gs.
    generalize (layers (st_db s)). induction gs as [|g gs IH]; intros ls Hl; simpl in Hl; [eauto|].
    destruct (IH _ Hl) as (l1 & Hl1 & E1). unfold decrement in Hl1.
    apply list_elem_of_fmap in Hl1 as (l2 & -> & Hl2). exists l2. split; [done|]. rewrite <- E1. by case_decide. }
  destruct Hrow as (l0 & Hl0 & E0). rewrite <- E0 in Hp |- *. symmetry. by apply Hinj.
Qed.

Definition low_row (n : Z) (ls : list layer_row) (digest : string) : Prop :=
  exists l, l ∈ ls /\ la_digest l = digest /\ la_ref_count l <= n.

Lemma low_row_decrement n ls g x :
  low_row n ls x -> low_row (if decide (x = g) then n - 1 else n) (decrement g ls) x.
Proof.
  intros (l & Hl & <- & Hn). eexists. split; [apply list_elem_of_fmap; exists l; split; [reflexivity|done]|].
  case_decide; simpl; (split; [done|lia]).
Qed.

Lemma low_row_weaken n m ls x : low_row n ls x -> n <= m -> low_row m ls x.
Proof. intros (l & Hl & Hd & Hn) Hle. exists l. split_and!; [done..|lia]. Qed.

Lemma low_row_decrements_le gs n ls x :
  low_row n ls x -> low_row n (foldl (fun ls ld => decrement ld ls) ls gs) x.
Proof.
  revert ls. induction gs as [|g gs IH]; intros ls H; [done|]. apply IH.
  apply (low_row_weaken _ _ _ _ (low_row_decrement _ _ g _ H)). case_decide; lia.
Qed.

Lemma low_row_decrements gs n ls x :
  x ∈ gs -> low_row n ls x -> low_row (n - 1) (foldl (fun ls ld => decrement ld ls) ls gs) x.
Proof.
  intros Hx. revert ls. induction gs as [|g gs IH]; intros ls H; [by apply not_elem_of_nil in Hx|].
  apply elem_of_cons in Hx as [->|Hx]; simpl.
  - apply low_row_decrements_le. pose proof (low_row_decrement _ _ g _ H) as H'. by rewrite decide_True in H'.
  - apply IH; [done|]. apply (low_row_weaken _ _ _ _ (low_row_decrement _ _ g _ H)). case_decide; lia.
Qed.

Lemma delete_orphans_blocked os d files o :
  o ∈ os -> (exists k, k ∈ image_layers d /\ lk_layer k = o) ->
  (delete_orphans os d files).1 = Err DbError.
Proof.
  intros Ho (k & Hk & Hl). revert d files Hk. induction os as [|x os IH]; intros d files Hk; [set_solver|].
  simpl. unfold delete_layer. destruct (existsb _ _) eqn:E; [done|].
  apply elem_of_cons in Ho as [->|Ho]; [|by apply IH].
  assert (existsb (fun k => bool_decide (lk_layer k = x)) (image_layers d) = true); [|congruence].
  apply existsb_bool_decide. eauto.
Qed.

(** A layer counted once but used twice blocks removal: when two images
    use a layer whose reference count is at most one, removing either of them
    fails with a database error and leaves the tables as they were.  The count
    is one in practice: [pull] only counts a layer when it downloads it. *)
Theorem undercounted_layer_blocks_removal (s : store) (k k' : link_row) :
  k ∈ image_layers (st_db s) -> k' ∈ image_layers (st_db s) ->
  lk_layer k' = lk_layer k -> lk_image k' <> lk_image k ->
  low_row 1 (layers (st_db s)) (lk_layer k) ->
  (remove_image (lk_image k) s).1 = Err DbError
  /\ st_db (remove_image (lk_image k) s).2 = st_db s.
Proof.
  intros Hk Hk' Hl Hne Hrow.
  assert (Hin : lk_layer k ∈ layers_of (st_db s) (lk_image k)).
  { unfold layers_of. apply list_elem_of_fmap. exists k. split; [done|]. apply elem_of_list_filter.
    split; [done|]. by apply bool_decide_eq_true. }
  set (d := without_image (st_db s) (lk_image k)).
  assert (Ho : lk_layer k ∈ orphans d).
  { apply (low_row_decrements (layers_of (st_db s) (lk_image k))) in Hrow; [|done]. destruct Hrow as (l & Hl1 & Hl2 & Hl3).
    unfold orphans. apply list_elem_of_fmap. exists l. split; [done|]. apply elem_of_list_filter.
    split; [done|]. apply Z.leb_le. lia. }
  assert (Hblock : (delete_orphans (orphans d) d (st_layer_files s)).1 = Err DbError).
  { apply (delete_orphans_blocked _ _ _ (lk_layer k)); [done|]. exists k'. split; [|done].
    by apply without_image_link. }
  split; [|rewrite remove_image_db; fold d; by rewrite Hblock].
  unfold remove_image. fold d. destruct (delete_orphans _ _ _) as [res files]. simpl in Hblock. by subst res.
Qed.

(** Tags that share a manifest share its rootfs directory: removing one of
    them takes the extracted rootfs from the other, which is then no longer
    complete and has to be pulled again. *)
Theorem removing_tag_drops_shared_rootfs (s s' : store) (r r' digest : string) :
  get_digest s r = Some digest -> get_digest s r' = Some digest -> r' <> r ->
  remove_image r s = (Ok (), s') ->
  get_digest s' r' = Some digest /\ rootfs_complete s' digest = false.
Proof.
  intros H1 H2 Hne H. unfold remove_image in H. rewrite H1 in H.
  destruct (delete_orphans _ _ _) as [[d|e] files] eqn:E; [|done]. injection H as <-.
  apply delete_orphans_spec in E as [_ (_ & Hi & _)]. unfold get_digest, rootfs_complete in *. simpl.
  split; [rewrite Hi; simpl; by rewrite lookup_delete_ne|]. apply bool_decide_eq_false. set_solver.
Qed.

(** ** Sample store: two images that share their base layer *)

Module Sample.

Definition empty_store : store := mkStore (mkDb ∅ [] []) ∅ ∅ ∅ ∅ ∅.

Definition base_layer : descriptor := mkDescriptor "sha256:b" "tar+gzip" 10.
Definition app_layer : descriptor := mkDescriptor "sha256:a" "tar+gzip" 20.

Definition registry (r : string) : option (manifest * string * string) :=
  if decide (r = "app"%string) then Some (mkManifest [base_layer; app_layer] "sha256:ca", "sha256:ma", "{}"%string)
  else if decide (r = "base"%string) then Some (mkManifest [base_layer] "sha256:cb", "sha256:mb", "{}"%string)
  else if decide (r = "empty:v1"%string) then Some (mkManifest [] "sha256:ce", "sha256:me", "{}"%string)
  else if decide (r = "empty:v2"%string) then Some (mkManifest [] "sha256:ce", "sha256:me", "{}"%string)
  else None.

Definition sample_config : ImageConfig :=
  mkImageConfig (Some ["sh"%string]) (Some ["/init"%string]) None None None None None.

Definition sample_json (data : string) : option (option ImageConfig) :=
  if decide (data = "{}"%string) then Some (Some sample_config) else None.

Definition run_pull (image : string) (s : store) : result OciError PullResult * store :=
  pull Some registry (fun _ _ => true) (fun _ => Ok ()) "now" sample_json image s.

Definition both : store := (run_pull "app" (run_pull "base" empty_store).2).2.

Definition link_app : link_row := mkLink "app" "sha256:b" 0.
Definition link_base : link_row := mkLink "base" "sha256:b" 0.

(** The two pulls leave one row for the shared layer, counted once. *)
Example both_layers : layers (st_db both) = [mkLayer "sha256:b" "tar+gzip" 10 1; mkLayer "sha256:a" "tar+gzip" 20 1].
Proof. vm_compute. reflexivity. Qed.

Example both_links : image_layers (st_db both) = [link_base; link_app; mkLink "app" "sha256:a" 1].
Proof. vm_compute. reflexivity. Qed.

Example remove_base_fails : (remove Some "base" both).1 = Err DbError.
Proof. vm_compute. reflexivity. Qed.

Lemma pull_then_ensure_witness :
  ensure Some registry (fun _ _ => true) (fun _ => Ok ()) "now" sample_json "app" both
    = (Ok (mkPull "app" "sha256:ma" "sha256-ma" (Some sample_config)), both).
Proof.
  apply (pull_then_ensure Some registry (fun _ _ => true) (fun _ => Ok ()) "now" sample_json "app"
    (run_pull "base" empty_store).2 both).
  - intros r m dg cj j Hm Hj.
    assert (cj = "{}"%string) as -> by (unfold registry in Hm; repeat (destruct (decide _) in Hm; [by injection Hm|]); discriminate Hm).
    assert (Hc : st_configs (run_pull "base" empty_store).2 = {["sha256-cb.json" := "{}"%string]})
      by (vm_compute; reflexivity).
    rewrite Hc in Hj. by apply lookup_singleton_Some in Hj as [_ <-].
  - vm_compute. reflexivity.
Defined.

Lemma image_store_fk_witness :
  fk_ok (st_db (foldl (fun s o => match o with
    | OpPull i => (pull Some registry (fun _ _ => true) (fun _ => Ok ()) "now" sample_json i s).2
    | OpEnsure i => (ensure Some registry (fun _ _ => true) (fun _ => Ok ()) "now" sample_json i s).2
    | OpRemove i => (remove Some i s).2 end) empty_store [OpPull "base"; OpEnsure "app"; OpRemove "base"])).
Proof.
  apply (image_store_fk Some registry (fun _ _ => true) (fun _ => Ok ()) "now" sample_json
    [OpPull "base"; OpEnsure "app"; OpRemove "base"] empty_store).
  intros k Hk. by apply not_elem_of_nil in Hk.
Defined.

Lemma both_fk : fk_ok (st_db both).
Proof.
  apply (pull_fk Some registry (fun _ _ => true) (fun _ => Ok ()) "now" sample_json "app").
  apply (pull_fk Some registry (fun _ _ => true) (fun _ => Ok ()) "now" sample_json "base").
  intros k Hk. by apply not_elem_of_nil in Hk.
Qed.

Lemma link_app_in : link_app ∈ image_layers (st_db both).
Proof. rewrite both_links. right. left. Qed.

Lemma link_base_in : link_base ∈ image_layers (st_db both).
Proof. rewrite both_links. left. Qed.

Lemma remove_spares_shared_layers_witness :
  link_app ∈ image_layers (st_db (remove_image "base" both).2)
  /\ has_row (layers (st_db (remove_image "base" both).2)) "sha256:b"
  /\ (has_layer both "sha256:b" = true -> has_layer (remove_image "base" both).2 "sha256:b" = true).
Proof.
  apply (remove_spares_shared_layers "base" both link_app).
  - apply both_fk.
  - apply link_app_in.
  - discriminate.
  - intros l Hl E. rewrite both_layers in Hl. apply elem_of_cons in Hl as [->|Hl]; [done|].
    apply list_elem_of_singleton in Hl as ->. vm_compute in E. discriminate.
Defined.

Lemma undercounted_layer_blocks_removal_witness :
  (remove_image "base" both).1 = Err DbError /\ st_db (remove_image "base" both).2 = st_db both.
Proof.
  apply (undercounted_layer_blocks_removal both link_base link_app).
  - apply link_base_in.
  - apply link_app_in.
  - reflexivity.
  - discriminate.
  - rewrite both_layers. eexists. split; [left|]. by vm_compute.
Defined.

(** Two tags of one layerless manifest. *)
Definition tagged : store := (run_pull "empty:v2" (run_pull "empty:v1" empty_store).2).2.

Lemma removing_tag_drops_shared_rootfs_witness :
  get_digest (remove_image "empty:v2" tagged).2 "empty:v1" = Some "sha256:me"%string
  /\ rootfs_complete (remove_image "empty:v2" tagged).2 "sha256:me" = false.
Proof.
  apply (removing_tag_drops_shared_rootfs tagged (remove_image "empty:v2" tagged).2 "empty:v2" "empty:v1" "sha256:me").
  - vm_compute. reflexivity.
  - vm_compute. reflexivity.
  - discriminate.
  - vm_compute. reflexivity.
Defined.

End Sample.
