(* ===== verification/Ids.v ===== *)
(** * Tenant and agent identifiers

    [crates/bux-serve/src/ids.rs], with the agent recovery of
    [clone_vm_options] in [crates/bux/src/runtime/mod.rs].  Identifiers are
    text; [chars().all] over the ASCII id alphabet is the check of every byte,
    since no byte of a multi-byte character is in the alphabet. *)

From S2P Require Import Prelude Paths.

(** ** Alphabet and length *)

Definition TENANT_LEN : nat * nat := (1, 32)%nat.
Definition AGENT_LEN : nat * nat := (1, 64)%nat.

Inductive IdError : Type := Tenant (id : string) | Agent (id : string).

Definition in_range (lo hi : Z) (c : Ascii.ascii) : bool :=
  (lo <=? byte_of_ascii c) && (byte_of_ascii c <=? hi).

Definition is_ascii_alphanumeric (c : Ascii.ascii) : bool :=
  in_range 48 57 c || in_range 65 90 c || in_range 97 122 c.

Definition is_id_char (c : Ascii.ascii) : bool :=
  is_ascii_alphanumeric c || bool_decide (c = "."%char) || bool_decide (c = "_"%char).

Definition id_ok (id : string) (len : nat * nat) : bool :=
  bool_decide (len.1 <= String.length id <= len.2)%nat
  && str_forallb is_id_char id && negb (str_contains ".." id).

Definition validate_tenant_id (id : string) : result IdError () :=
  if id_ok id TENANT_LEN then Ok () else Err (Tenant id).

Definition validate_agent_id (id : string) : result IdError () :=
  if id_ok id AGENT_LEN then Ok () else Err (Agent id).

Definition sandbox_name (tenant_id agent_id : string) : result IdError string :=
  validate_tenant_id tenant_id ≫= fun _ =>
  validate_agent_id agent_id ≫= fun _ =>
  Ok ("a-" +:+ tenant_id +:+ "-" +:+ agent_id).

Definition workspace_volume_name (tenant_id agent_id : string) : result IdError string :=
  validate_tenant_id tenant_id ≫= fun _ =>
  validate_agent_id agent_id ≫= fun _ =>
  Ok ("ws-" +:+ tenant_id +:+ "-" +:+ agent_id).

(** [crates/bux/src/runtime/mod.rs]: the agent of a serve name, as cloning
    recovers it. *)
Definition agent_id_from_sandbox_name (tenant_id name : string) : option string :=
  n ← strip_prefix_str "a-" name;
  n ← strip_prefix_str tenant_id n;
  agent ← strip_prefix_str "-" n;
  if decide (agent = ""%string) then None else Some agent.

(** ** Injectivity *)

Lemma id_char_not_dash c : is_id_char c = true -> c <> "-"%char.
Proof. intros H ->. vm_compute in H. discriminate. Qed.

Lemma id_ok_no_dash id len : id_ok id len = true -> str_contains_char "-" id = false.
Proof.
  unfold id_ok. rewrite !andb_true_iff. intros [[_ H] _].
  induction id as [|c id IH]; [done|]. simpl in *. apply andb_true_iff in H as [Hc H].
  rewrite IH by done. rewrite bool_decide_eq_false_2; [done|]. by apply id_char_not_dash.
Qed.

Lemma tenant_no_dash t u : validate_tenant_id t = Ok u -> str_contains_char "-" t = false.
Proof. unfold validate_tenant_id. destruct (id_ok _ _) eqn:E; [|done]. intros _. by apply id_ok_no_dash in E. Qed.

(** Both names: a fixed prefix, the tenant, a dash, the agent. *)
Lemma dashed_inj p t a t' a' :
  str_contains_char "-" t = false -> str_contains_char "-" t' = false ->
  p +:+ t +:+ "-" +:+ a = p +:+ t' +:+ "-" +:+ a' -> t = t' /\ a = a'.
Proof.
  intros Ht Ht' H. apply (inj (String.app p)) in H.
  pose proof (split_once_app "-" t a Ht) as E. pose proof (split_once_app "-" t' a' Ht') as E'.
  change (t +:+ String "-" a) with (t +:+ "-" +:+ a) in E.
  change (t' +:+ String "-" a') with (t' +:+ "-" +:+ a') in E'. rewrite H, E' in E. by simplify_eq.
Qed.

(** Names are injective: two pairs of identifiers that get the same sandbox
    name, or the same workspace volume name, are the same pair, so that no two
    agents or tenants share a sandbox or a workspace. *)
Theorem names_injective (t a t' a' n : string) :
  (sandbox_name t a = Ok n /\ sandbox_name t' a' = Ok n)
  \/ (workspace_volume_name t a = Ok n /\ workspace_volume_name t' a' = Ok n) ->
  t = t' /\ a = a'.
Proof.
  intros [[H H']|[H H']].
  all: apply bind_Ok_inv in H as (u & Ht & H); apply bind_Ok_inv in H as (v & _ & H).
  all: apply bind_Ok_inv in H' as (u' & Ht' & H'); apply bind_Ok_inv in H' as (v' & _ & H').
  all: injection H as <-; injection H' as H'; symmetry in H'.
  all: eapply dashed_inj; [by eapply tenant_no_dash..|exact H'].
Qed.

Lemma strip_prefix_str_app p s : strip_prefix_str p (p +:+ s) = Some s.
Proof. induction p as [|c p IH]; simpl; [done|]. by rewrite decide_True. Qed.

Lemma strip_prefix_str_inv p s r : strip_prefix_str p s = Some r -> s = p +:+ r.
Proof.
  revert s. induction p as [|c p IH]; intros s H; simpl in H; [by injection H as ->|].
  destruct s as [|d s]; [done|]. case_decide; [|done]. subst d. change (String c s = String c (p +:+ r)). f_equal. by apply IH.
Qed.

Lemma validate_agent_nonempty a u : validate_agent_id a = Ok u -> a <> ""%string.
Proof. intros H ->. by vm_compute in H. Qed.

(** The sandbox name of a tenant and agent keeps the agent: reading the
    agent out of the name under the tenant, as a clone does, gives it back, and
    under any other tenant gives nothing. *)
Theorem clone_recovers_agent (t t' a n : string) :
  validate_tenant_id t = Ok () -> sandbox_name t' a = Ok n ->
  agent_id_from_sandbox_name t n = if decide (t = t') then Some a else None.
Proof.
  intros Ht H. apply bind_Ok_inv in H as (u & Ht' & H). apply bind_Ok_inv in H as (v & Ha & H).
  injection H as <-. unfold agent_id_from_sandbox_name. rewrite (strip_prefix_str_app "a-"). cbn [mbind option_bind].
  case_decide as E.
  - subst t'. rewrite strip_prefix_str_app. cbn [mbind option_bind]. rewrite (strip_prefix_str_app "-"). cbn [mbind option_bind].
    by rewrite decide_False by (by eapply validate_agent_nonempty).
  - destruct (strip_prefix_str t _) as [r|] eqn:E1; [|done]. cbn [mbind option_bind].
    destruct (strip_prefix_str "-" r) as [b|] eqn:E2; [exfalso; apply E|done].
    apply strip_prefix_str_inv in E1, E2. subst r.
    by apply (dashed_inj "" t' a t b (tenant_no_dash _ _ Ht') (tenant_no_dash _ _ Ht)) in E1 as [-> _].
Qed.

(** ** Samples *)

Lemma names_injective_witness : sandbox_name "x" "yz" = Ok "a-x-yz"%string /\ "x"%string = "x"%string /\ "yz"%string = "yz"%string.
Proof.
  split; [vm_compute; reflexivity|]. apply (names_injective "x" "yz" "x" "yz" "a-x-yz").
  left. split; vm_compute; reflexivity.
Defined.

Lemma clone_recovers_agent_witness :
  agent_id_from_sandbox_name "t.id_1" "a-t.id_1-agent" = Some "agent"%string.
Proof.
  apply (clone_recovers_agent "t.id_1" "t.id_1" "agent"); vm_compute; reflexivity.
Defined.

Example dashes_refused : sandbox_name "x-y" "z" = Err (Tenant "x-y") /\ sandbox_name "x" "y-z" = Err (Agent "y-z").
Proof. split; vm_compute; reflexivity. Qed.

Example dot_dot_refused : sandbox_name "a..b" "x" = Err (Tenant "a..b").
Proof. vm_compute. reflexivity. Qed.
