(* ===== verification/Ports.v ===== *)
(** * Published ports

    [crates/bux/src/ports.rs]: the parser of [host:guest] publish
    specifications, the resolution of ephemeral host ports and the stored
    [host:guest] text.  The kernel's answers to the probe binds are a list the
    resolution consumes. *)

From S2P Require Import Prelude Files Paths Ids.

Definition BIND_ADDR : string := "0.0.0.0".

(** [host = None] asks for an ephemeral port. *)
Record PortSpec : Type := mkPortSpec { ps_host : option Z; ps_guest : Z }.

Record PublishedPort : Type := mkPublished { pp_host : Z; pp_guest : Z; pp_bind_addr : string }.

Definition PortSpec_new (host guest : Z) : PortSpec := mkPortSpec (Some host) guest.
Definition ephemeral (guest : Z) : PortSpec := mkPortSpec None guest.
Definition PublishedPort_new (host guest : Z) : PublishedPort := mkPublished host guest BIND_ADDR.

(** [InvalidConfig] by which part was refused, or the probe's I/O error. *)
Inductive port_error : Type :=
  | UnsupportedProtocol
  | InvalidGuestPort
  | InvalidHostPort
  | InvalidPortSpec
  | ProbeIo (k : io_kind).

(** ** [u16] text *)

Definition U16_MAX : Z := 65535.

Fixpoint digits_val (acc : Z) (s : string) : option Z :=
  match s with
  | EmptyString => Some acc
  | String c r => if in_range 48 57 c then digits_val (acc * 10 + (byte_of_ascii c - 48)) r else None
  end.

(** [str::parse::<u16>]: an optional [+], then one or more digits, at most
    [u16::MAX]. *)
Definition parse_u16 (s : string) : option Z :=
  let s := match s with String "+" r => r | _ => s end in
  if decide (s = ""%string) then None else
  v ← digits_val 0 s; if v <=? U16_MAX then Some v else None.

Definition digit (n : Z) : Ascii.ascii := ascii_of_byte (48 + n).

Fixpoint dec_aux (fuel : nat) (n : Z) (acc : string) : string :=
  match fuel with
  | O => acc
  | S f => if n <? 10 then String (digit n) acc else dec_aux f (n / 10) (String (digit (n mod 10)) acc)
  end.

(** [format!("{n}")] of a [u16]: at most five digits. *)
Definition dec (n : Z) : string := dec_aux 5 n "".

(** [str::to_ascii_lowercase]. *)
Definition lower (c : Ascii.ascii) : Ascii.ascii :=
  if in_range 65 90 c then ascii_of_byte (byte_of_ascii c + 32) else c.

Fixpoint to_ascii_lowercase (s : string) : string :=
  match s with EmptyString => EmptyString | String c r => String (lower c) (to_ascii_lowercase r) end.

(** ** Parsing *)

Definition parse_publish_spec (spec : string) : result port_error PortSpec :=
  let '(map, proto) := match rsplit_once "/" spec with
                       | Some (m, p) => (m, Some p)
                       | None => (spec, None)
                       end in
  match proto with
  | Some p => if decide (to_ascii_lowercase p = "tcp"%string) then Ok () else Err UnsupportedProtocol
  | None => Ok ()
  end ≫= fun _ =>
  match split_once ":" map with
  | Some (host_s, guest_s) =>
    guest ← ok_or (parse_u16 guest_s) InvalidGuestPort;
    if bool_decide (host_s = ""%string) || bool_decide (host_s = "0"%string) then Ok (ephemeral guest) else
    host ← ok_or (parse_u16 host_s) InvalidHostPort;
    if host =? 0 then Ok (ephemeral guest) else Ok (PortSpec_new host guest)
  | None =>
    guest ← ok_or (parse_u16 map) InvalidPortSpec;
    Ok (ephemeral guest)
  end.

(** ** Resolution *)

(** What [bind((BIND_ADDR, 0))] followed by [local_addr] answers, call by call;
    past the end the probe fails. *)
Definition probe_ephemeral_port (probes : list (result io_kind Z)) : result port_error Z * list (result io_kind Z) :=
  match probes with
  | [] => (Err (ProbeIo EkOther), [])
  | Ok p :: r => (Ok p, r)
  | Err k :: r => (Err (ProbeIo k), r)
  end.

Fixpoint resolve_ports (probes : list (result io_kind Z)) (specs : list PortSpec)
    : result port_error (list (Z * Z) * list PublishedPort) :=
  match specs with
  | [] => Ok ([], [])
  | spec :: rest =>
    let '(host, probes) :=
      match ps_host spec with
      | None => probe_ephemeral_port probes
      | Some h => if h =? 0 then probe_ephemeral_port probes else (Ok h, probes)
      end in
    host ← host;
    '(pairs, published) ← resolve_ports probes rest;
    Ok ((host, ps_guest spec) :: pairs, PublishedPort_new host (ps_guest spec) :: published)
  end.

Definition format_port_pair (p : Z * Z) : string := dec p.1 +:+ ":" +:+ dec p.2.
Definition format_port_pairs (pairs : list (Z * Z)) : list string := format_port_pair <$> pairs.

(** ** Decimal text *)

Lemma byte_digit n : 0 <= n < 10 -> byte_of_ascii (digit n) = 48 + n.
Proof.
  intros H. unfold digit, byte_of_ascii, ascii_of_byte. rewrite Ascii.N_ascii_embedding by lia. lia.
Qed.

Lemma in_range_digit n : 0 <= n < 10 -> in_range 48 57 (digit n) = true.
Proof. intros H. unfold in_range. rewrite byte_digit by done. lia. Qed.

Lemma digits_val_dec fuel n acc :
  0 <= n < 10 ^ Z.of_nat fuel -> (0 < fuel)%nat -> digits_val 0 (dec_aux fuel n acc) = digits_val n acc.
Proof.
  revert n acc. induction fuel as [|f IH]; intros n acc Hn Hf; [lia|]. simpl. case_match eqn:E.
  - apply Z.ltb_lt in E. simpl. rewrite in_range_digit, byte_digit by lia. f_equal. lia.
  - apply Z.ltb_ge in E. rewrite Nat2Z.inj_succ, Z.pow_succ_r in Hn by lia.
    pose proof (Z.mod_pos_bound n 10). pose proof (Z.div_mod n 10).
    destruct f as [|f]; [simpl in Hn; lia|].
    rewrite IH; [|split; [apply Z.div_pos; lia|apply Z.div_lt_upper_bound; lia]|lia].
    simpl. rewrite in_range_digit, byte_digit by lia. f_equal. lia.
Qed.

(** The digits come out as digits: first one included. *)
Lemma dec_aux_digits fuel n acc :
  0 <= n -> str_forallb (in_range 48 57) acc = true -> str_forallb (in_range 48 57) (dec_aux fuel n acc) = true.
Proof.
  revert n acc. induction fuel as [|f IH]; intros n acc Hn Ha; simpl; [done|].
  pose proof (Z.mod_pos_bound n 10). case_match eqn:E.
  - apply Z.ltb_lt in E. simpl. by rewrite in_range_digit by lia.
  - apply IH; [apply Z.div_pos; lia|]. simpl. by rewrite in_range_digit by lia.
Qed.

Lemma dec_aux_nonempty fuel n acc : (0 < fuel)%nat \/ acc <> ""%string -> dec_aux fuel n acc <> ""%string.
Proof.
  revert n acc. induction fuel as [|f IH]; intros n acc H; simpl; [destruct H; [lia|done]|].
  case_match; [done|]. apply IH. by right.
Qed.

Lemma digits_no_char s c :
  str_forallb (in_range 48 57) s = true -> in_range 48 57 c = false -> str_contains_char c s = false.
Proof.
  intros H Hc. induction s as [|d s IH]; [done|]. simpl in *. apply andb_true_iff in H as [Hd H].
  rewrite IH by done. rewrite bool_decide_eq_false_2; [done|]. intros ->. congruence.
Qed.

Lemma dec_no_char n c : 0 <= n -> in_range 48 57 c = false -> str_contains_char c (dec n) = false.
Proof. intros Hn Hc. apply digits_no_char; [|done]. by apply dec_aux_digits. Qed.

Lemma parse_u16_dec n : 0 <= n <= U16_MAX -> parse_u16 (dec n) = Some n.
Proof.
  unfold U16_MAX. intros Hn. unfold parse_u16.
  assert (Hs : match dec n with String "+" r => r | _ => dec n end = dec n).
  { pose proof (dec_no_char n "+" (proj1 Hn) eq_refl) as H. destruct (dec n) as [|c r]; [done|].
    simpl in H. apply orb_false_iff in H as [H _]. apply bool_decide_eq_false in H.
    destruct c as [[] [] [] [] [] [] [] []]; done. }
  rewrite Hs. rewrite decide_False by (apply dec_aux_nonempty; left; lia).
  unfold dec. rewrite digits_val_dec by lia. simpl. unfold U16_MAX. by rewrite (proj2 (Z.leb_le _ _)) by lia.
Qed.

Lemma parse_u16_range s v : parse_u16 s = Some v -> 0 <= v <= U16_MAX.
Proof.
  unfold parse_u16. case_decide as Hne; [done|]. set (t := match s with String "+" r => r | _ => s end).
  intros H. apply bind_Some in H as (w & Hw & H). case_match eqn:E; [|done]. simplify_eq.
  apply Z.leb_le in E. split; [|done].
  assert (Hpos : forall s a b, 0 <= a -> digits_val a s = Some b -> 0 <= b).
  { clear. induction s as [|c s IH]; intros a b Ha H; simpl in H; [by simplify_eq|].
    case_match eqn:E; [|done]. eapply IH; [|exact H]. unfold in_range in E. lia. }
  by eapply Hpos; [|exact Hw].
Qed.

(** Port text round trip: the stored [host:guest] text of a concrete pair
    parses back as that fixed mapping. *)
Theorem publish_spec_roundtrip (h g : Z) :
  0 < h <= U16_MAX -> 0 <= g <= U16_MAX -> parse_publish_spec (format_port_pair (h, g)) = Ok (PortSpec_new h g).
Proof.
  intros Hh Hg. unfold parse_publish_spec, format_port_pair. simpl fst. simpl snd.
  assert (Hc : str_contains_char ":" (dec h) = false) by (apply dec_no_char; [lia|reflexivity]).
  rewrite rsplit_once_absent.
  2:{ rewrite !str_contains_char_app, !dec_no_char by (try reflexivity; lia). reflexivity. }
  assert (Hsplit : split_once ":" (dec h +:+ ":" +:+ dec g) = Some (dec h, dec g))
    by exact (split_once_app ":" (dec h) (dec g) Hc).
  rewrite Hsplit, (parse_u16_dec g) by done. simpl.
  rewrite (bool_decide_eq_false_2 (dec h = "")) by (apply dec_aux_nonempty; left; lia).
  rewrite (bool_decide_eq_false_2 (dec h = "0")).
  2:{ intros E. pose proof (parse_u16_dec h ltac:(unfold U16_MAX in *; lia)) as P. rewrite E in P.
      vm_compute in P. injection P as <-. lia. }
  simpl. rewrite parse_u16_dec by (unfold U16_MAX in *; lia). simpl.
  by rewrite (proj2 (Z.eqb_neq h 0)) by lia.
Qed.

(** What the parser accepts is in range: a guest port is a [u16], and a host
    port, when fixed, is a non-zero [u16]; zero always means ephemeral. *)
Theorem publish_spec_in_range (spec : string) (p : PortSpec) :
  parse_publish_spec spec = Ok p ->
  0 <= ps_guest p <= U16_MAX /\ match ps_host p with Some h => 0 < h <= U16_MAX | None => True end.
Proof.
  unfold parse_publish_spec. destruct (rsplit_once "/" spec) as [[m q]|].
  all: intros H; apply bind_Ok_inv in H as (u & _ & H).
  all: destruct (split_once ":" _) as [[hs gs]|].
  all: apply bind_Ok_inv in H as (g & Hg & H); apply ok_or_Ok, parse_u16_range in Hg.
  all: try (injection H as <-; done).
  all: case_match; [injection H as <-; done|].
  all: apply bind_Ok_inv in H as (h & Hh & H); apply ok_or_Ok, parse_u16_range in Hh.
  all: case_match eqn:E; injection H as <-; simpl; [done|apply Z.eqb_neq in E; split; [done|lia]].
Qed.

(** Resolution keeps the request: every specification gets one pair and one
    published port, in order, with its guest port, its own host port when that is
    fixed, the v1 bind address, and no host port zero when the kernel assigns none. *)
Theorem resolve_ports_sound (probes : list (result io_kind Z)) (specs : list PortSpec)
    (pairs : list (Z * Z)) (published : list PublishedPort) :
  (forall p, Ok p ∈ probes -> p <> 0) ->
  resolve_ports probes specs = Ok (pairs, published) ->
  published = (fun hg => PublishedPort_new hg.1 hg.2) <$> pairs
  /\ Forall2 (fun spec hg => hg.2 = ps_guest spec /\ hg.1 <> 0
       /\ match ps_host spec with Some h => h <> 0 -> hg.1 = h | None => True end) specs pairs.
Proof.
  revert probes pairs published. induction specs as [|spec specs IH]; intros probes pairs published Hp H.
  { simpl in H. simplify_eq. by split; [|constructor]. }
  simpl in H.
  set (step := match ps_host spec with None => _ | Some h => _ end) in H.
  assert (Hstep : forall h r, step = (Ok h, r) -> h <> 0 /\ (forall p, Ok p ∈ r -> p <> 0)
     /\ match ps_host spec with Some h' => h' <> 0 -> h = h' | None => True end).
  { intros h r E. unfold step, probe_ephemeral_port in E.
    destruct (ps_host spec) as [h'|]; [destruct (Z.eqb_spec h' 0)|];
      try (destruct probes as [|[p|k] probes]; simplify_eq; split_and!; [apply Hp; left|intros p' Hp'; apply Hp; by right|done]).
    simplify_eq. done. }
  destruct step as [[h|e] r]; [|done]. simpl in H. destruct (Hstep h r eq_refl) as (Hh & Hr & Hs).
  apply bind_Ok_inv in H as ([ps' pub'] & Hrec & H). simplify_eq.
  destruct (IH _ _ _ Hr Hrec) as [-> HF]. split; [done|]. constructor; [done|exact HF].
Qed.

(** ** Samples *)

Lemma publish_spec_roundtrip_witness : parse_publish_spec "8080:80" = Ok (PortSpec_new 8080 80).
Proof.
  change "8080:80"%string with (format_port_pair (8080, 80)).
  apply (publish_spec_roundtrip 8080 80); unfold U16_MAX; lia.
Defined.

Lemma publish_spec_in_range_witness :
  0 <= ps_guest (ephemeral 80) <= U16_MAX
  /\ match ps_host (ephemeral 80) with Some h => 0 < h <= U16_MAX | None => True end.
Proof. apply (publish_spec_in_range "0:80/TCP" (ephemeral 80)). vm_compute. reflexivity. Defined.

Lemma resolve_ports_sound_witness :
  [PublishedPort_new 18080 80; PublishedPort_new 40000 443]
    = (fun hg => PublishedPort_new hg.1 hg.2) <$> [(18080, 80); (40000, 443)]
  /\ Forall2 (fun spec hg => hg.2 = ps_guest spec /\ hg.1 <> 0
       /\ match ps_host spec with Some h => h <> 0 -> hg.1 = h | None => True end)
       [PortSpec_new 18080 80; ephemeral 443] [(18080, 80); (40000, 443)].
Proof.
  apply (resolve_ports_sound [Ok 40000]).
  - intros p Hp. apply list_elem_of_singleton in Hp. injection Hp as ->. discriminate.
  - vm_compute. reflexivity.
Defined.

Example udp_refused : parse_publish_spec "8080:80/udp" = Err UnsupportedProtocol.
Proof. vm_compute. reflexivity. Qed.
