(* ===== verification/StateTypes.v ===== *)
(** * State of a managed VM

    [crates/bux/src/state/mod.rs] (status machine, configuration, stored state),
    with the types it uses from [error.rs], [security.rs], [options.rs],
    [disk/mod.rs] and [ports.rs].  A [SystemTime] is a number of nanoseconds
    since the epoch. *)

From S2P Require Import Prelude Files Qcow2Format Ports.

(** ** error.rs: the error classes; of the message texts only the display of an
    OCI error is kept, which the service reads *)

Inductive Error : Type :=
  | InvalidConfig | NotFound | Ambiguous | InvalidState | Busy | GuestUnavailable
  | SecretsRequired | SecretsNeedVirtioNet | SecurityUnavailable
  | Io (k : io_kind) | Nix | E2fs | Qcow2 (e : qerror) | Jail | Shim | Oci (display : string) | Db | Json | Shutdown
  | Panic.

#[global] Instance Error_eq_dec : EqDecision Error.
Proof. solve_decision. Defined.

Definition is_user_error (e : Error) : bool :=
  match e with
  | InvalidConfig | NotFound | Ambiguous | InvalidState | SecretsRequired | SecretsNeedVirtioNet => true
  | _ => false
  end.

Definition is_retryable (e : Error) : bool := match e with Busy | GuestUnavailable => true | _ => false end.
Definition is_fatal (e : Error) : bool := match e with Shutdown => true | _ => false end.

(** ** Status *)

Inductive Status : Type := Running | Stopping | Stopped.

#[global] Instance Status_eq_dec : EqDecision Status.
Proof. solve_decision. Defined.

Definition is_active (s : Status) : bool := match s with Running | Stopping => true | Stopped => false end.
Definition can_exec (s : Status) : bool := match s with Running => true | _ => false end.
Definition can_stop (s : Status) : bool := match s with Running => true | _ => false end.
Definition can_remove (s : Status) : bool := match s with Stopped => true | _ => false end.

Definition can_transition_to (self target : Status) : bool :=
  match self, target with
  | Stopped, Running => true
  | (Running | Stopping), Stopped => true
  | Running, Stopping => true
  | _, _ => false
  end.

(** ** Configuration *)

Inductive DiskFormat : Type := DiskRaw | DiskQcow2.

Inductive NetworkSpec : Type := NetDisabled | NetEnabled (allow_net : list string).

Definition is_enabled (n : NetworkSpec) : bool := match n with NetEnabled _ => true | NetDisabled => false end.
Definition allow_net (n : NetworkSpec) : list string := match n with NetEnabled l => l | NetDisabled => [] end.

Record SecurityOptions : Type := mkSecurity { so_jailer : bool; so_landlock : bool; so_allow_degraded : bool }.

Inductive LayerStatus : Type := Enforced | Degraded | LayerDisabled | NotApplicable.

Record SecurityStatus : Type := mkSecStatus { ss_sandbox : string; ss_landlock : LayerStatus; ss_mac : LayerStatus }.

Record VirtioFs : Type := mkVirtioFs {
  vf_tag : string; vf_path : string; vf_guest_path : string; vf_read_only : bool
}.

Record VsockPort : Type := mkVsock { vp_port : Z; vp_path : string; vp_listen : bool }.

Record VmConfig : Type := mkVmConfig {
  vcpus : Z;
  ram_mib : Z;
  rootfs : option string;
  root_disk : option string;
  disk_format : DiskFormat;
  base_disk : option string;
  exec_path : option string;
  exec_args : list string;
  cfg_env : option (list string);
  ports : list string;
  published_ports : list PublishedPort;
  virtiofs : list VirtioFs;
  vsock_ports : list VsockPort;
  network : NetworkSpec;
  secrets_required : bool;
  workload_env : list string;
  workload_workdir : option string;
  workload_user : option string;
  workload_cmd : list string;
  security : SecurityOptions;
  security_status : SecurityStatus;
  auto_remove : bool;
  auto_stop_secs : option N;
  auto_delete_secs : option N;
  last_activity_at : option Z;
  last_error : option string;
  detach : bool;
  agent_id : option string;
  tenant_id : option string
}.

(** [cfg!(target_os = "linux")] of the default security options. *)
Definition default_security (linux : bool) : SecurityOptions := mkSecurity true linux false.

Definition default_config (linux : bool) : VmConfig :=
  mkVmConfig 1 512 None None DiskRaw None None [] None [] [] [] [] (NetEnabled []) false [] None None []
    (default_security linux) (mkSecStatus "" LayerDisabled LayerDisabled) false None None None None false None None.

Definition with_activity (c : VmConfig) (t : option Z) : VmConfig :=
  mkVmConfig (vcpus c) (ram_mib c) (rootfs c) (root_disk c) (disk_format c) (base_disk c) (exec_path c)
    (exec_args c) (cfg_env c) (ports c) (published_ports c) (virtiofs c) (vsock_ports c) (network c)
    (secrets_required c) (workload_env c) (workload_workdir c) (workload_user c) (workload_cmd c)
    (security c) (security_status c) (auto_remove c) (auto_stop_secs c) (auto_delete_secs c) t
    (last_error c) (detach c) (agent_id c) (tenant_id c).

Record VmState : Type := mkVm {
  vm_id : string;
  vm_name : option string;
  vm_pid : Z;
  vm_image : option string;
  vm_socket : string;
  vm_status : Status;
  vm_config : VmConfig;
  vm_created_at : Z
}.

(** ** The status machine *)

(** The status machine is the documented one: from [Stopped] only to
    [Running], from [Running] to [Stopping] or [Stopped], from [Stopping] only to
    [Stopped]; every allowed move into [Stopped] comes from an active status, what
    can be removed is exactly what is not active, and a removable VM can neither
    be stopped nor run commands. *)
Lemma status_machine (s t : Status) :
  (can_transition_to s t = true <->
     (s, t) ∈ [(Stopped, Running); (Running, Stopping); (Running, Stopped); (Stopping, Stopped)])
  /\ (can_transition_to s Stopped = is_active s)
  /\ can_remove s = negb (is_active s)
  /\ (can_remove s = true -> can_stop s = false /\ can_exec s = false).
Proof.
  split_and!; [|by destruct s..].
  destruct s, t; simpl; (split; [intros H|intros H]); try discriminate; try set_solver; done.
Qed.

(** Error classes are disjoint: no error is at once the caller's to fix, worth
    retrying and fatal, and input, output and database errors are in no class. *)
Lemma error_classes_disjoint (e : Error) :
  (is_user_error e && is_retryable e) || (is_user_error e && is_fatal e) || (is_retryable e && is_fatal e) = false
  /\ (e = Db \/ e = Json \/ (exists k, e = Io k) -> is_user_error e || is_retryable e || is_fatal e = false).
Proof. split; [by destruct e|]. intros [->|[->|[k ->]]]; done. Qed.
