(* ===== verification/StateDb.v ===== *)
(** * The state database

    [crates/bux/src/state/db.rs]: the product tables and every statement the
    runtime issues on them, with SQLite's rules for those statements written
    out: primary keys and [UNIQUE] columns (where [NULL]s never collide),
    foreign keys with their [ON DELETE] actions, [ON CONFLICT(digest) DO
    NOTHING], [INSERT OR REPLACE], the case-insensitive [LIKE] and [ORDER BY].
    A statement either applies or leaves the tables as they were.  Times are
    stored as [f64] seconds, computed with the IEEE operations of the standard
    library.  The JSON of the configuration is a parameter. *)

From Stdlib Require Import SpecFloat.
From S2P Require Import Prelude Files Paths Ids Ports StateTypes.

(** ** [f64] seconds *)

Abbreviation f64 := spec_float.

Definition NANOS : Z := 1000000000.

(** [n as f64]: nearest, ties to even. *)
Definition f64_of_Z (n : Z) : f64 := binary_normalize 53 1024 n 0 false.

(** [Duration::as_secs_f64]. *)
Definition as_secs_f64 (d : Z) : f64 :=
  SFadd 53 1024 (f64_of_Z (d / NANOS)) (SFdiv 53 1024 (f64_of_Z (d mod NANOS)) (f64_of_Z NANOS)).

(** [n * 2^e] rounded to an integer, ties to even. *)
Definition round_scaled (n e : Z) : Z :=
  if 0 <=? e then n * 2 ^ e else
  let d := 2 ^ (- e) in
  let q := n / d in
  let r := n mod d in
  if 2 * r <? d then q else if d <? 2 * r then q + 1 else if Z.even q then q else q + 1.

Definition system_time_to_f64 (t : Z) : f64 := as_secs_f64 (Z.max t 0).

(** [UNIX_EPOCH + Duration::from_secs_f64(secs)]; [None] is the panic on a
    negative, infinite or out-of-range number. *)
Definition f64_to_system_time (secs : f64) : option Z :=
  match secs with
  | S754_zero _ => Some 0
  | S754_finite false m e =>
    let n := round_scaled (Z.pos m * NANOS) e in
    if n / NANOS <? 2 ^ 63 then Some n else None
  | _ => None
  end.

(** ** Tables, in rowid order *)

Record vm_row : Type := mkVmRow {
  v_id : string;
  v_name : option string;
  v_pid : Z;
  v_image : option string;
  v_socket : string;
  v_status : string;
  v_config : string;
  v_created : f64
}.

Record snapshot_row : Type := mkSnapRow {
  s_id : string;
  s_vm : string;
  s_name : option string;
  s_disk_path : string;
  s_disk_bytes : Z;
  s_created : f64
}.

Record base_row : Type := mkBaseRow { b_id : string; b_digest : string; b_path : string; b_ref : Z; b_created : f64 }.
Record volume_row : Type := mkVolRow { o_id : string; o_name : string; o_path : string; o_created : f64 }.
Record attach_row : Type := mkAttach { a_vm : string; a_volume : string; a_guest : string }.

Record state_db : Type := mkStateDb {
  vms : list vm_row;
  snapshots : list snapshot_row;
  base_disks : list base_row;
  volumes : list volume_row;
  vm_volumes : list attach_row
}.

Definition empty_db : state_db := mkStateDb [] [] [] [] [].

(** Values as the code reads them back. *)
Record SnapshotRow : Type := mkSnapshot {
  sn_id : string; sn_vm : string; sn_name : option string; sn_disk_path : string; sn_disk_bytes : Z; sn_created_at : Z
}.
Record BaseDiskRow : Type := mkBaseDisk {
  bd_id : string; bd_digest : string; bd_path : string; bd_ref_count : Z; bd_created_at : Z
}.
Record VolumeInfo : Type := mkVolume { vi_id : string; vi_name : string; vi_path : string; vi_created_at : Z }.

Definition with_vms (d : state_db) (l : list vm_row) : state_db :=
  mkStateDb l (snapshots d) (base_disks d) (volumes d) (vm_volumes d).
Definition with_snapshots (d : state_db) (l : list snapshot_row) : state_db :=
  mkStateDb (vms d) l (base_disks d) (volumes d) (vm_volumes d).
Definition with_bases (d : state_db) (l : list base_row) : state_db :=
  mkStateDb (vms d) (snapshots d) l (volumes d) (vm_volumes d).
Definition with_volumes (d : state_db) (l : list volume_row) : state_db :=
  mkStateDb (vms d) (snapshots d) (base_disks d) l (vm_volumes d).
Definition with_attachments (d : state_db) (l : list attach_row) : state_db :=
  mkStateDb (vms d) (snapshots d) (base_disks d) (volumes d) l.

(** ** Opening *)

Definition PRODUCT_SCHEMA_VERSION : Z := 5.

(** The file: its [user_version], whether a [vms] table exists, the rows. *)
Record db_file : Type := mkDbFile { f_version : Z; f_has_vms : bool; f_rows : state_db }.

Definition ensure_product_schema (f : db_file) : result Error db_file :=
  if f_version f =? 0 then
    if f_has_vms f then Err InvalidConfig
    else Ok (mkDbFile PRODUCT_SCHEMA_VERSION true empty_db)
  else if negb (f_version f =? PRODUCT_SCHEMA_VERSION) then Err InvalidConfig
  else Ok f.

(** ** Row conversions *)

Definition status_str (s : Status) : string :=
  match s with Running => "running" | Stopping => "stopping" | Stopped => "stopped" end.

Definition parse_status (s : string) : Status :=
  if decide (s = "running"%string) then Running
  else if decide (s = "stopping"%string) then Stopping
  else Stopped.

Definition at_time (f : f64) : result Error Z := ok_or (f64_to_system_time f) Panic.

Definition row_to_snapshot (r : snapshot_row) : result Error SnapshotRow :=
  t ← at_time (s_created r);
  Ok (mkSnapshot (s_id r) (s_vm r) (s_name r) (s_disk_path r)
        (if s_disk_bytes r <? 0 then 0 else s_disk_bytes r) t).

Definition row_to_base_disk (r : base_row) : result Error BaseDiskRow :=
  t ← at_time (b_created r); Ok (mkBaseDisk (b_id r) (b_digest r) (b_path r) (b_ref r) t).

Definition row_to_volume (r : volume_row) : result Error VolumeInfo :=
  t ← at_time (o_created r); Ok (mkVolume (o_id r) (o_name r) (o_path r) t).

Fixpoint collect {A B} (f : A -> result Error B) (l : list A) : result Error (list B) :=
  match l with
  | [] => Ok []
  | x :: r => y ← f x; ys ← collect f r; Ok (y :: ys)
  end.

(** [ORDER BY created_at DESC]; equal times keep rowid order. *)
Section Sort.
Context {A : Type} (key : A -> f64).
Fixpoint insert_by_time (x : A) (l : list A) : list A :=
  match l with
  | [] => [x]
  | y :: r => if SFltb (key y) (key x) then x :: l else y :: insert_by_time x r
  end.
Definition order_desc (l : list A) : list A := foldl (fun acc x => insert_by_time x acc) [] l.
End Sort.

(** [LIKE]: [%] is any text, [_] any character, letters compare without case. *)
Fixpoint like (pattern s : string) : bool :=
  match pattern with
  | EmptyString => match s with EmptyString => true | _ => false end
  | String c p =>
    if decide (c = "%"%char) then
      (fix any (s : string) : bool :=
         like p s || match s with EmptyString => false | String _ r => any r end) s
    else match s with
         | EmptyString => false
         | String d r => (bool_decide (c = "_"%char) || bool_decide (lower c = lower d)) && like p r
         end
  end.

(** ** Statements *)

(** The new value conflicts with another row's in a [UNIQUE] column. *)
Definition clash {A K} `{EqDecision K} (key : A -> option K) (k : option K) (l : list A) : bool :=
  match k with
  | None => false
  | Some k => existsb (fun r => bool_decide (key r = Some k)) l
  end.

Definition has {A} (key : A -> string) (k : string) (l : list A) : bool :=
  existsb (fun r => bool_decide (key r = k)) l.

Section Json.
(** [serde_json::to_string] and [from_str] of [VmConfig]. *)
Context (to_string : VmConfig -> option string) (from_str : string -> option VmConfig).

Definition row_to_state (r : vm_row) : result Error VmState :=
  config ← ok_or (from_str (v_config r)) Db;
  created ← at_time (v_created r);
  Ok (mkVm (v_id r) (v_name r) (v_pid r) (v_image r) (v_socket r) (parse_status (v_status r)) config created).

Definition insert (s : VmState) (d : state_db) : result Error state_db :=
  config_json ← ok_or (to_string (vm_config s)) Json;
  if has v_id (vm_id s) (vms d) || clash v_name (vm_name s) (vms d) then Err Db else
  Ok (with_vms d (vms d ++ [mkVmRow (vm_id s) (vm_name s) (vm_pid s) (vm_image s) (vm_socket s)
        (status_str (vm_status s)) config_json (system_time_to_f64 (vm_created_at s))])).

(** [UPDATE vms SET ... WHERE id = ?]. *)
Definition update_vm (id : string) (f : vm_row -> vm_row) (d : state_db) : state_db :=
  with_vms d ((fun r => if decide (v_id r = id) then f r else r) <$> vms d).

Definition update_status (id : string) (status : Status) (d : state_db) : result Error state_db :=
  Ok (update_vm id (fun r => mkVmRow (v_id r) (v_name r) (v_pid r) (v_image r) (v_socket r)
        (status_str status) (v_config r) (v_created r)) d).

Definition update_pid_status (id : string) (pid : Z) (status : Status) (d : state_db) : result Error state_db :=
  Ok (update_vm id (fun r => mkVmRow (v_id r) (v_name r) pid (v_image r) (v_socket r)
        (status_str status) (v_config r) (v_created r)) d).

Definition update_config (id : string) (config : VmConfig) (d : state_db) : result Error state_db :=
  config_json ← ok_or (to_string config) Json;
  Ok (update_vm id (fun r => mkVmRow (v_id r) (v_name r) (v_pid r) (v_image r) (v_socket r)
        (v_status r) config_json (v_created r)) d).

Definition update_name (id : string) (name : option string) (d : state_db) : result Error state_db :=
  if has v_id id (vms d) && clash v_name name (List.filter (fun r => negb (bool_decide (v_id r = id))) (vms d))
  then Err Db
  else Ok (update_vm id (fun r => mkVmRow (v_id r) name (v_pid r) (v_image r) (v_socket r)
             (v_status r) (v_config r) (v_created r)) d).

(** [DELETE FROM vms]: the snapshots and attachments of the VM go with it. *)
Definition delete (id : string) (d : state_db) : result Error state_db :=
  Ok (mkStateDb (List.filter (fun r => negb (bool_decide (v_id r = id))) (vms d))
        (List.filter (fun r => negb (bool_decide (s_vm r = id))) (snapshots d))
        (base_disks d) (volumes d)
        (List.filter (fun r => negb (bool_decide (a_vm r = id))) (vm_volumes d))).

Definition get_by_id (id : string) (d : state_db) : result Error VmState :=
  match List.find (fun r => bool_decide (v_id r = id)) (vms d) with
  | None => Err NotFound
  | Some r => row_to_state r
  end.

Definition get_by_name (name : string) (d : state_db) : result Error (option VmState) :=
  match List.find (fun r => bool_decide (v_name r = Some name)) (vms d) with
  | None => Ok None
  | Some r => s ← row_to_state r; Ok (Some s)
  end.

Definition get_by_id_prefix (prefix : string) (d : state_db) : result Error VmState :=
  match List.find (fun r => bool_decide (v_id r = prefix)) (vms d) with
  | Some r => row_to_state r
  | None =>
    matches ← collect row_to_state (List.filter (fun r => like (prefix +:+ "%") (v_id r)) (vms d));
    match matches with
    | [] => Err NotFound
    | [s] => Ok s
    | _ => Err Ambiguous
    end
  end.

Definition list_vms (d : state_db) : result Error (list VmState) := collect row_to_state (order_desc v_created (vms d)).
End Json.

(** *** Snapshots *)

Definition snap_key (r : snapshot_row) : option (string * string) := n ← s_name r; Some (s_vm r, n).

Definition insert_snapshot (s : SnapshotRow) (d : state_db) : result Error state_db :=
  let row := mkSnapRow (sn_id s) (sn_vm s) (sn_name s) (sn_disk_path s) (Z.min (sn_disk_bytes s) I64_MAX)
               (system_time_to_f64 (sn_created_at s)) in
  if has s_id (sn_id s) (snapshots d) || clash snap_key (snap_key row) (snapshots d)
     || negb (has v_id (sn_vm s) (vms d)) then Err Db
  else Ok (with_snapshots d (snapshots d ++ [row])).

Definition list_snapshots (vm : string) (d : state_db) : result Error (list SnapshotRow) :=
  collect row_to_snapshot (order_desc s_created (List.filter (fun r => bool_decide (s_vm r = vm)) (snapshots d))).

Definition get_snapshot (id : string) (d : state_db) : result Error SnapshotRow :=
  match List.find (fun r => bool_decide (s_id r = id)) (snapshots d) with
  | None => Err NotFound
  | Some r => row_to_snapshot r
  end.

Definition delete_snapshot (id : string) (d : state_db) : result Error state_db :=
  Ok (with_snapshots d (List.filter (fun r => negb (bool_decide (s_id r = id))) (snapshots d))).

(** *** Base disks *)

(** The conflict target is checked before the primary key. *)
Definition upsert_base_disk (now : Z) (id digest path : string) (d : state_db) : result Error state_db :=
  if has b_digest digest (base_disks d) then Ok d
  else if has b_id id (base_disks d) then Err Db
  else Ok (with_bases d (base_disks d ++ [mkBaseRow id digest path 0 (system_time_to_f64 now)])).

Definition get_base_disk_by_digest (digest : string) (d : state_db) : result Error (option BaseDiskRow) :=
  match List.find (fun r => bool_decide (b_digest r = digest)) (base_disks d) with
  | None => Ok None
  | Some r => b ← row_to_base_disk r; Ok (Some b)
  end.

Definition add_base_ref (digest : string) (n : Z) (d : state_db) : state_db :=
  with_bases d ((fun r => if decide (b_digest r = digest)
                          then mkBaseRow (b_id r) (b_digest r) (b_path r) (b_ref r + n) (b_created r) else r)
                <$> base_disks d).

Definition incr_base_disk_ref (digest : string) (d : state_db) : result Error state_db := Ok (add_base_ref digest 1 d).
Definition decr_base_disk_ref (digest : string) (d : state_db) : result Error state_db := Ok (add_base_ref digest (-1) d).

Definition orphaned_base_disks (d : state_db) : result Error (list BaseDiskRow) :=
  collect row_to_base_disk (List.filter (fun r => b_ref r <=? 0) (base_disks d)).

Definition delete_base_disk (id : string) (d : state_db) : result Error state_db :=
  Ok (with_bases d (List.filter (fun r => negb (bool_decide (b_id r = id))) (base_disks d))).

(** *** Volumes *)

Definition insert_volume (v : VolumeInfo) (d : state_db) : result Error state_db :=
  if has o_id (vi_id v) (volumes d) || has o_name (vi_name v) (volumes d) then Err Db
  else Ok (with_volumes d (volumes d ++ [mkVolRow (vi_id v) (vi_name v) (vi_path v)
             (system_time_to_f64 (vi_created_at v))])).

Definition get_volume_by_name (name : string) (d : state_db) : result Error (option VolumeInfo) :=
  match List.find (fun r => bool_decide (o_name r = name)) (volumes d) with
  | None => Ok None
  | Some r => v ← row_to_volume r; Ok (Some v)
  end.

(** [ORDER BY name], byte by byte. *)
Fixpoint insert_by_name (x : volume_row) (l : list volume_row) : list volume_row :=
  match l with
  | [] => [x]
  | y :: r => if String.ltb (o_name x) (o_name y) then x :: l else y :: insert_by_name x r
  end.

Definition list_volumes (d : state_db) : result Error (list VolumeInfo) :=
  collect row_to_volume (foldl (fun acc x => insert_by_name x acc) [] (volumes d)).

(** Deleting a volume that an attachment refers to violates the foreign key. *)
Definition delete_volume (id : string) (d : state_db) : result Error state_db :=
  if has o_id id (volumes d) && has a_volume id (vm_volumes d) then Err Db
  else Ok (with_volumes d (List.filter (fun r => negb (bool_decide (o_id r = id))) (volumes d))).

Definition count_volume_attachments (volume : string) (d : state_db) : result Error Z :=
  Ok (zlen (List.filter (fun r => bool_decide (a_volume r = volume)) (vm_volumes d))).

(** [INSERT OR REPLACE]: the row with the same key is deleted first. *)
Definition insert_vm_volume (vm volume guest_path : string) (d : state_db) : result Error state_db :=
  if has v_id vm (vms d) && has o_id volume (volumes d) then
    Ok (with_attachments d
          (List.filter (fun r => negb (bool_decide (a_vm r = vm) && bool_decide (a_volume r = volume))) (vm_volumes d)
             ++ [mkAttach vm volume guest_path]))
  else Err Db.

Definition delete_vm_volumes (vm : string) (d : state_db) : result Error state_db :=
  Ok (with_attachments d (List.filter (fun r => negb (bool_decide (a_vm r = vm))) (vm_volumes d))).

(** ** Keys *)

Lemma has_true {A} (key : A -> string) k l : has key k l = true <-> k ∈ key <$> l.
Proof.
  unfold has. rewrite existsb_exists, list_elem_of_fmap. split; intros (x & H1 & H2); exists x.
  - apply list_elem_of_In in H1. apply bool_decide_eq_true in H2. done.
  - subst k. apply list_elem_of_In in H2. split; [done|]. by apply bool_decide_eq_true.
Qed.

Lemma has_false {A} (key : A -> string) k l : has key k l = false <-> k ∉ key <$> l.
Proof. rewrite <- has_true. by destruct (has key k l). Qed.

Lemma clash_false {A K} `{EqDecision K} (key : A -> option K) k l :
  clash key k l = false <-> forall x, k = Some x -> x ∉ omap key l.
Proof.
  unfold clash. destruct k as [k|]; [|split; [intros _ x [=]|done]].
  rewrite <- not_true_iff_false, existsb_exists. split.
  - intros H x [= <-] (r & Hr & E)%list_elem_of_omap. apply H. exists r. apply list_elem_of_In in Hr.
    split; [done|]. by apply bool_decide_eq_true.
  - intros H (r & Hr & E). apply (H k eq_refl), list_elem_of_omap. exists r. apply list_elem_of_In in Hr.
    by apply bool_decide_eq_true in E.
Qed.

Lemma elem_of_filter_bool {A} (f : A -> bool) l x : x ∈ List.filter f l <-> x ∈ l /\ f x = true.
Proof. by rewrite !list_elem_of_In, filter_In. Qed.

Lemma NoDup_fmap_filter_bool {A B} (key : A -> B) f l : NoDup (key <$> l) -> NoDup (key <$> List.filter f l).
Proof.
  induction l as [|x l IH]; simpl; [done|]. intros [Hx H]%NoDup_cons. case_match; [|by apply IH].
  simpl. apply NoDup_cons. split; [|by apply IH]. intros (y & E & Hy)%list_elem_of_fmap. apply Hx.
  apply elem_of_filter_bool in Hy as [Hy _]. rewrite E. by apply list_elem_of_fmap_2.
Qed.

Lemma fmap_id_on {A} (f : A -> A) (l : list A) : (forall x, x ∈ l -> f x = x) -> f <$> l = l.
Proof.
  induction l as [|x l IH]; intros H; [done|]. rewrite fmap_cons, H by left. f_equal. apply IH.
  intros y Hy. apply H. by right.
Qed.

Lemma omap_cons_eq {A B} (key : A -> option B) x l :
  omap key (x :: l) = match key x with Some y => y :: omap key l | None => omap key l end.
Proof. done. Qed.

Lemma NoDup_omap_cons {A B} (key : A -> option B) x l :
  NoDup (omap key (x :: l)) <-> NoDup (omap key l) /\ forall k, key x = Some k -> k ∉ omap key l.
Proof.
  rewrite omap_cons_eq.
  destruct (key x) as [k|]; [rewrite NoDup_cons|]; (split; [intros H|intros [H1 H2]]).
  - split; [by apply H|]. intros k' [= <-]. by apply H.
  - split; [by apply H2|done].
  - split; [done|]. by intros k [=].
  - done.
Qed.

Lemma NoDup_omap_filter_bool {A B} (key : A -> option B) f l : NoDup (omap key l) -> NoDup (omap key (List.filter f l)).
Proof.
  induction l as [|x l IH]; [done|]. intros [H Hx]%NoDup_omap_cons. simpl List.filter.
  destruct (f x); [|by apply IH]. apply NoDup_omap_cons. split; [by apply IH|].
  intros k E (y & Hy & Ey)%list_elem_of_omap. apply (Hx k E), list_elem_of_omap. exists y.
  by apply elem_of_filter_bool in Hy as [Hy _].
Qed.

Lemma NoDup_fmap_elem {A B} (f : A -> B) l x y : NoDup (f <$> l) -> x ∈ l -> y ∈ l -> f x = f y -> x = y.
Proof.
  induction l as [|z l IH]; intros Hnd Hx Hy E; [by apply not_elem_of_nil in Hx|].
  rewrite fmap_cons in Hnd. apply NoDup_cons in Hnd as [Hz Hnd].
  apply elem_of_cons in Hx as [->|Hx], Hy as [->|Hy]; [done|..|by apply IH]; exfalso; apply Hz.
  - rewrite E. by apply list_elem_of_fmap_2.
  - rewrite <- E. by apply list_elem_of_fmap_2.
Qed.

Lemma NoDup_snoc {A} (l : list A) x : NoDup l -> x ∉ l -> NoDup (l ++ [x]).
Proof. intros Hl Hx. apply NoDup_app. split_and!; [done| |apply NoDup_singleton]. set_solver. Qed.

Lemma omap_snoc {A B} (f : A -> option B) l x :
  omap f (l ++ [x]) = omap f l ++ match f x with Some y => [y] | None => [] end.
Proof. rewrite omap_app. simpl. by destruct (f x). Qed.

(** ** The tables' invariant *)

Record db_ok (d : state_db) : Prop := {
  ok_vm_ids : NoDup (v_id <$> vms d);
  ok_vm_names : NoDup (omap v_name (vms d));
  ok_snap_ids : NoDup (s_id <$> snapshots d);
  ok_snap_names : NoDup (omap snap_key (snapshots d));
  ok_snap_vm : forall r, r ∈ snapshots d -> s_vm r ∈ v_id <$> vms d;
  ok_base_ids : NoDup (b_id <$> base_disks d);
  ok_base_digests : NoDup (b_digest <$> base_disks d);
  ok_vol_ids : NoDup (o_id <$> volumes d);
  ok_vol_names : NoDup (o_name <$> volumes d);
  ok_att_keys : NoDup ((fun r => (a_vm r, a_volume r)) <$> vm_volumes d);
  ok_att_vm : forall r, r ∈ vm_volumes d -> a_vm r ∈ v_id <$> vms d;
  ok_att_vol : forall r, r ∈ vm_volumes d -> a_volume r ∈ o_id <$> volumes d
}.

Lemma empty_db_ok : db_ok empty_db.
Proof. split; simpl; try apply NoDup_nil_2; intros r Hr; by apply not_elem_of_nil in Hr. Qed.

(** [UPDATE]s that keep the key of a row keep the keys of the table. *)
Lemma update_vm_ids id f d :
  (forall r, v_id (f r) = v_id r) -> v_id <$> vms (update_vm id f d) = v_id <$> vms d.
Proof.
  intros Hf. unfold update_vm. simpl. rewrite <- list_fmap_compose. apply list_fmap_ext. intros i r _. simpl.
  by case_decide.
Qed.

Lemma update_vm_names id f d :
  (forall r, v_name (f r) = v_name r) -> omap v_name (vms (update_vm id f d)) = omap v_name (vms d).
Proof.
  intros Hf. change (vms (update_vm id f d)) with ((fun r => if decide (v_id r = id) then f r else r) <$> vms d).
  induction (vms d) as [|r l IH]; [done|]. rewrite fmap_cons, !omap_cons_eq, IH.
  case_decide; [by rewrite Hf|done].
Qed.

Lemma update_vm_ok id f d :
  (forall r, v_id (f r) = v_id r) -> NoDup (omap v_name (vms (update_vm id f d))) ->
  db_ok d -> db_ok (update_vm id f d).
Proof.
  intros Hf Hn []. split; try done.
  - by rewrite (update_vm_ids id f d Hf).
  - intros r Hr. rewrite (update_vm_ids id f d Hf). auto.
  - intros r Hr. rewrite (update_vm_ids id f d Hf). auto.
Qed.

Lemma rename_keeps_names id name l :
  NoDup (v_id <$> l) -> NoDup (omap v_name l) ->
  clash v_name name (List.filter (fun r => negb (bool_decide (v_id r = id))) l) = false ->
  NoDup (omap v_name ((fun r => if decide (v_id r = id)
    then mkVmRow (v_id r) name (v_pid r) (v_image r) (v_socket r) (v_status r) (v_config r) (v_created r)
    else r) <$> l)).
Proof.
  rewrite clash_false. set (upd := fun r : vm_row => if decide _ then _ else _).
  assert (Hsub : forall (l : list vm_row) x, x ∈ omap v_name (upd <$> l) -> Some x = name \/ x ∈ omap v_name l).
  { intros k x (r & Hr & E)%list_elem_of_omap. apply list_elem_of_fmap in Hr as (r' & -> & Hr').
    unfold upd in E. case_decide; [left; by simpl in E|right]. apply list_elem_of_omap. by exists r'. }
  induction l as [|r l IH]; intros Hi Hn Hc; [apply NoDup_nil_2|].
  rewrite fmap_cons in Hi. apply NoDup_cons in Hi as [Hr Hi]. apply NoDup_omap_cons in Hn as [Hnl Hn].
  rewrite fmap_cons. apply NoDup_omap_cons. simpl List.filter in Hc.
  destruct (decide (v_id r = id)) as [E|E].
  - assert (Hid : upd <$> l = l).
    { apply fmap_id_on. intros y Hy. unfold upd. destruct (decide (v_id y = id)) as [E'|]; [|done].
      exfalso. apply Hr. rewrite E, <- E'. by apply list_elem_of_fmap_2. }
    rewrite Hid. split; [done|]. unfold upd. rewrite decide_True by done. simpl. intros n Hname Hin.
    rewrite (bool_decide_eq_true_2 _ E) in Hc. apply (Hc n Hname). apply list_elem_of_omap in Hin as (y & Hy & Ey).
    apply list_elem_of_omap. exists y. split; [|done]. apply elem_of_filter_bool. split; [done|].
    apply negb_true_iff, bool_decide_eq_false. intros E'. apply Hr. rewrite E, <- E'. by apply list_elem_of_fmap_2.
  - rewrite (bool_decide_eq_false_2 _ E) in Hc. simpl negb in Hc. cbv iota in Hc.
    split.
    + apply IH; [done..|]. intros x Hx Hin. apply (Hc x Hx). apply list_elem_of_omap in Hin as (y & Hy & Ey).
      apply list_elem_of_omap. exists y. split; [by right|done].
    + unfold upd at 1. rewrite decide_False by done. intros n En [Hx|Hx]%Hsub; [|by apply (Hn n En)].
      apply (Hc n (eq_sym Hx)). apply list_elem_of_omap. exists r. split; [by left|done].
Qed.

(** ** Every statement keeps the invariant *)

Inductive db_op : Type :=
  | OpInsert (s : VmState)
  | OpUpdateStatus (id : string) (status : Status)
  | OpUpdatePidStatus (id : string) (pid : Z) (status : Status)
  | OpUpdateConfig (id : string) (config : VmConfig)
  | OpUpdateName (id : string) (name : option string)
  | OpDelete (id : string)
  | OpInsertSnapshot (s : SnapshotRow)
  | OpDeleteSnapshot (id : string)
  | OpUpsertBase (now : Z) (id digest path : string)
  | OpIncrBase (digest : string)
  | OpDecrBase (digest : string)
  | OpDeleteBase (id : string)
  | OpInsertVolume (v : VolumeInfo)
  | OpDeleteVolume (id : string)
  | OpAttach (vm volume guest : string)
  | OpDetach (vm : string).

Definition run_op (to_string : VmConfig -> option string) (o : db_op) : state_db -> result Error state_db :=
  match o with
  | OpInsert s => insert to_string s
  | OpUpdateStatus id st => update_status id st
  | OpUpdatePidStatus id pid st => update_pid_status id pid st
  | OpUpdateConfig id c => update_config to_string id c
  | OpUpdateName id n => update_name id n
  | OpDelete id => delete id
  | OpInsertSnapshot s => insert_snapshot s
  | OpDeleteSnapshot id => delete_snapshot id
  | OpUpsertBase now id dg p => upsert_base_disk now id dg p
  | OpIncrBase dg => incr_base_disk_ref dg
  | OpDecrBase dg => decr_base_disk_ref dg
  | OpDeleteBase id => delete_base_disk id
  | OpInsertVolume v => insert_volume v
  | OpDeleteVolume id => delete_volume id
  | OpAttach vm vol g => insert_vm_volume vm vol g
  | OpDetach vm => delete_vm_volumes vm
  end.

(** The tables after a statement: unchanged when it fails. *)
Definition after_op (to_string : VmConfig -> option string) (d : state_db) (o : db_op) : state_db :=
  match run_op to_string o d with Ok d' => d' | Err _ => d end.

Lemma elem_of_fmap_filter {A B} (key : A -> B) f l k : k ∈ key <$> List.filter f l -> k ∈ key <$> l.
Proof. intros (x & -> & Hx)%list_elem_of_fmap. apply elem_of_filter_bool in Hx as [Hx _]. by apply list_elem_of_fmap_2. Qed.

Lemma elem_of_fmap_filter_ne {A} (key : A -> string) l k id :
  k ∈ key <$> l -> k <> id -> k ∈ key <$> List.filter (fun r => negb (bool_decide (key r = id))) l.
Proof.
  intros (x & -> & Hx)%list_elem_of_fmap Hne. apply list_elem_of_fmap_2, elem_of_filter_bool. split; [done|].
  by apply negb_true_iff, bool_decide_eq_false.
Qed.

Lemma update_kept_ok id f d :
  (forall r, v_id (f r) = v_id r) -> (forall r, v_name (f r) = v_name r) -> db_ok d -> db_ok (update_vm id f d).
Proof. intros Hi Hn H. apply update_vm_ok; [done| |done]. rewrite (update_vm_names id f d Hn). apply H. Qed.

Lemma insert_ok to_string s d d' : insert to_string s d = Ok d' -> db_ok d -> db_ok d'.
Proof.
  unfold insert. intros H. apply bind_Ok_inv in H as (j & _ & H).
  destruct (has _ _ _) eqn:E1; [done|]. destruct (clash _ _ _) eqn:E2; [done|]. simpl in H. injection H as <-.
  apply has_false in E1. rewrite clash_false in E2. intros []. split; try done; simpl.
  - rewrite fmap_app. by apply NoDup_snoc.
  - rewrite omap_snoc. simpl. destruct (vm_name s) as [n|]; [|by rewrite app_nil_r].
    apply NoDup_snoc; [done|by apply E2].
  - intros r Hr. rewrite fmap_app. apply elem_of_app. left. auto.
  - intros r Hr. rewrite fmap_app. apply elem_of_app. left. auto.
Qed.

Lemma update_name_ok id name d d' : update_name id name d = Ok d' -> db_ok d -> db_ok d'.
Proof.
  unfold update_name. intros H Hok. destruct (has v_id id (vms d)) eqn:E1; simpl in H.
  - destruct (clash _ _ _) eqn:E2; [done|]. injection H as <-. apply update_vm_ok; [done| |done].
    apply rename_keeps_names; [apply Hok..|done].
  - injection H as <-. apply has_false in E1.
    assert (E : update_vm id (fun r => mkVmRow (v_id r) name (v_pid r) (v_image r) (v_socket r)
             (v_status r) (v_config r) (v_created r)) d = d); [|by rewrite E].
    destruct d as [l ? ? ? ?]. unfold update_vm, with_vms. simpl in *. f_equal.
    apply fmap_id_on. intros r Hr. case_decide as Hid; [|done].
    exfalso. apply E1. rewrite <- Hid. by apply list_elem_of_fmap_2.
Qed.

Lemma delete_ok id d : db_ok d -> db_ok (mkStateDb (List.filter (fun r => negb (bool_decide (v_id r = id))) (vms d))
        (List.filter (fun r => negb (bool_decide (s_vm r = id))) (snapshots d))
        (base_disks d) (volumes d)
        (List.filter (fun r => negb (bool_decide (a_vm r = id))) (vm_volumes d))).
Proof.
  intros []. split; simpl; try done; try by apply NoDup_fmap_filter_bool; try by apply NoDup_omap_filter_bool.
  - by apply NoDup_omap_filter_bool.
  - by apply NoDup_omap_filter_bool.
  - intros r [Hr Hne]%elem_of_filter_bool. apply negb_true_iff, bool_decide_eq_false in Hne.
    apply elem_of_fmap_filter_ne; auto.
  - intros r [Hr Hne]%elem_of_filter_bool. apply negb_true_iff, bool_decide_eq_false in Hne.
    apply elem_of_fmap_filter_ne; auto.
  - intros r [Hr _]%elem_of_filter_bool. auto.
Qed.

Lemma insert_snapshot_ok s d d' : insert_snapshot s d = Ok d' -> db_ok d -> db_ok d'.
Proof.
  unfold insert_snapshot. destruct (has s_id _ _) eqn:E1; [done|]. destruct (clash _ _ _) eqn:E2; [done|].
  destruct (has v_id _ _) eqn:E3; [|done]. simpl. intros [= <-] [].
  apply has_false in E1. apply has_true in E3. rewrite clash_false in E2. split; try done; simpl.
  - rewrite fmap_app. by apply NoDup_snoc.
  - rewrite omap_snoc. destruct (snap_key _) as [k|]; [|by rewrite app_nil_r]. apply NoDup_snoc; [done|by apply E2].
  - intros r [Hr|Hr]%elem_of_app; [auto|]. by apply list_elem_of_singleton in Hr as ->.
Qed.

Lemma upsert_base_ok now id dg p d d' : upsert_base_disk now id dg p d = Ok d' -> db_ok d -> db_ok d'.
Proof.
  unfold upsert_base_disk. destruct (has b_digest _ _) eqn:E1; [by intros [= <-]|].
  destruct (has b_id _ _) eqn:E2; [done|]. intros [= <-] []. apply has_false in E1, E2.
  split; try done; simpl; rewrite fmap_app; by apply NoDup_snoc.
Qed.

Lemma add_base_ref_ok dg n d : db_ok d -> db_ok (add_base_ref dg n d).
Proof.
  intros []. split; try done; simpl; rewrite <- list_fmap_compose.
  - erewrite list_fmap_ext; [exact ok_base_ids0|]. intros i r _. simpl. by case_decide.
  - erewrite list_fmap_ext; [exact ok_base_digests0|]. intros i r _. simpl. by case_decide.
Qed.

Lemma insert_volume_ok v d d' : insert_volume v d = Ok d' -> db_ok d -> db_ok d'.
Proof.
  unfold insert_volume. destruct (has o_id _ _) eqn:E1; [done|]. destruct (has o_name _ _) eqn:E2; [done|].
  simpl. intros [= <-] []. apply has_false in E1, E2. split; try done; simpl; rewrite ?fmap_app; try by apply NoDup_snoc.
  intros r Hr. apply elem_of_app. left. auto.
Qed.

Lemma delete_volume_ok id d d' : delete_volume id d = Ok d' -> db_ok d -> db_ok d'.
Proof.
  unfold delete_volume. intros H Hok. destruct (has o_id id _) eqn:E0; simpl in H.
  - destruct (has a_volume id _) eqn:E; [done|]. injection H as <-. apply has_false in E. destruct Hok.
    split; try done; simpl; try by apply NoDup_fmap_filter_bool. intros r Hr. apply elem_of_fmap_filter_ne; [auto|].
    intros Heq. apply E. rewrite <- Heq. by apply list_elem_of_fmap_2.
  - injection H as <-. apply has_false in E0. destruct Hok.
    split; try done; simpl; try by apply NoDup_fmap_filter_bool. intros r Hr. apply elem_of_fmap_filter_ne; [auto|].
    intros Heq. apply E0. rewrite <- Heq. auto.
Qed.

Lemma attach_ok vm vol g d d' : insert_vm_volume vm vol g d = Ok d' -> db_ok d -> db_ok d'.
Proof.
  unfold insert_vm_volume. destruct (has v_id _ _) eqn:E1; [|done]. destruct (has o_id _ _) eqn:E2; [|done].
  simpl. intros [= <-] []. apply has_true in E1, E2. split; try done; simpl.
  - rewrite fmap_app. apply NoDup_snoc; [by apply NoDup_fmap_filter_bool|]. simpl.
    intros (r & [= -> ->] & Hr)%list_elem_of_fmap. apply elem_of_filter_bool in Hr as [_ Hr].
    by rewrite !bool_decide_eq_true_2 in Hr.
  - intros r [[Hr _]%elem_of_filter_bool|Hr]%elem_of_app; [auto|]. by apply list_elem_of_singleton in Hr as ->.
  - intros r [[Hr _]%elem_of_filter_bool|Hr]%elem_of_app; [auto|]. by apply list_elem_of_singleton in Hr as ->.
Qed.

Lemma run_op_ok to_string o d d' : run_op to_string o d = Ok d' -> db_ok d -> db_ok d'.
Proof.
  destruct o; simpl; intros H Hok;
    try solve [injection H as <-; by apply update_kept_ok | injection H as <-; by apply add_base_ref_ok
              | injection H as <-; by apply delete_ok].
  - by eapply insert_ok.
  - apply bind_Ok_inv in H as (j & _ & H). injection H as <-. by apply update_kept_ok.
  - by eapply update_name_ok.
  - by eapply insert_snapshot_ok.
  - injection H as <-. destruct Hok. split; try done; simpl.
    + by apply NoDup_fmap_filter_bool.
    + by apply NoDup_omap_filter_bool.
    + intros r [Hr _]%elem_of_filter_bool. auto.
  - by eapply upsert_base_ok.
  - injection H as <-. destruct Hok. split; try done; by apply NoDup_fmap_filter_bool.
  - by eapply insert_volume_ok.
  - by eapply delete_volume_ok.
  - by eapply attach_ok.
  - injection H as <-. destruct Hok. split; try done; simpl; [by apply NoDup_fmap_filter_bool|..].
    all: intros r [Hr _]%elem_of_filter_bool; auto.
Qed.

Lemma run_ops_ok to_string ops d : db_ok d -> db_ok (foldl (after_op to_string) d ops).
Proof.
  revert d. induction ops as [|o ops IH]; intros d Hd; [done|]. apply IH. unfold after_op.
  destruct (run_op to_string o d) as [d'|e] eqn:E; [|done]. by eapply run_op_ok.
Qed.

(** C14.  Database integrity: from the empty product database, whatever statements
    the runtime issues and whichever of them fail, VM ids and names, snapshot ids
    and per-VM names, base-disk ids and digests, volume ids and names and
    attachments stay unique, and every snapshot and attachment refers to existing
    rows. *)
Theorem state_db_integrity (to_string : VmConfig -> option string) (ops : list db_op) :
  db_ok (foldl (after_op to_string) empty_db ops).
Proof. apply run_ops_ok, empty_db_ok. Qed.
