(* ===== verification/StateLookup.v ===== *)
(** * Lookups in the state database

    What the queries of [crates/bux/src/state/db.rs] return: a row reads back as
    it was inserted, an exact id never matches a prefix, a prefix matches what it
    says it does, and deleting a VM takes its rows and no others. *)

From S2P Require Import Prelude Files Paths Ids Ports StateTypes StateDb.

(** ** Collecting rows *)

Lemma collect_Ok {A B} (f : A -> result Error B) l ys :
  collect f l = Ok ys <-> Forall2 (fun x y => f x = Ok y) l ys.
Proof.
  revert ys. induction l as [|x l IH]; intros ys; simpl.
  - split; [intros [= <-]; constructor|]. intros H. by inversion H.
  - split.
    + intros H. apply bind_Ok_inv in H as (y & Hy & H). apply bind_Ok_inv in H as (zs & Hz & H).
      injection H as <-. constructor; [done|]. by apply IH.
    + intros H. inversion H as [|? y ? zs Hy Hz]; subst. rewrite Hy. simpl. apply IH in Hz. by rewrite Hz.
Qed.

Lemma collect_Err {A B} (f : A -> result Error B) l e : collect f l = Err e -> exists x, x ∈ l /\ f x = Err e.
Proof.
  induction l as [|x l IH]; simpl; [done|]. destruct (f x) as [y|e'] eqn:E; simpl.
  - destruct (collect f l) as [ys|e'']; simpl; [done|]. intros [= ->]. destruct IH as (z & Hz & Ez); [done|].
    exists z. split; [by right|done].
  - intros [= ->]. exists x. split; [by left|done].
Qed.

Lemma find_Some_elem {A} (f : A -> bool) l x : List.find f l = Some x -> x ∈ l /\ f x = true.
Proof. intros H. apply find_some in H as [H1 H2]. split; [by apply list_elem_of_In|done]. Qed.

Lemma find_app {A} (f : A -> bool) l k :
  List.find f (l ++ k) = match List.find f l with Some x => Some x | None => List.find f k end.
Proof. induction l as [|x l IH]; simpl; [done|]. by destruct (f x). Qed.

Lemma parse_status_str s : parse_status (status_str s) = s.
Proof. by destruct s. Qed.

Section Lookup.
Context (to_string : VmConfig -> option string) (from_str : string -> option VmConfig).

(** A stored VM reads back: after [insert], looking it up by its id or by its
    name gives the inserted state, with its status, with the configuration as the
    JSON decoder reads what the encoder wrote, and with the creation time as [f64]
    seconds keep it; every other id reads as before. *)
Theorem inserted_vm_reads_back (s : VmState) (d d' : state_db) (j : string) (c : VmConfig) (t : Z) :
  insert to_string s d = Ok d' ->
  to_string (vm_config s) = Some j -> from_str j = Some c ->
  f64_to_system_time (system_time_to_f64 (vm_created_at s)) = Some t ->
  let s' := mkVm (vm_id s) (vm_name s) (vm_pid s) (vm_image s) (vm_socket s) (vm_status s) c t in
  get_by_id from_str (vm_id s) d' = Ok s'
  /\ (forall n, vm_name s = Some n -> get_by_name from_str n d' = Ok (Some s'))
  /\ (forall id, id <> vm_id s -> get_by_id from_str id d' = get_by_id from_str id d).
Proof.
  intros H Hj Hc Ht s'. unfold insert in H. rewrite Hj in H. simpl in H.
  destruct (has _ _ _) eqn:E1; [done|]. destruct (clash _ _ _) eqn:E2; [done|]. injection H as <-.
  set (row := mkVmRow _ _ _ _ _ _ _ _).
  assert (Hrow : row_to_state from_str row = Ok s').
  { unfold row_to_state, at_time. simpl. by rewrite Hc, Ht, parse_status_str. }
  assert (Hnone : forall (P : vm_row -> Prop) `{!forall r, Decision (P r)},
    (forall r, r ∈ vms d -> ~ P r) -> List.find (fun r => bool_decide (P r)) (vms d) = None).
  { intros P HP Hno. destruct (List.find _ _) as [r|] eqn:E; [|done]. apply find_Some_elem in E as [Hr HPr].
    apply bool_decide_eq_true in HPr. by apply Hno in HPr. }
  apply has_false in E1. rewrite clash_false in E2. unfold get_by_id, get_by_name, with_vms. simpl.
  split_and!.
  - rewrite find_app, (Hnone (fun r => v_id r = vm_id s)).
    + simpl. by rewrite bool_decide_eq_true_2.
    + intros r Hr E. apply E1. rewrite <- E. by apply list_elem_of_fmap_2.
  - intros n Hn. rewrite find_app, (Hnone (fun r => v_name r = Some n)).
    + simpl. rewrite bool_decide_eq_true_2 by done. by rewrite Hrow.
    + intros r Hr E. apply (E2 n Hn), list_elem_of_omap. by exists r.
  - intros id Hid. rewrite find_app. simpl. rewrite bool_decide_eq_false_2 by done. by destruct (List.find _ _).
Qed.

(** ** Prefixes *)

Definition no_wildcard (s : string) : Prop :=
  str_contains_char "%" s = false /\ str_contains_char "_" s = false.

(** The id starts with the prefix, up to letter case. *)
Definition starts_ci (prefix : string) (r : vm_row) : bool :=
  String.prefix (to_ascii_lowercase prefix) (to_ascii_lowercase (v_id r)).

Lemma like_any s : like "%" s = true.
Proof. induction s as [|c s IH]; [done|]. exact IH. Qed.

Lemma like_prefix p s :
  no_wildcard p -> like (p +:+ "%") s = String.prefix (to_ascii_lowercase p) (to_ascii_lowercase s).
Proof.
  revert s. induction p as [|c p IH]; intros s [H1 H2].
  - change ((""%string) +:+ "%") with "%"%string. rewrite like_any. by destruct s.
  - simpl in H1, H2. apply orb_false_iff in H1 as [Hc1 H1], H2 as [Hc2 H2].
    apply bool_decide_eq_false in Hc1, Hc2. change (String c p +:+ "%") with (String c (p +:+ "%")).
    cbn [like]. rewrite decide_False by done. destruct s as [|e s]; [done|].
    rewrite (bool_decide_eq_false_2 (c = "_"%char)) by done. simpl orb. rewrite IH by done.
    cbn [to_ascii_lowercase]. simpl String.prefix. destruct (ascii_dec _ _) as [E|E].
    + by rewrite bool_decide_eq_true_2.
    + by rewrite bool_decide_eq_false_2.
Qed.

Lemma filter_ext_bool {A} (f g : A -> bool) l : (forall x, f x = g x) -> List.filter f l = List.filter g l.
Proof. intros H. induction l as [|x l IH]; simpl; [done|]. by rewrite H, IH. Qed.

(** Prefix lookup: for a prefix without SQL wildcards, [get_by_id_prefix]
    returns the VM with exactly that id, or else the only VM whose id starts with
    it (letter case aside); [NotFound] means none does, [Ambiguous] that several
    do, and any other error comes from a row that does not decode. *)
Theorem prefix_lookup (prefix : string) (d : state_db) :
  no_wildcard prefix ->
  match get_by_id_prefix from_str prefix d with
  | Ok s => exists r, r ∈ vms d /\ row_to_state from_str r = Ok s
      /\ (v_id r = prefix \/ (starts_ci prefix r = true /\ forall r', r' ∈ vms d -> starts_ci prefix r' = true -> r' = r))
  | Err NotFound => forall r, r ∈ vms d -> starts_ci prefix r = false /\ v_id r <> prefix
  | Err Ambiguous => (2 <= length (List.filter (starts_ci prefix) (vms d)))%nat
  | Err e => exists r, r ∈ vms d /\ row_to_state from_str r = Err e
  end.
Proof.
  intros Hw. unfold get_by_id_prefix.
  assert (Hconv : forall r e, row_to_state from_str r = Err e -> e = Db \/ e = Panic).
  { intros r e. unfold row_to_state, at_time. destruct (from_str _); simpl; [|intros [= <-]; by left].
    destruct (f64_to_system_time _); simpl; [done|intros [= <-]; by right]. }
  destruct (List.find _ _) as [r|] eqn:E.
  { apply find_Some_elem in E as [Hr Hid]. apply bool_decide_eq_true in Hid.
    destruct (row_to_state from_str r) as [s|e] eqn:Es; [exists r; by split_and!; [..|left]|].
    destruct (Hconv r e Es) as [->| ->]; by exists r. }
  rewrite (filter_ext_bool _ (starts_ci prefix)) by (intros r; by apply like_prefix).
  destruct (collect _ _) as [ys|e] eqn:Ec.
  2:{ simpl. apply collect_Err in Ec as (r & Hr & Er). apply elem_of_filter_bool in Hr as [Hr _].
      destruct (Hconv r e Er) as [->| ->]; by exists r. }
  simpl. apply collect_Ok in Ec. pose proof (Forall2_length _ _ _ Ec) as Hlen.
  destruct ys as [|s [|s2 ys]]; simpl.
  - intros r Hr. split.
    + destruct (starts_ci prefix r) eqn:Ep; [|done]. apply length_zero_iff_nil in Hlen.
      assert (Hin : r ∈ List.filter (starts_ci prefix) (vms d)) by (by apply elem_of_filter_bool).
      rewrite Hlen in Hin. by apply not_elem_of_nil in Hin.
    + intros Hid. apply list_elem_of_In in Hr. apply (find_none _ _ E r), bool_decide_eq_false in Hr. done.
  - apply Forall2_cons_inv_r in Ec as (r & rs & Hs & Hnil & Ef). apply Forall2_nil_inv_r in Hnil. subst rs.
    assert (Hin : r ∈ List.filter (starts_ci prefix) (vms d)) by (rewrite Ef; by left).
    apply elem_of_filter_bool in Hin as [Hr Hp]. exists r. split_and!; [done..|right]. split; [done|].
    intros r' Hr' Hp'. assert (Hin : r' ∈ List.filter (starts_ci prefix) (vms d)) by (by apply elem_of_filter_bool).
    rewrite Ef in Hin. by apply list_elem_of_singleton in Hin.
  - simpl in Hlen. lia.
Qed.

(** Wildcards are not escaped: with one VM in the database, looking up the
    text [%] finds that VM, whatever its id. *)
Theorem wildcard_prefix_matches (d : state_db) (r : vm_row) (s : VmState) :
  vms d = [r] -> row_to_state from_str r = Ok s -> get_by_id_prefix from_str "%" d = Ok s.
Proof.
  intros Hd Hs. unfold get_by_id_prefix. rewrite Hd. simpl List.find. case_bool_decide; [done|].
  assert (Hl : like ("%" +:+ "%") (v_id r) = true).
  { change ("%" +:+ "%") with "%%"%string. destruct (v_id r) as [|c x]; [done|].
    change (like "%" (String c x) || like "%%" x = true). by rewrite like_any. }
  cbn [List.filter]. rewrite Hl. simpl. by rewrite Hs.
Qed.

End Lookup.

(** ** Deleting a VM *)

(** Deleting a VM takes its row, its snapshots and its volume attachments, and
    nothing else: every row of another VM, and every base disk and volume, stays. *)
Theorem delete_takes_only_its_rows (id : string) (d d' : state_db) :
  delete id d = Ok d' ->
  (forall r, r ∈ vms d' <-> r ∈ vms d /\ v_id r <> id)
  /\ (forall r, r ∈ snapshots d' <-> r ∈ snapshots d /\ s_vm r <> id)
  /\ (forall r, r ∈ vm_volumes d' <-> r ∈ vm_volumes d /\ a_vm r <> id)
  /\ base_disks d' = base_disks d /\ volumes d' = volumes d.
Proof.
  intros [= <-]. simpl. split_and!; try done.
  all: intros r; rewrite elem_of_filter_bool, negb_true_iff, bool_decide_eq_false; done.
Qed.

Lemma attachments_pos id d :
  0 < zlen (List.filter (fun r => bool_decide (a_volume r = id)) (vm_volumes d))
  <-> exists r, r ∈ vm_volumes d /\ a_volume r = id.
Proof.
  split.
  - intros H. destruct (List.filter _ _) as [|r l] eqn:E; [unfold zlen in H; simpl in H; lia|]. exists r.
    assert (Hin : r ∈ List.filter (fun r' => bool_decide (a_volume r' = id)) (vm_volumes d)) by (rewrite E; by left).
    apply elem_of_filter_bool in Hin as [Hin Hid]. by apply bool_decide_eq_true in Hid.
  - intros (r & Hr & <-). unfold zlen.
    assert (Hin : r ∈ List.filter (fun r' => bool_decide (a_volume r' = a_volume r)) (vm_volumes d))
      by (apply elem_of_filter_bool; split; [done|by apply bool_decide_eq_true]).
    destruct (List.filter _ _); [by apply not_elem_of_nil in Hin|simpl; lia].
Qed.

(** A volume in use cannot be dropped: [delete_volume] fails exactly when a VM
    is attached to an existing volume, the case in which the attachment count is
    positive. *)
Theorem attached_volume_is_kept (id : string) (d : state_db) :
  db_ok d ->
  (delete_volume id d = Err Db <-> exists n, count_volume_attachments id d = Ok n /\ 0 < n).
Proof.
  intros Hok. unfold delete_volume, count_volume_attachments.
  split.
  - destruct (has o_id id _ && _) eqn:E; [|done]. apply andb_true_iff in E as [_ E]. intros _.
    eexists. split; [reflexivity|]. apply attachments_pos.
    apply has_true, list_elem_of_fmap in E as (r & -> & Hr). by exists r.
  - intros (n & [= <-] & Hn). apply attachments_pos in Hn as (r & Hr & <-).
    assert (Hn : has a_volume (a_volume r) (vm_volumes d) = true) by (by apply has_true, list_elem_of_fmap_2).
    rewrite Hn.
    assert (Ho : has o_id (a_volume r) (volumes d) = true); [|by rewrite Ho].
    apply has_true. by apply (ok_att_vol d Hok).
Qed.

(** ** Samples *)

Module Sample.

Definition sample_row (id : string) : vm_row :=
  mkVmRow id None 7 None ("/run/" +:+ id +:+ ".sock") "running" "{}" (system_time_to_f64 (5 * NANOS)).

Definition vm1 : VmState :=
  mkVm "abc123" (Some "web"%string) 42 None "/run/abc123.sock" Running (default_config true) (1700000000 * NANOS).

Definition sample_to (c : VmConfig) : option string := Some "{}"%string.
Definition sample_from (j : string) : option VmConfig := Some (default_config true).

Definition db1 : state_db := mkStateDb [sample_row "xyz789"] [] [] [] [].
Definition db2 : state_db := after_op sample_to db1 (OpInsert vm1).

Example whole_seconds_kept :
  f64_to_system_time (system_time_to_f64 (1700000000 * NANOS)) = Some (1700000000 * NANOS).
Proof. vm_compute. reflexivity. Qed.

(** [f64] seconds have a resolution of some 240 ns today. *)
Example nanoseconds_rounded :
  f64_to_system_time (system_time_to_f64 (1700000000 * NANOS + 1)) = Some (1700000000 * NANOS).
Proof. vm_compute. reflexivity. Qed.

Lemma inserted_vm_reads_back_witness :
  get_by_id sample_from "abc123" db2 = Ok vm1
  /\ (forall n, vm_name vm1 = Some n -> get_by_name sample_from n db2 = Ok (Some vm1))
  /\ (forall id, id <> vm_id vm1 -> get_by_id sample_from id db2 = get_by_id sample_from id db1).
Proof.
  apply (inserted_vm_reads_back sample_to sample_from vm1 db1 db2 "{}" (default_config true) (1700000000 * NANOS)).
  all: vm_compute; reflexivity.
Defined.

Lemma prefix_lookup_witness :
  match get_by_id_prefix sample_from "ABC" db2 with
  | Ok s => exists r, r ∈ vms db2 /\ row_to_state sample_from r = Ok s
      /\ (v_id r = "ABC"%string \/ (starts_ci "ABC" r = true /\ forall r', r' ∈ vms db2 -> starts_ci "ABC" r' = true -> r' = r))
  | Err NotFound => forall r, r ∈ vms db2 -> starts_ci "ABC" r = false /\ v_id r <> "ABC"%string
  | Err Ambiguous => (2 <= length (List.filter (starts_ci "ABC") (vms db2)))%nat
  | Err e => exists r, r ∈ vms db2 /\ row_to_state sample_from r = Err e
  end.
Proof. apply (prefix_lookup sample_from "ABC" db2). split; vm_compute; reflexivity. Defined.

Example prefix_found : (vm_id <$> get_by_id_prefix sample_from "ABC" db2) = Ok "abc123"%string.
Proof. vm_compute. reflexivity. Qed.

Lemma wildcard_prefix_matches_witness :
  exists s, get_by_id_prefix sample_from "%" db1 = Ok s.
Proof.
  eexists. apply (wildcard_prefix_matches sample_from db1 (sample_row "xyz789")); [reflexivity|].
  vm_compute. reflexivity.
Defined.

Definition db3 : state_db :=
  foldl (after_op sample_to) empty_db
    [OpInsert vm1; OpInsertVolume (mkVolume "data" "data" "/v/data" 0); OpAttach "abc123" "data" "/data"].

Lemma delete_takes_only_its_rows_witness :
  (forall r, r ∈ vms (after_op sample_to db3 (OpDelete "abc123")) <-> r ∈ vms db3 /\ v_id r <> "abc123"%string)
  /\ (forall r, r ∈ snapshots (after_op sample_to db3 (OpDelete "abc123")) <-> r ∈ snapshots db3 /\ s_vm r <> "abc123"%string)
  /\ (forall r, r ∈ vm_volumes (after_op sample_to db3 (OpDelete "abc123")) <-> r ∈ vm_volumes db3 /\ a_vm r <> "abc123"%string)
  /\ base_disks (after_op sample_to db3 (OpDelete "abc123")) = base_disks db3
  /\ volumes (after_op sample_to db3 (OpDelete "abc123")) = volumes db3.
Proof. apply (delete_takes_only_its_rows "abc123" db3). reflexivity. Defined.

Lemma db3_ok : db_ok db3.
Proof. apply run_ops_ok, empty_db_ok. Qed.

Lemma attached_volume_is_kept_witness :
  delete_volume "data" db3 = Err Db <-> exists n, count_volume_attachments "data" db3 = Ok n /\ 0 < n.
Proof. apply (attached_volume_is_kept "data" db3). apply db3_ok. Defined.

End Sample.
