(* ===== verification/Lifecycle.v ===== *)
(** * Recovery, shutdown and idle sweeps

    [crates/bux/src/lifecycle.rs] and [crates/bux/src/runtime/recover.rs], with
    the helpers they call: [clean_vm_files] ([runtime/boot/unix.rs]),
    [remove_vm_disk] ([disk/mod.rs]) and [remove_stored] ([runtime/mod.rs]).
    The runtime's state is the database, the files it manages, the secrets it
    holds in memory, the process ids that answer [kill(pid, 0)] and the signals
    it sent.  Whether a process outlives [SIGTERM] by five seconds is a
    parameter; what a [SIGKILL]ed process does is left open. *)

From S2P Require Import Prelude Files Paths Ids Ports StateTypes StateDb StateLookup.

(** ** lifecycle.rs *)

Inductive RecoverAction : Type := MarkDeadStopped | ReattachVsockOnly.

Definition recover_action (pid_alive : bool) : RecoverAction :=
  if pid_alive then ReattachVsockOnly else MarkDeadStopped.

Definition idle_expired (now : Z) (last_activity : option Z) (created_at : Z) (policy_secs : option N) : bool :=
  match policy_secs with
  | None => false
  | Some secs =>
    if (secs =? 0)%N then false else
    let anchor := default created_at last_activity in
    Z.of_N secs <=? (if now <? anchor then 0 else now - anchor) / NANOS
  end.

Record SweepReport : Type := mkReport { sw_stopped : Z; sw_deleted : Z }.

(** ** The runtime *)

Inductive Signal : Type := SIGTERM | SIGKILL.

Record runtime : Type := mkRt {
  rt_db : state_db;
  rt_files : gset path;
  rt_secrets : gset string;
  rt_alive : gset Z;
  rt_signals : list (Z * Signal);
  rt_removed_events : list string;
  rt_socks_dir : path;
  rt_vms_dir : path
}.

Definition set_db (rt : runtime) (d : state_db) : runtime :=
  mkRt d (rt_files rt) (rt_secrets rt) (rt_alive rt) (rt_signals rt) (rt_removed_events rt) (rt_socks_dir rt) (rt_vms_dir rt).
Definition set_files (rt : runtime) (f : gset path) : runtime :=
  mkRt (rt_db rt) f (rt_secrets rt) (rt_alive rt) (rt_signals rt) (rt_removed_events rt) (rt_socks_dir rt) (rt_vms_dir rt).

Definition is_pid_alive (rt : runtime) (pid : Z) : bool := bool_decide (pid ∈ rt_alive rt).

(** [drop(self.db.op(...))]: a failed statement changes nothing. *)
Definition db_drop (rt : runtime) (op : state_db -> result Error state_db) : runtime :=
  match op (rt_db rt) with Ok d => set_db rt d | Err _ => rt end.

(** [Path::with_extension]. *)
Definition file_stem (n : string) : string :=
  match rsplit_once "." n with
  | None => n
  | Some (u, _) => if decide (u = ""%string) then n else u
  end.

Definition with_extension (p : path) (ext : string) : path :=
  match file_name p with
  | None => p
  | Some n => pop p ++ [Normal (file_stem n +:+ "." +:+ ext)]
  end.

Definition clean_vm_files (socket : string) (rt : runtime) : runtime :=
  let p := components socket in
  set_files rt (rt_files rt ∖ ({[p]} ∪ {[with_extension p "exit"]} ∪ {[with_extension p "json"]}
                 ∪ {[with_extension p "stderr"]} ∪ {[with_extension p "net.sock"]})).

Definition vm_disk_path (vms_dir : path) (id : string) : path := join vms_dir (components (id +:+ ".qcow2")).

Definition remove_vm_disk (id : string) (rt : runtime) : runtime :=
  set_files rt (rt_files rt ∖ {[vm_disk_path (rt_vms_dir rt) id]}).

Definition unlink_vm (id : string) (rt : runtime) : runtime := db_drop rt (delete_vm_volumes id).

Definition purge_vm_files (vm : VmState) (rt : runtime) : runtime :=
  let rt := clean_vm_files (vm_socket vm) rt in
  let rt := unlink_vm (vm_id vm) rt in
  let rt := remove_vm_disk (vm_id vm) rt in
  db_drop rt (delete (vm_id vm)).

(** [remove_stored]: the deletion is the only step whose failure is reported. *)
Definition remove_stored (vm : VmState) (rt : runtime) : result Error () * runtime :=
  let rt := clean_vm_files (vm_socket vm) rt in
  let rt := mkRt (rt_db rt) (rt_files rt) (rt_secrets rt ∖ {[vm_id vm]}) (rt_alive rt) (rt_signals rt)
              (rt_removed_events rt) (rt_socks_dir rt) (rt_vms_dir rt) in
  let rt := unlink_vm (vm_id vm) rt in
  let rt := remove_vm_disk (vm_id vm) rt in
  match delete (vm_id vm) (rt_db rt) with
  | Err e => (Err e, rt)
  | Ok d => (Ok (), mkRt d (rt_files rt) (rt_secrets rt) (rt_alive rt) (rt_signals rt)
                      (rt_removed_events rt ++ [vm_id vm]) (rt_socks_dir rt) (rt_vms_dir rt))
  end.

Definition reconcile_dead_pid (vm : VmState) (rt : runtime) : VmState * runtime :=
  if is_active (vm_status vm) && negb (is_pid_alive rt (vm_pid vm)) then
    let vm := mkVm (vm_id vm) (vm_name vm) (vm_pid vm) (vm_image vm) (vm_socket vm) Stopped (vm_config vm) (vm_created_at vm) in
    (vm, clean_vm_files (vm_socket vm) (db_drop rt (update_status (vm_id vm) Stopped)))
  else (vm, rt).

(** ** Orphan socket files *)

Fixpoint strip_suffix (suffix s : string) : option string :=
  if decide (s = suffix) then Some ""%string else
  match s with
  | EmptyString => None
  | String c r => u ← strip_suffix suffix r; Some (String c u)
  end.

Definition SOCK_EXTS : list string := [".sock"; ".exit"; ".json"; ".stderr"].

Definition sock_entry_is_orphan (name : string) (known_ids : gset string) : bool :=
  match strip_suffix ".net.sock" name with
  | Some id => negb (bool_decide (id ∈ known_ids))
  | None => existsb (fun ext => match strip_suffix ext name with
                                | Some id => negb (bool_decide (id ∈ known_ids))
                                | None => false
                                end) SOCK_EXTS
  end.

Definition orphan_files (socks_dir : path) (known_ids : gset string) (files : gset path) : gset path :=
  filter (fun p => match file_name p with
                   | Some n => bool_decide (pop p = socks_dir) && sock_entry_is_orphan n known_ids
                   | None => false
                   end = true) files.

Definition clean_orphan_socks (known_ids : gset string) (rt : runtime) : Z * runtime :=
  let os := orphan_files (rt_socks_dir rt) known_ids (rt_files rt) in
  (Z.of_nat (size os), set_files rt (rt_files rt ∖ os)).

(** ** recover.rs *)

Section Recover.
Context (to_string : VmConfig -> option string) (from_str : string -> option VmConfig).
Context (survives_term : Z -> bool).

Definition terminate_pid (pid : Z) (rt : runtime) : runtime :=
  if survives_term pid then
    mkRt (rt_db rt) (rt_files rt) (rt_secrets rt) (rt_alive rt)
      (rt_signals rt ++ [(pid, SIGTERM); (pid, SIGKILL)]) (rt_removed_events rt) (rt_socks_dir rt) (rt_vms_dir rt)
  else
    mkRt (rt_db rt) (rt_files rt) (rt_secrets rt) (rt_alive rt ∖ {[pid]})
      (rt_signals rt ++ [(pid, SIGTERM)]) (rt_removed_events rt) (rt_socks_dir rt) (rt_vms_dir rt).

Definition shutdown_one (rt : runtime) (vm : VmState) : runtime :=
  if negb (is_active (vm_status vm)) || negb (is_pid_alive rt (vm_pid vm)) || detach (vm_config vm) then rt
  else db_drop (terminate_pid (vm_pid vm) rt) (update_status (vm_id vm) Stopped).

Definition shutdown_sync (rt : runtime) : runtime :=
  match list_vms from_str (rt_db rt) with
  | Err _ => rt
  | Ok vs => foldl shutdown_one rt vs
  end.

Definition recover_dead (vm : VmState) (rt : runtime) : Z * runtime :=
  let rt := db_drop rt (update_status (vm_id vm) Stopped) in
  (1, if auto_remove (vm_config vm) then purge_vm_files vm rt else clean_vm_files (vm_socket vm) rt).

Definition recover_one (vm : VmState) (rt : runtime) : Z * runtime :=
  if bool_decide (vm_status vm = Stopped) && auto_remove (vm_config vm) then (1, purge_vm_files vm rt)
  else if negb (is_active (vm_status vm)) then (0, rt)
  else match recover_action (is_pid_alive rt (vm_pid vm)) with
       | MarkDeadStopped => recover_dead vm rt
       | ReattachVsockOnly => (0, rt)
       end.

Definition recover (rt : runtime) : Z * runtime :=
  match list_vms from_str (rt_db rt) with
  | Err _ => (0, rt)
  | Ok vs =>
    let '(cleaned, rt) := foldl (fun '(n, rt) vm => let '(k, rt) := recover_one vm rt in (n + k, rt)) (0, rt) vs in
    let known_ids : gset string := match list_vms from_str (rt_db rt) with
                                   | Ok l => list_to_set (vm_id <$> l)
                                   | Err _ => ∅
                                   end in
    let '(k, rt) := clean_orphan_socks known_ids rt in
    (cleaned + k, rt)
  end.

Definition sweep_one (now : Z) (st : runtime * SweepReport) (vm : VmState) : runtime * SweepReport :=
  let '(rt, report) := st in
  let expired policy last := idle_expired now last (vm_created_at vm) policy in
  if is_active (vm_status vm) && expired (auto_stop_secs (vm_config vm)) (last_activity_at (vm_config vm)) then
    let rt := if is_pid_alive rt (vm_pid vm) then terminate_pid (vm_pid vm) rt else rt in
    let rt := db_drop rt (update_status (vm_id vm) Stopped) in
    let rt := clean_vm_files (vm_socket vm) rt in
    let rt := db_drop rt (update_config to_string (vm_id vm) (with_activity (vm_config vm) (Some now))) in
    let report := mkReport (sw_stopped report + 1) (sw_deleted report) in
    if auto_remove (vm_config vm) || expired (auto_delete_secs (vm_config vm)) (Some now) then
      match remove_stored vm rt with
      | (Ok _, rt) => (rt, mkReport (sw_stopped report) (sw_deleted report + 1))
      | (Err _, rt) => (rt, report)
      end
    else (rt, report)
  else if bool_decide (vm_status vm = Stopped)
          && expired (auto_delete_secs (vm_config vm)) (last_activity_at (vm_config vm)) then
    match remove_stored vm rt with
    | (Ok _, rt) => (rt, mkReport (sw_stopped report) (sw_deleted report + 1))
    | (Err _, rt) => (rt, report)
    end
  else (rt, report).

Definition sweep (now : Z) (rt : runtime) : result Error SweepReport * runtime :=
  match list_vms from_str (rt_db rt) with
  | Err e => (Err e, rt)
  | Ok vs => let '(rt, report) := foldl (sweep_one now) (rt, mkReport 0 0) vs in (Ok report, rt)
  end.
End Recover.
