(* ===== verification/LifecycleCorrect.v ===== *)
(** * What recovery, shutdown and sweeps do to the database

    The loops of [crates/bux/src/runtime/recover.rs] walk a list of VMs read at
    the start and act on the tables row by row; here each is shown equal to one
    function applied to every row, from which its guarantees follow. *)

From S2P Require Import Prelude Files Paths Ids Ports StateTypes StateDb StateLookup Lifecycle.

(** ** Loops over listed VMs *)

Lemma omap_compose {A B C} (f : A -> option B) (h : B -> option C) (l : list A) :
  omap h (omap f l) = omap (fun x => f x ≫= h) l.
Proof.
  induction l as [|x l IH]; [done|]. rewrite !omap_cons_eq. destruct (f x) as [y|]; simpl mbind; [|done].
  rewrite omap_cons_eq, IH. done.
Qed.

Lemma omap_ext_on {A B} (f h : A -> option B) (l : list A) : (forall x, x ∈ l -> f x = h x) -> omap f l = omap h l.
Proof.
  induction l as [|x l IH]; intros H; [done|]. rewrite !omap_cons_eq, IH, H by set_solver. done.
Qed.

Lemma omap_Some_id {A} (l : list A) : omap Some l = l.
Proof. induction l as [|x l IH]; [done|]. by rewrite omap_cons_eq, IH. Qed.

(** Apply [gv] to the row of one VM. *)
Definition at_id (gv : VmState -> vm_row -> option vm_row) (vm : VmState) (r : vm_row) : option vm_row :=
  if decide (v_id r = vm_id vm) then gv vm r else Some r.

(** Apply [gv] to the rows of the listed VMs. *)
Definition at_ids (gv : VmState -> vm_row -> option vm_row) (vs : list VmState) (r : vm_row) : option vm_row :=
  match List.find (fun vm => bool_decide (v_id r = vm_id vm)) vs with
  | Some vm => gv vm r
  | None => Some r
  end.

Definition keeps_id (gv : VmState -> vm_row -> option vm_row) : Prop :=
  forall vm r r', gv vm r = Some r' -> v_id r' = v_id r.

Section Loop.
Context {St : Type} (db_of : St -> state_db) (I : St -> Prop).
Context (step : St -> VmState -> St) (gv : VmState -> vm_row -> option vm_row).
Context (Hid : keeps_id gv).
Context (HI : forall st vm, I st -> I (step st vm)).
Context (Hstep : forall st vm, I st -> vms (db_of (step st vm)) = omap (at_id gv vm) (vms (db_of st))).

Lemma loop_rows (vs : list VmState) (st : St) :
  NoDup (vm_id <$> vs) -> I st -> vms (db_of (foldl step st vs)) = omap (at_ids gv vs) (vms (db_of st)).
Proof.
  revert st. induction vs as [|vm vs IH]; intros st Hnd HIst; simpl.
  { symmetry. rewrite (omap_ext_on _ Some); [apply omap_Some_id|done]. }
  rewrite fmap_cons in Hnd. apply NoDup_cons in Hnd as [Hvm Hnd].
  rewrite IH, Hstep, omap_compose by auto. apply omap_ext_on. intros r _. unfold at_id, at_ids at 2. simpl.
  case_decide as E.
  - rewrite bool_decide_eq_true_2 by done. destruct (gv vm r) as [r'|] eqn:Eg; [|done]. simpl. unfold at_ids.
    destruct (List.find _ vs) as [vm'|] eqn:Ef; [exfalso|done].
    apply find_Some_elem in Ef as [Hin Heq]. apply bool_decide_eq_true in Heq. apply Hvm.
    rewrite <- E, <- (Hid vm r r' Eg), Heq. by apply list_elem_of_fmap_2.
  - rewrite bool_decide_eq_false_2 by done. done.
Qed.

Lemma loop_inv (vs : list VmState) (st : St) : I st -> I (foldl step st vs).
Proof. revert st. induction vs as [|vm vs IH]; intros st H; simpl; [done|]. auto. Qed.
End Loop.

Lemma insert_by_time_perm {A} (key : A -> f64) x l : insert_by_time key x l ≡ₚ x :: l.
Proof.
  induction l as [|y l IH]; simpl; [done|]. case_match; [done|]. rewrite IH. apply Permutation_swap.
Qed.

Lemma order_desc_perm {A} (key : A -> f64) l : order_desc key l ≡ₚ l.
Proof.
  unfold order_desc. assert (H : forall acc, foldl (fun acc x => insert_by_time key x acc) acc l ≡ₚ acc ++ l).
  { induction l as [|x l IH]; intros acc; simpl; [by rewrite app_nil_r|].
    rewrite IH, insert_by_time_perm. simpl. by rewrite Permutation_middle. }
  apply (H []).
Qed.

Section Listed.
Context (from_str : string -> option VmConfig).

Lemma row_to_state_id r vm : row_to_state from_str r = Ok vm -> vm_id vm = v_id r.
Proof.
  unfold row_to_state. intros H. apply bind_Ok_inv in H as (c & _ & H). apply bind_Ok_inv in H as (t & _ & H).
  by injection H as <-.
Qed.

Lemma list_vms_ids d vs : list_vms from_str d = Ok vs -> vm_id <$> vs ≡ₚ v_id <$> vms d.
Proof.
  unfold list_vms. intros H. apply collect_Ok in H. rewrite <- (order_desc_perm v_created (vms d)).
  apply reflexive_eq. induction H as [|r vm rs vs Hr _ IH]; [done|]. rewrite !fmap_cons, IH. f_equal.
  by apply row_to_state_id.
Qed.

Lemma list_vms_elem d vs r : list_vms from_str d = Ok vs -> r ∈ vms d -> exists vm, vm ∈ vs /\ row_to_state from_str r = Ok vm.
Proof.
  unfold list_vms. intros H Hr. apply collect_Ok in H. rewrite <- (order_desc_perm v_created (vms d)) in Hr.
  induction H as [|r' vm rs vs Hv _ IH]; [by apply not_elem_of_nil in Hr|].
  apply elem_of_cons in Hr as [->|Hr]; [exists vm; split; [by left|done]|].
  destruct (IH Hr) as (vm' & Hin & E). exists vm'. split; [by right|done].
Qed.

Lemma list_vms_row d vs vm : list_vms from_str d = Ok vs -> vm ∈ vs -> exists r, r ∈ vms d /\ row_to_state from_str r = Ok vm.
Proof.
  unfold list_vms. intros H Hvm. apply collect_Ok in H.
  assert (Hr : exists r, r ∈ order_desc v_created (vms d) /\ row_to_state from_str r = Ok vm).
  { induction H as [|r' vm' rs vs Hv _ IH]; [by apply not_elem_of_nil in Hvm|].
    apply elem_of_cons in Hvm as [->|Hvm]; [exists r'; split; [by left|done]|].
    destruct (IH Hvm) as (r & Hin & E). exists r. split; [by right|done]. }
  destruct Hr as (r & Hr & E). rewrite (order_desc_perm v_created (vms d)) in Hr. eauto.
Qed.

(** What a loop with [gv] does to a row. *)
Definition on_row (gv : VmState -> vm_row -> option vm_row) (r : vm_row) : option vm_row :=
  match row_to_state from_str r with Ok vm => gv vm r | Err _ => Some r end.

Lemma at_ids_rows gv d vs :
  NoDup (v_id <$> vms d) -> list_vms from_str d = Ok vs -> omap (at_ids gv vs) (vms d) = omap (on_row gv) (vms d).
Proof.
  intros Hnd Hl. apply omap_ext_on. intros r Hr. unfold at_ids, on_row.
  destruct (list_vms_elem d vs r Hl Hr) as (vm & Hvm & Er). rewrite Er.
  destruct (List.find _ vs) as [vm'|] eqn:Ef.
  - apply find_Some_elem in Ef as [Hvm' E]. apply bool_decide_eq_true in E.
    assert (vm' = vm) as ->; [|done]. pose proof (list_vms_ids d vs Hl) as Hp.
    apply (NoDup_fmap_elem vm_id vs); [by rewrite Hp|done..|]. by rewrite (row_to_state_id r vm Er).
  - exfalso. apply list_elem_of_In in Hvm. apply (find_none _ _ Ef vm), bool_decide_eq_false in Hvm.
    apply Hvm. symmetry. by apply row_to_state_id.
Qed.

Lemma list_vms_nodup d vs : NoDup (v_id <$> vms d) -> list_vms from_str d = Ok vs -> NoDup (vm_id <$> vs).
Proof. intros Hnd Hl. by rewrite (list_vms_ids d vs Hl). Qed.
End Listed.

(** ** Statements as row functions *)

Lemma fmap_as_omap id (f : vm_row -> vm_row) (l : list vm_row) :
  (fun r => if decide (v_id r = id) then f r else r) <$> l
  = omap (fun r => if decide (v_id r = id) then Some (f r) else Some r) l.
Proof. induction l as [|r l IH]; [done|]. rewrite fmap_cons, omap_cons_eq, IH. by case_decide. Qed.

Lemma filter_as_omap id (l : list vm_row) :
  List.filter (fun r => negb (bool_decide (v_id r = id))) l
  = omap (fun r => if decide (v_id r = id) then None else Some r) l.
Proof.
  induction l as [|r l IH]; [done|]. rewrite omap_cons_eq, <- IH. simpl.
  case_decide; [by rewrite bool_decide_eq_true_2|by rewrite bool_decide_eq_false_2].
Qed.

Definition set_stopped (r : vm_row) : vm_row :=
  mkVmRow (v_id r) (v_name r) (v_pid r) (v_image r) (v_socket r) (status_str Stopped) (v_config r) (v_created r).

Lemma rows_stopped id rt :
  vms (rt_db (db_drop rt (update_status id Stopped)))
  = omap (fun r => if decide (v_id r = id) then Some (set_stopped r) else Some r) (vms (rt_db rt)).
Proof. apply (fmap_as_omap id set_stopped). Qed.

Lemma rows_purged vm rt :
  vms (rt_db (purge_vm_files vm rt))
  = omap (fun r => if decide (v_id r = vm_id vm) then None else Some r) (vms (rt_db rt)).
Proof. apply filter_as_omap. Qed.

Lemma rows_removed vm rt :
  (remove_stored vm rt).1 = Ok ()
  /\ vms (rt_db (remove_stored vm rt).2)
     = omap (fun r => if decide (v_id r = vm_id vm) then None else Some r) (vms (rt_db rt)).
Proof. split; [done|]. apply filter_as_omap. Qed.

(** ** Recovery *)

Section Recovery.
Context (from_str : string -> option VmConfig).

Definition recover_vm (alive : gset Z) (vm : VmState) (r : vm_row) : option vm_row :=
  if bool_decide (vm_status vm = Stopped) && auto_remove (vm_config vm) then None
  else if negb (is_active (vm_status vm)) then Some r
  else if bool_decide (vm_pid vm ∈ alive) then Some r
  else if auto_remove (vm_config vm) then None
  else Some (set_stopped r).

Lemma recover_vm_keeps_id alive : keeps_id (recover_vm alive).
Proof. intros vm r r'. unfold recover_vm. repeat case_match; intros ?; by simplify_eq. Qed.

Lemma recover_one_rows vm rt :
  vms (rt_db (recover_one vm rt).2) = omap (at_id (recover_vm (rt_alive rt)) vm) (vms (rt_db rt)).
Proof.
  set (h := recover_vm (rt_alive rt) vm).
  assert (Hext : forall g, (forall r, h r = g r) ->
    omap (at_id (recover_vm (rt_alive rt)) vm) (vms (rt_db rt))
    = omap (fun r => if decide (v_id r = vm_id vm) then g r else Some r) (vms (rt_db rt))).
  { intros g Hg. apply omap_ext_on. intros r _. unfold at_id. case_decide; [apply Hg|done]. }
  assert (Hsame : (forall r, h r = Some r) -> vms (rt_db rt) = omap (at_id (recover_vm (rt_alive rt)) vm) (vms (rt_db rt))).
  { intros Hg. rewrite (Hext Some Hg), (omap_ext_on _ Some); [by rewrite omap_Some_id|]. intros r _. by case_decide. }
  unfold recover_one, recover_action, recover_dead, is_pid_alive.
  destruct (bool_decide (vm_status vm = Stopped) && _) eqn:E1.
  { rewrite (Hext (fun _ => None)); [apply rows_purged|]. intros r. unfold h, recover_vm. by rewrite E1. }
  destruct (is_active (vm_status vm)) eqn:E2; [|apply Hsame; intros r; unfold h, recover_vm; by rewrite E1, E2].
  simpl negb. cbv iota. destruct (bool_decide (vm_pid vm ∈ rt_alive rt)) eqn:E3.
  { apply Hsame. intros r. unfold h, recover_vm. by rewrite E1, E2, E3. }
  destruct (auto_remove (vm_config vm)) eqn:E4.
  - rewrite (Hext (fun _ => None)); [|intros r; unfold h, recover_vm; by rewrite E4, E1, E2, E3].
    simpl snd. rewrite rows_purged, rows_stopped, omap_compose.
    apply omap_ext_on. intros r _. destruct (decide (v_id r = vm_id vm)) as [E|E]; simpl; [by rewrite decide_True|by rewrite ?decide_False].
  - rewrite (Hext (fun r => Some (set_stopped r))); [apply rows_stopped|].
    intros r. unfold h, recover_vm. by rewrite E4, E1, E2, E3.
Qed.

Lemma recover_one_quiet vm rt :
  rt_alive (recover_one vm rt).2 = rt_alive rt /\ rt_signals (recover_one vm rt).2 = rt_signals rt.
Proof.
  unfold recover_one, recover_action, recover_dead, is_pid_alive, purge_vm_files, db_drop.
  repeat (case_match; simpl; try done).
Qed.

(** The database that recovery leaves is the first loop's: cleaning orphan
    sockets only removes files. *)
Lemma recover_loop rt vs :
  list_vms from_str (rt_db rt) = Ok vs ->
  exists n rt', foldl (fun '(n, rt) vm => let '(k, rt) := recover_one vm rt in (n + k, rt)) (0, rt) vs = (n, rt')
    /\ rt_db (recover from_str rt).2 = rt_db rt'
    /\ rt_signals (recover from_str rt).2 = rt_signals rt'
    /\ rt_alive (recover from_str rt).2 = rt_alive rt'.
Proof.
  intros H. unfold recover. rewrite H. destruct (foldl _ _ _) as [n rt'] eqn:E. exists n, rt'.
  split; [done|]. done.
Qed.

Definition vm_stopped (vm : VmState) : VmState :=
  mkVm (vm_id vm) (vm_name vm) (vm_pid vm) (vm_image vm) (vm_socket vm) Stopped (vm_config vm) (vm_created_at vm).

Lemma row_to_state_stopped r vm :
  row_to_state from_str r = Ok vm -> row_to_state from_str (set_stopped r) = Ok (vm_stopped vm).
Proof.
  unfold row_to_state. simpl. destruct (from_str (v_config r)); simpl; [|done].
  destruct (at_time (v_created r)); simpl; [|done]. by intros [= <-].
Qed.

Definition recover_step : Z * runtime -> VmState -> Z * runtime :=
  fun '(n, rt) vm => let '(k, rt) := recover_one vm rt in (n + k, rt).

Lemma recover_table (rt : runtime) (vs : list VmState) :
  db_ok (rt_db rt) -> list_vms from_str (rt_db rt) = Ok vs ->
  vms (rt_db (recover from_str rt).2) = omap (on_row from_str (recover_vm (rt_alive rt))) (vms (rt_db rt))
  /\ rt_signals (recover from_str rt).2 = rt_signals rt
  /\ rt_alive (recover from_str rt).2 = rt_alive rt.
Proof.
  intros Hok Hl. destruct (recover_loop rt vs Hl) as (n & rt' & Ef & -> & -> & ->).
  set (I := fun st : Z * runtime => rt_alive st.2 = rt_alive rt /\ rt_signals st.2 = rt_signals rt).
  assert (HI : forall st vm, I st -> I (recover_step st vm)).
  { intros [k r] vm [H1 H2]. pose proof (recover_one_quiet vm r) as [Q1 Q2]. unfold I, recover_step.
    destruct (recover_one vm r) as [k' r']. simpl in *. split; congruence. }
  assert (Hstep : forall st vm, I st ->
    vms (rt_db (recover_step st vm).2) = omap (at_id (recover_vm (rt_alive rt)) vm) (vms (rt_db st.2))).
  { intros [k r] vm [H1 _]. simpl in H1. pose proof (recover_one_rows vm r) as Hr. unfold recover_step.
    destruct (recover_one vm r) as [k' r']. simpl in *. by rewrite Hr, H1. }
  pose proof (list_vms_nodup from_str (rt_db rt) vs (ok_vm_ids _ Hok) Hl) as Hnd.
  change (foldl recover_step (0, rt) vs = (n, rt')) in Ef.
  pose proof (loop_rows (fun st => rt_db st.2) I recover_step _ (recover_vm_keeps_id _) HI Hstep vs (0, rt) Hnd
    (conj eq_refl eq_refl)) as Hrows.
  pose proof (loop_inv I recover_step HI vs (0, rt) (conj eq_refl eq_refl)) as Hinv.
  rewrite Ef in Hrows, Hinv. simpl in Hrows. rewrite Hrows.
  split; [by apply at_ids_rows; [apply Hok|]|]. destruct Hinv. done.
Qed.

(** C7.  Recovery as a function of the rows: when every row decodes, [recover] turns
    the VM table into the old one with each row kept, stopped or dropped by its own
    status, policy and process: live VMs are left as they are, dead ones are marked
    [Stopped], and stopped or dead ones flagged for automatic removal are gone.  No
    process is signalled. *)
Theorem recover_rows (rt : runtime) (vs : list VmState) :
  db_ok (rt_db rt) -> list_vms from_str (rt_db rt) = Ok vs ->
  vms (rt_db (recover from_str rt).2) = omap (on_row from_str (recover_vm (rt_alive rt))) (vms (rt_db rt))
  /\ rt_signals (recover from_str rt).2 = rt_signals rt
  /\ rt_alive (recover from_str rt).2 = rt_alive rt.
Proof. apply recover_table. Qed.

(** After recovery the table tells the truth: every VM it lists as active has a
    live process, no stopped VM flagged for automatic removal is left, and each row
    is an old row or an old active one moved to [Stopped], a move the status machine
    allows. *)
Theorem recovered_table_consistent (rt : runtime) (vs : list VmState) (r : vm_row) (vm : VmState) :
  db_ok (rt_db rt) -> list_vms from_str (rt_db rt) = Ok vs ->
  r ∈ vms (rt_db (recover from_str rt).2) -> row_to_state from_str r = Ok vm ->
  (is_active (vm_status vm) = true -> vm_pid vm ∈ rt_alive (recover from_str rt).2)
  /\ (vm_status vm = Stopped -> auto_remove (vm_config vm) = false)
  /\ exists vm0, vm0 ∈ vs
     /\ (vm = vm0 \/ (vm = vm_stopped vm0 /\ can_transition_to (vm_status vm0) Stopped = true)).
Proof.
  intros Hok Hl Hr Hvm. destruct (recover_table rt vs Hok Hl) as (Hrows & _ & ->). rewrite Hrows in Hr.
  apply list_elem_of_omap in Hr as (r0 & Hr0 & Hg). unfold on_row in Hg.
  destruct (list_vms_elem from_str (rt_db rt) vs r0 Hl Hr0) as (vm0 & Hin & E0). rewrite E0 in Hg.
  unfold recover_vm in Hg. destruct (bool_decide (vm_status vm0 = Stopped) && _) eqn:E1; [done|].
  destruct (is_active (vm_status vm0)) eqn:E2; simpl in Hg.
  - destruct (bool_decide (vm_pid vm0 ∈ rt_alive rt)) eqn:E3.
    + injection Hg as <-. rewrite Hvm in E0. injection E0 as <-. apply bool_decide_eq_true in E3.
      split_and!; [done|intros Hs; by rewrite Hs in E2|eauto].
    + destruct (auto_remove (vm_config vm0)) eqn:E4; [done|]. injection Hg as <-.
      rewrite (row_to_state_stopped _ _ E0) in Hvm. injection Hvm as <-. split_and!; [done|done|].
      exists vm0. split; [done|]. right. split; [done|]. by destruct (vm_status vm0).
  - injection Hg as <-. rewrite Hvm in E0. injection E0 as <-. split_and!; [by rewrite E2| |eauto].
    intros Hs. rewrite Hs in E1. by rewrite bool_decide_eq_true_2 in E1.
Qed.
End Recovery.

(** ** Sweeps *)

Section Sweep.
Context (to_string : VmConfig -> option string) (from_str : string -> option VmConfig).
Context (survives_term : Z -> bool) (now : Z).

Definition idle_stops (vm : VmState) : bool :=
  is_active (vm_status vm)
  && idle_expired now (last_activity_at (vm_config vm)) (vm_created_at vm) (auto_stop_secs (vm_config vm)).

Definition idle_deletes (vm : VmState) : bool :=
  bool_decide (vm_status vm = Stopped)
  && idle_expired now (last_activity_at (vm_config vm)) (vm_created_at vm) (auto_delete_secs (vm_config vm)).

(** The VMs a sweep deletes: idle ones that were stopped, and the ones it just
    stopped when they are flagged for automatic removal. *)
Definition sweep_drops (vm : VmState) : bool :=
  if idle_stops vm then auto_remove (vm_config vm) else idle_deletes vm.

Definition touched (vm : VmState) (r : vm_row) : vm_row :=
  mkVmRow (v_id r) (v_name r) (v_pid r) (v_image r) (v_socket r) (status_str Stopped)
    (default (v_config r) (to_string (with_activity (vm_config vm) (Some now)))) (v_created r).

Definition sweep_vm (vm : VmState) (r : vm_row) : option vm_row :=
  if sweep_drops vm then None else if idle_stops vm then Some (touched vm r) else Some r.

(** A VM stopped at [now] has been idle for no time at all. *)
Lemma just_stopped_not_expired created policy : idle_expired now (Some now) created policy = false.
Proof.
  unfold idle_expired. destruct policy as [secs|]; [|done]. destruct (N.eqb_spec secs 0); [done|].
  simpl. rewrite Z.ltb_irrefl, Z.sub_diag, Z.div_0_l by done. destruct (Z.leb_spec (Z.of_N secs) 0); [|done].
  exfalso. lia.
Qed.

Lemma terminate_db pid rt : rt_db (terminate_pid survives_term pid rt) = rt_db rt.
Proof. unfold terminate_pid. by case_match. Qed.

Lemma rows_touched vm rt :
  vms (rt_db (db_drop (clean_vm_files (vm_socket vm) (db_drop rt (update_status (vm_id vm) Stopped)))
                (update_config to_string (vm_id vm) (with_activity (vm_config vm) (Some now)))))
  = omap (fun r => if decide (v_id r = vm_id vm) then Some (touched vm r) else Some r) (vms (rt_db rt)).
Proof.
  unfold db_drop at 1, update_config, touched. destruct (to_string _) as [j|]; simpl ok_or; cbn [default].
  - rewrite <- (fmap_as_omap (vm_id vm)). simpl. rewrite <- list_fmap_compose. apply list_fmap_ext.
    intros i r _. simpl. destruct (decide (v_id r = vm_id vm)); simpl; [by rewrite decide_True|by rewrite decide_False].
  - apply rows_stopped.
Qed.

Lemma sweep_vm_keeps_id : keeps_id sweep_vm.
Proof. intros vm r r'. unfold sweep_vm. repeat case_match; intros ?; by simplify_eq. Qed.

(** One VM of a sweep: its rows and its share of the report. *)
Lemma sweep_one_spec st vm :
  vms (rt_db (sweep_one to_string survives_term now st vm).1) = omap (at_id sweep_vm vm) (vms (rt_db st.1))
  /\ (sweep_one to_string survives_term now st vm).2
     = mkReport (sw_stopped st.2 + Z.b2z (idle_stops vm)) (sw_deleted st.2 + Z.b2z (sweep_drops vm)).
Proof.
  destruct st as [rt rep]. unfold sweep_one. rewrite just_stopped_not_expired, orb_false_r. fold (idle_stops vm).
  assert (Hext : forall g, (forall r, sweep_vm vm r = g r) ->
    omap (at_id sweep_vm vm) (vms (rt_db rt))
    = omap (fun r => if decide (v_id r = vm_id vm) then g r else Some r) (vms (rt_db rt))).
  { intros g Hg. apply omap_ext_on. intros r _. unfold at_id. case_decide; [apply Hg|done]. }
  set (rt1 := if is_pid_alive rt _ then _ else _).
  assert (Hrt1 : rt_db rt1 = rt_db rt) by (unfold rt1; case_match; [apply terminate_db|done]).
  destruct (idle_stops vm) eqn:E1.
  - pose proof (rows_touched vm rt1) as Ht. rewrite Hrt1 in Ht.
    destruct (auto_remove (vm_config vm)) eqn:E2; cbv zeta; cbn [fst snd].
    + assert (Hd : sweep_drops vm = true) by (unfold sweep_drops; by rewrite E1).
      match goal with |- context [remove_stored vm ?x] => pose proof (rows_removed vm x) as [R1 R2];
        destruct (remove_stored vm x) as [[u|e] rt2] end; [|done]. simpl in R2 |- *.
      rewrite Hd. split; [|f_equal; simpl; lia]. rewrite R2, Ht, omap_compose.
      rewrite (Hext (fun _ => None)) by (intros r; unfold sweep_vm; by rewrite Hd).
      apply omap_ext_on. intros r _. destruct (decide (v_id r = vm_id vm)) as [E|E]; simpl;
        [by rewrite decide_True|by rewrite ?decide_False].
    + assert (Hd : sweep_drops vm = false) by (unfold sweep_drops; by rewrite E1).
      rewrite Hd. split; [|f_equal; simpl; lia].
      rewrite (Hext (fun r => Some (touched vm r))); [exact Ht|]. intros r. unfold sweep_vm. by rewrite Hd, E1.
  - fold (idle_deletes vm). assert (Hd : sweep_drops vm = idle_deletes vm) by (unfold sweep_drops; by rewrite E1).
    rewrite Hd. destruct (idle_deletes vm) eqn:E2.
    + pose proof (rows_removed vm rt) as [R1 R2]. destruct (remove_stored vm rt) as [[u|e] rt2]; [|done].
      simpl in R2 |- *. split; [|f_equal; lia].
      rewrite R2, (Hext (fun _ => None)); [done|]. intros r. unfold sweep_vm. by rewrite Hd.
    + simpl. split; [|destruct rep; f_equal; simpl; lia]. rewrite (Hext Some).
      * rewrite (omap_ext_on _ Some); [by rewrite omap_Some_id|]. intros r _. by case_decide.
      * intros r. unfold sweep_vm. by rewrite Hd, E1.
Qed.

(** Sweeps as a function of the rows: when every row decodes, a sweep turns the
    VM table into the old one in which each idle active VM is [Stopped] with its
    activity time reset, each VM it deletes is gone and every other row is
    untouched, and its report counts exactly those VMs. *)
Theorem sweep_rows (rt : runtime) (vs : list VmState) :
  db_ok (rt_db rt) -> list_vms from_str (rt_db rt) = Ok vs ->
  let '(res, rt') := sweep to_string from_str survives_term now rt in
  res = Ok (mkReport (zlen (List.filter idle_stops vs)) (zlen (List.filter sweep_drops vs)))
  /\ vms (rt_db rt') = omap (on_row from_str sweep_vm) (vms (rt_db rt)).
Proof.
  intros Hok Hl. unfold sweep. rewrite Hl.
  set (step := sweep_one to_string survives_term now).
  pose proof (list_vms_nodup from_str (rt_db rt) vs (ok_vm_ids _ Hok) Hl) as Hnd.
  pose proof (loop_rows (fun st => rt_db st.1) (fun _ => True) step sweep_vm sweep_vm_keeps_id (fun _ _ _ => I)
    (fun st vm _ => proj1 (sweep_one_spec st vm)) vs (rt, mkReport 0 0) Hnd I) as Hrows.
  assert (Hrep : forall st, (foldl step st vs).2
    = mkReport (sw_stopped st.2 + zlen (List.filter idle_stops vs)) (sw_deleted st.2 + zlen (List.filter sweep_drops vs))).
  { clear. induction vs as [|vm vs IH]; intros st; [destruct st as [x [a b]]; unfold zlen; simpl; f_equal; lia|].
    simpl foldl. rewrite IH. pose proof (proj2 (sweep_one_spec st vm)) as Hs. fold step in Hs. rewrite Hs. simpl.
    destruct (idle_stops vm), (sweep_drops vm); unfold zlen; simpl; f_equal; lia. }
  specialize (Hrep (rt, mkReport 0 0)). destruct (foldl step _ vs) as [rt' rep]. simpl in Hrep, Hrows.
  subst rep. split; [done|]. rewrite Hrows. apply at_ids_rows; [apply Hok|done].
Qed.
End Sweep.

(** ** Shutdown *)

Section Shutdown.
Context (from_str : string -> option VmConfig) (survives_term : Z -> bool).

Abbreviation down := (shutdown_one survives_term).

Lemma down_signals rt vm x :
  x ∈ rt_signals (down rt vm) ->
  x ∈ rt_signals rt \/ (x.1 = vm_pid vm /\ is_active (vm_status vm) = true /\ detach (vm_config vm) = false).
Proof.
  unfold shutdown_one. destruct (is_active _) eqn:E1; [|by left]. destruct (is_pid_alive _ _); [|by left].
  destruct (detach _) eqn:E2; [by left|]. simpl. unfold db_drop, terminate_pid. simpl.
  destruct (survives_term _); simpl; intros [H|H]%elem_of_app; try (by left); right.
  - apply elem_of_cons in H as [->|H]; [done|]. by apply list_elem_of_singleton in H as ->.
  - by apply list_elem_of_singleton in H as ->.
Qed.

Lemma down_signals_mono rt vm x : x ∈ rt_signals rt -> x ∈ rt_signals (down rt vm).
Proof.
  intros H. unfold shutdown_one. case_match; [done|]. unfold db_drop, terminate_pid. simpl.
  destruct (survives_term _); simpl; apply elem_of_app; by left.
Qed.

Lemma down_alive rt vm p : p ∈ rt_alive rt -> p <> vm_pid vm -> p ∈ rt_alive (down rt vm).
Proof.
  intros H Hne. unfold shutdown_one. case_match; [done|]. unfold db_drop, terminate_pid. simpl.
  destruct (survives_term _); simpl; [done|]. set_solver.
Qed.

Lemma down_row rt vm r : r ∈ vms (rt_db rt) -> v_id r <> vm_id vm -> r ∈ vms (rt_db (down rt vm)).
Proof.
  intros H Hne. unfold shutdown_one. case_match; [done|]. rewrite rows_stopped, terminate_db.
  apply list_elem_of_omap. exists r. split; [done|]. by rewrite decide_False.
Qed.

Lemma down_loop rt l :
  (forall x, x ∈ rt_signals rt -> x ∈ rt_signals (foldl down rt l))
  /\ (forall p, p ∈ rt_alive rt -> p ∉ vm_pid <$> l -> p ∈ rt_alive (foldl down rt l))
  /\ (forall r, r ∈ vms (rt_db rt) -> v_id r ∉ vm_id <$> l -> r ∈ vms (rt_db (foldl down rt l))).
Proof.
  revert rt. induction l as [|vm l IH]; intros rt; [done|]. simpl foldl. destruct (IH (down rt vm)) as (I1 & I2 & I3).
  rewrite !fmap_cons. split_and!.
  - intros x Hx. by apply I1, down_signals_mono.
  - intros p Hp [Hne Hl]%not_elem_of_cons. apply I2; [|done]. by apply down_alive.
  - intros r Hr [Hne Hl]%not_elem_of_cons. apply I3; [|done]. by apply down_row.
Qed.

Lemma down_signals_from rt l x :
  x ∈ rt_signals (foldl down rt l) -> x ∈ rt_signals rt
  \/ exists vm, vm ∈ l /\ x.1 = vm_pid vm /\ is_active (vm_status vm) = true /\ detach (vm_config vm) = false.
Proof.
  revert rt. induction l as [|vm l IH]; intros rt H; [by left|]. simpl in H.
  apply IH in H as [H|(v & Hv & ?)]; [|right; exists v; split; [by right|done]].
  apply down_signals in H as [H|H]; [by left|]. right. exists vm. split; [by left|done].
Qed.

(** C8.  Shutdown spares detached VMs: only processes of active, non-detached VMs are
    signalled, and the row of a detached or inactive VM is left as it is; an active,
    non-detached VM with a live process of its own is sent [SIGTERM] and its row is
    marked [Stopped]. *)
Theorem shutdown_spares_detached (rt : runtime) (vs : list VmState) :
  db_ok (rt_db rt) -> list_vms from_str (rt_db rt) = Ok vs ->
  let rt' := shutdown_sync from_str survives_term rt in
  (forall x, x ∈ rt_signals rt' -> x ∈ rt_signals rt
     \/ exists vm, vm ∈ vs /\ x.1 = vm_pid vm /\ is_active (vm_status vm) = true /\ detach (vm_config vm) = false)
  /\ forall r vm, r ∈ vms (rt_db rt) -> row_to_state from_str r = Ok vm ->
     (detach (vm_config vm) = true \/ is_active (vm_status vm) = false -> r ∈ vms (rt_db rt'))
     /\ (detach (vm_config vm) = false -> is_active (vm_status vm) = true -> vm_pid vm ∈ rt_alive rt ->
         (forall vm', vm' ∈ vs -> vm_pid vm' = vm_pid vm -> vm' = vm) ->
         (vm_pid vm, SIGTERM) ∈ rt_signals rt' /\ set_stopped r ∈ vms (rt_db rt')).
Proof.
  intros Hok Hl. unfold shutdown_sync. rewrite Hl. simpl. split; [apply down_signals_from|].
  intros r vm Hr Hvm. pose proof (list_vms_nodup from_str _ vs (ok_vm_ids _ Hok) Hl) as Hnd.
  destruct (list_vms_elem from_str _ vs r Hl Hr) as (vm' & Hin & E). rewrite Hvm in E. injection E as <-.
  apply list_elem_of_split in Hin as (pre & post & ->).
  rewrite fmap_app, fmap_cons in Hnd. apply NoDup_app in Hnd as (_ & Hpre & Hpost).
  apply NoDup_cons in Hpost as [Hpost _]. pose proof (row_to_state_id _ _ _ Hvm) as Hid.
  assert (Hpre' : v_id r ∉ vm_id <$> pre).
  { rewrite <- Hid. intros H. apply (Hpre _ H). by left. }
  rewrite Hid in Hpost. rewrite foldl_app. simpl foldl.
  destruct (down_loop rt pre) as (P1 & P2 & P3). specialize (P3 r Hr Hpre').
  set (rt1 := foldl down rt pre) in *. split.
  - intros Hskip. assert (Hsame : down rt1 vm = rt1).
    { unfold shutdown_one. destruct Hskip as [-> | ->]; [by rewrite orb_true_r|done]. }
    rewrite Hsame. by apply (proj2 (proj2 (down_loop rt1 post))).
  - intros Hd Ha Halive Hown.
    assert (Hpid : vm_pid vm ∉ vm_pid <$> pre).
    { intros (vm' & E & Hvm')%list_elem_of_fmap. assert (vm' = vm) as ->.
      { apply Hown; [apply elem_of_app; by left|done]. }
      apply Hpre'. rewrite <- Hid. by apply list_elem_of_fmap_2. }
    specialize (P2 _ Halive Hpid).
    assert (Hdown : down rt1 vm = db_drop (terminate_pid survives_term (vm_pid vm) rt1) (update_status (vm_id vm) Stopped)).
    { unfold shutdown_one, is_pid_alive. rewrite Ha, Hd, bool_decide_eq_true_2 by done. done. }
    destruct (down_loop (down rt1 vm) post) as (Q1 & _ & Q3). split.
    + apply Q1. rewrite Hdown. unfold db_drop, terminate_pid. simpl.
      destruct (survives_term _); simpl; apply elem_of_app; right; left.
    + apply Q3; [|done]. rewrite Hdown, rows_stopped, terminate_db. apply list_elem_of_omap. exists r.
      split; [done|]. by rewrite decide_True.
Qed.
End Shutdown.

(** ** Orphan files *)

Lemma app_nonempty_ne u s : u <> ""%string -> u +:+ s <> s.
Proof.
  intros Hu E. apply (f_equal String.length) in E. destruct u as [|c u]; [done|].
  change (String c u +:+ s) with (String c (u +:+ s)) in E. simpl in E.
  assert (H : String.length (u +:+ s) = (String.length u + String.length s)%nat); [|lia].
  clear. induction u as [|c u IH]; [done|]. change (String c u +:+ s) with (String c (u +:+ s)). simpl. by rewrite IH.
Qed.

Lemma strip_suffix_app u s : strip_suffix s (u +:+ s) = Some u.
Proof.
  induction u as [|c u IH].
  - change ((""%string) +:+ s) with s. destruct s; [done|]. cbn [strip_suffix]. by rewrite decide_True.
  - change (String c u +:+ s) with (String c (u +:+ s)). cbn [strip_suffix]. rewrite decide_False.
    + by rewrite IH.
    + by apply (app_nonempty_ne (String c u) s).
Qed.

Lemma strip_suffix_inv suf s u : strip_suffix suf s = Some u -> s = u +:+ suf.
Proof.
  revert u. induction s as [|c s IH]; intros u; cbn [strip_suffix].
  - case_decide as E; [|done]. intros [= <-]. by rewrite <- E.
  - case_decide as E; [intros [= <-]; by rewrite <- E|]. destruct (strip_suffix suf s) as [v|]; [|done].
    intros [= <-]. rewrite (IH v eq_refl). done.
Qed.

(** The last character of a text, [d] when empty. *)
Fixpoint last_char (d : Ascii.ascii) (s : string) : Ascii.ascii :=
  match s with EmptyString => d | String c r => last_char c r end.

Lemma last_char_app d u c e : last_char d (u +:+ String c e) = last_char c e.
Proof. revert d. induction u as [|x u IH]; intros d; [done|]. exact (IH x). Qed.

Lemma strip_suffix_other u c e c' e' :
  last_char c e <> last_char c' e' -> strip_suffix (String c' e') (u +:+ String c e) = None.
Proof.
  intros Hne. destruct (strip_suffix _ _) as [v|] eqn:E; [exfalso|done]. apply strip_suffix_inv in E.
  apply (f_equal (last_char "x")) in E. by rewrite !last_char_app in E.
Qed.

Lemma app_suffix_inj (u v s : string) : u +:+ s = v +:+ s -> u = v.
Proof. intros E. pose proof (strip_suffix_app u s) as H. rewrite E, strip_suffix_app in H. by injection H. Qed.

(** Orphan files: a file in the socket directory named after a VM id (ids have no
    dot) with one of the five suffixes the runtime uses is removed exactly when the
    id is not in the database. *)
Theorem orphan_iff_unknown (id ext : string) (known : gset string) :
  str_contains_char "." id = false -> ext ∈ ".net.sock"%string :: SOCK_EXTS ->
  sock_entry_is_orphan (id +:+ ext) known = true <-> id ∉ known.
Proof.
  intros Hdot Hext.
  assert (Hnet : ext <> ".net.sock"%string -> strip_suffix ".net.sock" (id +:+ ext) = None).
  { intros Hne. destruct (strip_suffix _ _) as [u|] eqn:E; [exfalso|done]. apply strip_suffix_inv in E.
    unfold SOCK_EXTS in Hext. repeat (apply elem_of_cons in Hext as [->|Hext]); [done| | | | |by apply not_elem_of_nil in Hext].
    - assert (E2 : u +:+ ".net.sock" = (u +:+ ".net") +:+ ".sock").
      { clear. induction u as [|c u IH]; [done|]. change (String c (u +:+ ".net.sock") = String c ((u +:+ ".net") +:+ ".sock")).
        by rewrite IH. }
      rewrite E2 in E. apply app_suffix_inj in E. subst id. rewrite str_contains_char_app in Hdot.
      by apply orb_false_iff in Hdot as [_ Hdot].
    - apply (f_equal (last_char "x")) in E. by rewrite !last_char_app in E.
    - apply (f_equal (last_char "x")) in E. by rewrite !last_char_app in E.
    - apply (f_equal (last_char "x")) in E. by rewrite !last_char_app in E. }
  unfold sock_entry_is_orphan. destruct (decide (ext = ".net.sock"%string)) as [->|Hne].
  { rewrite strip_suffix_app. by rewrite negb_true_iff, bool_decide_eq_false. }
  rewrite Hnet by done. unfold SOCK_EXTS in *. apply elem_of_cons in Hext as [->|Hext]; [done|].
  cbn [existsb].
  repeat (apply elem_of_cons in Hext as [->|Hext]); [..|by apply not_elem_of_nil in Hext].
  all: rewrite strip_suffix_app; repeat (rewrite strip_suffix_other by (vm_compute; discriminate)).
  all: rewrite ?orb_false_l, ?orb_false_r, negb_true_iff, bool_decide_eq_false; done.
Qed.

(** ** Samples: a live VM, a dead one and a stopped one flagged for removal *)

Module Sample.

Definition cfg (rm : bool) (stop : option N) : VmConfig :=
  mkVmConfig 1 512 None None DiskRaw None None [] None [] [] [] [] (NetEnabled []) false [] None None []
    (default_security true) (mkSecStatus "" LayerDisabled LayerDisabled) rm stop None None None false None None.

(** Two configurations, named by the text stored for them. *)
Definition sample_from (j : string) : option VmConfig :=
  if decide (j = "rm"%string) then Some (cfg true None)
  else if decide (j = "idle"%string) then Some (cfg false (Some 60%N))
  else Some (cfg false None).

Definition row (id : string) (pid : Z) (status config : string) : vm_row :=
  mkVmRow id None pid None ("/run/" +:+ id +:+ ".sock") status config (system_time_to_f64 0).

Definition rows : list vm_row :=
  [row "aa" 10 "running" "idle"; row "bb" 11 "running" "plain"; row "cc" 12 "stopped" "rm"].

Definition rt0 : runtime := mkRt (mkStateDb rows [] [] [] []) ∅ ∅ {[10]} [] [] [RootDir; Normal "run"] [RootDir; Normal "vms"].

Lemma rt0_ok : db_ok (rt_db rt0).
Proof.
  split; first [intros r Hr; by apply not_elem_of_nil in Hr | apply (bool_decide_unpack _); vm_compute; exact I].
Qed.

Definition listed : list VmState := match list_vms sample_from (rt_db rt0) with Ok vs => vs | Err _ => [] end.

Lemma recover_rows_witness :
  vms (rt_db (recover sample_from rt0).2) = [row "aa" 10 "running" "idle"; row "bb" 11 "stopped" "plain"]
  /\ rt_signals (recover sample_from rt0).2 = [] /\ rt_alive (recover sample_from rt0).2 = {[10]}.
Proof.
  destruct (recover_rows sample_from rt0 listed rt0_ok ltac:(vm_compute; reflexivity)) as (H1 & H2 & H3).
  split; [rewrite H1; vm_compute; reflexivity|]. split; [exact H2|exact H3].
Defined.

Lemma recovered_table_consistent_witness :
  (is_active Running = true -> 10 ∈ rt_alive (recover sample_from rt0).2)
  /\ (Running = Stopped -> auto_remove (cfg false (Some 60%N)) = false)
  /\ exists vm0, vm0 ∈ listed
     /\ (mkVm "aa" None 10 None "/run/aa.sock" Running (cfg false (Some 60%N)) 0 = vm0
         \/ (mkVm "aa" None 10 None "/run/aa.sock" Running (cfg false (Some 60%N)) 0 = vm_stopped vm0
             /\ can_transition_to (vm_status vm0) Stopped = true)).
Proof.
  apply (recovered_table_consistent sample_from rt0 listed (row "aa" 10 "running" "idle")
    (mkVm "aa" None 10 None "/run/aa.sock" Running (cfg false (Some 60%N)) 0) rt0_ok).
  - vm_compute. reflexivity.
  - assert (E : vms (rt_db (recover sample_from rt0).2) = [row "aa" 10 "running" "idle"; row "bb" 11 "stopped" "plain"])
      by (vm_compute; reflexivity).
    rewrite E. left.
  - vm_compute. reflexivity.
Defined.

Lemma sweep_rows_witness :
  let '(res, rt') := sweep (fun _ => Some "idle"%string) sample_from (fun _ => false) (100 * NANOS) rt0 in
  res = Ok (mkReport 1 0)
  /\ vms (rt_db rt') = omap (on_row sample_from (sweep_vm (fun _ => Some "idle"%string) (100 * NANOS))) rows.
Proof.
  apply (sweep_rows (fun _ => Some "idle"%string) sample_from (fun _ => false) (100 * NANOS) rt0 listed rt0_ok).
  vm_compute. reflexivity.
Defined.

Lemma shutdown_spares_detached_witness :
  (forall x, x ∈ rt_signals (shutdown_sync sample_from (fun _ => true) rt0) -> x ∈ rt_signals rt0
     \/ exists vm, vm ∈ listed /\ x.1 = vm_pid vm /\ is_active (vm_status vm) = true /\ detach (vm_config vm) = false)
  /\ forall r vm, r ∈ vms (rt_db rt0) -> row_to_state sample_from r = Ok vm ->
     (detach (vm_config vm) = true \/ is_active (vm_status vm) = false ->
        r ∈ vms (rt_db (shutdown_sync sample_from (fun _ => true) rt0)))
     /\ (detach (vm_config vm) = false -> is_active (vm_status vm) = true -> vm_pid vm ∈ rt_alive rt0 ->
         (forall vm', vm' ∈ listed -> vm_pid vm' = vm_pid vm -> vm' = vm) ->
         (vm_pid vm, SIGTERM) ∈ rt_signals (shutdown_sync sample_from (fun _ => true) rt0)
         /\ set_stopped r ∈ vms (rt_db (shutdown_sync sample_from (fun _ => true) rt0))).
Proof.
  apply (shutdown_spares_detached sample_from (fun _ => true) rt0 listed rt0_ok). vm_compute. reflexivity.
Defined.

Example stubborn_vm_killed : rt_signals (shutdown_sync sample_from (fun _ => true) rt0) = [(10, SIGTERM); (10, SIGKILL)].
Proof. vm_compute. reflexivity. Qed.

Lemma orphan_iff_unknown_witness :
  sock_entry_is_orphan "0a1b.net.sock" {["0a1b"%string]} = true <-> "0a1b"%string ∉ ({["0a1b"%string]} : gset string).
Proof.
  apply (orphan_iff_unknown "0a1b" ".net.sock" {["0a1b"%string]}); [vm_compute; reflexivity|left].
Defined.

End Sample.
