(* ===== verification/Volumes.v ===== *)
(** * Volumes

    [crates/bux/src/volumes.rs]: named volumes under one root directory, bind
    mounts, the checks on the host paths they expose and the virtio-fs tags they
    get.  The state is the database and the directories below the root.  Host
    paths are text, compared by their components as [Path] does; what the host's
    file system answers to [canonicalize] and [is_dir], the home directory and
    the clock are parameters. *)

From S2P Require Import Prelude Files Paths Ids Ports Boot StateTypes StateDb StateLookup.

(** ** Data *)

Inductive VolumeSource : Type := Bind (host_path : string) | Named (name : string).

Record VolumeMount : Type := mkMount {
  mo_source : VolumeSource;
  mo_guest_path : string;
  mo_read_only : bool;
  mo_allow_sensitive : bool
}.

Definition bind (host_path guest_path : string) : VolumeMount := mkMount (Bind host_path) guest_path false false.
Definition named (name guest_path : string) : VolumeMount := mkMount (Named name) guest_path false false.
Definition read_only (m : VolumeMount) (yes : bool) : VolumeMount :=
  mkMount (mo_source m) (mo_guest_path m) yes (mo_allow_sensitive m).
Definition allow_sensitive (m : VolumeMount) (yes : bool) : VolumeMount :=
  mkMount (mo_source m) (mo_guest_path m) (mo_read_only m) yes.

Record ResolvedVolume : Type := mkResolved {
  rv_tag : string;
  rv_host_path : string;
  rv_guest_path : string;
  rv_read_only : bool;
  rv_volume_id : option string;
  rv_volume_name : option string
}.

Definition to_virtiofs (r : ResolvedVolume) : VirtioFs :=
  mkVirtioFs (rv_tag r) (rv_host_path r) (rv_guest_path r) (rv_read_only r).

(** ** Checks *)

Definition is_volume_char (c : Ascii.ascii) : bool :=
  is_ascii_alphanumeric c || bool_decide (c = "-"%char) || bool_decide (c = "_"%char) || bool_decide (c = "."%char).

Definition validate_volume_name (name : string) : result Error () :=
  if bool_decide (name = ""%string) || (128 <? Z.of_nat (String.length name)) then Err InvalidConfig
  else if str_contains_char "/" name || str_contains_char "\" name || str_contains ".." name then Err InvalidConfig
  else if negb (str_forallb is_volume_char name) then Err InvalidConfig
  else Ok ().

Definition validate_guest_path (guest : string) : result Error () :=
  map_err (fun _ => InvalidConfig) (validate_guest_mount_path guest).

Definition path_is_or_under (p prefix : path) : bool :=
  if decide (p = prefix) then true else starts_with p prefix.

Definition sensitive_prefixes (home : option string) : list path :=
  components <$> ["/etc/shadow"; "/etc/gshadow"; "/etc/sudoers"; "/etc/ssh"; "/root/.ssh"; "/root/.gnupg"; "/root/.aws"]%string
  ++ match home with
     | Some h => (fun d => h +:+ "/" +:+ d) <$>
         [".ssh"; ".gnupg"; ".aws"; ".config/gcloud"; ".azure"; ".kube"; ".docker/config.json"]%string
     | None => []
     end.

Fixpoint sanitize (name : string) : string :=
  match name with
  | EmptyString => EmptyString
  | String c r => String (if is_ascii_alphanumeric c || bool_decide (c = "-"%char) || bool_decide (c = "_"%char)
                          then c else "_"%char) (sanitize r)
  end.

(** At most 32 characters; volume names are ASCII. *)
Definition sanitize_tag (name : string) : string := String.substring 0 32 (sanitize name).

(** [format!("vol{idx}")]: the decimal text of a list index. *)
Definition dec_nat (n : nat) : string := dec_aux (S n) (Z.of_nat n) "".

(** [str::eq_ignore_ascii_case]. *)
Definition eq_ignore_ascii_case (s t : string) : bool :=
  bool_decide (to_ascii_lowercase s = to_ascii_lowercase t).

Definition parse_bind_spec (spec : string) : result Error VolumeMount :=
  match split_once ":" spec with
  | None => Err InvalidConfig
  | Some (host, rest) =>
    match split_once ":" rest with
    | None => Ok (bind host rest)
    | Some (guest, opts) =>
      let ro := existsb (fun o => eq_ignore_ascii_case o "ro") (split_on "," opts) in
      Ok (read_only (bind host guest) ro)
    end
  end.

(** ** The manager *)

Record volumes_state : Type := mkVols { vo_db : state_db; vo_dirs : gset path }.

Definition volM (A : Type) : Type := volumes_state -> result Error A * volumes_state.

#[global] Instance volM_ret : MRet volM := fun A a s => (Ok a, s).
#[global] Instance volM_bind : MBind volM :=
  fun A B f m s => match m s with (Ok a, s') => f a s' | (Err e, s') => (Err e, s') end.

Definition lift {A} (r : result Error A) : volM A := fun s => (r, s).
Definition query {A} (q : state_db -> result Error A) : volM A := fun s => (q (vo_db s), s).
Definition execute (op : state_db -> result Error state_db) : volM () := fun s =>
  match op (vo_db s) with Ok d => (Ok (), mkVols d (vo_dirs s)) | Err e => (Err e, s) end.

Definition create_dir_all (p : path) : volM () := fun s => (Ok (), mkVols (vo_db s) ({[p]} ∪ vo_dirs s)).
Definition remove_dir_all (p : path) : volM () := fun s =>
  (Ok (), mkVols (vo_db s) (filter (fun q => starts_with q p = false) (vo_dirs s))).

Definition remove_dir_if_exists (p : path) : volM () := fun s =>
  if bool_decide (p ∈ vo_dirs s) then remove_dir_all p s else (Ok (), s).

Section Manager.
Context (root : string) (canonicalize : string -> option string) (is_dir : string -> bool).
Context (home : option string) (now : Z).

(** [self.root.join(name)] for a name without separator. *)
Definition volume_dir (name : string) : string := root +:+ "/" +:+ name.

Definition create (name : string) : volM VolumeInfo :=
  lift (validate_volume_name name) ≫= fun _ =>
  existing ← query (get_volume_by_name name);
  match existing with
  | Some v => mret v
  | None =>
    let p := volume_dir name in
    create_dir_all (components p) ≫= fun _ =>
    let info := mkVolume name name (default p (canonicalize p)) now in
    execute (insert_volume info) ≫= fun _ => mret info
  end.

Definition get (name : string) : volM VolumeInfo :=
  v ← query (get_volume_by_name name); lift (ok_or v NotFound).

Definition remove (name : string) : volM () :=
  info ← get name;
  n ← query (count_volume_attachments (vi_id info));
  if 0 <? n then lift (Err Busy) else
  execute (delete_volume (vi_id info)) ≫= fun _ =>
  remove_dir_if_exists (components (vi_path info)).

Definition validate_resolved_path (p : string) (sensitive : bool) : result Error string :=
  if decide (components p = [RootDir]) then Err InvalidConfig
  else if negb sensitive && existsb (path_is_or_under (components p)) (sensitive_prefixes home) then Err InvalidConfig
  else Ok p.

Definition validate_bind_path (p : string) (sensitive : bool) : result Error string :=
  if decide (p = ""%string) then Err InvalidConfig
  else if existsb (fun c => bool_decide (c = ParentDir)) (components p) then Err InvalidConfig
  else if negb (is_absolute (components p)) then Err InvalidConfig
  else if negb (is_dir p) then Err InvalidConfig
  else canon ← ok_or (canonicalize p) InvalidConfig; validate_resolved_path canon sensitive.

Definition resolve_one (idx : nat) (m : VolumeMount) : volM ResolvedVolume :=
  lift (validate_guest_path (mo_guest_path m)) ≫= fun _ =>
  match mo_source m with
  | Bind host_path =>
    p ← lift (validate_bind_path host_path (mo_allow_sensitive m));
    mret (mkResolved ("vol" +:+ dec_nat idx) p (mo_guest_path m) (mo_read_only m) None None)
  | Named name =>
    info ← create name;
    let tag := ("vol_" +:+ sanitize_tag name)%string in
    p ← lift (validate_resolved_path (vi_path info) (mo_allow_sensitive m));
    mret (mkResolved tag p (mo_guest_path m) (mo_read_only m) (Some (vi_id info)) (Some (vi_name info)))
  end.

Fixpoint resolve_from (idx : nat) (mounts : list VolumeMount) : volM (list ResolvedVolume) :=
  match mounts with
  | [] => mret []
  | m :: r => v ← resolve_one idx m; vs ← resolve_from (S idx) r; mret (v :: vs)
  end.

Definition resolve_mounts (mounts : list VolumeMount) : volM (list ResolvedVolume) := resolve_from 0 mounts.

Fixpoint link_vm (vm_id : string) (resolved : list ResolvedVolume) : volM () :=
  match resolved with
  | [] => mret ()
  | r :: rest =>
    match rv_volume_id r with
    | Some vol => execute (insert_vm_volume vm_id vol (rv_guest_path r)) ≫= fun _ => link_vm vm_id rest
    | None => link_vm vm_id rest
    end
  end.
End Manager.

(** ** Where a named volume lives *)

Lemma omap_app_str (l k : list string) : omap comp_of_part (l ++ k) = omap comp_of_part l ++ omap comp_of_part k.
Proof. apply omap_app. Qed.

(** An absolute root and a name without separator. *)
Lemma components_below root r0 name :
  root = String "/" r0 -> str_contains_char "/" name = false ->
  components (volume_dir root name) = components root ++ omap comp_of_part [name].
Proof.
  intros -> Hn. pose proof (split_on_app "/" (String "/" r0) name) as E.
  rewrite (split_on_whole "/" name Hn) in E. unfold volume_dir.
  change (components (String "/" r0 +:+ "/" +:+ name))
    with (RootDir :: omap comp_of_part (split_on "/" (String "/" r0 +:+ String "/" name))).
  rewrite E, omap_app_str. done.
Qed.

Lemma validate_volume_name_ok name u :
  validate_volume_name name = Ok u ->
  name <> ""%string /\ name <> ".."%string /\ str_contains_char "/" name = false /\ str_forallb is_volume_char name = true.
Proof.
  unfold validate_volume_name. destruct (bool_decide (name = "")) eqn:E1; [done|]. apply bool_decide_eq_false in E1.
  destruct (128 <? _); [done|]. destruct (str_contains_char "/" name) eqn:E2; [done|].
  destruct (str_contains_char "\" name); [done|]. destruct (str_contains ".." name) eqn:E3; [done|].
  destruct (str_forallb _ _) eqn:E4; [|done]. intros _. split_and!; [done| |done|done].
  intros ->. by vm_compute in E3.
Qed.

(** A named volume is its own directory: below an absolute root, every name the
    check accepts, except the single dot, names exactly one directory entry, and two
    such volumes with different names have directories neither of which contains
    the other. *)
Theorem named_volumes_disjoint (root r0 n m : string) :
  root = String "/" r0 ->
  validate_volume_name n = Ok () -> validate_volume_name m = Ok () -> n <> "."%string -> m <> "."%string -> n <> m ->
  components (volume_dir root n) = components root ++ [Normal n]
  /\ starts_with (components (volume_dir root n)) (components (volume_dir root m)) = false.
Proof.
  intros Hroot Hn Hm Hnd Hmd Hne.
  assert (Hc : forall x, validate_volume_name x = Ok () -> x <> "."%string ->
    components (volume_dir root x) = components root ++ [Normal x]).
  { intros x Hx Hd. apply validate_volume_name_ok in Hx as (H1 & H2 & H3 & _).
    rewrite (components_below root r0 x Hroot H3). simpl. unfold comp_of_part.
    by rewrite !decide_False by done. }
  split; [by apply Hc|]. rewrite (Hc n Hn Hnd), (Hc m Hm Hmd). apply not_true_iff_false.
  intros (q & E)%starts_with_inv. rewrite <- app_assoc in E. apply app_inv_head in E. injection E as E _. done.
Qed.

Lemma dot_is_root root r0 : root = String "/" r0 -> components (volume_dir root ".") = components root.
Proof. intros H. rewrite (components_below root r0 "." H eq_refl). simpl. by rewrite app_nil_r. Qed.

(** ** The manager's operations *)

Lemma vbind_Ok {A B} (m : volM A) (f : A -> volM B) s b s' :
  (m ≫= f) s = (Ok b, s') -> exists a s1, m s = (Ok a, s1) /\ f a s1 = (Ok b, s').
Proof. unfold mbind, volM_bind. destruct (m s) as [[a|e] s1]; [eauto|done]. Qed.

Lemma lift_Ok {A} (r : result Error A) s a s' : lift r s = (Ok a, s') -> r = Ok a /\ s' = s.
Proof. unfold lift. by intros [= -> ->]. Qed.

Lemma execute_Ok op s s' : execute op s = (Ok (), s') -> exists d, op (vo_db s) = Ok d /\ s' = mkVols d (vo_dirs s).
Proof. unfold execute. destruct (op (vo_db s)) as [d|e]; [|done]. intros [= <-]. eauto. Qed.

Lemma query_Ok {A} (q : state_db -> result Error A) s a s' : query q s = (Ok a, s') -> q (vo_db s) = Ok a /\ s' = s.
Proof. unfold query. by intros [= -> ->]. Qed.

Lemma inserted_volume_found v d d' t :
  insert_volume v d = Ok d' -> f64_to_system_time (system_time_to_f64 (vi_created_at v)) = Some t ->
  get_volume_by_name (vi_name v) d' = Ok (Some (mkVolume (vi_id v) (vi_name v) (vi_path v) t)).
Proof.
  unfold insert_volume. destruct (has o_id _ _); [done|]. destruct (has o_name _ _) eqn:E; [done|]. intros [= <-] Ht.
  apply has_false in E. unfold get_volume_by_name. simpl. rewrite find_app.
  destruct (List.find _ (volumes d)) as [r|] eqn:Ef.
  { apply find_Some_elem in Ef as [Hr E2]. apply bool_decide_eq_true in E2. exfalso. apply E. rewrite <- E2.
    by apply list_elem_of_fmap_2. }
  simpl. rewrite bool_decide_eq_true_2 by done. unfold row_to_volume, at_time. simpl. by rewrite Ht.
Qed.

Section ManagerLaws.
Context (root : string) (canonicalize : string -> option string) (is_dir : string -> bool).
Context (home : option string) (now : Z).

Abbreviation create' := (create root canonicalize now).

(** A volume that [create] returns is in the database. *)
Lemma created_found name s v s' t :
  create' name s = (Ok v, s') -> f64_to_system_time (system_time_to_f64 now) = Some t ->
  exists v', get_volume_by_name name (vo_db s') = Ok (Some v')
    /\ vi_id v' = vi_id v /\ vi_name v' = vi_name v /\ vi_path v' = vi_path v.
Proof.
  unfold create. intros H Ht. apply vbind_Ok in H as (u & s1 & Hv & H). apply lift_Ok in Hv as [Hv ->].
  apply vbind_Ok in H as (ex & s2 & Hq & H). apply query_Ok in Hq as [Hq ->].
  destruct ex as [v0|].
  - injection H as <- <-. exists v0. done.
  - apply vbind_Ok in H as (u1 & s3 & Hd & H). injection Hd as _ <-. cbv zeta in H.
    apply vbind_Ok in H as (u2 & s4 & He & H). destruct u2. apply execute_Ok in He as (d & Hd & ->).
    injection H as <- <-. eexists. split; [apply (inserted_volume_found _ _ _ _ Hd Ht)|]. done.
Qed.

(** Creating a volume is idempotent: creating it again returns the same id, name
    and path and changes nothing. *)
Theorem create_idempotent (name : string) (s s' : volumes_state) (v : VolumeInfo) (t : Z) :
  create' name s = (Ok v, s') -> f64_to_system_time (system_time_to_f64 now) = Some t ->
  exists v', create' name s' = (Ok v', s') /\ vi_id v' = vi_id v /\ vi_name v' = vi_name v /\ vi_path v' = vi_path v.
Proof.
  intros H Ht. destruct (created_found name s v s' t H Ht) as (v' & Hg & Hsame). exists v'. split; [|done].
  unfold create in H. apply vbind_Ok in H as (u & s1 & Hv & _). apply lift_Ok in Hv as [Hv _].
  unfold create, mbind, volM_bind, lift, query. rewrite Hv, Hg. done.
Qed.

(** Mounts do not expose what the checks deny: whatever host path a mount
    resolves to is not the root directory and, unless the mount asks for sensitive
    paths, lies under none of the credential prefixes; and its guest path passed
    the guest mount check. *)
Theorem resolved_mount_allowed (idx : nat) (m : VolumeMount) (s s' : volumes_state) (r : ResolvedVolume) :
  resolve_one root canonicalize is_dir home now idx m s = (Ok r, s') ->
  components (rv_host_path r) <> [RootDir]
  /\ (mo_allow_sensitive m = false -> forall d, d ∈ sensitive_prefixes home -> starts_with (components (rv_host_path r)) d = false)
  /\ validate_guest_mount_path (rv_guest_path r) = Ok () /\ rv_read_only r = mo_read_only m.
Proof.
  assert (Hpath : forall p q sens, validate_resolved_path home p sens = Ok q ->
    q = p /\ components p <> [RootDir]
    /\ (sens = false -> forall d, d ∈ sensitive_prefixes home -> starts_with (components p) d = false)).
  { intros p q sens. unfold validate_resolved_path. case_decide as E; [done|].
    destruct (negb sens && _) eqn:E2; [done|]. intros [= <-]. split_and!; [done..|]. intros -> d Hd. cbn [negb andb] in E2.
    destruct (starts_with (components p) d) eqn:E3; [|done]. exfalso.
    assert (existsb (path_is_or_under (components p)) (sensitive_prefixes home) = true); [|congruence].
    apply existsb_exists. exists d. split; [by apply list_elem_of_In|]. unfold path_is_or_under. by case_decide. }
  unfold resolve_one. intros H. apply vbind_Ok in H as (u & s1 & Hg & H). apply lift_Ok in Hg as [Hg ->].
  assert (Hguest : validate_guest_mount_path (mo_guest_path m) = Ok ()).
  { unfold validate_guest_path in Hg. destruct (validate_guest_mount_path _) as [[]|]; [done|discriminate]. }
  destruct (mo_source m) as [hp|name].
  - apply vbind_Ok in H as (p & s2 & Hb & H). apply lift_Ok in Hb as [Hb ->]. injection H as <- <-. simpl.
    unfold validate_bind_path in Hb. repeat (case_match; [done|]). apply bind_Ok_inv in Hb as (c & _ & Hb).
    by apply Hpath in Hb as (-> & Hr & Hs).
  - apply vbind_Ok in H as (info & s2 & _ & H). cbv zeta in H. apply vbind_Ok in H as (p & s3 & Hb & H).
    apply lift_Ok in Hb as [Hb ->]. injection H as <- <-. simpl. by apply Hpath in Hb as (-> & Hr & Hs).
Qed.

(** Removal respects attachments: while a VM is attached, [remove] answers [Busy]
    and changes nothing; when it succeeds, the volume is gone from the database and
    its directory from the disk, and every other volume row stays. *)
Theorem remove_volume_safe (name : string) (s s' : volumes_state) (res : result Error ()) (info : VolumeInfo) :
  db_ok (vo_db s) -> get_volume_by_name name (vo_db s) = Ok (Some info) ->
  remove name s = (res, s') ->
  match res with
  | Ok _ => get_volume_by_name name (vo_db s') = Ok None
            /\ components (vi_path info) ∉ vo_dirs s'
            /\ (forall r, r ∈ volumes (vo_db s) -> o_name r <> name -> r ∈ volumes (vo_db s'))
            /\ (forall a, a ∈ vm_volumes (vo_db s) -> a_volume a <> vi_id info)
  | Err e => s' = s /\ e = Busy /\ exists a, a ∈ vm_volumes (vo_db s) /\ a_volume a = vi_id info
  end.
Proof.
  intros Hok Hg H. unfold remove, get, query, lift, mbind, volM_bind in H. rewrite Hg in H. simpl in H.
  assert (Hrow : exists r, r ∈ volumes (vo_db s) /\ o_name r = name /\ o_id r = vi_id info).
  { unfold get_volume_by_name in Hg. destruct (List.find _ _) as [r|] eqn:Ef; [|done].
    apply find_Some_elem in Ef as [Hr E]. apply bool_decide_eq_true in E. exists r. split_and!; [done..|].
    apply bind_Ok_inv in Hg as (v & Hv & Hg). injection Hg as <-. unfold row_to_volume in Hv.
    apply bind_Ok_inv in Hv as (t & _ & Hv). by injection Hv as <-. }
  destruct Hrow as (r0 & Hr0 & Hname & Hid).
  unfold count_volume_attachments in H. destruct (0 <? zlen _) eqn:Ec.
  - injection H as <- <-. split_and!; [done..|]. apply Z.ltb_lt in Ec.
    by apply attachments_pos.
  - assert (Hnone : forall a, a ∈ vm_volumes (vo_db s) -> a_volume a <> vi_id info).
    { intros a Ha E. apply Z.ltb_ge in Ec.
      assert (0 < zlen (List.filter (fun r => bool_decide (a_volume r = vi_id info)) (vm_volumes (vo_db s)))); [|lia].
      apply attachments_pos. eauto. }
    assert (Hdel : delete_volume (vi_id info) (vo_db s) = Ok (with_volumes (vo_db s)
      (List.filter (fun r => negb (bool_decide (o_id r = vi_id info))) (volumes (vo_db s))))).
    { unfold delete_volume. destruct (has a_volume _ _) eqn:E; [|by rewrite andb_false_r].
      apply has_true, list_elem_of_fmap in E as (a & E & Ha). by apply Hnone in Ha. }
    unfold execute in H. rewrite Hdel in H. cbn [vo_db vo_dirs] in H.
    set (d1 := with_volumes _ _) in H.
    assert (Hs' : res = Ok () /\ vo_db s' = d1 /\ components (vi_path info) ∉ vo_dirs s').
    { unfold remove_dir_if_exists, remove_dir_all in H. simpl in H. case_bool_decide; injection H as <- <-; simpl.
      - split_and!; [done..|]. rewrite elem_of_filter. intros [E _].
        rewrite (proj2 (starts_with_inv _ _)) in E; [done|]. exists []. by rewrite app_nil_r.
      - done. }
    destruct Hs' as (-> & -> & Hdir). split_and!; [|done| |done].
    + unfold get_volume_by_name, d1. simpl. destruct (List.find _ _) as [r|] eqn:Ef; [exfalso|done].
      apply find_Some_elem in Ef as [Hr E]. apply bool_decide_eq_true in E.
      apply elem_of_filter_bool in Hr as [Hr Hne]. apply negb_true_iff, bool_decide_eq_false in Hne.
      apply Hne. rewrite <- Hid. f_equal.
      apply (NoDup_fmap_elem o_name (volumes (vo_db s))); [apply Hok|done..|]. by rewrite E, Hname.
    + intros r Hr Hne. unfold d1. simpl. apply elem_of_filter_bool. split; [done|].
      apply negb_true_iff, bool_decide_eq_false. intros E. apply Hne. rewrite <- Hname. f_equal.
      apply (NoDup_fmap_elem o_id (volumes (vo_db s))); [apply Hok|done..|]. by rewrite E, Hid.
Qed.
(** The volume named with a single dot is the whole root: the check accepts the
    name, the directory it names is the root of all volumes, and removing that
    volume deletes every volume's files. *)
Theorem dot_volume_removes_all (r0 : string) (s s1 s2 : volumes_state) (info : VolumeInfo) (t : Z) :
  root = String "/" r0 -> canonicalize (volume_dir root ".") = Some root ->
  get_volume_by_name "." (vo_db s) = Ok None -> f64_to_system_time (system_time_to_f64 now) = Some t ->
  create' "." s = (Ok info, s1) -> remove "." s1 = (Ok (), s2) ->
  validate_volume_name "." = Ok () /\ forall p, p ∈ vo_dirs s2 -> starts_with p (components root) = false.
Proof.
  clear is_dir home. intros Hroot Hcanon Hnone Ht Hc Hr. split; [done|].
  destruct (created_found "." s info s1 t Hc Ht) as (v' & Hg & _ & _ & Hp).
  assert (Hs1 : vi_path info = root /\ components root ∈ vo_dirs s1).
  { unfold create, mbind, volM_bind, lift, query in Hc. rewrite Hnone in Hc. simpl in Hc.
    unfold execute in Hc. rewrite Hcanon in Hc. simpl in Hc. destruct (insert_volume _ _) as [d|]; [|done].
    injection Hc as <- <-. simpl. split; [done|]. rewrite (dot_is_root root r0 Hroot). set_solver. }
  destruct Hs1 as [Hpath Hin]. rewrite Hpath in Hp.
  unfold remove, get, query, lift, mbind, volM_bind in Hr. rewrite Hg in Hr. simpl in Hr. case_match; [done|].
  unfold execute in Hr. destruct (delete_volume _ _) as [d|]; [|done].
  unfold remove_dir_if_exists, remove_dir_all in Hr. simpl in Hr. rewrite Hp, bool_decide_eq_true_2 in Hr by done.
  injection Hr as <-. simpl. intros p Hp'. by apply elem_of_filter in Hp' as [Hp' _].
Qed.

(** ** Tags *)

Definition tag_of (idx : nat) (m : VolumeMount) : string :=
  match mo_source m with
  | Bind _ => "vol" +:+ dec_nat idx
  | Named name => "vol_" +:+ sanitize_tag name
  end.

Lemma resolve_one_tag idx m s r s' :
  resolve_one root canonicalize is_dir home now idx m s = (Ok r, s') -> rv_tag r = tag_of idx m.
Proof.
  unfold resolve_one, tag_of. intros H. apply vbind_Ok in H as (u & s1 & _ & H). destruct (mo_source m) as [hp|name].
  - apply vbind_Ok in H as (p & s2 & _ & H). by injection H as <- _.
  - apply vbind_Ok in H as (v & s2 & _ & H). apply vbind_Ok in H as (p & s3 & _ & H). by injection H as <- _.
Qed.

Lemma resolve_from_tags k ms s rs s' :
  resolve_from root canonicalize is_dir home now k ms s = (Ok rs, s') ->
  forall i r, rs !! i = Some r -> exists m, ms !! i = Some m /\ rv_tag r = tag_of (k + i) m.
Proof.
  revert k s rs. induction ms as [|m ms IH]; intros k s rs H i r Hi.
  { injection H as <- _. done. }
  apply vbind_Ok in H as (v & s1 & H1 & H). apply vbind_Ok in H as (vs & s2 & H2 & H). injection H as <- <-.
  destruct i as [|i]; simpl in Hi.
  - injection Hi as <-. exists m. split; [done|]. rewrite Nat.add_0_r. by eapply resolve_one_tag.
  - destruct (IH _ _ _ H2 i r Hi) as (m' & Hm & E). exists m'. split; [done|]. by rewrite E, <- Nat.add_succ_comm.
Qed.

Lemma pow10_gt n : Z.of_nat n < 10 ^ Z.of_nat (S n).
Proof.
  induction n as [|n IH]; [done|]. rewrite (Nat2Z.inj_succ (S n)), Z.pow_succ_r by lia.
  pose proof (Z.pow_pos_nonneg 10 (Z.of_nat (S n))). lia.
Qed.

Lemma dec_nat_val n : digits_val 0 (dec_nat n) = Some (Z.of_nat n).
Proof. unfold dec_nat. rewrite digits_val_dec; [done| |lia]. split; [lia|apply pow10_gt]. Qed.

Lemma dec_nat_inj n m : dec_nat n = dec_nat m -> n = m.
Proof. intros E. pose proof (dec_nat_val n) as H. rewrite E, dec_nat_val in H. injection H as H. lia. Qed.

Lemma dec_nat_no_underscore n : str_contains_char "_" (dec_nat n) = false.
Proof. apply digits_no_char; [|done]. apply dec_aux_digits; [lia|done]. Qed.

(** When tags collide: two mounts of one VM get the same virtio-fs tag only if
    both are named volumes whose sanitised, shortened names agree; bind mounts
    never collide with each other or with named volumes. *)
Theorem tags_collide_only_by_name (ms : list VolumeMount) (s s' : volumes_state) (rs : list ResolvedVolume)
    (i j : nat) (r q : ResolvedVolume) :
  resolve_mounts root canonicalize is_dir home now ms s = (Ok rs, s') ->
  rs !! i = Some r -> rs !! j = Some q -> i <> j -> rv_tag r = rv_tag q ->
  exists n m mi mj, ms !! i = Some mi /\ ms !! j = Some mj /\ mo_source mi = Named n /\ mo_source mj = Named m
    /\ sanitize_tag n = sanitize_tag m.
Proof.
  intros H Hi Hj Hne E. unfold resolve_mounts in H.
  destruct (resolve_from_tags _ _ _ _ _ H i r Hi) as (mi & Hmi & Ei).
  destruct (resolve_from_tags _ _ _ _ _ H j q Hj) as (mj & Hmj & Ej).
  rewrite Ei, Ej in E. simpl in E. unfold tag_of in E.
  assert (Hmix : forall k x, ("vol" +:+ dec_nat k)%string <> ("vol_" +:+ x)%string).
  { intros k x E'. pose proof (dec_nat_no_underscore k) as Hu.
    assert (E2 : dec_nat k = String "_" x) by exact (inj (String.app "vol") (dec_nat k) (String "_" x) E').
    by rewrite E2 in Hu. }
  destruct (mo_source mi) as [hi|n] eqn:Si, (mo_source mj) as [hj|m] eqn:Sj.
  - apply (inj (String.app "vol")) in E. apply dec_nat_inj in E. done.
  - by apply Hmix in E.
  - symmetry in E. by apply Hmix in E.
  - apply (inj (String.app "vol_")) in E. exists n, m, mi, mj. done.
Qed.
End ManagerLaws.

(** ** Samples *)

Module Sample.

Definition fresh : volumes_state := mkVols empty_db {[components "/data/volumes"]}.
Definition plain (p : string) : option string := if decide (p = "/data/volumes/."%string) then Some "/data/volumes"%string else Some p.
Definition t0 : Z := 1700000000 * NANOS.

Definition made (n : string) (s : volumes_state) : volumes_state := (create "/data/volumes" plain t0 n s).2.

Lemma named_volumes_disjoint_witness :
  components (volume_dir "/data/volumes" "db") = components "/data/volumes" ++ [Normal "db"]
  /\ starts_with (components (volume_dir "/data/volumes" "db")) (components (volume_dir "/data/volumes" "db2")) = false.
Proof.
  apply (named_volumes_disjoint "/data/volumes" "data/volumes" "db" "db2"); try (vm_compute; reflexivity); discriminate.
Defined.

Lemma create_idempotent_witness :
  exists v', create "/data/volumes" plain t0 "db" (made "db" fresh) = (Ok v', made "db" fresh)
    /\ vi_id v' = "db"%string /\ vi_name v' = "db"%string /\ vi_path v' = "/data/volumes/db"%string.
Proof.
  apply (create_idempotent "/data/volumes" plain t0 "db" fresh (made "db" fresh)
    (mkVolume "db" "db" "/data/volumes/db" t0) t0); vm_compute; reflexivity.
Defined.

Lemma resolved_mount_allowed_witness :
  components "/srv/www" <> [RootDir]
  /\ (mo_allow_sensitive (bind "/srv/www" "/www") = false -> forall d, d ∈ sensitive_prefixes (Some "/home/u"%string) ->
        starts_with (components "/srv/www") d = false)
  /\ validate_guest_mount_path "/www" = Ok () /\ false = mo_read_only (bind "/srv/www" "/www").
Proof.
  apply (resolved_mount_allowed "/data/volumes" plain (fun _ => true) (Some "/home/u"%string) t0 0
    (bind "/srv/www" "/www") fresh fresh (mkResolved "vol0" "/srv/www" "/www" false None None)).
  vm_compute. reflexivity.
Defined.

Lemma made_ok : db_ok (vo_db (made "db" fresh)).
Proof. apply (insert_volume_ok (mkVolume "db" "db" "/data/volumes/db" t0) empty_db); [vm_compute; reflexivity|apply empty_db_ok]. Qed.

Lemma remove_volume_safe_witness :
  get_volume_by_name "db" (vo_db (remove "db" (made "db" fresh)).2) = Ok None
  /\ components "/data/volumes/db" ∉ vo_dirs (remove "db" (made "db" fresh)).2
  /\ (forall r, r ∈ volumes (vo_db (made "db" fresh)) -> o_name r <> "db"%string ->
        r ∈ volumes (vo_db (remove "db" (made "db" fresh)).2))
  /\ (forall a, a ∈ vm_volumes (vo_db (made "db" fresh)) -> a_volume a <> "db"%string).
Proof.
  apply (remove_volume_safe "db" (made "db" fresh) (remove "db" (made "db" fresh)).2 (Ok ())
    (mkVolume "db" "db" "/data/volumes/db" t0) made_ok); vm_compute; reflexivity.
Defined.

Definition two : volumes_state := made "." (made "db" fresh).

Lemma dot_volume_removes_all_witness :
  validate_volume_name "." = Ok ()
  /\ forall p, p ∈ vo_dirs (remove "." two).2 -> starts_with p (components "/data/volumes") = false.
Proof.
  apply (dot_volume_removes_all "/data/volumes" plain t0 "data/volumes" (made "db" fresh) two (remove "." two).2
    (mkVolume "." "." "/data/volumes" t0) t0); vm_compute; reflexivity.
Defined.

Example db_was_there : bool_decide (components "/data/volumes/db" ∈ vo_dirs two) = true.
Proof. vm_compute. reflexivity. Qed.

Definition mounts : list VolumeMount := [named "a.b" "/x"; named "a_b" "/y"].
Definition resolved : result Error (list ResolvedVolume) * volumes_state :=
  resolve_mounts "/data/volumes" plain (fun _ => true) None t0 mounts fresh.

Lemma tags_collide_only_by_name_witness :
  exists n m mi mj, mounts !! 0%nat = Some mi /\ mounts !! 1%nat = Some mj /\ mo_source mi = Named n
    /\ mo_source mj = Named m /\ sanitize_tag n = sanitize_tag m.
Proof.
  apply (tags_collide_only_by_name "/data/volumes" plain (fun _ => true) None t0 mounts fresh resolved.2
    [mkResolved "vol_a_b" "/data/volumes/a.b" "/x" false (Some "a.b"%string) (Some "a.b"%string);
     mkResolved "vol_a_b" "/data/volumes/a_b" "/y" false (Some "a_b"%string) (Some "a_b"%string)] 0 1
    (mkResolved "vol_a_b" "/data/volumes/a.b" "/x" false (Some "a.b"%string) (Some "a.b"%string))
    (mkResolved "vol_a_b" "/data/volumes/a_b" "/y" false (Some "a_b"%string) (Some "a_b"%string)));
    try (vm_compute; reflexivity). discriminate.
Defined.

Example bind_spec_ro : parse_bind_spec "/srv:/www:RO,z" = Ok (read_only (bind "/srv" "/www") true).
Proof. vm_compute. reflexivity. Qed.

End Sample.
