(* ===== verification/ManagedGuest.v ===== *)
(** * The guest agent binary on the host

    [crates/bux/src/guest.rs]: the ELF checks on the guest agent's binary, where
    it is looked for ([crates/bux/src/util.rs]), and its cache key.  SHA-256,
    the host's [canonicalize] and the architecture of the build are parameters;
    files are a map from paths to bytes. *)

From S2P Require Import Prelude Files Paths Qcow2Format Ports Qcow2Image StateTypes.

Definition GUEST_EXEC_PATH : string := "/bux/bin/bux-guest".
Definition GUEST_RELATIVE_PATH : string := "bux/bin/bux-guest".
Definition ELF_MAGIC : list Z := [0x7f; 69; 76; 70].
Definition EM_X86_64 : Z := 0x3E.
Definition EM_AARCH64 : Z := 0xB7.
Definition PT_INTERP : Z := 3.
Definition IMAGE_INJECTION_MARGIN_BYTES : Z := 8 * 1024 * 1024.
Definition ELF_PROTOCOL_STAMP : list Z := str_bytes "bux-guest-protocol-v10".

Inductive arch : Type := X86_64 | Aarch64 | OtherArch.

Definition expected_machine (a : arch) : result Error Z :=
  match a with X86_64 => Ok EM_X86_64 | Aarch64 => Ok EM_AARCH64 | OtherArch => Err InvalidConfig end.

Definition linux_guest_target (a : arch) : string :=
  match a with
  | X86_64 => "x86_64-unknown-linux-musl"
  | Aarch64 => "aarch64-unknown-linux-musl"
  | OtherArch => "unknown-linux-musl"
  end.

Definition guest_binary_name (a : arch) : string := "bux-guest-" +:+ linux_guest_target a.

(** [uN::from_le_bytes(data\[off..off + n\])]; [None] is the slice panic. *)
Definition le_at (data : list Z) (off n : Z) : option Z :=
  if off + n <=? zlen data then Some (be_val (rev (slice data off n))) else None.

(** The loop over the program headers from [idx] on, [count] of them left. *)
Fixpoint any_interp (count : nat) (idx e_phoff e_phentsize : Z) (data : list Z) : option bool :=
  match count with
  | O => Some false
  | S count =>
    match checked_add e_phoff (Z.min (idx * e_phentsize) U64_MAX) with
    | None => Some false
    | Some offset =>
      match checked_add offset 4 with
      | None => Some false
      | Some end_ =>
        if zlen data <? end_ then Some false else
        p_type ← le_at data offset 4;
        if p_type =? PT_INTERP then Some true else any_interp count (idx + 1) e_phoff e_phentsize data
      end
    end
  end.

Definition has_pt_interp (data : list Z) : option bool :=
  if zlen data <? 64 then Some false else
  e_phoff ← le_at data 32 8;
  e_phentsize ← le_at data 54 2;
  e_phnum ← le_at data 56 2;
  if (e_phoff =? 0) || (e_phentsize =? 0) || (e_phnum =? 0) then Some false
  else any_interp (Z.to_nat e_phnum) 0 e_phoff e_phentsize data.

(** [data.windows(n).any(|w| w == needle)], [needle] not empty. *)
Fixpoint has_window (needle data : list Z) : bool :=
  match data with
  | [] => false
  | _ :: r => bool_decide (take (length needle) data = needle) || has_window needle r
  end.

Definition validate_guest_binary (a : arch) (data : list Z) : result Error () :=
  if zlen data <? 64 then Err InvalidConfig else
  if negb (bool_decide (take 4 data = ELF_MAGIC)) then Err InvalidConfig else
  if negb (bool_decide (data !! 4%nat = Some 2)) then Err InvalidConfig else
  if negb (bool_decide (data !! 5%nat = Some 1)) then Err InvalidConfig else
  expected ← expected_machine a;
  actual ← ok_or (le_at data 18 2) Panic;
  if negb (actual =? expected) then Err InvalidConfig else
  interp ← ok_or (has_pt_interp data) Panic;
  if (interp : bool) then Err InvalidConfig else
  if negb (has_window ELF_PROTOCOL_STAMP data) then Err InvalidConfig else
  Ok ().

(** ** util.rs and the search *)

Record ManagedGuestBinary : Type := mkGuest { mg_host_path : path; mg_cache_key : string; mg_size_bytes : Z }.

Section Resolve.
Context (a : arch) (sha256 : list Z -> list Z) (canonicalize : path -> option path) (is_symlink : path -> bool).

Definition real_exe (exe : path) : option path :=
  match canonicalize exe with
  | Some p => Some p
  | None => if is_symlink exe then None else Some exe
  end.

(** [Path::with_file_name]. *)
Definition with_file_name (p : path) (name : string) : path := pop p ++ [Normal name].

Definition sidecar_path (exe : path) (name : string) : option path :=
  p ← real_exe exe; Some (with_file_name p name).

(** [push_unique_path]. *)
Definition push_unique_path (paths : list path) (p : path) : list path :=
  if existsb (fun q => bool_decide (q = p)) paths then paths else paths ++ [p].

Definition candidate_paths_from (exe : option path) : list path :=
  match exe ≫= fun e => sidecar_path e (guest_binary_name a) with
  | Some sibling => push_unique_path [] sibling
  | None => []
  end.

Definition hex_digit (n : Z) : Ascii.ascii := ascii_of_byte (if n <? 10 then 48 + n else 87 + n).
Definition hex2 (b : Z) : string := String (hex_digit (b / 16)) (String (hex_digit (b mod 16)) EmptyString).

Definition short_hash (data : list Z) : string :=
  foldr (fun b acc => hex2 b +:+ acc) ""%string (take 8 (sha256 data)).

Definition from_path (σ : fs) (p : path) : result Error ManagedGuestBinary :=
  data ← ok_or (σ !! p) (Io EkNotFound);
  validate_guest_binary a data ≫= fun _ =>
  Ok (mkGuest p (short_hash data) (zlen data)).

(** The first candidate that passes; otherwise whether any existed. *)
Fixpoint first_valid (σ : fs) (invalid : bool) (paths : list path) : result Error ManagedGuestBinary :=
  match paths with
  | [] => Err (if invalid then InvalidConfig else NotFound)
  | p :: r =>
    match σ !! p with
    | None => first_valid σ invalid r
    | Some _ => match from_path σ p with
                | Ok g => Ok g
                | Err Panic => Err Panic
                | Err _ => first_valid σ true r
                end
    end
  end.

Definition resolve (σ : fs) (current_exe explicit : option path) : result Error ManagedGuestBinary :=
  match explicit with
  | Some p => match σ !! p with None => Err NotFound | Some _ => from_path σ p end
  | None => first_valid σ false (candidate_paths_from current_exe)
  end.
End Resolve.

Definition versioned_cache_key (g : ManagedGuestBinary) (base : string) : string :=
  base +:+ "-guest-" +:+ mg_cache_key g +:+ "-x".

Definition image_size_overhead_bytes (g : ManagedGuestBinary) : Z :=
  saturating_add (mg_size_bytes g) IMAGE_INJECTION_MARGIN_BYTES.

(** ** What the checks establish *)

Lemma le_at_total data off n : 0 <= off -> off + n <= zlen data -> exists v, le_at data off n = Some v.
Proof. intros Ho Hb. unfold le_at. rewrite (proj2 (Z.leb_le _ _)) by lia. eauto. Qed.

Lemma le_at_range data off n v : Forall is_byte data -> 0 <= n -> le_at data off n = Some v -> 0 <= v < 256 ^ n.
Proof.
  intros Hb Hn. unfold le_at. case_match; [|done]. intros [= <-].
  assert (Hf : Forall is_byte (rev (slice data off n))).
  { apply List.Forall_rev. unfold slice. by apply Forall_take, Forall_drop. }
  pose proof (be_val_bound _ Hf) as [H1 H2]. split; [done|]. eapply Z.lt_le_trans; [exact H2|].
  apply Z.pow_le_mono_r; [lia|]. unfold zlen. rewrite length_rev. unfold slice. rewrite length_take. lia.
Qed.

(** No program header that lies within the file, from [idx] on, is an
    interpreter request. *)
Lemma any_interp_spec data e_phoff e_phentsize count : forall idx,
  0 <= idx -> 0 <= e_phoff < 2 ^ 64 -> 0 < e_phentsize < 2 ^ 16 -> idx + Z.of_nat count <= 2 ^ 16 -> zlen data < 2 ^ 63 ->
  exists b, any_interp count idx e_phoff e_phentsize data = Some b
    /\ (b = false -> forall i, idx <= i < idx + Z.of_nat count -> e_phoff + i * e_phentsize + 4 <= zlen data ->
          le_at data (e_phoff + i * e_phentsize) 4 <> Some PT_INTERP).
Proof.
  induction count as [|count IH]; intros idx Hi Ho He Hc Hl.
  { exists false. split; [done|]. intros _ i Hi'. simpl in Hi'. lia. }
  cbn [any_interp]. assert (Hm : 0 <= idx * e_phentsize <= 2 ^ 32) by nia.
  rewrite Z.min_l by (unfold U64_MAX; lia). unfold checked_add.
  assert (Hlate : zlen data < e_phoff + idx * e_phentsize + 4 ->
    exists b, Some false = Some b /\ (b = false -> forall i, idx <= i < idx + Z.of_nat (S count) ->
      e_phoff + i * e_phentsize + 4 <= zlen data -> le_at data (e_phoff + i * e_phentsize) 4 <> Some PT_INTERP)).
  { intros Hb. exists false. split; [done|]. intros _ i Hi' Hin. nia. }
  destruct (e_phoff + idx * e_phentsize <? 2 ^ 64) eqn:E1; zify_bool; [|apply Hlate; lia].
  destruct (e_phoff + idx * e_phentsize + 4 <? 2 ^ 64) eqn:E2; zify_bool; [|apply Hlate; lia].
  destruct (zlen data <? e_phoff + idx * e_phentsize + 4) eqn:E3; zify_bool; [by apply Hlate|].
  destruct (le_at_total data (e_phoff + idx * e_phentsize) 4) as [v Hv]; [lia..|].
  rewrite Hv. cbn [mbind option_bind]. destruct (v =? PT_INTERP) eqn:E4; zify_bool.
  { exists true. split; [done|]. intros [=]. }
  destruct (IH (idx + 1)) as (b & -> & Hb); [lia..|]. exists b. split; [done|]. intros Hf i Hi' Hin.
  destruct (decide (i = idx)) as [->|Hne]; [rewrite Hv; congruence|]. apply Hb; [done|lia|done].
Qed.

(** Checking a guest binary never panics, whatever the bytes, and what it
    accepts is a 64-bit little-endian ELF file for the host's architecture that
    carries the protocol stamp and asks for no interpreter: no program header
    that lies within the file, in a table with entries of any size, has that
    type. *)
Theorem guest_binary_checked (a : arch) (data : list Z) :
  Forall is_byte data -> zlen data < 2 ^ 63 ->
  validate_guest_binary a data <> Err Panic
  /\ (validate_guest_binary a data = Ok () ->
      take 4 data = ELF_MAGIC /\ data !! 4%nat = Some 2 /\ data !! 5%nat = Some 1
      /\ (exists m, expected_machine a = Ok m /\ le_at data 18 2 = Some m)
      /\ has_window ELF_PROTOCOL_STAMP data = true
      /\ forall off size num i, le_at data 32 8 = Some off -> le_at data 54 2 = Some size -> le_at data 56 2 = Some num ->
           0 < off -> 0 < size -> 0 <= i < num -> off + i * size + 4 <= zlen data ->
           le_at data (off + i * size) 4 <> Some PT_INTERP).
Proof.
  intros Hb Hl. unfold validate_guest_binary. destruct (zlen data <? 64) eqn:E0; zify_bool; [done|].
  destruct (bool_decide (take 4 data = _)) eqn:E1; [|done]. apply bool_decide_eq_true in E1.
  destruct (bool_decide (data !! 4%nat = _)) eqn:E2; [|done]. apply bool_decide_eq_true in E2.
  destruct (bool_decide (data !! 5%nat = _)) eqn:E3; [|done]. apply bool_decide_eq_true in E3. cbn [negb].
  destruct (expected_machine a) as [m|e] eqn:Em; [|destruct a; simpl in Em; try done; by injection Em as <-].
  cbn [mbind result_bind]. destruct (le_at_total data 18 2) as [v Hv]; [lia..|]. rewrite Hv. cbn [ok_or mbind result_bind].
  destruct (v =? m) eqn:E4; zify_bool; [|done]. cbn [negb].
  assert (Hi : exists b, has_pt_interp data = Some b /\ (b = false ->
    forall off size num i, le_at data 32 8 = Some off -> le_at data 54 2 = Some size -> le_at data 56 2 = Some num ->
      0 < off -> 0 < size -> 0 <= i < num -> off + i * size + 4 <= zlen data -> le_at data (off + i * size) 4 <> Some PT_INTERP)).
  { unfold has_pt_interp. rewrite (proj2 (Z.ltb_ge _ _)) by lia.
    destruct (le_at_total data 32 8) as [off Hoff]; [lia..|]. destruct (le_at_total data 54 2) as [size Hsize]; [lia..|].
    destruct (le_at_total data 56 2) as [num Hnum]; [lia..|]. rewrite Hoff, Hsize, Hnum. cbn [mbind option_bind].
    pose proof (le_at_range data 32 8 off Hb ltac:(lia) Hoff). pose proof (le_at_range data 54 2 size Hb ltac:(lia) Hsize).
    pose proof (le_at_range data 56 2 num Hb ltac:(lia) Hnum). change (256 ^ 8) with (2 ^ 64) in *. change (256 ^ 2) with (2 ^ 16) in *.
    destruct ((off =? 0) || (size =? 0) || (num =? 0)) eqn:Ez.
    - exists false. split; [done|]. intros _ o' s' n' i [= <-] [= <-] [= <-] ? ? ?. lia.
    - zify_bool. destruct (any_interp_spec data off size (Z.to_nat num) 0) as (b & Hany & Hspec); [lia..|].
      exists b. split; [done|]. intros Hf o' s' n' i [= <-] [= <-] [= <-] ? ? ? ?. apply Hspec; [done|lia|done]. }
  destruct Hi as ([|] & -> & Hspec); cbn [ok_or mbind result_bind]; [done|].
  destruct (has_window _ _) eqn:Ew; [|done]. cbn [negb]. split; [done|]. intros _. subst v.
  split_and!; [done..|by exists m|done|by apply Hspec].
Qed.

(** A minimal accepted binary: header, stamp, one loadable segment. *)
Definition sample_elf : list Z :=
  ELF_MAGIC ++ [2; 1; 1] ++ zeros 9 ++ [2; 0; 0x3E; 0] ++ zeros 12 ++ [64; 0; 0; 0; 0; 0; 0; 0]
  ++ zeros 14 ++ [56; 0; 1; 0] ++ zeros 6 ++ [1; 0; 0; 0] ++ zeros 52 ++ ELF_PROTOCOL_STAMP.

Lemma guest_binary_checked_witness :
  validate_guest_binary X86_64 sample_elf <> Err Panic
  /\ (validate_guest_binary X86_64 sample_elf = Ok () ->
      take 4 sample_elf = ELF_MAGIC /\ sample_elf !! 4%nat = Some 2 /\ sample_elf !! 5%nat = Some 1
      /\ (exists m, expected_machine X86_64 = Ok m /\ le_at sample_elf 18 2 = Some m)
      /\ has_window ELF_PROTOCOL_STAMP sample_elf = true
      /\ forall off size num i, le_at sample_elf 32 8 = Some off -> le_at sample_elf 54 2 = Some size -> le_at sample_elf 56 2 = Some num ->
           0 < off -> 0 < size -> 0 <= i < num -> off + i * size + 4 <= zlen sample_elf ->
           le_at sample_elf (off + i * size) 4 <> Some PT_INTERP).
Proof.
  apply (guest_binary_checked X86_64 sample_elf); [|vm_compute; reflexivity].
  apply Forall_forall. intros x Hx. assert (H : forallb (fun b => (0 <=? b) && (b <? 256)) sample_elf = true) by (vm_compute; reflexivity).
  rewrite forallb_forall in H. specialize (H x (proj1 (list_elem_of_In _ _) Hx)). cbv beta in H. zify_bool. done.
Defined.

Example sample_elf_accepted :
  validate_guest_binary X86_64 sample_elf = Ok () /\ validate_guest_binary Aarch64 sample_elf = Err InvalidConfig
  /\ validate_guest_binary X86_64 (<[64%nat := 3]> sample_elf) = Err InvalidConfig.
Proof. vm_compute. repeat split. Qed.
