(* ===== verification/Disk.v ===== *)
(** * The disk manager

    [crates/bux/src/disk/mod.rs]: shared base images and per-VM overlays in two
    directories.  The image files are the map from paths to bytes of
    [Qcow2Image]; paths that are stored as text (in image headers and in the
    database) are kept as text.  The host's [canonicalize], the existence of
    directories, and libext2fs (size estimate, image creation, file injection)
    are parameters; a failing libext2fs call may leave any bytes behind. *)

From S2P Require Import Prelude Files Paths Qcow2Format Qcow2Image Qcow2Chain Qcow2Flatten Qcow2FlattenCorrect Qcow2Overlay Ids Ports StateTypes StateDb StateLookup Lifecycle LifecycleCorrect ManagedGuest.

Record DiskManager : Type := mkDisk { bases_dir : string; vms_dir : string }.

(** [Path::join] on text: an absolute name replaces the directory. *)
Definition join_text (dir name : string) : string :=
  match name with
  | String "/" _ => name
  | _ => dir +:+ "/" +:+ name
  end.

Definition open (data_dir : string) : DiskManager :=
  let base := join_text data_dir "disks" in mkDisk (join_text base "bases") (join_text base "vms").

Definition QCOW2_MAGIC : list Z := [81; 70; 73; 0xfb].

Definition to_backing_format (f : DiskFormat) : BackingFormat :=
  match f with DiskRaw => Qcow2Format.Raw | DiskQcow2 => Qcow2Format.Qcow2 end.

Definition base_path (dm : DiskManager) (digest : string) : string := join_text (bases_dir dm) (digest +:+ ".raw").
Definition vm_disk_text (dm : DiskManager) (vm_id : string) : string := join_text (vms_dir dm) (vm_id +:+ ".qcow2").

(** [fs::rename] of a regular file over nothing or another regular file. *)
Definition rename (σ : fs) (a b : path) : result Error fs :=
  f ← ok_or (σ !! a) (StateTypes.Io EkNotFound); Ok (<[b := f]> (base.delete a σ)).

Definition sniff_backing (σ : fs) (abs_base : string) (caller_format : DiskFormat) : result Error (Z * DiskFormat) :=
  f ← ok_or (σ !! components abs_base) (StateTypes.Io EkNotFound);
  let is_qcow2 := match read_exact_at f 0 4 with
                  | Some magic => bool_decide (magic = QCOW2_MAGIC)
                  | None => false
                  end in
  if is_qcow2 then
    header ← map_err StateTypes.Qcow2 (read_header σ (components abs_base));
    Ok (virtual_size header, DiskQcow2)
  else Ok (zlen f, caller_format).

Section Manager.
Context (canonicalize : string -> result io_kind string) (dir_exists : path -> bool).

Definition overlay_params (base : string) (backing_format : DiskFormat) (σ : fs) : result Error (string * Z * DiskFormat) :=
  match canonicalize base with
  | Err k => Err (StateTypes.Io k)
  | Ok abs_base => '(vs, fmt) ← sniff_backing σ abs_base backing_format; Ok (abs_base, vs, fmt)
  end.

(** The new image moves from its temporary name to its own. *)
Definition publish (tmp p : string) (σ : fs) (created : result qerror fs) : result Error string * fs :=
  match created with
  | Err e => (Err (StateTypes.Qcow2 e), σ)
  | Ok σ1 => match rename σ1 (components tmp) (components p) with
             | Err e => (Err e, σ1)
             | Ok σ2 => (Ok p, σ2)
             end
  end.

Definition create_overlay (dm : DiskManager) (base : string) (backing_format : DiskFormat) (vm_id : string) (σ : fs)
    : result Error string * fs :=
  match overlay_params base backing_format σ with
  | Err e => (Err e, σ)
  | Ok (abs_base, vs, fmt) =>
    let tmp := join_text (vms_dir dm) (vm_id +:+ ".qcow2.tmp") in
    publish tmp (vm_disk_text dm vm_id) σ
      (Qcow2Image.create_overlay σ (components tmp) abs_base (to_backing_format fmt) vs)
  end.

(** One unit of fuel per layer of the chain. *)
Definition flatten_vm_disk (fuel : nat) (dm : DiskManager) (vm_id : string) (dst : path) (σ : fs) : result Error fs :=
  map_err StateTypes.Qcow2 (flatten fuel σ (components (vm_disk_text dm vm_id)) dst).

Definition remove_file_if_exists (p : path) (σ : fs) : fs := base.delete p σ.
Definition remove_vm_overlay (dm : DiskManager) (vm_id : string) (σ : fs) : fs :=
  remove_file_if_exists (components (vm_disk_text dm vm_id)) σ.
Definition remove_base (dm : DiskManager) (digest : string) (σ : fs) : fs :=
  remove_file_if_exists (components (base_path dm digest)) σ.

(** The directory's names, in no particular order. *)
Definition names_in (dir : path) (σ : fs) : list string :=
  omap (fun p => if decide (pop p = dir) then file_name p else None) (elements (dom σ)).

Definition list_bases (dm : DiskManager) (σ : fs) : list string :=
  omap (strip_suffix ".raw") (names_in (components (bases_dir dm)) σ).

(** Only regular files of the directory count; the sum wraps at 64 bits. *)
Definition dir_size (dir : path) (σ : fs) : Z :=
  map_fold (fun p f acc => if decide (pop p = dir) then u64 (acc + zlen f) else acc) 0 σ.

Definition disk_usage (dm : DiskManager) (σ : fs) : Z :=
  u64 (dir_size (components (bases_dir dm)) σ + dir_size (components (vms_dir dm)) σ).

Definition readonly_step (paths : list path) (backing : path) : list path :=
  let paths := match parent backing with
               | Some d => if dir_exists d then push_unique_path paths d else paths
               | None => paths
               end in
  push_unique_path paths backing.

Definition readonly_disk_paths (σ : fs) (p : path) : list path :=
  foldl readonly_step [] (read_backing_chain σ p).

(** *** Base images *)

Context (estimate_image_size : string -> result Error Z).
(** The outcome, and what the output file holds afterwards, if it was created. *)
Context (create_from_dir : string -> Z -> result Error () * option (list Z)).
Context (inject_file : list Z -> list Z -> result Error () * list Z).

Definition put (p : path) (o : option (list Z)) (σ : fs) : fs := match o with Some f => <[p := f]> σ | None => σ end.

Definition create_base (dm : DiskManager) (rootfs digest : string) (σ : fs) : result Error string * fs :=
  let p := base_path dm digest in
  match σ !! components p with
  | Some _ => (Ok p, σ)
  | None =>
    match estimate_image_size rootfs with
    | Err e => (Err e, σ)
    | Ok size =>
      let tmp := components (join_text (bases_dir dm) (digest +:+ ".raw.tmp")) in
      let '(r, out) := create_from_dir rootfs size in
      let σ := put tmp out σ in
      match r with
      | Err e => (Err e, σ)
      | Ok _ => match rename σ tmp (components p) with Err e => (Err e, σ) | Ok σ => (Ok p, σ) end
      end
    end
  end.

(** [inject_into_disk]: the staged copy next to the image is removed again on
    every way out. *)
Definition inject_into_disk (g : ManagedGuestBinary) (image : path) (σ : fs) : result Error () * fs :=
  match σ !! mg_host_path g, σ !! image with
  | Some elf, Some img =>
    let '(r, img') := inject_file img elf in
    (r, base.delete (with_extension image "guest-inject") (<[image := img']> σ))
  | None, _ => (Err (StateTypes.Io EkNotFound), base.delete (with_extension image "guest-inject") σ)
  | _, None => (Err E2fs, base.delete (with_extension image "guest-inject") σ)
  end.

Definition create_managed_base (dm : DiskManager) (guest : result Error ManagedGuestBinary) (rootfs digest : string) (σ : fs)
    : result Error string * fs :=
  match guest with
  | Err e => (Err e, σ)
  | Ok g =>
    let versioned := versioned_cache_key g digest in
    let p := base_path dm versioned in
    match σ !! components p with
    | Some _ => (Ok p, σ)
    | None =>
      match estimate_image_size rootfs with
      | Err e => (Err e, σ)
      | Ok size =>
        let size := saturating_add size (image_size_overhead_bytes g) in
        let tmp := components (join_text (bases_dir dm) (versioned +:+ ".raw.tmp")) in
        let '(r, out) := create_from_dir rootfs size in
        let σ := put tmp out σ in
        let '(r, σ) := match r with Err e => (Err e, σ) | Ok _ => inject_into_disk g tmp σ end in
        match r with
        | Err e => (Err e, base.delete tmp σ)
        | Ok _ => match rename σ tmp (components p) with
                  | Err e => (Err e, base.delete tmp σ)
                  | Ok σ => (Ok p, σ)
                  end
        end
      end
    end
  end.
End Manager.

(** ** Overlays *)

#[local] Opaque Qcow2Image.create_overlay read_header_bytes open_chain.

Section Overlays.
Context (canonicalize : string -> result io_kind string) (dm : DiskManager).

Definition overlay_at (vm_id : string) : path := components (vm_disk_text dm vm_id).
Definition overlay_tmp (vm_id : string) : path := components (join_text (vms_dir dm) (vm_id +:+ ".qcow2.tmp")).

(** A path text that fits an image header. *)
Definition header_text (s : string) : Prop :=
  zlen (str_bytes s) <= MAX_BACKING /\ utf8_valid (str_bytes s) = true /\ s <> ""%string.

Lemma create_overlay_ok base fmt id (σ : fs) abs vs fmt' fuel rest :
  overlay_params canonicalize base fmt σ = Ok (abs, vs, fmt') -> 0 <= vs <= MAX_OVERLAY_SIZE -> header_text abs ->
  open_chain fuel σ (components abs) = Ok rest -> overlay_at id ∉ (layer_file <$> rest) -> overlay_tmp id ∉ (layer_file <$> rest) ->
  exists σ' l1, create_overlay canonicalize dm base fmt id σ = (Ok (vm_disk_text dm id), σ')
    /\ open_chain (S fuel) σ' (overlay_at id) = Ok (LQcow2 (overlay_at id) CLUSTER_BITS vs l1 :: rest)
    /\ (forall v cs, guest_cluster σ' (LQcow2 (overlay_at id) CLUSTER_BITS vs l1 :: rest) v cs = guest_cluster σ rest v cs)
    /\ (forall q, q <> overlay_at id -> q <> overlay_tmp id -> σ' !! q = σ !! q)
    /\ read_header σ' (overlay_at id) = Ok (overlay_header abs (to_backing_format fmt') vs).
Proof.
  intros Hp Hvs (Hb & Hu & Hne) Hopen Hat Htmp.
  destruct (create_overlay_spec σ (overlay_tmp id) abs (to_backing_format fmt') vs Hb) as (buf & Hc & L).
  destruct (overlay_header_roundtrip_lemma σ (overlay_tmp id) abs (to_backing_format fmt') vs) as (σ0 & Hc0 & Hh & _); [by change MAX_OVERLAY_SIZE with (2 ^ 42) in Hvs; lia|done..|].
  set (σ' := <[overlay_at id := buf]> (base.delete (overlay_tmp id) (<[overlay_tmp id := buf]> σ)) : fs).
  assert (Hframe : forall q, q <> overlay_at id -> q <> overlay_tmp id -> σ' !! q = σ !! q).
  { intros q H1 H2. unfold σ'. by rewrite lookup_insert_ne, lookup_delete_ne, lookup_insert_ne. }
  assert (Hrest : forall f, f ∈ (layer_file <$> rest) -> σ' !! f = σ !! f).
  { intros f Hf. apply Hframe; intros ->; contradiction. }
  exists σ', (replicate (Z.to_nat (div_ceil vs l2_coverage)) 0). split_and!.
  - unfold create_overlay. rewrite Hp. fold (overlay_tmp id). rewrite Hc. unfold publish, rename.
    fold (overlay_tmp id). rewrite lookup_insert_eq. done.
  - rewrite (open_chain_overlay fuel σ' (overlay_at id) buf abs (to_backing_format fmt') vs L (lookup_insert_eq _ _ _) Hvs Hb Hu Hne).
    by rewrite (open_chain_ext fuel σ σ' _ rest).
  - intros v cs. unfold guest_cluster. cbn [read_chain].
    rewrite read_cluster_empty; [|unfold σ'; rewrite lookup_insert_eq; by eexists|done]. cbn [mbind result_bind].
    by rewrite (read_chain_ext σ σ').
  - done.
  - rewrite Hc in Hc0. injection Hc0 as <-. unfold read_header in *. rewrite lookup_insert_eq in Hh.
    unfold σ'. by rewrite lookup_insert_eq.
Qed.

(** A flattened image is recognised, whatever format the caller says. *)
Lemma sniff_flat (σ : fs) p fmt hdr out :
  σ !! components p = Some out -> holds out 0 (be_bytes 4 MAGIC) -> read_header σ (components p) = Ok hdr ->
  sniff_backing σ p fmt = Ok (virtual_size hdr, DiskQcow2).
Proof.
  intros Ho Hm Hh. unfold sniff_backing. rewrite Ho. cbn [ok_or mbind result_bind].
  pose proof (holds_read out 0 (be_bytes 4 MAGIC) Hm) as Hr. rewrite zlen_be_bytes in Hr. change (Z.of_nat 4) with 4 in Hr.
  rewrite Hr, bool_decide_eq_true_2, Hh by done. done.
Qed.

(** C26.  Cloning a disk: flattening a VM's overlay chain into a base and creating
    another VM's overlay over it, whatever format the caller names, succeeds; the
    new overlay records the QCOW2 format and the same disk size, opens as itself
    over the flattened image, and every guest cluster reads through it as it did
    on the source VM; no other file, the source's among them, has changed. *)
Theorem clone_reads_as_source (fuel : nat) (σ : fs) (a b dst : string) (fmt : DiskFormat)
    (f0 : path) (cb vs : Z) (l1 : list Z) (rest : list Layer) :
  let chain := LQcow2 f0 cb vs l1 :: rest in
  let cs := shl1_u64 cb in
  canonicalize dst = Ok dst -> header_text dst ->
  open_chain fuel σ (overlay_at a) = Ok chain -> 9 <= cb <= 30 -> 0 <= vs <= MAX_OVERLAY_SIZE -> uniform cb chain ->
  (forall v, 0 <= v < div_ceil vs cs -> exists o, read_chain σ chain v cs = Ok o) ->
  components dst ∉ (layer_file <$> chain) -> components dst <> overlay_at b -> components dst <> overlay_tmp b ->
  exists σ1 σ2 chain',
    flatten_vm_disk fuel dm a (components dst) σ = Ok σ1
    /\ create_overlay canonicalize dm dst fmt b σ1 = (Ok (vm_disk_text dm b), σ2)
    /\ read_header σ2 (overlay_at b) = Ok (overlay_header dst Qcow2Format.Qcow2 vs)
    /\ open_chain 2 σ2 (overlay_at b) = Ok chain' /\ layer_file <$> chain' = [overlay_at b; components dst]
    /\ (forall v, 0 <= v < div_ceil vs cs -> guest_cluster σ2 chain' v cs = guest_cluster σ chain v cs)
    /\ forall q, q <> components dst -> q <> overlay_at b -> q <> overlay_tmp b -> σ2 !! q = σ !! q.
Proof.
  intros chain cs Hcan Htext Hopen Hcb Hvs Huni Hread Hdst Hb1 Hb2.
  assert (Hvs' : 0 <= vs <= 2 ^ 46) by (change MAX_OVERLAY_SIZE with (2 ^ 42) in Hvs; lia).
  destruct (flatten_ok fuel σ (overlay_at a) (components dst) f0 cb vs l1 rest Hopen Hcb Hvs' Huni Hdst Hread)
    as (σ1 & l1' & Hf & Hframe & Ho & Hg & (hdr & Hh & Hsize & _) & out & Hout & Hmagic).
  destruct (create_overlay_ok dst fmt b σ1 dst vs DiskQcow2 1 [LQcow2 (components dst) cb vs l1'])
    as (σ2 & l1b & Hc & Hob & Hgb & Hframe2 & Hhb).
  - unfold overlay_params. rewrite Hcan, (sniff_flat σ1 dst fmt hdr out Hout Hmagic Hh), Hsize. done.
  - done.
  - done.
  - done.
  - set_solver.
  - set_solver.
  - exists σ1, σ2, [LQcow2 (overlay_at b) CLUSTER_BITS vs l1b; LQcow2 (components dst) cb vs l1'].
    split_and!; [|done..| |].
    + unfold flatten_vm_disk. fold (overlay_at a). by rewrite Hf.
    + intros v Hv. rewrite Hgb. by apply Hg.
    + intros q H1 H2 H3. by rewrite Hframe2, Hframe.
Qed.
End Overlays.

(** ** Base images *)

Section Bases.
Context (estimate_image_size : string -> result Error Z) (create_from_dir : string -> Z -> result Error () * option (list Z)).
Context (inject_file : list Z -> list Z -> result Error () * list Z) (dm : DiskManager).

Definition base_tmp (g : ManagedGuestBinary) (digest : string) : path :=
  components (join_text (bases_dir dm) (versioned_cache_key g digest +:+ ".raw.tmp")).
Definition base_at (g : ManagedGuestBinary) (digest : string) : path := components (base_path dm (versioned_cache_key g digest)).

(** A managed base image appears whole or not at all: if it is already there
    it is returned and nothing changes; otherwise success means that the image
    that was built, with the guest injected, is under its name, and failure at
    any step leaves the name unused and no temporary image behind.  No other file
    changes either way. *)
Theorem managed_base_atomic (g : ManagedGuestBinary) (rootfs digest : string) (σ σ' : fs) (r : result Error string) :
  create_managed_base estimate_image_size create_from_dir inject_file dm (Ok g) rootfs digest σ = (r, σ') ->
  let p := base_at g digest in
  let tmp := base_tmp g digest in
  let staged := with_extension tmp "guest-inject" in
  p <> tmp -> p <> staged -> mg_host_path g <> tmp -> staged <> tmp -> σ !! tmp = None ->
  (forall q, q <> p -> q <> tmp -> q <> staged -> σ' !! q = σ !! q)
  /\ σ' !! tmp = None
  /\ match r, σ !! p with
     | Ok t, Some _ => t = base_path dm (versioned_cache_key g digest) /\ σ' = σ
     | Ok t, None => t = base_path dm (versioned_cache_key g digest)
         /\ exists size img elf img', estimate_image_size rootfs = Ok size
              /\ create_from_dir rootfs (saturating_add size (image_size_overhead_bytes g)) = (Ok (), Some img)
              /\ σ !! mg_host_path g = Some elf /\ inject_file img elf = (Ok (), img') /\ σ' !! p = Some img'
     | Err _, before => σ' !! p = before
     end.
Proof.
  intros H p tmp staged Hpt Hps Hht Hst Hnone. unfold create_managed_base in H. fold (base_at g digest) in H. fold p in H.
  destruct (σ !! p) as [old|] eqn:Ep; [by injection H as <- <-|].
  destruct (estimate_image_size rootfs) as [size|e] eqn:Es; [|injection H as <- <-; split_and!; done].
  fold (base_tmp g digest) in H. fold tmp in H.
  destruct (create_from_dir rootfs _) as [r1 out] eqn:Ec. set (σ1 := put tmp out σ) in H.
  assert (Hf1 : forall q, q <> tmp -> σ1 !! q = σ !! q) by (intros q Hq; unfold σ1, put; destruct out; [by rewrite lookup_insert_ne|done]).
  destruct r1 as [[]|e]; cbv iota in H; swap 1 2.
  { injection H as <- <-. split_and!; [intros q ? ? ?; rewrite lookup_delete_ne by done; by apply Hf1|apply lookup_delete_eq|].
    by rewrite lookup_delete_ne, Hf1. }
  destruct (inject_into_disk inject_file g tmp σ1) as [r2 σ2] eqn:Ei.
  assert (Hf2 : forall q, q <> tmp -> q <> staged -> σ2 !! q = σ !! q).
  { intros q H1 H2. unfold inject_into_disk in Ei. fold staged in Ei.
    destruct (σ1 !! mg_host_path g) as [elf|]; [destruct (σ1 !! tmp) as [img|]; [destruct (inject_file img elf) as [r3 img']|]|];
      injection Ei as <- <-; rewrite lookup_delete_ne by done; rewrite ?lookup_insert_ne by done; by apply Hf1. }
  destruct r2 as [[]|e]; cbv iota in H; swap 1 2.
  { injection H as <- <-. split_and!; [intros q ? ? ?; rewrite lookup_delete_ne by done; by apply Hf2|apply lookup_delete_eq|].
    by rewrite lookup_delete_ne, Hf2. }
  unfold inject_into_disk in Ei. fold staged in Ei.
  destruct (σ1 !! mg_host_path g) as [elf|] eqn:Eg; [|done].
  destruct (σ1 !! tmp) as [img|] eqn:Et; [|done].
  destruct (inject_file img elf) as [r3 img'] eqn:Ej. injection Ei as -> <-.
  unfold rename in H. rewrite lookup_delete_ne, lookup_insert_eq in H by done. cbn [ok_or mbind result_bind] in H.
  injection H as <- <-. split_and!.
  - intros q ? ? ?. rewrite lookup_insert_ne, lookup_delete_ne by done. by apply Hf2.
  - rewrite lookup_insert_ne by done. apply lookup_delete_eq.
  - done.
  - exists size, img, elf, img'. split_and!; [done| |by rewrite <- Hf1|done|apply lookup_insert_eq].
    unfold σ1, put in Et. destruct out as [o|]; [rewrite lookup_insert_eq in Et; by injection Et as ->|congruence].
Qed.
End Bases.

(** ** Backing files for the jail *)

Lemma push_unique_elem paths p q : q ∈ push_unique_path paths p <-> q ∈ paths \/ q = p.
Proof.
  unfold push_unique_path. destruct (existsb _ paths) eqn:E; [|set_solver].
  apply existsb_exists in E as (x & Hx & Ex). apply bool_decide_eq_true in Ex. subst x.
  apply list_elem_of_In in Hx. split; [by left|]. by intros [?| ->].
Qed.

Lemma push_unique_nodup paths p : NoDup paths -> NoDup (push_unique_path paths p).
Proof.
  intros H. unfold push_unique_path. destruct (existsb _ paths) eqn:E; [done|].
  apply NoDup_app. split_and!; [done| |apply NoDup_singleton]. intros x Hx ->%list_elem_of_singleton.
  assert (existsb (fun q => bool_decide (q = p)) paths = true); [|congruence].
  apply existsb_exists. exists p. split; [by apply list_elem_of_In|by apply bool_decide_eq_true].
Qed.

(** Every backing file of a disk is among the paths the jail exposes read-only,
    each path once, and nothing else but their existing parent directories. *)
Lemma readonly_disk_paths_spec dir_exists (σ : fs) p :
  NoDup (readonly_disk_paths dir_exists σ p)
  /\ forall q, q ∈ readonly_disk_paths dir_exists σ p <->
       exists b, b ∈ read_backing_chain σ p /\ (q = b \/ parent b = Some q /\ dir_exists q = true).
Proof.
  unfold readonly_disk_paths. generalize (read_backing_chain σ p). intros l.
  induction l as [|b l IH] using rev_ind; [split; [constructor|]; intros q; split; [by intros ?%not_elem_of_nil|by intros (b & ?%not_elem_of_nil & _)]|].
  rewrite foldl_app. cbn [foldl]. destruct IH as [H1 H2]. set (acc := foldl (readonly_step dir_exists) [] l) in *. unfold readonly_step.
  set (acc' := match parent b with Some d => _ | None => _ end).
  assert (Hacc : NoDup acc' /\ forall q, q ∈ acc' <-> q ∈ acc \/ parent b = Some q /\ dir_exists q = true).
  { unfold acc'. destruct (parent b) as [d|]; [destruct (dir_exists d) eqn:Ed|].
    - split; [by apply push_unique_nodup|]. intros q. rewrite push_unique_elem. split; intros [?|Hq]; [by left| |by left|].
      + subst q. by right.
      + destruct Hq as [[= ->] _]. by right.
    - split; [done|]. intros q. split; [by left|]. intros [?|[[= ->] ?]]; [done|congruence].
    - split; [done|]. intros q. split; [by left|]. by intros [?|[[=] _]]. }
  destruct Hacc as [A1 A2]. split; [by apply push_unique_nodup|]. intros q. rewrite push_unique_elem, A2, H2.
  split.
  - intros [[(b' & Hb & Hq)|Hq]| ->].
    + exists b'. split; [|done]. apply elem_of_app. by left.
    + exists b. split; [|by right]. apply elem_of_app. right. by apply list_elem_of_singleton.
    + exists b. split; [|by left]. apply elem_of_app. right. by apply list_elem_of_singleton.
  - intros (b' & [Hb|Hb%list_elem_of_singleton]%elem_of_app & Hq); [left; left; by exists b'|]. subst b'.
    destruct Hq as [->|Hq]; [by right|left; by right].
Qed.

(** ** Samples *)

Module Sample.
Definition dm : DiskManager := mkDisk "/d/b" "/d/v".
Definition σ : fs := {[ components "/d/v/a.qcow2" := small_image; components "/b" := [1; 2; 3; 4; 5; 6; 7; 8] ]}.
Definition same (s : string) : result io_kind string := Ok s.

Lemma clone_reads_as_source_witness :
  let chain := [LQcow2 (components "/d/v/a.qcow2") 9 512 [0]; LRaw (components "/b") 8] in
  exists σ1 σ2 chain',
    flatten_vm_disk 2 dm "a" (components "/d/b/c.qcow2") σ = Ok σ1
    /\ create_overlay same dm "/d/b/c.qcow2" DiskRaw "n" σ1 = (Ok (vm_disk_text dm "n"), σ2)
    /\ read_header σ2 (overlay_at dm "n") = Ok (overlay_header "/d/b/c.qcow2" Qcow2Format.Qcow2 512)
    /\ open_chain 2 σ2 (overlay_at dm "n") = Ok chain' /\ layer_file <$> chain' = [overlay_at dm "n"; components "/d/b/c.qcow2"]
    /\ (forall v, 0 <= v < div_ceil 512 (shl1_u64 9) -> guest_cluster σ2 chain' v (shl1_u64 9) = guest_cluster σ chain v (shl1_u64 9))
    /\ forall q, q <> components "/d/b/c.qcow2" -> q <> overlay_at dm "n" -> q <> overlay_tmp dm "n" -> σ2 !! q = σ !! q.
Proof.
  intros chain.
  apply (clone_reads_as_source same dm 2 σ "a" "n" "/d/b/c.qcow2" DiskRaw (components "/d/v/a.qcow2") 9 512 [0] [LRaw (components "/b") 8]).
  - reflexivity.
  - split; [vm_compute; discriminate|]. split; [reflexivity|discriminate].
  - vm_compute. reflexivity.
  - lia.
  - split; vm_compute; discriminate.
  - repeat constructor.
  - intros v Hv. change (div_ceil 512 (shl1_u64 9)) with 1 in Hv. replace v with 0 by lia. eexists. vm_compute. reflexivity.
  - rewrite !fmap_cons, !not_elem_of_cons. split; [discriminate|]. split; [discriminate|apply not_elem_of_nil].
  - discriminate.
  - discriminate.
Defined.

Definition guest : ManagedGuestBinary := mkGuest (components "/g") "k" 4.
Definition base_fs : fs := {[ components "/g" := [9] ]}.

Lemma managed_base_atomic_witness :
  let r := create_managed_base (fun _ => Ok 1) (fun _ _ => (Ok (), Some [5])) (fun i e => (Ok (), i ++ e)) dm (Ok guest) "/r" "x" base_fs in
  let p := base_at dm guest "x" in
  (forall q, q <> p -> q <> base_tmp dm guest "x" -> q <> with_extension (base_tmp dm guest "x") "guest-inject" -> r.2 !! q = base_fs !! q)
  /\ r.2 !! base_tmp dm guest "x" = None /\ r.2 !! p = Some [5; 9].
Proof.
  intros r p.
  assert (E : create_managed_base (fun _ => Ok 1) (fun _ _ => (Ok (), Some [5])) (fun i e => (Ok (), i ++ e)) dm (Ok guest) "/r" "x" base_fs
              = (r.1, r.2)) by apply surjective_pairing.
  pose proof (managed_base_atomic _ _ _ _ _ _ _ _ _ _ E) as H.
  cbv zeta in H.
  assert (Hq : forall a b : path, bool_decide (a = b) = false -> a <> b) by (intros a b; apply bool_decide_eq_false).
  specialize (H ltac:(by apply Hq; vm_compute) ltac:(by apply Hq; vm_compute) ltac:(by apply Hq; vm_compute)
    ltac:(by apply Hq; vm_compute) ltac:(vm_compute; reflexivity)).
  split; [exact (proj1 H)|]. split; [exact (proj1 (proj2 H))|]. vm_compute. reflexivity.
Defined.
End Sample.
