(* ===== verification/Text.v ===== *)
(** * Text operations of the standard library

    [str::trim], [str::split_whitespace], [str::lines], printing and parsing of
    unsigned integers and ASCII case folding, on UTF-8 text kept as its bytes. *)

From S2P Require Import Prelude Files Paths Ids Ports.

(** ** [char::is_whitespace], as the UTF-8 bytes of the character *)

Definition is_ws_ascii (b : Z) : bool := ((9 <=? b) && (b <=? 13)) || (b =? 32).

(** The two- and three-byte white space characters. *)
Definition is_ws2 (a b : Z) : bool := (a =? 0xC2) && ((b =? 0x85) || (b =? 0xA0)).
Definition is_ws3 (a b c : Z) : bool :=
  ((a =? 0xE1) && (b =? 0x9A) && (c =? 0x80))
  || ((a =? 0xE2) && (b =? 0x80) && (((0x80 <=? c) && (c <=? 0x8A)) || (c =? 0xA8) || (c =? 0xA9) || (c =? 0xAF)))
  || ((a =? 0xE2) && (b =? 0x81) && (c =? 0x9F))
  || ((a =? 0xE3) && (b =? 0x80) && (c =? 0x80)).

Fixpoint trim_start (l : list Z) : list Z :=
  match l with
  | a :: r =>
    if is_ws_ascii a then trim_start r else
    match r with
    | b :: r2 =>
      if is_ws2 a b then trim_start r2 else
      match r2 with
      | c :: r3 => if is_ws3 a b c then trim_start r3 else l
      | [] => l
      end
    | [] => l
    end
  | [] => []
  end.

(** On the reversed bytes: the last byte of a character comes first. *)
Fixpoint trim_end_rev (l : list Z) : list Z :=
  match l with
  | a :: r =>
    if is_ws_ascii a then trim_end_rev r else
    match r with
    | b :: r2 =>
      if is_ws2 b a then trim_end_rev r2 else
      match r2 with
      | c :: r3 => if is_ws3 c b a then trim_end_rev r3 else l
      | [] => l
      end
    | [] => l
    end
  | [] => []
  end.

Definition trim (s : string) : string := bytes_str (rev (trim_end_rev (rev (trim_start (str_bytes s))))).

(** ** [str::split_whitespace] *)

(** [w] is the word so far, reversed. *)
Fixpoint words_of (w l : list Z) : list (list Z) :=
  let flush rest := match w with [] => rest | _ => rev w :: rest end in
  match l with
  | [] => flush []
  | a :: r =>
    if is_ws_ascii a then flush (words_of [] r) else
    match r with
    | b :: r2 =>
      if is_ws2 a b then flush (words_of [] r2) else
      match r2 with
      | c :: r3 => if is_ws3 a b c then flush (words_of [] r3) else words_of (a :: w) r
      | [] => words_of (a :: w) r
      end
    | [] => words_of (a :: w) r
    end
  end.

Definition split_whitespace (s : string) : list string := bytes_str <$> words_of [] (str_bytes s).

(** ** [str::lines] *)

Definition strip_cr (s : string) : string :=
  match rsplit_once "013" s with
  | Some (u, EmptyString) => u
  | _ => s
  end.

(** A line ends with a line feed, before which one carriage return is dropped;
    text after the last line feed is a line of its own unless empty. *)
Fixpoint lines_of (parts : list string) : list string :=
  match parts with
  | [] => []
  | [w] => if decide (w = ""%string) then [] else [w]
  | w :: r => strip_cr w :: lines_of r
  end.

Definition lines (s : string) : list string := lines_of (split_on "010" s).

(** ** [String::from_utf8_lossy] *)

(** U+FFFD *)
Definition REPLACEMENT : list Z := [0xEF; 0xBF; 0xBD].

(** The second bytes of three- and four-byte characters. *)
Definition second_of_3 (b0 b1 : Z) : bool :=
  ((if b0 =? 0xE0 then 0xA0 else 0x80) <=? b1) && (b1 <=? (if b0 =? 0xED then 0x9F else 0xBF)).
Definition second_of_4 (b0 b1 : Z) : bool :=
  ((if b0 =? 0xF0 then 0x90 else 0x80) <=? b1) && (b1 <=? (if b0 =? 0xF4 then 0x8F else 0xBF)).

(** Each maximal prefix of a broken sequence becomes one replacement character. *)
Fixpoint utf8_lossy (l : list Z) : list Z :=
  match l with
  | [] => []
  | b0 :: r0 =>
    if b0 <? 0x80 then b0 :: utf8_lossy r0
    else if (0xC2 <=? b0) && (b0 <=? 0xDF) then
      match r0 with
      | b1 :: r1 => if is_cont b1 then b0 :: b1 :: utf8_lossy r1 else REPLACEMENT ++ utf8_lossy r0
      | [] => REPLACEMENT
      end
    else if (0xE0 <=? b0) && (b0 <=? 0xEF) then
      match r0 with
      | b1 :: r1 =>
        if second_of_3 b0 b1 then
          match r1 with
          | b2 :: r2 => if is_cont b2 then b0 :: b1 :: b2 :: utf8_lossy r2 else REPLACEMENT ++ utf8_lossy r1
          | [] => REPLACEMENT
          end
        else REPLACEMENT ++ utf8_lossy r0
      | [] => REPLACEMENT
      end
    else if (0xF0 <=? b0) && (b0 <=? 0xF4) then
      match r0 with
      | b1 :: r1 =>
        if second_of_4 b0 b1 then
          match r1 with
          | b2 :: r2 =>
            if is_cont b2 then
              match r2 with
              | b3 :: r3 => if is_cont b3 then b0 :: b1 :: b2 :: b3 :: utf8_lossy r3 else REPLACEMENT ++ utf8_lossy r2
              | [] => REPLACEMENT
              end
            else REPLACEMENT ++ utf8_lossy r1
          | [] => REPLACEMENT
          end
        else REPLACEMENT ++ utf8_lossy r0
      | [] => REPLACEMENT
      end
    else REPLACEMENT ++ utf8_lossy r0
  end.

Definition from_utf8_lossy (l : list Z) : string := bytes_str (utf8_lossy l).

(** ** Numbers *)

(** A [u64] has at most twenty digits. *)
Definition dec_u64 (n : Z) : string := dec_aux 20 n "".

(** [str::parse] of an unsigned type with the given maximum. *)
Definition parse_uint (max : Z) (s : string) : option Z :=
  let s := match s with String "+" r => r | _ => s end in
  if decide (s = ""%string) then None else
  v ← digits_val 0 s; if v <=? max then Some v else None.

Definition parse_u32 (s : string) : option Z := parse_uint U32_MAX s.

Definition starts_with_char (c : Ascii.ascii) (s : string) : bool :=
  match s with String a _ => bool_decide (a = c) | EmptyString => false end.

Definition str_starts_with (p s : string) : bool := match strip_prefix_str p s with Some _ => true | None => false end.

(** [str::eq_ignore_ascii_case]. *)
Definition eq_ascii_nocase (s t : string) : bool := bool_decide (to_ascii_lowercase s = to_ascii_lowercase t).

Lemma digits_val_bound s : forall acc v, 0 <= acc -> digits_val acc s = Some v -> acc <= v.
Proof.
  induction s as [|c s IH]; intros acc v Ha H; simpl in H; [injection H as <-; lia|].
  destruct (in_range 48 57 c) eqn:E; [|done]. unfold in_range in E. zify_bool.
  apply IH in H; lia.
Qed.

Lemma parse_uint_bound max s v : parse_uint max s = Some v -> 0 <= v <= max.
Proof.
  unfold parse_uint. case_decide; [done|]. destruct (digits_val _ _) as [w|] eqn:E; [|done]. simpl.
  destruct (w <=? max) eqn:Hm; [|done]. intros [= <-]. zify_bool. apply digits_val_bound in E; lia.
Qed.

Example trim_samples :
  trim " 	a b
" = "a b"%string /\ trim "" = ""%string /\ trim "   " = ""%string
  /\ trim (bytes_str [0xC2; 0xA0; 65; 0xE3; 0x80; 0x80; 0xE2; 0x80; 0x83]) = "A"%string.
Proof. vm_compute. repeat split. Qed.

Example lines_samples :
  lines (bytes_str [97; 13; 10; 98; 10; 10; 99; 13]) = ["a"; "b"; ""; bytes_str [99; 13]]%string /\ lines "" = [].
Proof. vm_compute. repeat split. Qed.

(** ** Lossy decoding gives text, and is the identity on text *)

(** Strong induction on the length, for the decoders that look several bytes ahead. *)
Lemma bytes_ind (P : list Z -> Prop) : (forall l, (forall k, (length k < length l)%nat -> P k) -> P l) -> forall l, P l.
Proof.
  intros H l. remember (length l) as n eqn:E. revert l E. induction n as [n IH] using lt_wf_ind. intros l ->.
  apply H. intros k Hk. by apply (IH _ Hk).
Qed.

Lemma valid_replacement l : utf8_valid (REPLACEMENT ++ l) = utf8_valid l.
Proof. reflexivity. Qed.

Lemma valid_1 b0 r : b0 <? 0x80 = true -> utf8_valid (b0 :: r) = utf8_valid r.
Proof. intros H. cbn [utf8_valid]. by rewrite H. Qed.
Lemma valid_2 b0 b1 r : b0 <? 0x80 = false -> (0xC2 <=? b0) && (b0 <=? 0xDF) = true ->
  utf8_valid (b0 :: b1 :: r) = is_cont b1 && utf8_valid r.
Proof. intros H1 H2. cbn [utf8_valid]. by rewrite H1, H2. Qed.
Lemma valid_3 b0 b1 b2 r : b0 <? 0x80 = false -> (0xC2 <=? b0) && (b0 <=? 0xDF) = false -> (0xE0 <=? b0) && (b0 <=? 0xEF) = true ->
  utf8_valid (b0 :: b1 :: b2 :: r) = second_of_3 b0 b1 && is_cont b2 && utf8_valid r.
Proof. intros H1 H2 H3. cbn [utf8_valid]. by rewrite H1, H2, H3. Qed.
Lemma valid_4 b0 b1 b2 b3 r : b0 <? 0x80 = false -> (0xC2 <=? b0) && (b0 <=? 0xDF) = false -> (0xE0 <=? b0) && (b0 <=? 0xEF) = false ->
  utf8_valid (b0 :: b1 :: b2 :: b3 :: r) = (0xF0 <=? b0) && (b0 <=? 0xF4) && (second_of_4 b0 b1 && is_cont b2 && is_cont b3 && utf8_valid r).
Proof. intros H1 H2 H3. cbn [utf8_valid]. rewrite H1, H2, H3. unfold second_of_4. by rewrite !andb_assoc. Qed.

Lemma utf8_lossy_valid l : utf8_valid (utf8_lossy l) = true.
Proof.
  induction l as [l IH] using bytes_ind. destruct l as [|b0 r0]; [done|]. cbn [utf8_lossy].
  destruct (b0 <? 0x80) eqn:E0; [rewrite valid_1 by done; apply IH; simpl; lia|].
  destruct ((0xC2 <=? b0) && (b0 <=? 0xDF)) eqn:E1.
  { destruct r0 as [|b1 r1]; [done|]. destruct (is_cont b1) eqn:C1; [|rewrite valid_replacement; apply IH; simpl; lia].
    rewrite valid_2, C1 by done. apply IH. simpl. lia. }
  destruct ((0xE0 <=? b0) && (b0 <=? 0xEF)) eqn:E2.
  { destruct r0 as [|b1 r1]; [done|]. destruct (second_of_3 b0 b1) eqn:C1; [|rewrite valid_replacement; apply IH; simpl; lia].
    destruct r1 as [|b2 r2]; [done|]. destruct (is_cont b2) eqn:C2; [|rewrite valid_replacement; apply IH; simpl; lia].
    rewrite valid_3, C1, C2 by done. apply IH. simpl. lia. }
  destruct ((0xF0 <=? b0) && (b0 <=? 0xF4)) eqn:E3; [|rewrite valid_replacement; apply IH; simpl; lia].
  destruct r0 as [|b1 r1]; [done|]. destruct (second_of_4 b0 b1) eqn:C1; [|rewrite valid_replacement; apply IH; simpl; lia].
  destruct r1 as [|b2 r2]; [done|]. destruct (is_cont b2) eqn:C2; [|rewrite valid_replacement; apply IH; simpl; lia].
  destruct r2 as [|b3 r3]; [done|]. destruct (is_cont b3) eqn:C3; [|rewrite valid_replacement; apply IH; simpl; lia].
  rewrite valid_4, E3, C1, C2, C3 by done. apply IH. simpl. lia.
Qed.

Lemma utf8_lossy_id l : utf8_valid l = true -> utf8_lossy l = l.
Proof.
  induction l as [l IH] using bytes_ind. destruct l as [|b0 r0]; [done|]. cbn [utf8_lossy].
  destruct (b0 <? 0x80) eqn:E0.
  { rewrite valid_1 by done. intros H. f_equal. apply IH; [simpl; lia|done]. }
  destruct ((0xC2 <=? b0) && (b0 <=? 0xDF)) eqn:E1.
  { destruct r0 as [|b1 r1]; [cbn [utf8_valid]; by rewrite E0|]. rewrite valid_2 by done. intros [-> H]%andb_true_iff.
    do 2 f_equal. apply IH; [simpl; lia|done]. }
  destruct ((0xE0 <=? b0) && (b0 <=? 0xEF)) eqn:E2.
  { destruct r0 as [|b1 [|b2 r2]]; [cbn [utf8_valid]; by rewrite E0|cbn [utf8_valid]; by rewrite E0, E1|].
    rewrite valid_3 by done. intros [[-> ->]%andb_true_iff H]%andb_true_iff. do 3 f_equal. apply IH; [simpl; lia|done]. }
  destruct r0 as [|b1 [|b2 [|b3 r3]]];
    [cbn [utf8_valid]; by rewrite E0|cbn [utf8_valid]; by rewrite E0, E1|cbn [utf8_valid]; by rewrite E0, E1, E2|].
  rewrite valid_4 by done. intros [-> [[[-> ->]%andb_true_iff ->]%andb_true_iff H]%andb_true_iff]%andb_true_iff.
  do 4 f_equal. apply IH; [simpl; lia|done].
Qed.

Example lossy_samples :
  utf8_lossy [72; 0xFF; 0xE2; 0x82; 33] = [72] ++ REPLACEMENT ++ REPLACEMENT ++ [33]
  /\ utf8_lossy [0xF0; 0x80; 0x80] = REPLACEMENT ++ REPLACEMENT ++ REPLACEMENT.
Proof. vm_compute. repeat split. Qed.
