(* ===== verification/Process.v ===== *)
(** * Workload process defaults, host and guest

    [crates/bux/src/process.rs]: how the host folds an image's process
    configuration into a VM's workload, and the workload into an exec request;
    [crates/bux-guest/src/user.rs] with [resolve_credentials] and the
    environment part of [apply_exec_options!] of
    [crates/bux-guest/src/exec/mod.rs]: how the guest agent reads the request.
    The guest's [/etc/passwd] and [/etc/group] are the results of reading them. *)

From S2P Require Import Prelude Files Paths Ids Ports ProtoMessages ImageStore Text.

(** ** process.rs *)

Definition env_entry (k v : string) : string := k +:+ "=" +:+ v.

Definition merge_step (st : gmap string string * list string) (entry : string) : gmap string string * list string :=
  let '(map, order) := st in
  match split_once "=" entry with
  | None => st
  | Some (k, v) => (<[k := v]> map, match map !! k with None => order ++ [k] | Some _ => order end)
  end.

(** [order.into_iter().filter_map(|k| map.remove(&k)...)]. *)
Fixpoint drain_env (map : gmap string string) (order : list string) : list string :=
  match order with
  | [] => []
  | k :: r => match map !! k with
              | Some v => env_entry k v :: drain_env (delete k map) r
              | None => drain_env (delete k map) r
              end
  end.

Definition merge_env (base overrides : list string) : list string :=
  let '(map, order) := foldl merge_step (∅, []) (base ++ overrides) in drain_env map order.

Definition parse_numeric_user (spec : string) : option (Z * Z) :=
  let spec := trim spec in
  if decide (spec = ""%string) then None else
  match split_once ":" spec with
  | Some (u, g) => uid ← parse_u32 (trim u); gid ← parse_u32 (trim g); Some (uid, gid)
  | None => uid ← parse_u32 spec; Some (uid, uid)
  end.

Definition non_empty (o : option string) : option string :=
  s ← o; if decide (s = ""%string) then None else Some s.

Definition merge_image_config (workload_env : list string) (workdir user : option string)
    (cmd : option (list string)) (img : ImageConfig)
    : list string * option string * option string * option (list string) :=
  let workload_env :=
    match env img with
    | Some [] => workload_env
    | Some e => if decide (workload_env = []) then e else merge_env e workload_env
    | None => workload_env
    end in
  let workdir := match workdir with None => non_empty (working_dir img) | Some _ => workdir end in
  let user := match user with None => non_empty (ImageStore.user img) | Some _ => user end in
  let cmd := match cmd with
             | Some (_ :: _) => cmd
             | _ => match command img with [] => cmd | c => Some c end
             end in
  (workload_env, workdir, user, cmd).

(** The three steps of [apply_workload_defaults]. *)
Definition default_env (workload_env : list string) (req : ExecStart) : ExecStart :=
  if decide (es_env req = []) then
    if decide (workload_env = []) then req else with_env req workload_env
  else if decide (workload_env = []) then req else with_env req (merge_env workload_env (es_env req)).

Definition default_cwd (workload_workdir : option string) (req : ExecStart) : ExecStart :=
  match es_cwd req, non_empty workload_workdir with
  | None, Some wd => with_cwd req wd
  | _, _ => req
  end.

Definition default_user (workload_user : option string) (req : ExecStart) : ExecStart :=
  match es_uid req, es_gid req, es_user req with
  | None, None, None =>
    match non_empty workload_user with
    | Some spec => match parse_numeric_user spec with
                   | Some (uid, gid) => with_user req uid gid
                   | None => user_name req spec
                   end
    | None => req
    end
  | _, _, _ => req
  end.

Definition apply_workload_defaults (req : ExecStart) (workload_env : list string)
    (workload_workdir workload_user : option string) : ExecStart :=
  default_user workload_user (default_cwd workload_workdir (default_env workload_env req)).

(** ** The guest: exec/mod.rs and user.rs *)

(** [cmd.env(k, v)] for every pair, in order. *)
Definition env_step (m : gmap string string) (pair : string) : gmap string string :=
  match split_once "=" pair with Some (k, v) => <[k := v]> m | None => m end.

Definition env_map (l : list string) : gmap string string := foldl env_step ∅ l.

Section Guest.
(** [fs::read_to_string] of [/etc/passwd] and [/etc/group]. *)
Context (passwd group : result io_kind string).

Definition read_lines (file : result io_kind string) : result io_kind (list string) :=
  data ← file;
  Ok (List.filter (fun l => negb (bool_decide (l = ""%string)) && negb (starts_with_char "#" l)) (trim <$> lines data)).

Fixpoint find_passwd_name (name : string) (ls : list string) : result io_kind (Z * Z) :=
  match ls with
  | [] => Err EkNotFound
  | line :: r =>
    let parts := split_on ":" line in
    if decide (default ""%string (parts !! 0%nat) <> name) then find_passwd_name name r else
    uid ← ok_or (s ← parts !! 2%nat; parse_u32 s) EkInvalidData;
    gid ← ok_or (s ← parts !! 3%nat; parse_u32 s) EkInvalidData;
    Ok (uid, gid)
  end.

Definition lookup_passwd_name (name : string) : result io_kind (Z * Z) :=
  ls ← read_lines passwd; find_passwd_name name ls.

(** Every [?] leaves the whole search. *)
Fixpoint find_passwd_gid (uid : Z) (ls : list string) : option Z :=
  match ls with
  | [] => None
  | line :: r =>
    let parts := split_on ":" line in
    _ ← parts !! 0%nat;
    _ ← parts !! 1%nat;
    entry_uid ← (s ← parts !! 2%nat; parse_u32 s);
    if decide (entry_uid <> uid) then find_passwd_gid uid r else s ← parts !! 3%nat; parse_u32 s
  end.

Definition lookup_passwd_gid (uid : Z) : option Z :=
  match read_lines passwd with Ok ls => find_passwd_gid uid ls | Err _ => None end.

Fixpoint find_group_name (name : string) (ls : list string) : result io_kind Z :=
  match ls with
  | [] => Err EkNotFound
  | line :: r =>
    let parts := split_on ":" line in
    if decide (default ""%string (parts !! 0%nat) <> name) then find_group_name name r else
    ok_or (s ← parts !! 2%nat; parse_u32 s) EkInvalidData
  end.

Definition lookup_group_name (name : string) : result io_kind Z :=
  ls ← read_lines group; find_group_name name ls.

Definition resolve_uid (part : string) : result io_kind Z :=
  let part := trim part in
  if decide (part = ""%string) then Err EkInvalidInput else
  match parse_u32 part with
  | Some uid => Ok uid
  | None => p ← lookup_passwd_name part; Ok p.1
  end.

Definition resolve_gid (part : string) : result io_kind Z :=
  let part := trim part in
  if decide (part = ""%string) then Err EkInvalidInput else
  match parse_u32 part with
  | Some gid => Ok gid
  | None => lookup_group_name part
  end.

Definition resolve_user (spec : string) : result io_kind (Z * Z) :=
  let spec := trim spec in
  if decide (spec = ""%string) then Err EkInvalidInput else
  match split_once ":" spec with
  | Some (user_part, group_part) =>
    uid ← resolve_uid user_part; gid ← resolve_gid group_part; Ok (uid, gid)
  | None =>
    match parse_u32 spec with
    | Some uid => Ok (uid, default uid (lookup_passwd_gid uid))
    | None => lookup_passwd_name spec
    end
  end.

Definition resolve_credentials (req : ExecStart) : result io_kind (option (Z * Z)) :=
  match es_uid req, es_gid req with
  | None, None =>
    match es_user req with
    | Some u => c ← resolve_user u; Ok (Some c)
    | None => Ok None
    end
  | uid, gid =>
    let uid0 := default 0 (match uid with Some u => Some u | None => gid end) in
    Ok (Some (uid0, default uid0 (match gid with Some g => Some g | None => uid end)))
  end.
End Guest.

(** ** Environments *)

Lemma foldl_env l m : foldl env_step m l = env_map l ∪ m.
Proof.
  unfold env_map. revert m. induction l as [|p l IH] using rev_ind; intros m; [symmetry; apply (left_id_L ∅ (∪))|].
  rewrite !foldl_app. cbn [foldl]. rewrite IH. unfold env_step. destruct (split_once "=" p) as [[k v]|].
  - by rewrite insert_union_l.
  - done.
Qed.

Lemma env_map_app l k : env_map (l ++ k) = env_map k ∪ env_map l.
Proof. unfold env_map at 1. rewrite foldl_app. exact (foldl_env k (env_map l)). Qed.

Lemma split_once_parts c s u v : split_once c s = Some (u, v) -> s = u +:+ String c v /\ str_contains_char c u = false.
Proof.
  revert u v. induction s as [|a s IH]; intros u v H; simpl in H; [done|]. case_decide as E.
  - injection H as <- <-. by subst a.
  - destruct (split_once c s) as [[x y]|] eqn:Es; [|done]. injection H as <- <-.
    destruct (IH x y eq_refl) as [-> H2]. split; [done|]. simpl. by rewrite bool_decide_eq_false_2.
Qed.

Lemma split_entry k v : str_contains_char "=" k = false -> split_once "=" (env_entry k v) = Some (k, v).
Proof. intros H. unfold env_entry. change (k +:+ "=" +:+ v) with (k +:+ String "=" v). by apply split_once_app. Qed.

Lemma env_step_entry m k v : str_contains_char "=" k = false -> env_step m (env_entry k v) = <[k := v]> m.
Proof. intros H. unfold env_step. by rewrite split_entry. Qed.

(** The fold of [merge_env]: the map is the environment, [order] its keys. *)
Record merged (l : list string) (st : gmap string string * list string) : Prop := {
  merged_map : st.1 = env_map l;
  merged_nodup : NoDup st.2;
  merged_keys : forall k, k ∈ st.2 <-> is_Some (st.1 !! k);
  merged_plain : forall k, k ∈ st.2 -> str_contains_char "=" k = false
}.

Lemma merge_fold l : merged l (foldl merge_step (∅, []) l).
Proof.
  induction l as [|p l IH] using rev_ind.
  - split; [done|constructor|..]; intros k; simpl; [|set_solver]. rewrite lookup_empty. split; [set_solver|by intros [? [=]]].
  - rewrite foldl_app. cbn [foldl]. destruct (foldl merge_step (∅, []) l) as [m order].
    destruct IH as [E1 E2 E3 E4]. simpl in *. unfold merge_step.
    assert (Em : env_map (l ++ [p]) = env_step m p) by (unfold env_map; rewrite foldl_app; cbn [foldl]; by rewrite E1).
    unfold env_step in Em. destruct (split_once "=" p) as [[k v]|] eqn:Ep; [|by split].
    apply split_once_parts in Ep as [_ Hk]. destruct (m !! k) as [w|] eqn:El.
    + split; simpl; [done|done| |done]. intros j. rewrite E3. destruct (decide (j = k)) as [->|Hne].
      * rewrite lookup_insert_eq, El. split; eauto.
      * by rewrite lookup_insert_ne by done.
    + assert (Hn : k ∉ order) by (rewrite E3, El; by intros [? [=]]). split; simpl.
      * done.
      * apply NoDup_app. split_and!; [done|by intros x Hx ->%list_elem_of_singleton|apply NoDup_singleton].
      * intros j. rewrite elem_of_app, list_elem_of_singleton, E3. destruct (decide (j = k)) as [->|Hne].
        -- rewrite lookup_insert_eq. split; eauto.
        -- rewrite lookup_insert_ne by done. split; [by intros [?|?]|by left].
      * intros j [Hj| ->%list_elem_of_singleton]%elem_of_app; auto.
Qed.

Lemma drain_env_spec order : forall m,
  NoDup order -> (forall k, k ∈ order -> is_Some (m !! k)) ->
  drain_env m order = (fun k => env_entry k (default ""%string (m !! k))) <$> order.
Proof.
  induction order as [|k order IH]; intros m Hnd Hk; [done|]. apply NoDup_cons in Hnd as [Hn Hnd].
  cbn [drain_env fmap list_fmap]. destruct (Hk k ltac:(set_solver)) as [v Hv]. rewrite Hv. simpl. f_equal.
  rewrite IH; [|done|].
  - apply list_fmap_ext. intros i j Hij. rewrite lookup_delete_ne; [done|]. intros ->.
    by apply list_elem_of_lookup_2 in Hij.
  - intros j Hj. rewrite lookup_delete_ne by set_solver. apply Hk. set_solver.
Qed.

Lemma env_map_entries (order : list string) (f : string -> string) m :
  NoDup order -> (forall k, k ∈ order -> str_contains_char "=" k = false) ->
  forall k, foldl env_step m ((fun k => env_entry k (f k)) <$> order) !! k
            = if decide (k ∈ order) then Some (f k) else m !! k.
Proof.
  revert m. induction order as [|j order IH]; intros m Hnd Hp k; [done|].
  apply NoDup_cons in Hnd as [Hn Hnd]. cbn [fmap list_fmap foldl].
  change (list_fmap string string (fun k => env_entry k (f k)) order) with ((fun k => env_entry k (f k)) <$> order).
  rewrite IH; [|done|set_solver]. rewrite env_step_entry by set_solver.
  destruct (decide (k ∈ order)); [by rewrite decide_True by set_solver|].
  destruct (decide (k = j)) as [->|Hne].
  - by rewrite lookup_insert_eq, decide_True by set_solver.
  - by rewrite lookup_insert_ne, decide_False by set_solver.
Qed.

Definition env_key (entry : string) : option string := fst <$> split_once "=" entry.

Lemma omap_key_entries (order : list string) (f : string -> string) :
  (forall k, k ∈ order -> str_contains_char "=" k = false) ->
  omap env_key ((fun k => env_entry k (f k)) <$> order) = order.
Proof.
  induction order as [|k order IH]; intros Hp; [done|]. cbn [fmap list_fmap].
  change (match env_key (env_entry k (f k)) with
          | Some y => y :: omap env_key ((fun k => env_entry k (f k)) <$> order)
          | None => omap env_key ((fun k => env_entry k (f k)) <$> order) end = k :: order).
  unfold env_key at 1. rewrite (split_entry k (f k) (Hp k ltac:(set_solver))). cbn [fmap option_fmap option_map fst]. f_equal.
  apply IH. set_solver.
Qed.

Lemma merge_env_form base over :
  exists order, merge_env base over = (fun k => env_entry k (default ""%string (env_map (base ++ over) !! k))) <$> order
    /\ NoDup order /\ (forall k, k ∈ order <-> is_Some (env_map (base ++ over) !! k))
    /\ (forall k, k ∈ order -> str_contains_char "=" k = false).
Proof.
  unfold merge_env. pose proof (merge_fold (base ++ over)) as H.
  destruct (foldl merge_step (∅, []) (base ++ over)) as [m order]. destruct H as [E1 E2 E3 E4]. simpl in *. subst m.
  exists order. split_and!; [|done..]. apply drain_env_spec; [done|]. intros k. by rewrite E3.
Qed.

Lemma merge_env_map base over : env_map (merge_env base over) = env_map over ∪ env_map base.
Proof.
  destruct (merge_env_form base over) as (order & -> & Hnd & Hk & Hp).
  rewrite <- env_map_app. apply map_eq. intros k. unfold env_map at 1.
  rewrite (env_map_entries order (fun k => default ""%string (env_map (base ++ over) !! k)) ∅ Hnd Hp).
  case_decide as E.
  - apply Hk in E as [v Hv]. by rewrite Hv.
  - rewrite lookup_empty. destruct (env_map (base ++ over) !! k) eqn:El; [|done]. exfalso. apply E, Hk. eauto.
Qed.

(** Merging environments is a right-biased union: the process that gets the
    merged list sees every variable of the overrides and those of the base they
    do not set, and no variable is listed twice. *)
Theorem merge_env_union (base over : list string) :
  env_map (merge_env base over) = env_map over ∪ env_map base /\ NoDup (omap env_key (merge_env base over)).
Proof.
  split; [apply merge_env_map|]. destruct (merge_env_form base over) as (order & -> & Hnd & Hk & Hp).
  by rewrite omap_key_entries.
Qed.

(** ** What a command started with the defaults runs with *)

(** A specification that is only a number. *)
Definition bare_uid (spec : string) : option Z :=
  match split_once ":" (trim spec) with Some _ => None | None => parse_u32 (trim spec) end.

Lemma parse_numeric_user_spec passwd group spec :
  match parse_numeric_user spec with
  | Some (u, g) => bare_uid spec = Some u /\ g = u \/ bare_uid spec = None /\ resolve_user passwd group spec = Ok (u, g)
  | None => bare_uid spec = None
  end.
Proof.
  unfold parse_numeric_user, bare_uid, resolve_user. set (s := trim spec).
  case_decide as E; [by rewrite E|]. destruct (split_once ":" s) as [[u g]|].
  - destruct (parse_u32 (trim u)) as [uid|] eqn:Eu; [|done]. cbn [mbind option_bind].
    destruct (parse_u32 (trim g)) as [gid|] eqn:Eg; [|done]. cbn [mbind option_bind]. right. split; [done|].
    unfold resolve_uid, resolve_gid. rewrite Eu, Eg.
    rewrite !decide_False by (intros H; rewrite H in *; done). done.
  - destruct (parse_u32 s); cbn [mbind option_bind]; auto.
Qed.

Lemma default_env_spec wenv req :
  let r := default_env wenv req in
  env_map (es_env r) = env_map (es_env req) ∪ env_map wenv
  /\ es_cwd r = es_cwd req /\ es_uid r = es_uid req /\ es_gid r = es_gid req /\ es_user r = es_user req.
Proof.
  unfold default_env. split; [|repeat case_decide; done].
  case_decide as Er; case_decide as Ew; simpl; rewrite ?Er, ?Ew.
  - symmetry. apply (left_id_L ∅ (∪)).
  - symmetry. apply (left_id_L ∅ (∪)).
  - symmetry. apply (right_id_L ∅ (∪)).
  - apply merge_env_map.
Qed.

Lemma default_cwd_spec wd req :
  let r := default_cwd wd req in
  es_cwd r = match es_cwd req with Some c => Some c | None => non_empty wd end
  /\ es_env r = es_env req /\ es_uid r = es_uid req /\ es_gid r = es_gid req /\ es_user r = es_user req.
Proof. unfold default_cwd. destruct (es_cwd req) eqn:E, (non_empty wd); simpl; rewrite ?E; done. Qed.

Lemma default_user_spec passwd group wu req :
  let r := default_user wu req in
  es_env r = es_env req /\ es_cwd r = es_cwd req
  /\ resolve_credentials passwd group r =
       match es_uid req, es_gid req, es_user req, non_empty wu with
       | None, None, None, Some spec =>
         match bare_uid spec with
         | Some n => Ok (Some (n, n))
         | None => Some <$> resolve_user passwd group spec
         end
       | _, _, _, _ => resolve_credentials passwd group req
       end.
Proof.
  unfold default_user. destruct (es_uid req) eqn:Fu; [done|]. destruct (es_gid req) eqn:Fg; [done|].
  destruct (es_user req) eqn:Fs; [done|]. destruct (non_empty wu) as [spec|]; [|done].
  pose proof (parse_numeric_user_spec passwd group spec) as Hn.
  destruct (parse_numeric_user spec) as [[u g]|]; (split_and!; [done..|]); unfold resolve_credentials; simpl.
  - by destruct Hn as [[-> ->]|[-> ->]].
  - rewrite Hn. by destruct (resolve_user passwd group spec).
Qed.

(** A command started in a VM gets the request's environment over the
    workload's, its own working directory or else the workload's, and the
    credentials it names; if it names none, those the guest resolves for the
    workload's user, except that a user given as a bare number runs with that
    number as its group, whatever the guest's password file says. *)
Theorem exec_defaults_effective (passwd group : result io_kind string) (req : ExecStart)
    (wenv : list string) (wd wu : option string) :
  let r := apply_workload_defaults req wenv wd wu in
  env_map (es_env r) = env_map (es_env req) ∪ env_map wenv
  /\ es_cwd r = match es_cwd req with Some c => Some c | None => non_empty wd end
  /\ resolve_credentials passwd group r =
       match es_uid req, es_gid req, es_user req, non_empty wu with
       | None, None, None, Some spec =>
         match bare_uid spec with
         | Some n => Ok (Some (n, n))
         | None => Some <$> resolve_user passwd group spec
         end
       | _, _, _, _ => resolve_credentials passwd group req
       end.
Proof.
  cbv zeta. unfold apply_workload_defaults.
  destruct (default_env_spec wenv req) as (E1 & E2 & E3 & E4 & E5).
  destruct (default_cwd_spec wd (default_env wenv req)) as (D1 & D2 & D3 & D4 & D5).
  destruct (default_user_spec passwd group wu (default_cwd wd (default_env wenv req))) as (F1 & F2 & F3).
  split_and!; [by rewrite F1, D2, E1|by rewrite F2, D1, E2|]. rewrite F3, D3, D4, D5, E3, E4, E5.
  assert (Hsame : resolve_credentials passwd group (default_cwd wd (default_env wenv req)) = resolve_credentials passwd group req)
    by (unfold resolve_credentials; by rewrite D3, D4, D5, E3, E4, E5). by rewrite Hsame.
Qed.

(** The guest alone would have taken the primary group of the number. *)
Example bare_number_ignores_passwd :
  let passwd := Ok (E := io_kind) ("root:x:0:0::/root:/bin/sh" +:+ bytes_str [10] +:+ "app:x:1000:100::/:/bin/sh")%string in
  resolve_user passwd (Err EkNotFound) "1000" = Ok (1000, 100)
  /\ resolve_credentials passwd (Err EkNotFound) (apply_workload_defaults (ExecStart_new "id") [] None (Some "1000"%string))
     = Ok (Some (1000, 1000))
  /\ resolve_credentials passwd (Err EkNotFound) (apply_workload_defaults (ExecStart_new "id") [] None (Some "app"%string))
     = Ok (Some (1000, 100)).
Proof. vm_compute. repeat split. Qed.

(** One line the search cannot read hides every later user from it. *)
Example unreadable_line_ends_search :
  resolve_user (Ok ("+::::::" +:+ bytes_str [10] +:+ "app:x:1000:100::/:/bin/sh")%string) (Err EkNotFound) "1000" = Ok (1000, 1000)
  /\ resolve_user (Ok ("+::::::" +:+ bytes_str [10] +:+ "app:x:1000:100::/:/bin/sh")%string) (Err EkNotFound) "app" = Ok (1000, 100).
Proof. vm_compute. split; reflexivity. Qed.

(** An image's configuration fills only what the options left open. *)
Lemma image_config_fills_gaps wenv wd wu cmd img :
  let '(e, d, u, c) := merge_image_config wenv wd wu cmd img in
  env_map e = env_map wenv ∪ env_map (default [] (env img))
  /\ d = match wd with Some _ => wd | None => non_empty (working_dir img) end
  /\ u = match wu with Some _ => wu | None => non_empty (ImageStore.user img) end
  /\ default [] c = match default [] cmd with [] => command img | l => l end.
Proof.
  unfold merge_image_config. split_and!.
  - destruct (env img) as [[|x l]|]; simpl; [symmetry; apply (right_id_L ∅ (∪))| |symmetry; apply (right_id_L ∅ (∪))].
    case_decide as E; [subst wenv; symmetry; apply (left_id_L ∅ (∪))|]. apply merge_env_map.
  - by destruct wd.
  - by destruct wu.
  - destruct cmd as [[|x l]|]; simpl; [|done|]; by destruct (command img).
Qed.
