(* ===== verification/Events.v ===== *)
(** * Audit events and metrics

    [crates/bux/src/events.rs]: the event kinds, the fan-out dispatcher and the
    ring buffer of recent events, and the counters of
    [crates/bux/src/metrics.rs].  Listeners are shared objects ([Arc]), so the
    dispatcher keeps references into a store of listener states: one registered
    twice hears every event twice.  Mutexes are never poisoned in the model. *)

From S2P Require Import Prelude.

(** ** Events *)

Inductive CopyDirection : Type := CopyIn | CopyOut.

Inductive AuditEventKind : Type :=
  | VmCreated (id : string) (image : option string)
  | VmStarted (id : string)
  | VmStopped (id : string) (exit_code : option Z)
  | VmRemoved (id : string)
  | ExecStarted (vm_id command exec_id : string)
  | ExecCompleted (vm_id exec_id : string) (exit_code duration_ms : Z)
  | SnapshotCreated (vm_id snapshot_id : string)
  | SnapshotRestored (vm_id snapshot_id : string)
  | FileCopied (vm_id : string) (direction : CopyDirection) (path : string).

Record AuditEvent : Type := mkEvent { timestamp : Z; kind : AuditEventKind }.

(** ** Dispatcher *)

Class EventListener (L : Type) : Type := on_event : AuditEvent -> L -> L.

Section Dispatcher.
Context {L : Type} `{EventListener L}.

(** References to listeners, and the listeners. *)
Definition EventDispatcher : Type := list nat.
Abbreviation listener_store := (gmap nat L).

Definition add_listener (l : nat) (d : EventDispatcher) : EventDispatcher := d ++ [l].

Definition emit (d : EventDispatcher) (st : listener_store) (e : AuditEvent) : listener_store :=
  foldl (fun st l => alter (on_event e) l st) st d.

Lemma emit_lookup d st e l x :
  st !! l = Some x -> NoDup d -> emit d st e !! l = Some (if decide (l ∈ d) then on_event e x else x).
Proof.
  unfold emit. revert st x. induction d as [|k d IH]; intros st x Hx Hd; simpl; [done|].
  apply NoDup_cons in Hd as [Hk Hd]. destruct (decide (l = k)) as [->|Hne].
  - rewrite (IH _ (on_event e x)); [|by rewrite lookup_alter_eq, Hx|done].
    rewrite decide_False by done. by rewrite decide_True by set_solver.
  - rewrite (IH _ x); [|by rewrite lookup_alter_ne|done].
    destruct (decide (l ∈ d)); [rewrite decide_True by set_solver|rewrite decide_False by set_solver]; done.
Qed.

(** A listener registered once hears every later event, in order. *)
Lemma heard d st es l x :
  st !! l = Some x -> NoDup d -> l ∈ d -> foldl (emit d) st es !! l = Some (foldl (fun x e => on_event e x) x es).
Proof.
  intros Hx Hd Hl. revert st x Hx. induction es as [|e es IH]; intros st x Hx; simpl; [done|].
  apply IH. rewrite (emit_lookup d st e l x Hx Hd). by rewrite decide_True.
Qed.
End Dispatcher.

(** ** Ring buffer *)

Record RingBufferListener : Type := mkRing {
  rb_slots : list (option AuditEvent);
  rb_write_pos : nat;
  rb_total : Z;
  rb_capacity : nat
}.

Definition new (capacity : nat) : RingBufferListener :=
  let cap := (capacity `max` 1)%nat in mkRing (replicate cap None) 0 0 cap.

Definition total_events (r : RingBufferListener) : Z := rb_total r.

Definition recent (limit : nat) (r : RingBufferListener) : list AuditEvent :=
  let available := (Z.to_nat (rb_total r) `min` rb_capacity r)%nat in
  let take := (limit `min` available)%nat in
  if decide (take = 0%nat) then [] else
  let start := if decide (take <= rb_write_pos r)%nat then (rb_write_pos r - take)%nat
               else (rb_capacity r - (take - rb_write_pos r))%nat in
  omap (fun i => rb_slots r !! ((start + i) mod rb_capacity r)%nat ≫= id) (seq 0 take).

#[global] Instance ring_on_event : EventListener RingBufferListener := fun e r =>
  let pos := rb_write_pos r in
  mkRing (<[(pos mod rb_capacity r)%nat := Some e]> (rb_slots r)) ((pos + 1) mod rb_capacity r)%nat
    (u64 (rb_total r + 1)) (rb_capacity r).

(** What a listener that hears [h] from the start has to offer: the last [k]
    events. *)
Definition lastn {A} (k : nat) (h : list A) : list A := drop (length h - k) h.

(** The buffer after the history [h]: slot [j mod cap] holds the [j]-th event
    for the last [cap] indices. *)
Record ring_ok (cap : nat) (h : list AuditEvent) (r : RingBufferListener) : Prop := {
  ring_cap : rb_capacity r = cap;
  ring_len : length (rb_slots r) = cap;
  ring_pos : rb_write_pos r = (length h mod cap)%nat;
  ring_total : rb_total r = zlen h;
  ring_slot : forall j e, (length h - cap <= j)%nat -> h !! j = Some e -> rb_slots r !! (j mod cap)%nat = Some (Some e)
}.

Lemma mod_near_inj (cap a b : nat) : (0 < cap)%nat -> (a <= b < a + cap)%nat -> (a mod cap = b mod cap)%nat -> a = b.
Proof.
  intros Hc Hab E. pose proof (Nat.div_mod_eq a cap) as Ha. pose proof (Nat.div_mod_eq b cap) as Hb.
  rewrite E in Ha. assert (a / cap = b / cap)%nat by nia. nia.
Qed.

Lemma ring_step cap h r e :
  (0 < cap)%nat -> zlen h + 1 < 2 ^ 64 -> ring_ok cap h r -> ring_ok cap (h ++ [e]) (on_event e r).
Proof.
  intros Hc Hb [E1 E2 E3 E4 E5]. unfold on_event, ring_on_event. split; simpl.
  - done.
  - by rewrite length_insert.
  - rewrite E1, E3, length_app. simpl. by rewrite Nat.Div0.add_mod_idemp_l.
  - rewrite E4, zlen_app, u64_id; [done|]. pose proof (zlen_nonneg h). lia.
  - intros j e' Hj Hl. rewrite length_app in Hj. simpl in Hj. rewrite E1, E3, Nat.Div0.mod_mod.
    apply lookup_snoc_Some in Hl as [[Hlt Hl]|[-> <-]].
    + rewrite list_lookup_insert_ne; [apply E5; [lia|done]|]. intros E. symmetry in E.
      apply mod_near_inj in E; lia.
    + apply list_lookup_insert_eq. rewrite E2. apply Nat.mod_upper_bound. lia.
Qed.

Lemma ring_history cap h :
  zlen h < 2 ^ 64 -> ring_ok (cap `max` 1)%nat h (foldl (fun r e => on_event e r) (new cap) h).
Proof.
  induction h as [|e h IH] using rev_ind; intros Hb.
  - simpl. unfold new. split; simpl; [done|by rewrite length_replicate|by rewrite Nat.Div0.mod_0_l|done|].
    by intros j e _ [=].
  - rewrite zlen_app in Hb. change (zlen [e]) with 1 in Hb. rewrite foldl_app. simpl.
    apply ring_step; [lia|done|]. apply IH. lia.
Qed.

Lemma omap_of_fmap {A B C} (g : B -> option C) (f : A -> B) (l : list A) : omap g (f <$> l) = omap (fun x => g (f x)) l.
Proof. induction l as [|x l IH]; [done|]. cbn. destruct (g (f x)); [f_equal|]; exact IH. Qed.

Lemma omap_seq_drop {A} (g : nat -> option A) (h : list A) a k :
  (a + k <= length h)%nat -> (forall i, (i < k)%nat -> g i = h !! (a + i)%nat) -> omap g (seq 0 k) = take k (drop a h).
Proof.
  revert g a. induction k as [|k IH]; intros g a Hk Hg; [done|].
  destruct (lookup_lt_is_Some_2 h a ltac:(lia)) as [x Hx].
  cbn [seq]. rewrite (drop_S h x a Hx). cbn [take].
  change (omap g (0%nat :: seq 1 k)) with (match g 0%nat with Some y => y :: omap g (seq 1 k) | None => omap g (seq 1 k) end).
  rewrite (Hg 0%nat ltac:(lia)), Nat.add_0_r, Hx. f_equal.
  rewrite <- fmap_S_seq, omap_of_fmap. apply (IH _ (S a)); [lia|].
  intros i Hi. simpl. rewrite Hg by lia. f_equal. lia.
Qed.

Lemma ring_recent cap h r limit :
  (0 < cap)%nat -> ring_ok cap h r -> recent limit r = lastn (limit `min` cap)%nat h.
Proof.
  intros Hc [E1 E2 E3 E4 E5]. unfold recent, lastn. rewrite E4, E1, E3. unfold zlen. rewrite Nat2Z.id.
  set (n := length h) in *. set (k := (limit `min` (n `min` cap))%nat).
  case_decide as Hk; [symmetry; apply drop_ge; fold n; lia|].
  set (start := if decide _ then _ else _).
  assert (Hs : start = ((n - k) mod cap)%nat).
  { unfold start. pose proof (Nat.div_mod_eq n cap) as Hd. pose proof (Nat.mod_upper_bound n cap ltac:(lia)) as Hm.
    case_decide.
    - apply (Nat.mod_unique _ _ (n / cap)); nia.
    - apply (Nat.mod_unique _ _ (n / cap - 1)); [lia|]. assert (n / cap <> 0)%nat by nia. nia. }
  rewrite Hs, (omap_seq_drop _ h (n - k) k); [| fold n; lia |].
  - rewrite take_ge by (rewrite length_drop; fold n; lia). f_equal. lia.
  - intros i Hi. destruct (lookup_lt_is_Some_2 h (n - k + i) ltac:(fold n; lia)) as [x Hx].
    rewrite Hx, Nat.Div0.add_mod_idemp_l, (E5 _ x); [done|lia|done].
Qed.

(** The ring buffer keeps the recent past: a buffer of any capacity, registered
    once with a dispatcher, answers [recent] after any sequence of events with the
    last ones it heard, oldest first, as many as asked for and as the capacity
    (at least one) allows, and counts them all. *)
Theorem ring_keeps_recent (cap limit l : nat) (d : EventDispatcher) (st : gmap nat RingBufferListener) (es : list AuditEvent) :
  NoDup d -> l ∉ d -> zlen es < 2 ^ 64 ->
  exists r, foldl (emit (add_listener l d)) (<[l := new cap]> st) es !! l = Some r
    /\ recent limit r = lastn (limit `min` (cap `max` 1))%nat es /\ total_events r = zlen es.
Proof.
  intros Hd Hl Hb. pose proof (ring_history cap es Hb) as Hr.
  eexists. split; [apply heard|split].
  - apply lookup_insert_eq.
  - unfold add_listener. apply NoDup_app. split_and!; [done| |apply NoDup_singleton]. intros x Hx ->%list_elem_of_singleton. done.
  - unfold add_listener. set_solver.
  - apply ring_recent; [lia|exact Hr].
  - apply (ring_total _ _ _ Hr).
Qed.

Definition sample_event (n : Z) : AuditEvent := mkEvent n (VmStarted "a").

Lemma ring_keeps_recent_witness :
  exists r, foldl (emit (add_listener 0%nat [])) (<[0%nat := new 2]> ∅) (sample_event <$> [1; 2; 3; 4; 5]) !! 0%nat = Some r
    /\ recent 7 r = lastn 2 (sample_event <$> [1; 2; 3; 4; 5]) /\ total_events r = 5.
Proof.
  destruct (ring_keeps_recent 2 7 0 [] ∅ (sample_event <$> [1; 2; 3; 4; 5])) as (r & H1 & H2 & H3);
    [constructor|set_solver|vm_compute; reflexivity|].
  exists r. split; [exact H1|]. split; [exact H2|exact H3].
Defined.

(** ** Metrics: atomic counters, which wrap around at their width *)

Definition i64 (z : Z) : Z := (z + 2 ^ 63) mod 2 ^ 64 - 2 ^ 63.

Record RuntimeMetrics : Type := mkMetrics {
  vms_created : Z;
  vms_running : Z;
  vms_failed : Z;
  total_uptime_ms : Z;
  disk_bytes_used : Z
}.

Definition new_metrics : RuntimeMetrics := mkMetrics 0 0 0 0 0.

Definition on_vm_created (m : RuntimeMetrics) : RuntimeMetrics :=
  mkMetrics (u64 (vms_created m + 1)) (i64 (vms_running m + 1)) (vms_failed m) (total_uptime_ms m) (disk_bytes_used m).

Definition on_vm_stopped (uptime_ms : Z) (m : RuntimeMetrics) : RuntimeMetrics :=
  mkMetrics (vms_created m) (i64 (vms_running m - 1)) (vms_failed m) (u64 (total_uptime_ms m + uptime_ms)) (disk_bytes_used m).

Definition record_failed (m : RuntimeMetrics) : RuntimeMetrics :=
  mkMetrics (vms_created m) (vms_running m) (u64 (vms_failed m + 1)) (total_uptime_ms m) (disk_bytes_used m).

Definition on_vm_failed (uptime_ms : Z) (m : RuntimeMetrics) : RuntimeMetrics :=
  let m := mkMetrics (vms_created m) (i64 (vms_running m - 1)) (vms_failed m) (total_uptime_ms m) (disk_bytes_used m) in
  let m := record_failed m in
  mkMetrics (vms_created m) (vms_running m) (vms_failed m) (u64 (total_uptime_ms m + uptime_ms)) (disk_bytes_used m).

Definition set_disk_bytes_used (bytes : Z) (m : RuntimeMetrics) : RuntimeMetrics :=
  mkMetrics (vms_created m) (vms_running m) (vms_failed m) (total_uptime_ms m) bytes.

Record VmMetrics : Type := mkVmMetrics { boot_duration_ms : Z; exec_count : Z; last_exec_duration_ms : Z }.

Definition new_vm_metrics : VmMetrics := mkVmMetrics 0 0 0.

Definition set_boot_duration_ms (ms : Z) (m : VmMetrics) : VmMetrics := mkVmMetrics ms (exec_count m) (last_exec_duration_ms m).

Definition on_exec_completed (duration_ms : Z) (m : VmMetrics) : VmMetrics :=
  mkVmMetrics (boot_duration_ms m) (u64 (exec_count m + 1)) duration_ms.
