(* ===== verification/Options.v ===== *)
(** * Options and configurations

    [crates/bux/src/options.rs] ([VmOptions] and its builder), the data of
    [secrets.rs], and the functions that turn options into configurations:
    [validate] and [config_from_options] of [runtime/boot/mod.rs],
    [clone_vm_options] of [runtime/mod.rs], and the configuration steps of
    [runtime/boot/guest.rs], [unix.rs] and [spawn.rs].  Times are in nanoseconds. *)

From S2P Require Import Prelude Files Paths Ids Ports Boot Qcow2Format Qcow2Image StateTypes StateDb StateLookup Volumes ManagedGuest ProtoMessages.

(** ** Assignments to fields of a configuration *)

Definition set_root (disk : option string) (fmt : DiskFormat) (base : option string) (c : VmConfig) : VmConfig :=
  mkVmConfig (vcpus c) (ram_mib c) (rootfs c) disk fmt base (exec_path c) (exec_args c) (cfg_env c) (ports c)
    (published_ports c) (virtiofs c) (vsock_ports c) (network c) (secrets_required c) (workload_env c)
    (workload_workdir c) (workload_user c) (workload_cmd c) (security c) (security_status c) (auto_remove c)
    (auto_stop_secs c) (auto_delete_secs c) (last_activity_at c) (last_error c) (detach c) (agent_id c)
    (tenant_id c).

Definition set_exec (p : option string) (args : list string) (env : option (list string)) (c : VmConfig) : VmConfig :=
  mkVmConfig (vcpus c) (ram_mib c) (rootfs c) (root_disk c) (disk_format c) (base_disk c) p args env (ports c)
    (published_ports c) (virtiofs c) (vsock_ports c) (network c) (secrets_required c) (workload_env c)
    (workload_workdir c) (workload_user c) (workload_cmd c) (security c) (security_status c) (auto_remove c)
    (auto_stop_secs c) (auto_delete_secs c) (last_activity_at c) (last_error c) (detach c) (agent_id c)
    (tenant_id c).

Definition set_env (env : option (list string)) (c : VmConfig) : VmConfig :=
  mkVmConfig (vcpus c) (ram_mib c) (rootfs c) (root_disk c) (disk_format c) (base_disk c) (exec_path c)
    (exec_args c) env (ports c) (published_ports c) (virtiofs c) (vsock_ports c) (network c)
    (secrets_required c) (workload_env c) (workload_workdir c) (workload_user c) (workload_cmd c) (security c)
    (security_status c) (auto_remove c) (auto_stop_secs c) (auto_delete_secs c) (last_activity_at c)
    (last_error c) (detach c) (agent_id c) (tenant_id c).

Definition set_ports (ps : list string) (published : list PublishedPort) (c : VmConfig) : VmConfig :=
  mkVmConfig (vcpus c) (ram_mib c) (rootfs c) (root_disk c) (disk_format c) (base_disk c) (exec_path c)
    (exec_args c) (cfg_env c) ps published (virtiofs c) (vsock_ports c) (network c) (secrets_required c)
    (workload_env c) (workload_workdir c) (workload_user c) (workload_cmd c) (security c) (security_status c)
    (auto_remove c) (auto_stop_secs c) (auto_delete_secs c) (last_activity_at c) (last_error c) (detach c)
    (agent_id c) (tenant_id c).

Definition set_vsock (vs : list VsockPort) (c : VmConfig) : VmConfig :=
  mkVmConfig (vcpus c) (ram_mib c) (rootfs c) (root_disk c) (disk_format c) (base_disk c) (exec_path c)
    (exec_args c) (cfg_env c) (ports c) (published_ports c) (virtiofs c) vs (network c) (secrets_required c)
    (workload_env c) (workload_workdir c) (workload_user c) (workload_cmd c) (security c) (security_status c)
    (auto_remove c) (auto_stop_secs c) (auto_delete_secs c) (last_activity_at c) (last_error c) (detach c)
    (agent_id c) (tenant_id c).

Definition set_secrets_required (b : bool) (c : VmConfig) : VmConfig :=
  mkVmConfig (vcpus c) (ram_mib c) (rootfs c) (root_disk c) (disk_format c) (base_disk c) (exec_path c)
    (exec_args c) (cfg_env c) (ports c) (published_ports c) (virtiofs c) (vsock_ports c) (network c) b
    (workload_env c) (workload_workdir c) (workload_user c) (workload_cmd c) (security c) (security_status c)
    (auto_remove c) (auto_stop_secs c) (auto_delete_secs c) (last_activity_at c) (last_error c) (detach c)
    (agent_id c) (tenant_id c).

Definition set_security_status (st : SecurityStatus) (c : VmConfig) : VmConfig :=
  mkVmConfig (vcpus c) (ram_mib c) (rootfs c) (root_disk c) (disk_format c) (base_disk c) (exec_path c)
    (exec_args c) (cfg_env c) (ports c) (published_ports c) (virtiofs c) (vsock_ports c) (network c)
    (secrets_required c) (workload_env c) (workload_workdir c) (workload_user c) (workload_cmd c) (security c)
    st (auto_remove c) (auto_stop_secs c) (auto_delete_secs c) (last_activity_at c) (last_error c) (detach c)
    (agent_id c) (tenant_id c).

Definition set_auto_remove (b : bool) (c : VmConfig) : VmConfig :=
  mkVmConfig (vcpus c) (ram_mib c) (rootfs c) (root_disk c) (disk_format c) (base_disk c) (exec_path c)
    (exec_args c) (cfg_env c) (ports c) (published_ports c) (virtiofs c) (vsock_ports c) (network c)
    (secrets_required c) (workload_env c) (workload_workdir c) (workload_user c) (workload_cmd c) (security c)
    (security_status c) b (auto_stop_secs c) (auto_delete_secs c) (last_activity_at c) (last_error c) (detach c)
    (agent_id c) (tenant_id c).

Definition set_auto_stop (secs : option N) (c : VmConfig) : VmConfig :=
  mkVmConfig (vcpus c) (ram_mib c) (rootfs c) (root_disk c) (disk_format c) (base_disk c) (exec_path c)
    (exec_args c) (cfg_env c) (ports c) (published_ports c) (virtiofs c) (vsock_ports c) (network c)
    (secrets_required c) (workload_env c) (workload_workdir c) (workload_user c) (workload_cmd c) (security c)
    (security_status c) (auto_remove c) secs (auto_delete_secs c) (last_activity_at c) (last_error c) (detach c)
    (agent_id c) (tenant_id c).

Definition set_touched (t : option Z) (e : option string) (c : VmConfig) : VmConfig :=
  mkVmConfig (vcpus c) (ram_mib c) (rootfs c) (root_disk c) (disk_format c) (base_disk c) (exec_path c)
    (exec_args c) (cfg_env c) (ports c) (published_ports c) (virtiofs c) (vsock_ports c) (network c)
    (secrets_required c) (workload_env c) (workload_workdir c) (workload_user c) (workload_cmd c) (security c)
    (security_status c) (auto_remove c) (auto_stop_secs c) (auto_delete_secs c) t e (detach c) (agent_id c)
    (tenant_id c).

(** ** options.rs and secrets.rs *)

Inductive ImageRef : Type := Oci (reference : string) | Rootfs (p : string) | BaseDisk (p : string).

Definition label (i : ImageRef) : string := match i with Oci r => r | Rootfs p | BaseDisk p => p end.

Record Secret : Type := mkSecret { sec_name : string; sec_hosts : list string; sec_value : string; sec_placeholder : option string }.

Definition Secret_new (name : string) (hosts : list string) (value : string) : Secret := mkSecret name hosts value None.
Definition default_placeholder (name : string) : string := "<BUX_SECRET:" +:+ name +:+ ">".
Definition placeholder_str (s : Secret) : string := default (default_placeholder (sec_name s)) (sec_placeholder s).

Record ShimSecret : Type := mkShimSecret { sh_name : string; sh_hosts : list string; sh_placeholder : string; sh_value : string }.
Definition to_shim_secret (s : Secret) : ShimSecret := mkShimSecret (sec_name s) (sec_hosts s) (placeholder_str s) (sec_value s).

Record LiveSecrets : Type := mkLive { ls_secrets : list Secret; ls_ca_cert_pem : string; ls_ca_key_pem : string }.
Definition to_shim_secrets (l : LiveSecrets) : list ShimSecret := to_shim_secret <$> ls_secrets l.

Record StartOptions : Type := mkStart { so_ready_timeout : option Z; so_secrets : list Secret }.

Record VmOptions : Type := mkOptions {
  op_image : ImageRef;
  op_name : option string;
  op_agent_id : option string;
  op_tenant_id : option string;
  op_vcpus : Z;
  op_ram_mib : Z;
  op_ports : list string;
  op_secrets : list Secret;
  op_network : NetworkSpec;
  op_volumes : list VolumeMount;
  op_command : option (list string);
  op_env : list string;
  op_workdir : option string;
  op_user : option string;
  op_auto_remove : bool;
  op_ready_timeout : Z;
  op_detach : bool;
  op_security : SecurityOptions;
  op_auto_stop_secs : option N;
  op_auto_delete_secs : option N
}.

Definition READY_30S : Z := 30 * NANOS.

(** [VmOptions::from_image] on the build's platform. *)
Definition from_image (linux : bool) (image : ImageRef) : VmOptions :=
  mkOptions image None None None 1 512 [] [] (NetEnabled []) [] None [] None None false READY_30S false
    (default_security linux) None None.

Definition opt_name (n : string) (o : VmOptions) : VmOptions :=
  mkOptions (op_image o) (Some n) (op_agent_id o) (op_tenant_id o) (op_vcpus o) (op_ram_mib o) (op_ports o)
    (op_secrets o) (op_network o) (op_volumes o) (op_command o) (op_env o) (op_workdir o) (op_user o)
    (op_auto_remove o) (op_ready_timeout o) (op_detach o) (op_security o) (op_auto_stop_secs o)
    (op_auto_delete_secs o).

Definition opt_agent_id (i : string) (o : VmOptions) : VmOptions :=
  mkOptions (op_image o) (op_name o) (Some i) (op_tenant_id o) (op_vcpus o) (op_ram_mib o) (op_ports o)
    (op_secrets o) (op_network o) (op_volumes o) (op_command o) (op_env o) (op_workdir o) (op_user o)
    (op_auto_remove o) (op_ready_timeout o) (op_detach o) (op_security o) (op_auto_stop_secs o)
    (op_auto_delete_secs o).

Definition opt_tenant_id (i : string) (o : VmOptions) : VmOptions :=
  mkOptions (op_image o) (op_name o) (op_agent_id o) (Some i) (op_vcpus o) (op_ram_mib o) (op_ports o)
    (op_secrets o) (op_network o) (op_volumes o) (op_command o) (op_env o) (op_workdir o) (op_user o)
    (op_auto_remove o) (op_ready_timeout o) (op_detach o) (op_security o) (op_auto_stop_secs o)
    (op_auto_delete_secs o).

Definition opt_resources (vcpus ram_mib : Z) (o : VmOptions) : VmOptions :=
  mkOptions (op_image o) (op_name o) (op_agent_id o) (op_tenant_id o) vcpus ram_mib (op_ports o) (op_secrets o)
    (op_network o) (op_volumes o) (op_command o) (op_env o) (op_workdir o) (op_user o) (op_auto_remove o)
    (op_ready_timeout o) (op_detach o) (op_security o) (op_auto_stop_secs o) (op_auto_delete_secs o).

Definition opt_network (n : NetworkSpec) (o : VmOptions) : VmOptions :=
  mkOptions (op_image o) (op_name o) (op_agent_id o) (op_tenant_id o) (op_vcpus o) (op_ram_mib o) (op_ports o)
    (op_secrets o) n (op_volumes o) (op_command o) (op_env o) (op_workdir o) (op_user o) (op_auto_remove o)
    (op_ready_timeout o) (op_detach o) (op_security o) (op_auto_stop_secs o) (op_auto_delete_secs o).

Definition opt_volume (m : VolumeMount) (o : VmOptions) : VmOptions :=
  mkOptions (op_image o) (op_name o) (op_agent_id o) (op_tenant_id o) (op_vcpus o) (op_ram_mib o) (op_ports o)
    (op_secrets o) (op_network o) (op_volumes o ++ [m]) (op_command o) (op_env o) (op_workdir o) (op_user o)
    (op_auto_remove o) (op_ready_timeout o) (op_detach o) (op_security o) (op_auto_stop_secs o)
    (op_auto_delete_secs o).

Definition opt_env (vars : list string) (o : VmOptions) : VmOptions :=
  mkOptions (op_image o) (op_name o) (op_agent_id o) (op_tenant_id o) (op_vcpus o) (op_ram_mib o) (op_ports o)
    (op_secrets o) (op_network o) (op_volumes o) (op_command o) vars (op_workdir o) (op_user o)
    (op_auto_remove o) (op_ready_timeout o) (op_detach o) (op_security o) (op_auto_stop_secs o)
    (op_auto_delete_secs o).

Definition opt_workdir (p : string) (o : VmOptions) : VmOptions :=
  mkOptions (op_image o) (op_name o) (op_agent_id o) (op_tenant_id o) (op_vcpus o) (op_ram_mib o) (op_ports o)
    (op_secrets o) (op_network o) (op_volumes o) (op_command o) (op_env o) (Some p) (op_user o)
    (op_auto_remove o) (op_ready_timeout o) (op_detach o) (op_security o) (op_auto_stop_secs o)
    (op_auto_delete_secs o).

Definition opt_auto_remove (yes : bool) (o : VmOptions) : VmOptions :=
  mkOptions (op_image o) (op_name o) (op_agent_id o) (op_tenant_id o) (op_vcpus o) (op_ram_mib o) (op_ports o)
    (op_secrets o) (op_network o) (op_volumes o) (op_command o) (op_env o) (op_workdir o) (op_user o) yes
    (op_ready_timeout o) (op_detach o) (op_security o) (op_auto_stop_secs o) (op_auto_delete_secs o).

Definition opt_detach (yes : bool) (o : VmOptions) : VmOptions :=
  mkOptions (op_image o) (op_name o) (op_agent_id o) (op_tenant_id o) (op_vcpus o) (op_ram_mib o) (op_ports o)
    (op_secrets o) (op_network o) (op_volumes o) (op_command o) (op_env o) (op_workdir o) (op_user o)
    (op_auto_remove o) (op_ready_timeout o) yes (op_security o) (op_auto_stop_secs o) (op_auto_delete_secs o).

Definition opt_security (s : SecurityOptions) (o : VmOptions) : VmOptions :=
  mkOptions (op_image o) (op_name o) (op_agent_id o) (op_tenant_id o) (op_vcpus o) (op_ram_mib o) (op_ports o)
    (op_secrets o) (op_network o) (op_volumes o) (op_command o) (op_env o) (op_workdir o) (op_user o)
    (op_auto_remove o) (op_ready_timeout o) (op_detach o) s (op_auto_stop_secs o) (op_auto_delete_secs o).

Definition opt_ready_timeout (d : Z) (o : VmOptions) : VmOptions :=
  mkOptions (op_image o) (op_name o) (op_agent_id o) (op_tenant_id o) (op_vcpus o) (op_ram_mib o) (op_ports o)
    (op_secrets o) (op_network o) (op_volumes o) (op_command o) (op_env o) (op_workdir o) (op_user o)
    (op_auto_remove o) d (op_detach o) (op_security o) (op_auto_stop_secs o) (op_auto_delete_secs o).

Definition opt_auto_stop_secs (secs : option N) (o : VmOptions) : VmOptions :=
  mkOptions (op_image o) (op_name o) (op_agent_id o) (op_tenant_id o) (op_vcpus o) (op_ram_mib o) (op_ports o)
    (op_secrets o) (op_network o) (op_volumes o) (op_command o) (op_env o) (op_workdir o) (op_user o)
    (op_auto_remove o) (op_ready_timeout o) (op_detach o) (op_security o) secs (op_auto_delete_secs o).

Definition opt_process (env : list string) (workdir user : option string) (cmd : option (list string)) (o : VmOptions) : VmOptions :=
  mkOptions (op_image o) (op_name o) (op_agent_id o) (op_tenant_id o) (op_vcpus o) (op_ram_mib o) (op_ports o)
    (op_secrets o) (op_network o) (op_volumes o) cmd env workdir user (op_auto_remove o) (op_ready_timeout o)
    (op_detach o) (op_security o) (op_auto_stop_secs o) (op_auto_delete_secs o).

(** ** runtime/mod.rs: the options of a clone *)

Definition clone_vm_options (linux : bool) (config : VmConfig) (name : option string) (clone_base : string) : VmOptions :=
  let opts := opt_network (network config) (opt_detach true (opt_auto_remove (auto_remove config)
                (opt_resources (vcpus config) (ram_mib config) (from_image linux (BaseDisk clone_base))))) in
  let opts :=
    match tenant_id config with
    | None => opts
    | Some tenant =>
      let opts := opt_tenant_id tenant opts in
      match name ≫= agent_id_from_sandbox_name tenant with
      | None => opts
      | Some agent =>
        opt_volume (named ("ws-" +:+ tenant +:+ "-" +:+ agent) "/workspace") (opt_agent_id agent opts)
      end
    end in
  match name with Some n => opt_name n opts | None => opts end.

(** ** runtime/boot/mod.rs *)

Definition require_virtualization (virtualization : bool) : result Error () :=
  if virtualization then Ok () else Err SecurityUnavailable.

Definition port_err (e : port_error) : Error := match e with ProbeIo k => StateTypes.Io k | _ => InvalidConfig end.

Fixpoint parse_all (specs : list string) : result Error (list PortSpec) :=
  match specs with
  | [] => Ok []
  | s :: r => p ← map_err port_err (parse_publish_spec s); ps ← parse_all r; Ok (p :: ps)
  end.

Definition validate_options (o : VmOptions) : result Error () :=
  if op_vcpus o =? 0 then Err InvalidConfig
  else if op_ram_mib o =? 0 then Err InvalidConfig
  else if negb (bool_decide (length (op_secrets o) = 0%nat)) && negb (is_enabled (op_network o)) then Err SecretsNeedVirtioNet
  else if negb (is_enabled (op_network o)) && negb (bool_decide (op_ports o = [])) then Err InvalidConfig
  else parse_all (op_ports o) ≫= fun _ => Ok ().

Definition config_from_options (linux : bool) (now : Z) (o : VmOptions) (rootfs base_disk : option string) (vfs : list VirtioFs) : VmConfig :=
  mkVmConfig (op_vcpus o) (op_ram_mib o) rootfs None DiskRaw base_disk None [] None (op_ports o) [] vfs []
    (op_network o) (negb (bool_decide (length (op_secrets o) = 0%nat))) (op_env o) (op_workdir o) (op_user o) (default [] (op_command o))
    (op_security o) (security_status (default_config linux)) (op_auto_remove o) (op_auto_stop_secs o) (op_auto_delete_secs o)
    (Some now) None (op_detach o) (op_agent_id o) (op_tenant_id o).

(** ** runtime/boot/guest.rs *)

Definition is_overlay_only (c : VmConfig) : bool :=
  match root_disk c, rootfs c, base_disk c with Some _, None, None => true | _, _, _ => false end.

Definition set_guest_pid1 (c : VmConfig) : VmConfig := set_exec (Some GUEST_EXEC_PATH) [] None c.

Section GuestConfig.
(** [ManagedGuestBinary::resolve], [inject_into_rootfs] of the resolved binary,
    and the JSON of the boot configuration. *)
Context (resolve_guest : result Error ManagedGuestBinary) (inject_rootfs : ManagedGuestBinary -> string -> result Error ()).
Context (boot_json : GuestBootConfig -> option string).

Definition apply_guest_pid1 (c : VmConfig) : result Error VmConfig :=
  guest ← resolve_guest;
  match rootfs c with Some r => inject_rootfs guest r | None => Ok () end ≫= fun _ =>
  Ok (set_guest_pid1 c).

Definition prepare_managed_config (c : VmConfig) : result Error VmConfig :=
  if is_overlay_only c then Err InvalidConfig else apply_guest_pid1 c.

Definition prepare_restart_config (c : VmConfig) : result Error VmConfig :=
  if is_overlay_only c then Ok (set_guest_pid1 c) else apply_guest_pid1 c.

Fixpoint guest_volumes (l : list VirtioFs) : result Error (list GuestVolume) :=
  match l with
  | [] => Ok []
  | v :: r =>
    let vol := mkGuestVolume (vf_tag v) (vf_guest_path v) (vf_read_only v) in
    map_err (fun _ => InvalidConfig) (Boot.validate vol) ≫= fun _ =>
    vs ← guest_volumes r; Ok (vol :: vs)
  end.

Definition inject_guest_boot_env (vm_id : string) (mitm_ca_pem : option string) (c : VmConfig) : result Error VmConfig :=
  let mode := if is_enabled (network c) then Boot.NetEnabled else Boot.NetDisabled in
  vols ← guest_volumes (virtiofs c);
  entry ← map_err (fun _ => InvalidConfig) (to_env_assignment boot_json (mkBootConfig mode mitm_ca_pem vm_id vols));
  Ok (set_env (Some [entry]) c).
End GuestConfig.

(** ** runtime/boot/unix.rs *)

Definition MAX_SUN_PATH : Z := 104.

Definition reject_long_unix_path (p : string) : result Error () :=
  if MAX_SUN_PATH <=? Z.of_nat (String.length p) then Err InvalidConfig else Ok ().

Record ShimNetwork : Type := mkShimNet { sn_socket_path : string; sn_dgram : bool; sn_mac : list Z }.
Record ShimGvproxy : Type := mkShimGv {
  gv_port_mappings : list (Z * Z);
  gv_allow_net : list string;
  gv_secrets : list ShimSecret;
  gv_ca_cert_pem : string;
  gv_ca_key_pem : string
}.

Definition GUEST_MAC : list Z := [0x5a; 0x94; 0xef; 0xe4; 0x0c; 0xee].

(** The network part of the shim's configuration, with the VM's configuration as
    it was left, also by a failure; the socket that the caller unlinks is
    [socks_dir/id.net.sock]. *)
Definition prepare_virtio_net (macos : bool) (probes : list (result io_kind Z)) (id socks_dir : string) (live : option LiveSecrets) (c : VmConfig)
    : result Error (option (ShimNetwork * ShimGvproxy)) * VmConfig :=
  if negb (is_enabled (network c)) then (Ok None, set_ports (ports c) [] c) else
  match specs ← parse_all (ports c); map_err port_err (resolve_ports probes specs) with
  | Err e => (Err e, c)
  | Ok (pairs, published) =>
    let c := set_ports (format_port_pairs pairs) published c in
    let socket_path := (socks_dir +:+ "/" +:+ id +:+ ".net.sock")%string in
    match reject_long_unix_path socket_path with
    | Err e => (Err e, c)
    | Ok _ =>
      (Ok (Some (mkShimNet socket_path macos GUEST_MAC,
                 mkShimGv pairs (allow_net (network c)) (default [] (to_shim_secrets <$> live))
                   (default ""%string (ls_ca_cert_pem <$> live)) (default ""%string (ls_ca_key_pem <$> live)))), c)
    end
  end.

(** ** runtime/boot/spawn.rs *)

Record SpawnPolicy : Type := mkPolicy { watch_parent : bool; die_with_parent : bool; network_host : bool }.

Definition spawn_policy (c : VmConfig) : SpawnPolicy := mkPolicy (negb (detach c)) (negb (detach c)) (is_enabled (network c)).

Record ShimConfig : Type := mkShimConfig {
  sc_vcpus : Z;
  sc_ram_mib : Z;
  sc_rootfs : option string;
  sc_root_disk : option string;
  sc_disk_format : DiskFormat;
  sc_virtiofs : list (string * string * bool);
  sc_vsock_ports : list VsockPort;
  sc_network : option ShimNetwork;
  sc_gvproxy : option ShimGvproxy;
  sc_exec_path : option string;
  sc_exec_args : list string;
  sc_env : option (list string)
}.

Definition to_shim_config (c : VmConfig) (network : option ShimNetwork) (gvproxy : option ShimGvproxy) : ShimConfig :=
  mkShimConfig (vcpus c) (ram_mib c) (rootfs c) (root_disk c) (disk_format c)
    ((fun v => (vf_tag v, vf_path v, vf_read_only v)) <$> virtiofs c) (vsock_ports c) network gvproxy
    (exec_path c) (exec_args c) (cfg_env c).
