(* ===== verification/Jail.v ===== *)
(** * The jail of the shim process

    [crates/bux-jail/src/lib.rs], [bwrap.rs], [landlock_setup.rs], [pre_exec.rs]
    and [security.rs], with the command builder of [crates/bux-bwrap] and the
    path lists of [crates/bux-landlock]: which command line isolates the shim,
    which Landlock rules it runs under, and when a spawn is refused.  The kernel
    ([exec], the Landlock ruleset, which paths exist) is a parameter; the macOS
    profile text is one too.  What a bubblewrap command line mounts is read off
    its arguments, in order. *)

From S2P Require Import Prelude Files Paths Ports StateTypes.

Inductive platform : Type := Linux | MacOs | OtherUnix.

(** ** security.rs and error.rs *)

Inductive SandboxKind : Type := Bwrap | Seatbelt | Noop.

Definition kind_str (k : SandboxKind) : string :=
  match k with Bwrap => "bwrap" | Seatbelt => "seatbelt" | Noop => "noop" end.

Record SecurityReport : Type := mkSecReport { sr_sandbox : SandboxKind; sr_landlock : LayerStatus; sr_mac : LayerStatus }.

Definition from_report (r : SecurityReport) : SecurityStatus :=
  mkSecStatus (kind_str (sr_sandbox r)) (sr_landlock r) (sr_mac r).

Inductive jail_error : Type := JailIo (k : io_kind) | LandlockUnavailable | BwrapUnavailable | LandlockRuleset.

(** ** The child's command *)

Record Command : Type := mkCommand {
  cm_program : string;
  cm_args : list string;
  cm_watchdog_env : option Z;
  cm_landlock : option Z;
  cm_pdeathsig : bool;
  cm_keep_fd : option Z
}.

Definition command_new (program : string) (args : list string) : Command := mkCommand program args None None false None.

(** ** bux-bwrap: the command builder *)

Inductive Namespace : Type := NsPid | NsIpc | NsUts | NsUser | NsCgroup | NsNet.

Definition flag (n : Namespace) : string :=
  match n with
  | NsPid => "--unshare-pid" | NsIpc => "--unshare-ipc" | NsUts => "--unshare-uts"
  | NsUser => "--unshare-user" | NsCgroup => "--unshare-cgroup" | NsNet => "--unshare-net"
  end.

Record BwrapCommand : Type := mkBwrap {
  bw_bwrap : string; bw_args : list string; bw_program : option string; bw_program_args : list string
}.

Definition push_args (a : list string) (b : BwrapCommand) : BwrapCommand :=
  mkBwrap (bw_bwrap b) (bw_args b ++ a) (bw_program b) (bw_program_args b).

Definition from_path (is_file : string -> bool) (bwrap : string) : option BwrapCommand :=
  if is_file bwrap then Some (mkBwrap bwrap [] None []) else None.
Definition unshare (ns : list Namespace) (b : BwrapCommand) : BwrapCommand := push_args (flag <$> ns) b.
Definition with_die_with_parent (b : BwrapCommand) : BwrapCommand := push_args ["--die-with-parent"] b.
Definition ro_bind (host guest : string) (b : BwrapCommand) : BwrapCommand := push_args ["--ro-bind"; host; guest] b.
Definition bind (host guest : string) (b : BwrapCommand) : BwrapCommand := push_args ["--bind"; host; guest] b.
Definition dev_bind (host guest : string) (b : BwrapCommand) : BwrapCommand := push_args ["--dev-bind"; host; guest] b.
Definition tmpfs (mount_point : string) (b : BwrapCommand) : BwrapCommand := push_args ["--tmpfs"; mount_point] b.
Definition program (p : string) (b : BwrapCommand) : BwrapCommand := mkBwrap (bw_bwrap b) (bw_args b) (Some p) (bw_program_args b).
Definition arg (a : string) (b : BwrapCommand) : BwrapCommand := mkBwrap (bw_bwrap b) (bw_args b) (bw_program b) (bw_program_args b ++ [a]).

Definition into_command (b : BwrapCommand) : Command :=
  command_new (bw_bwrap b)
    (bw_args b ++ match bw_program b with Some p => "--" :: p :: bw_program_args b | None => [] end).

(** ** bux-landlock: path lists *)

Record PathRestrictions : Type := mkRestr { read_paths : list path; read_write_paths : list path; deny_network : bool }.

Definition no_restrictions : PathRestrictions := mkRestr [] [] false.
Definition allow_read (p : path) (r : PathRestrictions) : PathRestrictions :=
  mkRestr (read_paths r ++ [p]) (read_write_paths r) (deny_network r).
Definition allow_read_write (p : path) (r : PathRestrictions) : PathRestrictions :=
  mkRestr (read_paths r) (read_write_paths r ++ [p]) (deny_network r).
Definition denied_network (r : PathRestrictions) : PathRestrictions := mkRestr (read_paths r) (read_write_paths r) true.

(** ** lib.rs *)

Record JailConfig : Type := mkJail {
  jc_rootfs : option string;
  jc_root_disk : option string;
  jc_readonly_paths : list path;
  jc_socks_dir : string;
  jc_virtiofs_paths : list string;
  jc_watchdog_fd : option Z;
  jc_noop_sandbox : bool;
  jc_landlock : bool;
  jc_allow_degraded : bool;
  jc_die_with_parent : bool;
  jc_network_host : bool;
  jc_bwrap_path : option string
}.

Section Jail.
Context (os : platform) (exists_ : path -> bool) (is_file : string -> bool).
(** The macOS profile, the kernel's answer to a Landlock ruleset ([None]: no
    Landlock), and the process the kernel starts. *)
Context (profile : string -> string -> JailConfig -> string).
Context (landlock_build : PathRestrictions -> option (option Z)) (exec : Command -> result io_kind Z).

Definition noop_wrap (shim config_path : string) : Command := command_new shim [config_path].

Definition bwrap_wrap (shim config_path : string) (jail : JailConfig) : option Command :=
  b ← jc_bwrap_path jail; b ← from_path is_file b;
  let b := unshare [NsPid; NsIpc; NsUts] b in
  let b := if jc_die_with_parent jail then with_die_with_parent b else b in
  let b := tmpfs "/dev/shm" (tmpfs "/tmp" (ro_bind "/" "/" b)) in
  let b := if exists_ (components "/dev/kvm") then dev_bind "/dev/kvm" "/dev/kvm" b else b in
  let b := match jc_rootfs jail with Some r => bind r r b | None => b end in
  let b := match jc_root_disk jail with Some d => bind d d b | None => b end in
  let b := bind (jc_socks_dir jail) (jc_socks_dir jail) b in
  let b := foldl (fun b p => bind p p b) b (jc_virtiofs_paths jail) in
  let b := ro_bind config_path config_path b in
  Some (into_command (arg config_path (program shim b))).

Definition SANDBOX_EXEC : string := "/usr/bin/sandbox-exec".

Definition seatbelt_wrap (shim config_path : string) (jail : JailConfig) : option Command :=
  if negb (is_file SANDBOX_EXEC) then None
  else Some (command_new SANDBOX_EXEC ["-p"; profile shim config_path jail; "--"; shim; config_path]).

Definition platform_sandbox (shim config_path : string) (jail : JailConfig) : option (Command * SandboxKind) :=
  match os with
  | Linux => c ← bwrap_wrap shim config_path jail; Some (c, Bwrap)
  | MacOs => c ← seatbelt_wrap shim config_path jail; Some (c, Seatbelt)
  | OtherUnix => None
  end.

Definition build_command (shim config_path : string) (jail : JailConfig) : result jail_error (Command * SandboxKind) :=
  if jc_noop_sandbox jail then Ok (noop_wrap shim config_path, Noop) else
  match platform_sandbox shim config_path jail with
  | Some r => Ok r
  | None => match os with
            | Linux => Err BwrapUnavailable
            | _ => Ok (noop_wrap shim config_path, Noop)
            end
  end.

(** *** landlock_setup.rs *)

Definition SYSTEM_TREES : list string :=
  ["/usr"; "/bin"; "/sbin"; "/lib"; "/lib64"; "/etc"; "/opt"; "/System"; "/Library"; "/Applications"].
Definition DEV_RW_LEAVES : list string := ["/dev/kvm"; "/dev/null"; "/dev/zero"; "/dev/urandom"; "/dev/random"; "/dev/shm"].

Definition if_exists (add : path -> PathRestrictions -> PathRestrictions) (r : PathRestrictions) (p : path) : PathRestrictions :=
  if exists_ p then add p r else r.

Definition allow_dev (r : PathRestrictions) : PathRestrictions :=
  foldl (fun r p => if_exists allow_read_write r (components p)) (if_exists allow_read r (components "/dev")) DEV_RW_LEAVES.

Definition allow_path_and_parent (ro : bool) (r : PathRestrictions) (p : path) : PathRestrictions :=
  let add := if ro then allow_read else allow_read_write in
  let r := if_exists add r p in
  match parent p with
  | Some d => if negb (bool_decide (d = [])) && exists_ d then add d r else r
  | None => r
  end.

Definition path_restrictions (jail : JailConfig) (shim config_path : string) : PathRestrictions :=
  let r := foldl (fun r p => if_exists allow_read r (components p)) no_restrictions SYSTEM_TREES in
  let r := allow_dev r in
  let r := if_exists allow_read_write r (components "/tmp") in
  let r := if_exists allow_read_write r (components "/var/tmp") in
  let r := if_exists allow_read r (components "/proc") in
  let r := allow_path_and_parent true r (components shim) in
  let r := allow_path_and_parent true r (components config_path) in
  let r := match jc_rootfs jail with Some d => allow_read_write (components d) r | None => r end in
  let r := match jc_root_disk jail with Some d => allow_path_and_parent false r (components d) | None => r end in
  let r := foldl (allow_path_and_parent true) r (jc_readonly_paths jail) in
  let r := allow_read_write (components (jc_socks_dir jail)) r in
  let r := foldl (fun r p => allow_read_write (components p) r) r (jc_virtiofs_paths jail) in
  if negb (jc_network_host jail) then denied_network r else r.

Definition prepare_landlock (jail : JailConfig) (shim config_path : string) : result jail_error (option Z * LayerStatus) :=
  if negb (jc_landlock jail) then Ok (None, match os with Linux => LayerDisabled | _ => NotApplicable end) else
  match os with
  | Linux =>
    match landlock_build (path_restrictions jail shim config_path) with
    | Some (Some fd) => Ok (Some fd, Enforced)
    | Some None => if jc_allow_degraded jail then Ok (None, Degraded) else Err LandlockUnavailable
    | None => Err LandlockRuleset
    end
  | _ => Ok (None, NotApplicable)
  end.

Definition mac_status (k : SandboxKind) : LayerStatus :=
  match k with
  | Seatbelt => Enforced
  | Bwrap | Noop => match os with MacOs => LayerDisabled | _ => NotApplicable end
  end.

Definition spawn (shim config_path : string) (jail : JailConfig) : result jail_error (Z * SecurityReport) :=
  '(cmd, kind) ← build_command shim config_path jail;
  '(fd, status) ← prepare_landlock jail shim config_path;
  let cmd := mkCommand (cm_program cmd) (cm_args cmd) (jc_watchdog_fd jail) fd (jc_die_with_parent jail) (jc_watchdog_fd jail) in
  pid ← map_err JailIo (exec cmd);
  Ok (pid, mkSecReport kind status (mac_status kind)).
End Jail.

(** *** pre_exec.rs: the descriptors of the child *)

Definition U32_TOP : Z := U32_MAX.

Definition close_range (lo hi : Z) (fds : gset Z) : gset Z := filter (fun fd => fd < lo \/ hi < fd) fds.

Definition close_all_fds (fds : gset Z) : gset Z := close_range 3 U32_TOP fds.

Definition close_fds_preserving (keep : Z) (fds : gset Z) : gset Z :=
  let fds := if 3 <? keep then close_range 3 (keep - 1) fds else fds in
  close_range (keep + 1) U32_TOP fds.

Definition close_inherited_fds (preserve : option Z) (fds : gset Z) : gset Z :=
  match preserve with Some keep => close_fds_preserving keep fds | None => close_all_fds fds end.

(** ** What a bubblewrap command line shows its process *)

(** A mount: what is shown ([None] for a fresh tmpfs, otherwise a host path and
    whether it may be written) and where. *)
Record mount : Type := mkMount { mt_source : option (path * bool); mt_guest : path }.

(** bwrap's options, which it performs in the order given; [--] ends them. *)
Fixpoint mounts (args : list string) : list mount :=
  match args with
  | [] => []
  | a :: rest =>
    if decide (a = "--"%string) then [] else
    match rest with
    | [] => []
    | h :: t =>
      if decide (a = "--tmpfs"%string) then mkMount None (components h) :: mounts t else
      match t with
      | [] => mounts rest
      | g :: r =>
        if decide (a = "--ro-bind"%string) then mkMount (Some (components h, false)) (components g) :: mounts r
        else if decide (a = "--bind"%string \/ a = "--dev-bind"%string) then mkMount (Some (components h, true)) (components g) :: mounts r
        else mounts rest
      end
    end
  end.

(** The last mount that covers a path decides what is there. *)
Definition shown (ms : list mount) (p : path) : option (option (path * bool)) :=
  foldl (fun acc m => if starts_with p (mt_guest m) then
                        Some ((fun '(h, w) => (h ++ drop (length (mt_guest m)) p, w)) <$> mt_source m)
                      else acc) None ms.

Lemma mounts_flag a r : a <> "--"%string -> a <> "--ro-bind"%string -> a <> "--bind"%string -> a <> "--dev-bind"%string -> a <> "--tmpfs"%string ->
  mounts (a :: r) = mounts r.
Proof.
  intros. cbn [mounts]. rewrite decide_False by done. destruct r as [|h [|g r']]; [done| |];
    rewrite !decide_False by naive_solver; done.
Qed.

Lemma mounts_ro h g r : mounts ("--ro-bind" :: h :: g :: r) = mkMount (Some (components h, false)) (components g) :: mounts r.
Proof. done. Qed.
Lemma mounts_rw h g r : mounts ("--bind" :: h :: g :: r) = mkMount (Some (components h, true)) (components g) :: mounts r.
Proof. done. Qed.
Lemma mounts_dev h g r : mounts ("--dev-bind" :: h :: g :: r) = mkMount (Some (components h, true)) (components g) :: mounts r.
Proof. done. Qed.
Lemma mounts_tmp h r : mounts ("--tmpfs" :: h :: r) = mkMount None (components h) :: mounts r.
Proof. done. Qed.

(** Appending complete options to a complete command line. *)
Definition rw_mount (p : string) : mount := mkMount (Some (components p, true)) (components p).

Lemma mounts_binds ps r : mounts (concat ((fun p => ["--bind"; p; p]) <$> ps) ++ r) = (rw_mount <$> ps) ++ mounts r.
Proof. induction ps as [|p ps IH]; [done|]. cbn [fmap list_fmap concat app]. by rewrite mounts_rw, IH. Qed.

Lemma binds_args ps b : foldl (fun b p => bind p p b) b ps = push_args (concat ((fun p => ["--bind"; p; p]) <$> ps)) b.
Proof.
  revert b. induction ps as [|p ps IH]; intros b; simpl.
  - unfold push_args. rewrite app_nil_r. by destruct b.
  - rewrite IH. unfold bind, push_args. simpl. by rewrite <- app_assoc.
Qed.

Lemma push_push a a' b : push_args a (push_args a' b) = push_args (a' ++ a) b.
Proof. unfold push_args. simpl. by rewrite app_assoc. Qed.

Definition opt_args (o : option string) : list string := match o with Some p => ["--bind"; p; p] | None => [] end.

Lemma opt_bind (o : option string) b : (match o with Some p => bind p p b | None => b end) = push_args (opt_args o) b.
Proof. destruct o; [done|]. unfold push_args. simpl. rewrite app_nil_r. by destruct b. Qed.

Lemma mounts_opt (o : option string) r : mounts (opt_args o ++ r) = (rw_mount <$> option_list o) ++ mounts r.
Proof. destruct o; [|done]. apply mounts_rw. Qed.

(** The host paths the shim may write through its mounts. *)
Definition granted (kvm : bool) (jail : JailConfig) : list string :=
  (if kvm then ["/dev/kvm"] else []) ++ option_list (jc_rootfs jail) ++ option_list (jc_root_disk jail)
  ++ jc_socks_dir jail :: jc_virtiofs_paths jail.

(** The options in front of the bind mounts. *)
Definition base_args (die kvm : bool) : list string :=
  ["--unshare-pid"; "--unshare-ipc"; "--unshare-uts"] ++ (if die then ["--die-with-parent"] else [])
  ++ ["--ro-bind"; "/"; "/"; "--tmpfs"; "/tmp"; "--tmpfs"; "/dev/shm"] ++ (if kvm then ["--dev-bind"; "/dev/kvm"; "/dev/kvm"] else []).

#[local] Opaque components.

Lemma mounts_base die kvm r :
  mounts (base_args die kvm ++ r) =
    mkMount (Some (components "/", false)) (components "/") :: mkMount None (components "/tmp") :: mkMount None (components "/dev/shm")
    :: (rw_mount <$> (if kvm then ["/dev/kvm"] else [])) ++ mounts r.
Proof.
  unfold base_args. destruct die, kvm; cbn [app]; rewrite !mounts_flag by done; by rewrite mounts_ro, !mounts_tmp, ?mounts_dev.
Qed.

Lemma bwrap_command exists_ is_file shim config_path jail cmd :
  bwrap_wrap exists_ is_file shim config_path jail = Some cmd ->
  exists b, jc_bwrap_path jail = Some b /\ is_file b = true /\ cmd = command_new b (base_args (jc_die_with_parent jail) (exists_ (components "/dev/kvm"))
    ++ opt_args (jc_rootfs jail) ++ opt_args (jc_root_disk jail) ++ ["--bind"; jc_socks_dir jail; jc_socks_dir jail]
    ++ concat ((fun p => ["--bind"; p; p]) <$> jc_virtiofs_paths jail)
    ++ ["--ro-bind"; config_path; config_path; "--"; shim; config_path]).
Proof.
  unfold bwrap_wrap, from_path. destruct (jc_bwrap_path jail) as [b|]; [|done]. cbn [mbind option_bind].
  destruct (is_file b) eqn:Hf; [|done]. cbn [mbind option_bind]. intros [= <-]. exists b. split_and!; [done..|].
  rewrite binds_args, !opt_bind. unfold ro_bind, bind, dev_bind, tmpfs, unshare, with_die_with_parent.
  unfold base_args. destruct (jc_die_with_parent jail), (exists_ _); rewrite !push_push; unfold push_args, into_command, program, arg;
    cbn -[concat opt_args]; rewrite <- ?app_assoc; cbn [app]; rewrite <- ?app_assoc; done.
Qed.

Lemma bwrap_mounts exists_ is_file shim config_path jail cmd :
  bwrap_wrap exists_ is_file shim config_path jail = Some cmd ->
  mounts (cm_args cmd) =
    mkMount (Some (components "/", false)) (components "/") :: mkMount None (components "/tmp") :: mkMount None (components "/dev/shm")
    :: (rw_mount <$> granted (exists_ (components "/dev/kvm")) jail)
    ++ [mkMount (Some (components config_path, false)) (components config_path)].
Proof.
  intros (b & _ & _ & ->)%bwrap_command. cbn [command_new cm_args].
  rewrite mounts_base, !mounts_opt. cbn [app]. rewrite mounts_rw, mounts_binds, mounts_ro.
  unfold granted. rewrite !fmap_app, fmap_cons, <- !app_assoc. done.
Qed.

Lemma shown_snoc ms m p :
  shown (ms ++ [m]) p = if starts_with p (mt_guest m)
    then Some ((fun '(h, w) => (h ++ drop (length (mt_guest m)) p, w)) <$> mt_source m) else shown ms p.
Proof. unfold shown. by rewrite foldl_app. Qed.

Lemma starts_with_drop p q : starts_with p q = true -> q ++ drop (length q) p = p.
Proof. intros [r ->]%starts_with_inv. by rewrite drop_app_length. Qed.

Lemma shown_rw (ms : list mount) (gs : list string) p :
  shown (ms ++ (rw_mount <$> gs)) p =
    if existsb (fun g => starts_with p (components g)) gs then Some (Some (p, true)) else shown ms p.
Proof.
  induction gs as [|g gs IH] using rev_ind; [by rewrite app_nil_r|].
  rewrite fmap_app, app_assoc, existsb_app. cbn [fmap list_fmap existsb]. rewrite shown_snoc. cbn [mt_guest mt_source rw_mount].
  destruct (starts_with p (components g)) eqn:Hs; cbn [orb].
  - rewrite Bool.orb_true_r. cbn [fmap option_fmap option_map]. by rewrite starts_with_drop.
  - by rewrite Bool.orb_false_r, IH.
Qed.

(** C20.  What a jailed shim sees of the host, exactly: at its configuration file it
    finds that file, read-only, although the directory around it is writable;
    below the root filesystem, the root disk, the socket directory, the shared
    directories and the KVM device it finds the host's own files and may write
    them; below [/tmp] and [/dev/shm] it finds a private empty tree; and
    everywhere else the host's files, read-only.  In particular no other VM's disk
    can be written. *)
Theorem jail_view exists_ is_file (shim config_path : string) (jail : JailConfig) (cmd : Command) (p : path) :
  bwrap_wrap exists_ is_file shim config_path jail = Some cmd -> starts_with p (components "/") = true ->
  shown (mounts (cm_args cmd)) p = Some
    (if starts_with p (components config_path) then Some (p, false)
     else if existsb (fun g => starts_with p (components g)) (granted (exists_ (components "/dev/kvm")) jail) then Some (p, true)
     else if starts_with p (components "/tmp") || starts_with p (components "/dev/shm") then None
     else Some (p, false)).
Proof.
  intros H Hp. rewrite (bwrap_mounts _ _ _ _ _ _ H).
  rewrite !app_comm_cons, shown_snoc. cbn [mt_guest mt_source].
  destruct (starts_with p (components config_path)) eqn:Hc; [cbn [fmap option_fmap option_map]; by rewrite starts_with_drop|].
  change (?a :: ?b :: ?c :: ?l) with ([a; b; c] ++ l). rewrite shown_rw.
  destruct (existsb _ _); [done|]. unfold shown. cbn [foldl mt_guest mt_source fmap option_fmap option_map]. rewrite Hp.
  destruct (starts_with p (components "/tmp")), (starts_with p (components "/dev/shm")); cbn [orb]; try done.
  by rewrite starts_with_drop.
Qed.

(** C21.  The jail fails closed: on Linux, when the jailer is on, a shim is only ever
    started by the configured bubblewrap on the jailed command line; and when
    Landlock was asked for, either a ruleset for exactly the jail's paths, with
    TCP denied unless the VM has a network, is attached to the process and
    reported as enforced, or the caller allowed a degraded start and the report
    says so. *)
Theorem jail_fail_closed exists_ is_file profile landlock_build exec (shim config_path : string) (jail : JailConfig)
    (pid : Z) (r : SecurityReport) :
  jc_noop_sandbox jail = false ->
  spawn Linux exists_ is_file profile landlock_build exec shim config_path jail = Ok (pid, r) ->
  exists cmd, exec cmd = Ok pid /\ sr_sandbox r = Bwrap
    /\ (exists wrapped, bwrap_wrap exists_ is_file shim config_path jail = Some wrapped
        /\ cm_program cmd = cm_program wrapped /\ cm_args cmd = cm_args wrapped /\ jc_bwrap_path jail = Some (cm_program cmd))
    /\ deny_network (path_restrictions exists_ jail shim config_path) = negb (jc_network_host jail)
    /\ cm_keep_fd cmd = jc_watchdog_fd jail /\ cm_pdeathsig cmd = jc_die_with_parent jail
    /\ match sr_landlock r with
       | Enforced => jc_landlock jail = true /\ exists fd, cm_landlock cmd = Some fd
                     /\ landlock_build (path_restrictions exists_ jail shim config_path) = Some (Some fd)
       | Degraded => jc_landlock jail = true /\ jc_allow_degraded jail = true
       | LayerDisabled => jc_landlock jail = false
       | NotApplicable => False
       end.
Proof.
  intros Hn H. assert (Hd : deny_network (path_restrictions exists_ jail shim config_path) = negb (jc_network_host jail)).
  { unfold path_restrictions. destruct (jc_network_host jail); cbn [negb]; [|done].
    assert (K : forall (f : PathRestrictions -> path -> PathRestrictions) l r,
               (forall r p, deny_network (f r p) = deny_network r) -> deny_network (foldl f r l) = deny_network r).
    { intros f l. induction l as [|x l IH]; intros r0 Hf; simpl; [done|]. by rewrite IH, Hf. }
    assert (K' : forall (f : PathRestrictions -> string -> PathRestrictions) l r,
               (forall r p, deny_network (f r p) = deny_network r) -> deny_network (foldl f r l) = deny_network r).
    { intros f l. induction l as [|x l IH]; intros r0 Hf; simpl; [done|]. by rewrite IH, Hf. }
    assert (Ap : forall b r p, deny_network (allow_path_and_parent exists_ b r p) = deny_network r).
    { intros b r0 p. unfold allow_path_and_parent, if_exists.
      destruct (exists_ p), (parent p) as [d|], b; try (destruct (negb (bool_decide (d = [])) && exists_ d)); done. }
    assert (Ie : forall f r p, (forall q r, deny_network (f q r) = deny_network r) -> deny_network (if_exists exists_ f r p) = deny_network r).
    { intros f r0 p Hf. unfold if_exists. by destruct (exists_ p). }
    rewrite K' by done. cbn [deny_network allow_read_write]. rewrite K by (intros; apply Ap).
    destruct (jc_root_disk jail), (jc_rootfs jail); rewrite ?Ap; cbn [deny_network allow_read_write]; rewrite ?Ap, !Ie by done;
      unfold allow_dev; rewrite K' by (intros; by apply Ie); rewrite Ie by done; rewrite K' by (intros; by apply Ie); done. }
  unfold spawn, build_command, platform_sandbox in H. rewrite Hn in H.
  destruct (bwrap_wrap exists_ is_file shim config_path jail) as [w|] eqn:Hw; [|done]. cbn [mbind option_bind result_bind] in H.
  destruct (prepare_landlock Linux exists_ landlock_build jail shim config_path) as [[fd st]|] eqn:Hl; [|done].
  cbn [mbind result_bind] in H. destruct (exec _) as [pid'|] eqn:He; [|done]. cbn [map_err mbind result_bind] in H.
  injection H as -> <-. eexists. split; [exact He|]. split; [done|]. split.
  { exists w. split_and!; [done..|]. apply bwrap_command in Hw as (b & Hb & _ & ->). done. }
  split_and!; [done..|]. cbn [sr_landlock cm_landlock]. unfold prepare_landlock in Hl.
  destruct (jc_landlock jail); cbn [negb] in Hl; [|by injection Hl as <- <-].
  destruct (landlock_build _) as [[f|]|] eqn:Hb; [|destruct (jc_allow_degraded jail) eqn:Hg; [|done]|done]; injection Hl as <- <-; eauto.
Qed.

(** The child keeps its standard streams and the watchdog pipe, nothing else. *)
Lemma inherited_fds (preserve : option Z) (fds : gset Z) fd :
  (forall f, f ∈ fds -> 0 <= f <= U32_TOP) -> match preserve with Some k => 3 <= k | None => True end ->
  fd ∈ close_inherited_fds preserve fds <-> fd ∈ fds /\ (fd < 3 \/ preserve = Some fd).
Proof.
  intros Hr Hk. unfold close_inherited_fds, close_fds_preserving, close_all_fds, close_range. destruct preserve as [k|].
  - rewrite elem_of_filter. case_match eqn:E; rewrite ?elem_of_filter; (split; [intros H; destruct_and?; split; [done|]|intros [H1 H2]]);
      try (specialize (Hr fd ltac:(tauto))).
    + destruct (decide (fd = k)) as [->|]; [by right|left]. lia.
    + apply Z.ltb_lt in E. destruct H2 as [|[= ->]]; split_and?; try done; lia.
    + apply Z.ltb_ge in E. destruct (decide (fd = k)) as [->|]; [by right|left]. lia.
    + destruct H2 as [|[= ->]]; split_and?; try done; lia.
  - rewrite elem_of_filter. split; [intros [H1 H2]|intros [H1 [H2|[=]]]]; specialize (Hr fd ltac:(tauto)); split; try done; lia.
Qed.

Module Sample.
Definition jail : JailConfig :=
  mkJail None (Some "/d/disks/vms/a.qcow2") [components "/d/disks/bases/b.raw"] "/d/socks" ["/home/u/src"] (Some 7) false true false true false
    (Some "/opt/bux/bwrap").
Definition yes {A} (_ : A) : bool := true.
Definition no_profile (_ _ : string) (_ : JailConfig) : string := "".

Lemma jail_view_witness :
  exists cmd, bwrap_wrap yes yes "/opt/bux/bux-shim" "/d/socks/a.json" jail = Some cmd
    /\ shown (mounts (cm_args cmd)) (components "/d/disks/vms/other.qcow2") = Some (Some (components "/d/disks/vms/other.qcow2", false)).
Proof.
  assert (H : bwrap_wrap yes yes "/opt/bux/bux-shim" "/d/socks/a.json" jail
              = Some (default (command_new "" []) (bwrap_wrap yes yes "/opt/bux/bux-shim" "/d/socks/a.json" jail))) by (vm_compute; reflexivity).
  eexists. split; [exact H|].
  rewrite (jail_view yes yes "/opt/bux/bux-shim" "/d/socks/a.json" jail _ (components "/d/disks/vms/other.qcow2") H) by (vm_compute; reflexivity).
  vm_compute. reflexivity.
Defined.

Definition kernel (c : Command) : result io_kind Z := Ok 42.
Definition landlocked (r : PathRestrictions) : option (option Z) := Some (Some 9).

Lemma jail_fail_closed_witness :
  exists cmd, kernel cmd = Ok 42 /\ exists fd, cm_landlock cmd = Some fd.
Proof.
  destruct (jail_fail_closed yes yes no_profile landlocked kernel "/opt/bux/bux-shim" "/d/socks/a.json" jail 42
              (mkSecReport Bwrap Enforced NotApplicable)) as (cmd & He & _ & _ & _ & _ & _ & _ & fd & Hfd & _);
    [reflexivity|vm_compute; reflexivity|].
  exists cmd. split; [exact He|]. exists fd. exact Hfd.
Defined.

(** Landlock alone is wider than the mounts: it opens the directory of the root
    disk, and with it every other VM's disk, for writing. *)
Example landlock_opens_sibling_disks :
  existsb (starts_with (components "/d/disks/vms/other.qcow2")) (read_write_paths (path_restrictions yes jail "/opt/bux/bux-shim" "/d/socks/a.json")) = true.
Proof. vm_compute. reflexivity. Qed.
End Sample.
