(* ===== verification/Engine.v ===== *)
(** * The runtime: creating, starting, stopping and cloning VMs

    [crates/bux/src/runtime/mod.rs], [runtime/vm.rs], [runtime/boot/mod.rs],
    [runtime/boot/spawn.rs] and [crates/bux/src/snapshot.rs].  The state of the
    runtime is the one of [Lifecycle] with the bytes of the disk images, the
    secrets in memory, the volume directories, the metrics, the emitted events, the
    cached payload and the guests whose file systems are frozen; a [Vm] handle
    keeps its own copy of the stored row.  What the world answers during one operation (the clock, the process table,
    the registry, libext2fs, the jailed spawn, the guest agent, serde) is a
    [host], passed to each operation. *)

From S2P Require Import Prelude Files Paths Qcow2Format Qcow2Image Qcow2Chain Qcow2Flatten ImageStore Ids Ports Boot StateTypes StateDb StateLookup Lifecycle Volumes ManagedGuest Disk Text Process ProtoMessages Options Jail Events.

(** ** State and errors *)

Definition M (S A : Type) : Type := S -> result Error A * S.

#[global] Instance M_ret {S} : MRet (M S) := fun A a s => (Ok a, s).
#[global] Instance M_bind {S} : MBind (M S) :=
  fun A B f m s => match m s with (Ok a, s') => f a s' | (Err e, s') => (Err e, s') end.

Section Ops.
Context {S : Type}.
Definition lift_r {A} (r : result Error A) : M S A := fun s => (r, s).
Definition gets {A} (f : S -> A) : M S A := fun s => (Ok (f s), s).
Definition modify (f : S -> S) : M S () := fun s => (Ok (), f s).

(** [match m { Ok(..) => .., Err(..) => .. }]. *)
Definition attempt {A} (m : M S A) : M S (result Error A) := fun s => let '(r, s') := m s in (Ok r, s').
(** [drop(m)]. *)
Definition drop_result {A} (m : M S A) : M S () := fun s => (Ok (), (m s).2).
End Ops.

Record payload : Type := mkPayload { pl_shim : string; pl_guest : string; pl_bwrap : option string }.

Record engine : Type := mkEngine {
  en_rt : runtime;
  en_bytes : fs;
  en_live : gmap string LiveSecrets;
  en_dirs : gset path;
  en_metrics : RuntimeMetrics;
  en_events : list AuditEventKind;
  en_payload : option payload;
  en_frozen : gset string
}.

(** Directories and sidecar overrides, fixed when the runtime is opened. *)
Record layout : Type := mkLayout {
  lo_socks_dir : string;
  lo_disk : DiskManager;
  lo_volumes_root : string;
  lo_snapshots_dir : string;
  lo_shim_path : option string;
  lo_guest_path : option string
}.

(** A freeze request: the guest froze and said so, it did not freeze, or it froze
    and the answer was lost. *)
Inductive quiesce_answer : Type := Frozen | NotFrozen (x : Error) | FrozenUnheard (x : Error).

(** The answers of the world during one operation. *)
Record host : Type := mkHost {
  h_os : platform;
  h_virtualization : bool;
  h_now : Z;
  h_uptime_ms : Z;
  h_id : string;
  h_fuel : nat;
  (** serde *)
  h_to_string : VmConfig -> option string;
  h_from_str : string -> option VmConfig;
  h_boot_json : GuestBootConfig -> option string;
  h_shim_json : ShimConfig -> option string;
  (** payload and guest binary *)
  h_payload : bool -> bool -> result Error payload;
  h_resolve_guest : option string -> result Error ManagedGuestBinary;
  h_inject_rootfs : ManagedGuestBinary -> string -> result Error ();
  (** the file system outside the managed files, and failing writes *)
  h_canonicalize : string -> result io_kind string;
  h_is_dir : string -> bool;
  h_is_file : string -> bool;
  h_exists : path -> bool;
  h_home : option string;
  h_write_json : option (bool * io_kind);
  h_create_stderr : option io_kind;
  h_watchdog : result io_kind Z;
  h_copy : option (io_kind * option (list Z));
  (** images and secrets *)
  h_oci_ensure : string -> result Error PullResult;
  h_estimate : string -> result Error Z;
  h_create_from_dir : string -> Z -> result Error () * option (list Z);
  h_inject_file : list Z -> list Z -> result Error () * list Z;
  h_mint : list Secret -> result Error LiveSecrets;
  (** ports, processes and the guest agent *)
  h_probes : list (result io_kind Z);
  h_sibling_shim : option string;
  h_profile : string -> string -> JailConfig -> string;
  h_landlock_build : PathRestrictions -> option (option Z);
  h_exec : Command -> result io_kind Z;
  h_ready : result Error ();
  h_exits : bool;
  h_quiesce : quiesce_answer;
  h_thaws : bool;
  (** what a copy of a disk reads while these guests are frozen: a guest that is
      not may write to its disk meanwhile *)
  h_read_disk : gset string -> path -> list Z -> list Z;
  (** a socket that is there and cannot be unlinked *)
  h_unlink : path -> option io_kind
}.

Definition linux (h : host) : bool := match h_os h with Linux => true | _ => false end.
Definition macos (h : host) : bool := match h_os h with MacOs => true | _ => false end.

(** *** Views and updates *)

Definition en_db (e : engine) : state_db := rt_db (en_rt e).
Definition set_rt (rt : runtime) (e : engine) : engine :=
  mkEngine rt (en_bytes e) (en_live e) (en_dirs e) (en_metrics e) (en_events e) (en_payload e) (en_frozen e).
Definition set_metrics (m : RuntimeMetrics) (e : engine) : engine :=
  mkEngine (en_rt e) (en_bytes e) (en_live e) (en_dirs e) m (en_events e) (en_payload e) (en_frozen e).
Definition add_event (k : AuditEventKind) (e : engine) : engine :=
  mkEngine (en_rt e) (en_bytes e) (en_live e) (en_dirs e) (en_metrics e) (en_events e ++ [k]) (en_payload e) (en_frozen e).
Definition set_payload (p : payload) (e : engine) : engine :=
  mkEngine (en_rt e) (en_bytes e) (en_live e) (en_dirs e) (en_metrics e) (en_events e) (Some p) (en_frozen e).
Definition on_rt (f : runtime -> runtime) (e : engine) : engine := set_rt (f (en_rt e)) e.

(** The image files that exist, with their bytes. *)
Definition disk_fs (e : engine) : fs := filter (fun '(p, _) => p ∈ rt_files (en_rt e)) (en_bytes e).
Definition set_disk_fs (σ : fs) (e : engine) : engine :=
  mkEngine (set_files (en_rt e) ((rt_files (en_rt e) ∖ dom (disk_fs e)) ∪ dom σ)) (σ ∪ en_bytes e) (en_live e) (en_dirs e)
    (en_metrics e) (en_events e) (en_payload e) (en_frozen e).

Definition live_secrets (id : string) (e : engine) : option LiveSecrets :=
  if decide (id ∈ rt_secrets (en_rt e)) then en_live e !! id else None.

Definition rt_set_secrets (s : gset string) (rt : runtime) : runtime :=
  mkRt (rt_db rt) (rt_files rt) s (rt_alive rt) (rt_signals rt) (rt_removed_events rt) (rt_socks_dir rt) (rt_vms_dir rt).
Definition rt_set_alive (a : gset Z) (rt : runtime) : runtime :=
  mkRt (rt_db rt) (rt_files rt) (rt_secrets rt) a (rt_signals rt) (rt_removed_events rt) (rt_socks_dir rt) (rt_vms_dir rt).
Definition rt_signal (pid : Z) (s : Lifecycle.Signal) (rt : runtime) : runtime :=
  mkRt (rt_db rt) (rt_files rt) (rt_secrets rt) (rt_alive rt) (rt_signals rt ++ [(pid, s)]) (rt_removed_events rt) (rt_socks_dir rt) (rt_vms_dir rt).

Definition hold_secrets (id : string) (l : LiveSecrets) (e : engine) : engine :=
  let e := on_rt (fun rt => rt_set_secrets ({[id]} ∪ rt_secrets rt) rt) e in
  mkEngine (en_rt e) (en_bytes e) (<[id := l]> (en_live e)) (en_dirs e) (en_metrics e) (en_events e) (en_payload e) (en_frozen e).
Definition forget_secrets (id : string) (e : engine) : engine :=
  on_rt (fun rt => rt_set_secrets (rt_secrets rt ∖ {[id]}) rt) e.

Definition add_file (p : path) (rt : runtime) : runtime := set_files rt ({[p]} ∪ rt_files rt).
Definition rm_file (p : path) (rt : runtime) : runtime := set_files rt (rt_files rt ∖ {[p]}).

(** A statement of the database. *)
Definition sql (op : state_db -> result Error state_db) : M engine () := fun e =>
  match op (en_db e) with Ok d => (Ok (), set_rt (set_db (en_rt e) d) e) | Err x => (Err x, e) end.
Definition sql_query {A} (q : state_db -> result Error A) : M engine A := fun e => (q (en_db e), e).

(** An operation of the volume manager or of the disk manager. *)
Definition vol {A} (m : volM A) : M engine A := fun e =>
  let '(r, s) := m (mkVols (en_db e) (en_dirs e)) in
  (r, mkEngine (set_db (en_rt e) (vo_db s)) (en_bytes e) (en_live e) (vo_dirs s) (en_metrics e) (en_events e) (en_payload e) (en_frozen e)).
Definition disk {A} (f : fs -> result Error A * fs) : M engine A := fun e =>
  let '(r, σ) := f (disk_fs e) in (r, set_disk_fs σ e).

Definition emit_event (k : AuditEventKind) : M engine () := modify (add_event k).

(** ** runtime/boot/unix.rs: file cleaning *)

Definition clean_vsock_sock (socket : string) (rt : runtime) : runtime := rm_file (components socket) rt.
Definition clean_net_sock (socket : string) (rt : runtime) : runtime := rm_file (with_extension (components socket) "net.sock") rt.
Definition clean_unready_files (socket : string) (rt : runtime) : runtime :=
  clean_net_sock socket (rm_file (with_extension (components socket) "json") (clean_vsock_sock socket rt)).

(** ** runtime/vm.rs: the product view *)

Inductive HealthStatus : Type := Starting | Healthy | Unhealthy | Dead.
Inductive EgressClass : Type := Unrestricted | EgressDisabled | Allow (hosts : list string).

Definition egress_of (n : NetworkSpec) : EgressClass :=
  match n with
  | NetDisabled => EgressDisabled
  | NetEnabled [] => Unrestricted
  | NetEnabled l => Allow l
  end.

Record VmInfo : Type := mkInfo {
  in_id : string;
  in_name : option string;
  in_pid : Z;
  in_image : option string;
  in_status : Status;
  in_health : HealthStatus;
  in_published_ports : list PublishedPort;
  in_network : NetworkSpec;
  in_egress : EgressClass;
  in_security : SecurityStatus;
  in_security_options : SecurityOptions;
  in_last_error : option string;
  in_created_at : Z;
  in_workload_cmd : list string;
  in_agent_id : option string;
  in_tenant_id : option string;
  in_ram_mib : Z;
  in_vcpus : Z;
  in_secrets_required : bool;
  in_workload_env : list string;
  in_workload_workdir : option string
}.

Definition from_stored (rt : runtime) (s : VmState) : VmInfo :=
  let c := vm_config s in
  let health := if bool_decide (vm_status s = Stopped) || negb (is_pid_alive rt (vm_pid s)) then Dead else Starting in
  mkInfo (vm_id s) (vm_name s) (vm_pid s) (vm_image s) (vm_status s) health (published_ports c) (network c)
    (egress_of (network c)) (security_status c) (security c) (last_error c) (vm_created_at s) (workload_cmd c)
    (agent_id c) (tenant_id c) (ram_mib c) (vcpus c) (secrets_required c) (workload_env c) (workload_workdir c).

(** ** runtime/mod.rs: queries and removal *)

Section Runtime.
Context (lo : layout).

(** A handle: the stored row it was made from, and when it was spawned is the
    uptime the host reports. *)
Record Vm : Type := mkHandle { v_state : VmState; v_metrics : VmMetrics; v_keepalive : bool }.

Definition with_status (s : Status) (v : VmState) : VmState :=
  mkVm (vm_id v) (vm_name v) (vm_pid v) (vm_image v) (vm_socket v) s (vm_config v) (vm_created_at v).
Definition with_pid (pid : Z) (v : VmState) : VmState :=
  mkVm (vm_id v) (vm_name v) pid (vm_image v) (vm_socket v) (vm_status v) (vm_config v) (vm_created_at v).
Definition with_config (c : VmConfig) (v : VmState) : VmState :=
  mkVm (vm_id v) (vm_name v) (vm_pid v) (vm_image v) (vm_socket v) (vm_status v) c (vm_created_at v).

Definition handle (state : VmState) : M engine Vm := fun e =>
  let '(vm, rt) := reconcile_dead_pid state (en_rt e) in (Ok (mkHandle vm new_vm_metrics false), set_rt rt e).

Definition get_exact (h : host) (id : string) : M engine Vm :=
  s ← sql_query (get_by_id (h_from_str h) id); handle s.

Definition get_named (h : host) (name : string) : M engine (option Vm) :=
  o ← sql_query (get_by_name (h_from_str h) name);
  match o with Some s => v ← handle s; mret (Some v) | None => mret None end.

Definition get (h : host) (id_or_name : string) : M engine Vm :=
  o ← sql_query (get_by_name (h_from_str h) id_or_name);
  match o with
  | Some s => handle s
  | None => s ← sql_query (get_by_id_prefix (h_from_str h) id_or_name); handle s
  end.

(** [remove_stored], with its event. *)
Definition remove_row (vm : VmState) : M engine () := fun e =>
  let '(r, rt) := remove_stored vm (en_rt e) in
  match r with
  | Ok _ => (Ok (), add_event (VmRemoved (vm_id vm)) (set_rt rt e))
  | Err x => (Err x, set_rt rt e)
  end.

Definition remove (h : host) (id_or_name : string) : M engine () :=
  vm ← get h id_or_name;
  if negb (can_remove (vm_status (v_state vm))) then lift_r (Err InvalidState) else remove_row (v_state vm).

Definition rename_vm (h : host) (id_or_name new_name : string) : M engine () :=
  vm ← get h id_or_name;
  existing ← sql_query (get_by_name (h_from_str h) new_name);
  match existing with
  | Some s => if decide (vm_id s <> vm_id (v_state vm)) then lift_r (Err Ambiguous)
              else sql (update_name (vm_id (v_state vm)) (Some new_name))
  | None => sql (update_name (vm_id (v_state vm)) (Some new_name))
  end.

Fixpoint list_keep (vs : list VmState) : M engine (list VmInfo) :=
  match vs with
  | [] => mret []
  | vm :: r =>
    h ← handle vm;
    let vm := v_state h in
    if bool_decide (vm_status vm = Stopped) && auto_remove (vm_config vm)
    then drop_result (remove_row vm) ≫= fun _ => list_keep r
    else
      info ← gets (fun e => from_stored (en_rt e) vm);
      rest ← list_keep r; mret (info :: rest)
  end.

Definition list_infos (h : host) : M engine (list VmInfo) :=
  vms ← sql_query (list_vms (h_from_str h)); list_keep vms.

Fixpoint gc_loop (orphans : list BaseDiskRow) (removed : Z) : M engine Z :=
  match orphans with
  | [] => mret removed
  | o :: r =>
    disk (fun σ => (Ok (), remove_base (lo_disk lo) (bd_digest o) σ)) ≫= fun _ =>
    sql (delete_base_disk (bd_id o)) ≫= fun _ => gc_loop r (u32 (removed + 1))
  end.

Definition gc : M engine Z :=
  orphans ← sql_query orphaned_base_disks;
  removed ← gc_loop orphans 0;
  modify (fun e => set_metrics (set_disk_bytes_used (disk_usage (lo_disk lo) (disk_fs e)) (en_metrics e)) e) ≫= fun _ =>
  mret removed.

(** ** runtime/vm.rs: operations on a handle *)

Definition vmM (A : Type) : Type := M (Vm * engine) A.

Definition eng {A} (m : M engine A) : vmM A := fun s => let '(r, e) := m s.2 in (r, (s.1, e)).
Definition self : vmM VmState := gets (fun s => v_state s.1).
Definition set_self (f : VmState -> VmState) : vmM () :=
  modify (fun s => (mkHandle (f (v_state s.1)) (v_metrics s.1) (v_keepalive s.1), s.2)).
Definition set_vm_metrics (f : VmMetrics -> VmMetrics) : vmM () :=
  modify (fun s => (mkHandle (v_state s.1) (f (v_metrics s.1)) (v_keepalive s.1), s.2)).
Definition set_keepalive (b : bool) : vmM () :=
  modify (fun s => (mkHandle (v_state s.1) (v_metrics s.1) b, s.2)).
Definition on_engine (f : engine -> engine) : vmM () := modify (fun s => (s.1, f s.2)).

Definition info : vmM VmInfo := fun s => (Ok (from_stored (en_rt s.2) (v_state s.1)), s).
Definition log_path (vm : VmState) : path := with_extension (components (vm_socket vm)) "stderr".

Definition mark_stopped (h : host) : vmM () :=
  set_self (with_status Stopped) ≫= fun _ =>
  vm ← self;
  on_engine (on_rt (clean_vsock_sock (vm_socket vm))) ≫= fun _ =>
  on_engine (on_rt (clean_net_sock (vm_socket vm))) ≫= fun _ =>
  on_engine (fun e => set_metrics (on_vm_stopped (h_uptime_ms h) (en_metrics e)) e) ≫= fun _ =>
  eng (emit_event (VmStopped (vm_id vm) None)) ≫= fun _ =>
  if auto_remove (vm_config vm) then
    on_engine (on_rt (clean_vm_files (vm_socket vm))) ≫= fun _ =>
    on_engine (forget_secrets (vm_id vm)) ≫= fun _ =>
    on_engine (on_rt (remove_vm_disk (vm_id vm))) ≫= fun _ =>
    eng (sql (delete (vm_id vm)))
  else eng (sql (update_status (vm_id vm) Stopped)).

Definition kill (h : host) : vmM () :=
  vm ← self;
  on_engine (on_rt (rt_signal (vm_pid vm) SIGKILL)) ≫= fun _ => mark_stopped h.

(** The guest was asked to shut down; [h_exits] says whether the process went in
    time. *)
Definition stop_timeout (h : host) : vmM () :=
  vm ← self;
  if negb (can_stop (vm_status vm)) then lift_r (Err InvalidState) else
  set_self (with_status Stopping) ≫= fun _ =>
  eng (sql (update_status (vm_id vm) Stopping)) ≫= fun _ =>
  if h_exits h then
    on_engine (on_rt (fun rt => rt_set_alive (rt_alive rt ∖ {[vm_pid vm]}) rt)) ≫= fun _ => mark_stopped h
  else kill h.

Definition stop (h : host) : vmM () := stop_timeout h.

(** [wait] returns only when the process has exited. *)
Definition wait (h : host) : vmM () :=
  vm ← self;
  on_engine (on_rt (fun rt => rt_set_alive (rt_alive rt ∖ {[vm_pid vm]}) rt)) ≫= fun _ => mark_stopped h.

(** Both write the handle's own copy of the configuration back. *)
Definition touch_activity (h : host) : vmM () :=
  vm ← self;
  eng (sql (update_config (h_to_string h) (vm_id vm) (set_touched (Some (h_now h)) None (vm_config vm)))).

Definition set_auto_stop_secs (h : host) (secs : option N) : vmM () :=
  vm ← self;
  eng (sql (update_config (h_to_string h) (vm_id vm) (set_auto_stop secs (vm_config vm)))).

Definition wait_ready (h : host) : vmM () :=
  match h_ready h with
  | Ok _ => set_vm_metrics (set_boot_duration_ms (h_uptime_ms h))
  | Err e => lift_r (Err e)
  end.

Definition revert_failed_start (pid : Z) : vmM () :=
  vm ← self;
  on_engine (on_rt (rt_signal pid SIGKILL)) ≫= fun _ =>
  on_engine (on_rt (clean_vsock_sock (vm_socket vm))) ≫= fun _ =>
  on_engine (on_rt (clean_net_sock (vm_socket vm))) ≫= fun _ =>
  set_self (with_status Stopped) ≫= fun _ =>
  drop_result (eng (sql (update_status (vm_id vm) Stopped))).

Definition abort_unready (h : host) : vmM () :=
  vm ← self;
  on_engine (fun e => set_metrics (on_vm_failed (h_uptime_ms h) (en_metrics e)) e) ≫= fun _ =>
  on_engine (on_rt (rt_signal (vm_pid vm) SIGKILL)) ≫= fun _ =>
  on_engine (forget_secrets (vm_id vm)) ≫= fun _ =>
  on_engine (on_rt (clean_unready_files (vm_socket vm))) ≫= fun _ =>
  on_engine (on_rt (unlink_vm (vm_id vm))) ≫= fun _ =>
  on_engine (on_rt (remove_vm_disk (vm_id vm))) ≫= fun _ =>
  drop_result (eng (sql (delete (vm_id vm)))) ≫= fun _ =>
  set_self (with_status Stopped).
End Runtime.
