(* ===== verification/EngineBoot.v ===== *)
(** * Booting a VM: create, start, clone, restore, snapshot

    [runtime/boot/mod.rs] ([create], [resolve_image]), [runtime/boot/spawn.rs]
    ([spawn_config] with its abort guard, [spawn_shim], [find_shim],
    [map_jail_error]), [Vm::start_with] of [runtime/vm.rs], the clone and restore
    operations of [runtime/mod.rs] and [crates/bux/src/snapshot.rs]. *)

From S2P Require Import Prelude ProtoMessages Files Paths Qcow2Format Qcow2Image Qcow2Chain Qcow2Flatten ImageStore Ids Ports Boot StateTypes StateDb StateLookup Lifecycle Volumes ManagedGuest Disk Text Process Options Jail Events Engine.

(** ** boot/spawn.rs *)

Definition comp_text (c : component) : string :=
  match c with RootDir => "" | CurDir => "." | ParentDir => ".." | Normal n => n end.
(** The text of a path. *)
Definition path_text (p : path) : string :=
  match p with
  | [RootDir] => "/"
  | _ => String.concat "/" (comp_text <$> p)
  end.

Definition map_jail_error (e : jail_error) : Error :=
  match e with
  | BwrapUnavailable | LandlockUnavailable | LandlockRuleset => SecurityUnavailable
  | JailIo k => StateTypes.Io k
  end.

(** The sibling of the executable, [sidecar_path(current_exe, "bux-shim")], is the
    host's. *)
Definition find_shim (h : host) (explicit : option string) : result Error string :=
  match explicit with
  | Some p => if h_is_file h p then Ok p else Err NotFound
  | None => match h_sibling_shim h with
            | Some sibling => if h_is_file h sibling then Ok sibling else Err NotFound
            | None => Err NotFound
            end
  end.

Section Spawn.
Context (lo : layout) (h : host).

(** [write_shim_json]: a failed write may have created the file. *)
Definition write_shim_json (p : path) : M engine () := fun e =>
  match h_write_json h with
  | None => (Ok (), on_rt (add_file p) e)
  | Some (opened, k) => (Err (StateTypes.Io k), if opened then on_rt (add_file p) e else e)
  end.

(** [UnlinkJsonOnErr]. *)
Definition unlink_on_err {A} (p : path) (m : M engine A) : M engine A := fun e =>
  match m e with
  | (Ok a, e') => (Ok a, e')
  | (Err x, e') => (Err x, on_rt (rm_file p) e')
  end.

Definition fails {S} (o : option io_kind) : M S () :=
  match o with Some k => lift_r (Err (StateTypes.Io k)) | None => mret () end.

(** [unlink_unix_socket]: a socket that is not there is fine. *)
Definition unlink_unix_socket (p : path) : M engine () := fun e =>
  match h_unlink h p with
  | Some k => (Err (StateTypes.Io k), e)
  | None => (Ok (), on_rt (rm_file p) e)
  end.

Fixpoint unlink_listeners (vs : list VsockPort) : M engine () :=
  match vs with
  | [] => mret ()
  | v :: r =>
    (if vp_listen v then unlink_unix_socket (components (vp_path v)) else mret ()) ≫= fun _ => unlink_listeners r
  end.

Definition jail_config (σ : fs) (c : VmConfig) (socks_dir : string) (watchdog_fd : option Z) (bwrap_path : option string) : JailConfig :=
  let policy := spawn_policy c in
  mkJail (rootfs c) (root_disk c)
    (match root_disk c with Some d => readonly_disk_paths (h_exists h) σ (components d) | None => [] end)
    socks_dir (vf_path <$> virtiofs c) watchdog_fd (negb (so_jailer (security c)))
    (so_landlock (security c)) (so_allow_degraded (security c)) (die_with_parent policy) (network_host policy) bwrap_path.

Definition is_some {A} (o : option A) : bool := match o with Some _ => true | None => false end.

Record ShimSpawnResult : Type := mkSpawned { sp_pid : Z; sp_keepalive : bool; sp_security : SecurityStatus }.

(** The spawn itself: the process table gains the child. *)
Definition jail_spawn (shim config_path : string) (jc : JailConfig) : M engine (Z * SecurityReport) := fun e =>
  match spawn (h_os h) (h_exists h) (h_is_file h) (h_profile h) (h_landlock_build h) (h_exec h) shim config_path jc with
  | Ok (pid, report) => (Ok (pid, report), on_rt (fun rt => rt_set_alive ({[pid]} ∪ rt_alive rt) rt) e)
  | Err x => (Err (map_jail_error x), e)
  end.

Definition spawn_shim (c : VmConfig) (config_path socks_dir : string) (network : option ShimNetwork) (gvproxy : option ShimGvproxy)
    (shim_path bwrap_path : option string) : M engine ShimSpawnResult :=
  if negb (Bool.eqb (is_some network) (is_some gvproxy)) then lift_r (Err InvalidConfig)
  else if linux h && so_jailer (security c) && negb (is_some bwrap_path) then lift_r (Err SecurityUnavailable)
  else match h_shim_json h (to_shim_config c network gvproxy) with
  | None => lift_r (Err (StateTypes.Io EkInvalidData))
  | Some _ =>
    write_shim_json (components config_path) ≫= fun _ =>
    unlink_on_err (components config_path) (
      fails (h_create_stderr h) ≫= fun _ =>
      modify (on_rt (add_file (with_extension (components config_path) "stderr"))) ≫= fun _ =>
      let keepalive := watch_parent (spawn_policy c) in
      wd ← (if keepalive then fd ← lift_r (map_err StateTypes.Io (h_watchdog h)); mret (Some fd) else mret None);
      shim ← lift_r (find_shim h shim_path);
      σ ← gets disk_fs;
      unlink_listeners (vsock_ports c) ≫= fun _ =>
      '(pid, report) ← jail_spawn shim config_path (jail_config σ c socks_dir wd bwrap_path);
      mret (mkSpawned pid keepalive (from_report report)))
  end.

(** [abort_partial_spawn]; the guard runs it unless the row was inserted. *)
Definition abort_partial_spawn (id socket : string) (pid : option Z) (e : engine) : engine :=
  let e := match pid with Some pid => on_rt (rt_signal pid SIGKILL) e | None => e end in
  let e := forget_secrets id e in
  let e := on_rt (clean_unready_files socket) e in
  let e := on_rt (unlink_vm id) e in
  let e := on_rt (remove_vm_disk id) e in
  on_rt (fun rt => db_drop rt (delete id)) e.

Definition guarded {A} (id socket : string) (pid : option Z) (m : M engine A) : M engine A := fun e =>
  match m e with
  | (Ok a, e') => (Ok a, e')
  | (Err x, e') => (Err x, abort_partial_spawn id socket pid e')
  end.

(** [prepare_virtio_net] with the unlinking of the old socket. *)
Definition virtio_net (id socks_dir : string) (live : option LiveSecrets) (c : VmConfig)
    : M engine (VmConfig * option (ShimNetwork * ShimGvproxy)) := fun e =>
  match prepare_virtio_net (macos h) (h_probes h) id socks_dir live c with
  | (Err x, _) => (Err x, e)
  | (Ok None, c) => (Ok (c, None), e)
  | (Ok (Some n), c) =>
    match unlink_unix_socket (components (sn_socket_path n.1)) e with
    | (Ok _, e) => (Ok (c, Some n), e)
    | (Err x, e) => (Err x, e)
    end
  end.

Definition or_else {A} (a b : option A) : option A := match a with Some _ => a | None => b end.

(** Everything between the overlay and the inserted row. *)
Definition spawn_secrets (staged : list Secret) (c : VmConfig) : result Error (option LiveSecrets * VmConfig) :=
  match staged with
  | [] => Ok (None, set_secrets_required false c)
  | _ => if negb (is_enabled (network c)) then Err SecretsNeedVirtioNet
         else live ← h_mint h staged; Ok (Some live, set_secrets_required true c)
  end.

Definition spawn_guarded (id : string) (payload : option payload) (staged : list Secret) (c : VmConfig)
    : M engine (VmConfig * ShimSpawnResult) :=
  '(live, c) ← lift_r (spawn_secrets staged c);
  c ← lift_r (inject_guest_boot_env (h_boot_json h) id (ls_ca_cert_pem <$> live) c);
  '(c, net) ← virtio_net id (lo_socks_dir lo) live c;
  match live with Some l => modify (hold_secrets id l) | None => mret () end ≫= fun _ =>
  shim ← spawn_shim c (join_text (lo_socks_dir lo) (id +:+ ".json")) (lo_socks_dir lo) (fst <$> net) (snd <$> net)
           (or_else (pl_shim <$> payload) (lo_shim_path lo)) (payload ≫= pl_bwrap);
  mret (set_security_status (sp_security shim) c, shim).

Definition check_name (name : option string) : M engine () :=
  match name with
  | None => mret ()
  | Some n => o ← sql_query (get_by_name (h_from_str h) n);
              match o with Some _ => lift_r (Err Ambiguous) | None => mret () end
  end.

Definition with_overlay (id : string) (c : VmConfig) : M engine VmConfig :=
  match base_disk c with
  | None => mret c
  | Some base =>
    overlay ← disk (create_overlay (h_canonicalize h) (lo_disk lo) base (disk_format c) id);
    mret (set_root (Some overlay) DiskQcow2 None c)
  end.

Definition socket_of (id : string) : string := join_text (lo_socks_dir lo) (id +:+ ".sock").

Definition spawn_config (c : VmConfig) (staged : list Secret) (image name : option string) (auto_remove : bool) : M engine Vm :=
  check_name name ≫= fun _ =>
  let id := h_id h in
  let socket := socket_of id in
  lift_r (reject_long_unix_path socket) ≫= fun _ =>
  payload ← gets en_payload;
  c ← lift_r (prepare_managed_config (h_resolve_guest h (or_else (pl_guest <$> payload) (lo_guest_path lo))) (h_inject_rootfs h) c);
  let c := set_auto_remove auto_remove c in
  let c := set_vsock (vsock_ports c ++ [mkVsock AGENT_PORT socket true]) c in
  c ← with_overlay id c;
  '(c, shim) ← guarded id socket None (spawn_guarded id payload staged c);
  let vm := mkVm id name (sp_pid shim) image socket Running c (h_now h) in
  guarded id socket (Some (sp_pid shim)) (sql (insert (h_to_string h) vm)) ≫= fun _ =>
  modify (fun e => set_metrics (on_vm_created (en_metrics e)) e) ≫= fun _ =>
  emit_event (VmCreated id image) ≫= fun _ =>
  mret (mkHandle vm new_vm_metrics (sp_keepalive shim)).

(** ** boot/mod.rs *)

Record ResolvedImage : Type := mkResolvedImage {
  ri_rootfs : option string; ri_base_disk : option string; ri_image_label : option string; ri_oci_cfg : option ImageConfig
}.

Fixpoint replace_colon (s : string) : string :=
  match s with
  | EmptyString => EmptyString
  | String c r => String (if Ascii.eqb c ":" then "-"%char else c) (replace_colon r)
  end.

Definition resolve_image (image : ImageRef) : M engine ResolvedImage :=
  match image with
  | Options.Oci reference =>
    pull ← lift_r (h_oci_ensure h reference);
    payload ← gets en_payload;
    let guest := h_resolve_guest h (or_else (pl_guest <$> payload) (lo_guest_path lo)) in
    base ← disk (create_managed_base (h_estimate h) (h_create_from_dir h) (h_inject_file h) (lo_disk lo) guest (pr_rootfs pull)
                   (replace_colon (pr_digest pull)));
    mret (mkResolvedImage None (Some base) (Some (pr_reference pull)) (pr_config pull))
  | Rootfs p => if h_is_dir h p then mret (mkResolvedImage (Some p) None (Some p) None) else lift_r (Err InvalidConfig)
  | BaseDisk p =>
    found ← gets (fun e => bool_decide (components p ∈ rt_files (en_rt e)));
    if (found : bool) then mret (mkResolvedImage None (Some p) (Some p) None) else lift_r (Err InvalidConfig)
  end.

Definition merged_options (o : VmOptions) (cfg : option ImageConfig) : VmOptions :=
  match cfg with
  | None => o
  | Some img => let '(env, workdir, user, cmd) := merge_image_config (op_env o) (op_workdir o) (op_user o) (op_command o) img in
                opt_process env workdir user cmd o
  end.

Definition to_opt {E A} (r : result E A) : option A := match r with Ok a => Some a | Err _ => None end.

(** An operation on a fresh handle, which is dropped when it fails. *)
Definition on_handle (vm : Vm) (m : vmM ()) : M engine Vm := fun e =>
  let '(r, (vm', e')) := m (vm, e) in
  match r with
  | Ok _ => (Ok vm', e')
  | Err x => (Err x, (abort_unready h (vm', e')).2.2)
  end.

(** [create], up to the resolved image and volumes. *)
Definition create_resolve (o : VmOptions) : M engine (VmOptions * ResolvedImage * list ResolvedVolume) :=
  lift_r (validate_options o) ≫= fun _ =>
  lift_r (require_virtualization (h_virtualization h)) ≫= fun _ =>
  resolved ← lift_r (h_payload h (so_jailer (op_security o)) true);
  modify (set_payload resolved) ≫= fun _ =>
  img ← resolve_image (op_image o);
  let o := merged_options o (ri_oci_cfg img) in
  vols ← vol (resolve_mounts (lo_volumes_root lo) (fun p => to_opt (h_canonicalize h p)) (h_is_dir h) (h_home h) (h_now h) (op_volumes o));
  mret (o, img, vols).

(** The rest of [create]. *)
Definition create_spawn (o : VmOptions) (img : ResolvedImage) (vols : list ResolvedVolume) : M engine Vm :=
  let c := config_from_options (linux h) (h_now h) o (ri_rootfs img) (ri_base_disk img) (to_virtiofs <$> vols) in
  vm ← spawn_config c (op_secrets o) (ri_image_label img) (op_name o) (op_auto_remove o);
  vm ← on_handle vm (match vols with [] => mret () | _ => eng (vol (link_vm (vm_id (v_state vm)) vols)) end);
  on_handle vm (if op_ready_timeout o =? 0 then mret () else wait_ready h).

Definition create (o : VmOptions) : M engine Vm :=
  '(o, img, vols) ← create_resolve o; create_spawn o img vols.

(** ** runtime/vm.rs: starting a stopped VM *)

Definition parent_text (s : string) : string :=
  match parent (components s) with Some d => path_text d | None => "." end.

Definition resolve_secrets (staged : list Secret) (vm : VmState) : vmM (option LiveSecrets) :=
  match staged with
  | [] =>
    held ← gets (fun s => live_secrets (vm_id vm) s.2);
    match held with
    | Some l => mret (Some l)
    | None => if secrets_required (vm_config vm) then lift_r (Err SecretsRequired) else mret None
    end
  | _ =>
    if negb (is_enabled (network (vm_config vm))) then lift_r (Err SecretsNeedVirtioNet) else
    live ← lift_r (h_mint h staged);
    on_engine (hold_secrets (vm_id vm) live) ≫= fun _ =>
    set_self (fun v => with_config (set_secrets_required true (vm_config v)) v) ≫= fun _ =>
    mret (Some live)
  end.

(** The network step updates the handle's configuration also when it fails. *)
Definition self_virtio_net (socks_dir : string) (live : option LiveSecrets) : vmM (option (ShimNetwork * ShimGvproxy)) :=
  vm ← self;
  let '(r, c) := prepare_virtio_net (macos h) (h_probes h) (vm_id vm) socks_dir live (vm_config vm) in
  set_self (with_config c) ≫= fun _ =>
  net ← lift_r r;
  match net with
  | Some n => eng (unlink_unix_socket (components (sn_socket_path n.1))) ≫= fun _ => mret net
  | None => mret net
  end.

Definition commit_start (shim : ShimSpawnResult) : vmM () :=
  set_self (fun v => with_config (set_security_status (sp_security shim) (vm_config v)) v) ≫= fun _ =>
  vm ← self;
  r ← attempt (eng (sql (update_pid_status (vm_id vm) (sp_pid shim) Running) ≫= fun _ =>
                    sql (update_config (h_to_string h) (vm_id vm) (vm_config vm))));
  match r with
  | Err e => revert_failed_start (sp_pid shim) ≫= fun _ => lift_r (Err e)
  | Ok _ =>
    set_self (fun v => with_status Running (with_pid (sp_pid shim) v)) ≫= fun _ =>
    set_keepalive (sp_keepalive shim)
  end.

Definition start_spawn (o : StartOptions) : vmM ShimSpawnResult :=
  vm ← self;
  let need_guest := is_some (rootfs (vm_config vm)) || is_some (base_disk (vm_config vm)) in
  payload ← lift_r (h_payload h (so_jailer (security (vm_config vm))) need_guest);
  c ← lift_r (prepare_restart_config (h_resolve_guest h (if need_guest then Some (pl_guest payload) else None)) (h_inject_rootfs h) (vm_config vm));
  set_self (with_config c) ≫= fun _ =>
  vm ← self;
  live ← resolve_secrets (so_secrets o) vm;
  vm ← self;
  c ← lift_r (inject_guest_boot_env (h_boot_json h) (vm_id vm) (ls_ca_cert_pem <$> live) (vm_config vm));
  set_self (with_config c) ≫= fun _ =>
  let socks_dir := parent_text (vm_socket vm) in
  net ← self_virtio_net socks_dir live;
  vm ← self;
  eng (spawn_shim (vm_config vm) (path_text (with_file_name (components (vm_socket vm)) (vm_id vm +:+ ".json"))) socks_dir
         (fst <$> net) (snd <$> net) (Some (pl_shim payload)) (pl_bwrap payload)).

Definition start_with (o : StartOptions) : vmM () :=
  vm ← self;
  if negb (bool_decide (vm_status vm = Stopped)) then lift_r (Err InvalidState) else
  shim ← start_spawn o;
  commit_start shim ≫= fun _ =>
  eng (emit_event (VmStarted (vm_id vm))) ≫= fun _ =>
  let timeout := default READY_30S (so_ready_timeout o) in
  ready ← (if timeout =? 0 then mret (Ok ()) else attempt (wait_ready h));
  match ready with
  | Err e =>
    on_engine (fun e => set_metrics (record_failed (en_metrics e)) e) ≫= fun _ =>
    drop_result (kill h) ≫= fun _ => lift_r (Err e)
  | Ok _ => touch_activity h
  end.

Definition start (ready_timeout : Z) : vmM () := start_with (mkStart (Some ready_timeout) []).

(** ** snapshot.rs *)

Definition set_frozen (f : gset string) (e : engine) : engine :=
  mkEngine (en_rt e) (en_bytes e) (en_live e) (en_dirs e) (en_metrics e) (en_events e) (en_payload e) f.

(** An error may come from a guest that did freeze: the answer can be lost. *)
Definition try_quiesce (vm_id : string) (status : Status) : M engine bool := fun e =>
  if negb (bool_decide (status = Running)) then (Ok false, e) else
  match h_quiesce h with
  | NotFrozen x => (Err x, e)
  | FrozenUnheard x => (Err x, set_frozen ({[vm_id]} ∪ en_frozen e) e)
  | Frozen => (Ok true, set_frozen ({[vm_id]} ∪ en_frozen e) e)
  end.

Definition thaw (vm_id : string) : M engine () := modify (fun e =>
  if h_thaws h then set_frozen (en_frozen e ∖ {[vm_id]}) e else e).

(** [fs::copy]: the number of bytes; a failure may leave part of the copy.
    [frozen] are the guests that write to no disk meanwhile. *)
Definition copy_file (frozen : gset string) (src dst : path) (σ : fs) : result Error Z * fs :=
  match σ !! src with
  | None => (Err (StateTypes.Io EkNotFound), σ)
  | Some f =>
    match h_copy h with
    | Some (k, part) => (Err (StateTypes.Io k), put dst part σ)
    | None => let f := h_read_disk h frozen src f in (Ok (zlen f), <[dst := f]> σ)
    end
  end.

Definition copy_disk (src dst : path) : M engine Z := fun e => disk (copy_file (en_frozen e) src dst) e.

Definition snapshot_create (vm_id : string) (status : Status) (overlay : string) (name : option string) : M engine SnapshotRow :=
  let dest := join_text (lo_snapshots_dir lo) (h_id h +:+ ".qcow2") in
  quiesced ← try_quiesce vm_id status;
  copied ← attempt (copy_disk (components overlay) (components dest));
  (if (quiesced : bool) then thaw vm_id else mret ()) ≫= fun _ =>
  bytes ← lift_r copied;
  let row := mkSnapshot (h_id h) vm_id name dest bytes (h_now h) in
  sql (insert_snapshot row) ≫= fun _ => mret row.

Definition create_snapshot (vm : VmState) (name : option string) : M engine SnapshotRow :=
  overlay ← lift_r (ok_or (root_disk (vm_config vm)) InvalidState);
  row ← snapshot_create (vm_id vm) (vm_status vm) overlay name;
  emit_event (SnapshotCreated (vm_id vm) (h_id h)) ≫= fun _ => mret row.

Definition list_snapshots_of (vm : VmState) : M engine (list SnapshotRow) := sql_query (list_snapshots (vm_id vm)).

Definition snapshot_delete (snapshot_id : string) : M engine () :=
  snap ← sql_query (get_snapshot snapshot_id);
  modify (on_rt (rm_file (components (sn_disk_path snap)))) ≫= fun _ => sql (delete_snapshot snapshot_id).

(** ** runtime/mod.rs: clone and restore

    What a failed flatten leaves under the new base's name is not modelled. *)

Definition clone_prepare (clone_id source_id : string) (name : option string) : M engine VmOptions :=
  source ← get_exact h source_id;
  let base := join_text (bases_dir (lo_disk lo)) ("clone-" +:+ clone_id +:+ ".qcow2") in
  disk (fun σ => match flatten_vm_disk (h_fuel h) (lo_disk lo) (vm_id (v_state source)) (components base) σ with
                 | Ok σ' => (Ok (), σ')
                 | Err x => (Err x, σ)
                 end) ≫= fun _ =>
  mret (clone_vm_options (linux h) (vm_config (v_state source)) name base).

Definition clone (clone_id source_id : string) (name : option string) : M engine Vm :=
  o ← clone_prepare clone_id source_id name; create o.

Definition restore_prepare (restore_id snapshot_id : string) (name : option string) : M engine VmOptions :=
  snap ← sql_query (get_snapshot snapshot_id);
  found ← gets (fun e => bool_decide (components (sn_disk_path snap) ∈ rt_files (en_rt e)));
  if negb (found : bool) then lift_r (Err NotFound) else
  source ← get_exact h (sn_vm snap);
  let dest := join_text (bases_dir (lo_disk lo)) ("restore-" +:+ restore_id +:+ ".qcow2") in
  disk (fun σ => match flatten (h_fuel h) σ (components (sn_disk_path snap)) (components dest) with
                 | Ok σ' => (Ok (), σ')
                 | Err x => (Err (StateTypes.Qcow2 x), σ)
                 end) ≫= fun _ =>
  mret (clone_vm_options (linux h) (vm_config (v_state source)) name dest).

Definition restore (restore_id snapshot_id : string) (name : option string) : M engine Vm :=
  o ← restore_prepare restore_id snapshot_id name;
  vm ← create o;
  emit_event (SnapshotRestored (vm_id (v_state vm)) snapshot_id) ≫= fun _ => mret vm.
End Spawn.
