(* ===== verification/EngineCorrect.v ===== *)
(** * What a failed or interrupted boot leaves behind

    Facts about [EngineBoot]: which parts of the runtime's state each step may
    change, as preorders on states that the steps of an operation compose. *)

From S2P Require Import Prelude ProtoMessages Files Paths Qcow2Format Qcow2Image Qcow2Chain Qcow2Flatten ImageStore Ids Ports Boot StateTypes StateDb StateLookup Lifecycle LifecycleCorrect Volumes ManagedGuest Disk Text Process Options Jail Events Engine EngineBoot.

(** ** Steps that stay within a preorder *)

Section Moves.
Context {S : Type} (R : relation S) `{!PreOrder R}.

(** Every outcome is related to the start; every failing one is. *)
Definition moves {A} (m : M S A) : Prop := forall s, R s (m s).2.
Definition errs {A} (m : M S A) : Prop := forall s x s', m s = (Err x, s') -> R s s'.

Lemma moves_errs {A} (m : M S A) : moves m -> errs m.
Proof. intros H s x s' E. pose proof (H s) as K. by rewrite E in K. Qed.

Lemma moves_ret {A} (a : A) : moves (mret a).
Proof. intros s. reflexivity. Qed.
Lemma moves_lift {A} (r : result Error A) : moves (lift_r r).
Proof. intros s. reflexivity. Qed.
Lemma moves_gets {A} (f : S -> A) : moves (gets f).
Proof. intros s. reflexivity. Qed.
Lemma moves_modify f : (forall s, R s (f s)) -> moves (modify f).
Proof. intros H s. apply H. Qed.

Lemma moves_bind {A B} (m : M S A) (f : A -> M S B) : moves m -> (forall a, moves (f a)) -> moves (m ≫= f).
Proof.
  intros Hm Hf s. unfold mbind, M_bind. pose proof (Hm s) as H. destruct (m s) as [[a|x] s']; simpl in *; [|done].
  etrans; [exact H|apply Hf].
Qed.

Lemma errs_bind {A B} (m : M S A) (f : A -> M S B) : moves m -> (forall a, errs (f a)) -> errs (m ≫= f).
Proof.
  intros Hm Hf s x s'. unfold mbind, M_bind. pose proof (Hm s) as H. destruct (m s) as [[a|y] s1]; simpl in H.
  - intros E. etrans; [exact H|]. by apply (Hf a _ x).
  - by intros [= -> ->].
Qed.

(** A last step that cannot fail. *)
Lemma errs_last {A B} (m : M S A) (g : A -> B) : errs m -> errs (m ≫= fun a => mret (g a)).
Proof. intros Hm s x s'. unfold mbind, M_bind. destruct (m s) as [[a|y] s1] eqn:E; intros [= -> ->]. by apply (Hm _ x). Qed.

Lemma moves_attempt {A} (m : M S A) : moves m -> moves (attempt m).
Proof. intros H s. unfold attempt. pose proof (H s) as K. by destruct (m s). Qed.
Lemma moves_drop {A} (m : M S A) : moves m -> moves (drop_result m).
Proof. intros H s. apply H. Qed.
End Moves.

Lemma bind_Err_inv {S A B} (m : M S A) (f : A -> M S B) s x s' :
  (m ≫= f) s = (Err x, s') -> m s = (Err x, s') \/ exists a s1, m s = (Ok a, s1) /\ f a s1 = (Err x, s').
Proof. unfold mbind, M_bind. destruct (m s) as [[a|y] s1]; intros H; [right; eauto|left]. by injection H as -> ->. Qed.

Lemma bind_Ok_M {S A B} (m : M S A) (f : A -> M S B) s b s' :
  (m ≫= f) s = (Ok b, s') -> exists a s1, m s = (Ok a, s1) /\ f a s1 = (Ok b, s').
Proof. unfold mbind, M_bind. destruct (m s) as [[a|y] s1]; intros H; [eauto|done]. Qed.

(** ** The files of one VM *)

Section Paths.
Context (lo : layout) (id : string).

Definition sock_path : path := components (socket_of lo id).
Definition json_path : path := components (join_text (lo_socks_dir lo) (id +:+ ".json")).
Definition net_path : path := components (lo_socks_dir lo +:+ "/" +:+ id +:+ ".net.sock").
Definition stderr_path : path := with_extension json_path "stderr".
Definition overlay_path : path := components (vm_disk_text (lo_disk lo) id).

(** What an aborted start removes. *)
Definition scratch : gset path := {[sock_path; json_path; net_path; overlay_path]}.

Lemma below dir r0 name : dir = String "/" r0 -> str_contains_char "/" name = false ->
  name <> ""%string -> name <> "."%string -> name <> ".."%string ->
  components (dir +:+ "/" +:+ name) = components dir ++ [Normal name].
Proof.
  intros Hd Hs H1 H2 H3. pose proof (components_below dir r0 name Hd Hs) as E. unfold volume_dir in E. rewrite E.
  cbn [omap list_omap]. unfold comp_of_part. by rewrite !decide_False by done.
Qed.

(** An id as [gen_id] makes them, and absolute directories. *)
Definition plain_name (n : string) : Prop := n <> ""%string /\ str_contains_char "/" n = false.

Record absolute_dirs : Prop := {
  abs_socks : exists r, lo_socks_dir lo = String "/" r;
  abs_vms : exists r, vms_dir (lo_disk lo) = String "/" r
}.

Lemma join_plain dir n : plain_name n -> join_text dir n = dir +:+ "/" +:+ n.
Proof.
  intros [H1 H2]. unfold join_text. destruct n as [|c n]; [done|]. cbn [str_contains_char] in H2. apply orb_false_iff in H2 as [H2 _].
  apply bool_decide_eq_false in H2. destruct c as [[] [] [] [] [] [] [] []]; try done.
Qed.

Lemma string_app_assoc (a b c : string) : (a +:+ b) +:+ c = a +:+ (b +:+ c).
Proof. induction a as [|x a IH]; [done|]. change (String x ((a +:+ b) +:+ c) = String x (a +:+ (b +:+ c))). by rewrite IH. Qed.

Lemma length_app_str (a b : string) : String.length (a +:+ b) = (String.length a + String.length b)%nat.
Proof. induction a as [|x a IH]; [done|]. change (S (String.length (a +:+ b)) = S (String.length a + String.length b)). by rewrite IH. Qed.

Lemma dotted_plain e : plain_name id -> str_contains_char "/" e = false -> e <> ""%string ->
  plain_name (id +:+ String "." e) /\ id +:+ String "." e <> "."%string /\ id +:+ String "." e <> ".."%string.
Proof.
  intros [H1 H2] He Hne. split_and!; [split|..].
  - by destruct id.
  - rewrite str_contains_char_app, H2. exact He.
  - intros E. apply (f_equal String.length) in E. rewrite length_app_str in E. destruct id; [done|]. simpl in E. lia.
  - intros E. apply (f_equal String.length) in E. rewrite length_app_str in E. destruct id; [done|]. destruct e; [done|]. simpl in E. lia.
Qed.

Lemma dotted_below dir r0 e : dir = String "/" r0 -> plain_name id -> str_contains_char "/" e = false -> e <> ""%string ->
  components (join_text dir (id +:+ String "." e)) = components dir ++ [Normal (id +:+ String "." e)].
Proof.
  intros Hd Hid He Hne. destruct (dotted_plain e Hid He Hne) as ([P1 P2] & P3 & P4).
  rewrite join_plain by done. by apply (below dir r0).
Qed.

Lemma with_extension_dotted d e ext : plain_name id -> str_contains_char "." e = false ->
  with_extension (d ++ [Normal (id +:+ String "." e)]) ext = d ++ [Normal (id +:+ "." +:+ ext)].
Proof.
  intros [Hid _] He. unfold with_extension, file_name. rewrite last_snoc, pop_snoc. unfold Lifecycle.file_stem.
  rewrite (rsplit_once_app ".") by done. by rewrite decide_False.
Qed.

Lemma vm_paths : absolute_dirs -> plain_name id ->
  with_extension sock_path "json" = json_path /\ with_extension sock_path "net.sock" = net_path
  /\ with_extension sock_path "stderr" = stderr_path /\ vm_disk_path (components (vms_dir (lo_disk lo))) id = overlay_path.
Proof.
  intros [[r Hr] [r' Hr']] Hid. unfold sock_path, stderr_path, json_path, net_path, overlay_path, socket_of, vm_disk_text, vm_disk_path.
  rewrite <- (join_plain (lo_socks_dir lo) (id +:+ ".net.sock")) by (by apply dotted_plain).
  rewrite !(dotted_below _ _ _ Hr Hid), (dotted_below _ _ _ Hr' Hid) by done.
  rewrite !with_extension_dotted by done. split_and!; [done..|].
  destruct (dotted_plain "qcow2" Hid eq_refl) as ([P1 P2] & P3 & P4); [done|].
  assert (E : components (id +:+ ".qcow2") = [Normal (id +:+ ".qcow2")]).
  { unfold components. rewrite (split_on_whole _ _ P2). unfold rel_components.
    assert (Er : omap comp_of_part [id +:+ ".qcow2"] = [Normal (id +:+ ".qcow2")]).
    { cbn [omap list_omap]. unfold comp_of_part. by rewrite !decide_False by done. }
    destruct (id +:+ ".qcow2") as [|c i] eqn:Ei; [done|]. cbn [str_contains_char] in P2. apply orb_false_iff in P2 as [Hc _].
    apply bool_decide_eq_false in Hc. rewrite Er. destruct i as [|d i].
    - destruct c as [[] [] [] [] [] [] [] []]; done.
    - destruct c as [[] [] [] [] [] [] [] []]; done. }
  rewrite E, Hr'. unfold join. cbn [is_absolute]. unfold components at 1 3. done.
Qed.
End Paths.

(** ** Steps that concern one VM only *)

Definition others (id : string) (d : state_db) : list vm_row := List.filter (fun r => negb (bool_decide (v_id r = id))) (vms d).

Section Near.
Context (lo : layout) (h : host).
Let id := h_id h.
Context (Hdirs : absolute_dirs lo) (Hid : plain_name id).

Definition tmp_path : path := components (join_text (vms_dir (lo_disk lo)) (id +:+ ".qcow2.tmp")).

(** Other VMs' rows and secrets stay, and the only files that may come or go are
    the VM's own; no process starts or is signalled. *)
Record near (e e' : engine) : Prop := {
  near_rows : others id (en_db e') = others id (en_db e);
  near_secrets : rt_secrets (en_rt e') ∖ {[id]} = rt_secrets (en_rt e) ∖ {[id]};
  near_up : rt_files (en_rt e') ⊆ rt_files (en_rt e) ∪ (scratch lo id ∪ {[stderr_path lo id]});
  near_down : rt_files (en_rt e) ∖ (scratch lo id ∪ {[stderr_path lo id; tmp_path]}) ⊆ rt_files (en_rt e');
  near_dir : rt_vms_dir (en_rt e') = rt_vms_dir (en_rt e)
}.

Record calm (e e' : engine) : Prop := {
  calm_near : near e e';
  calm_alive : rt_alive (en_rt e') = rt_alive (en_rt e);
  calm_signals : rt_signals (en_rt e') = rt_signals (en_rt e)
}.

#[export] Instance near_preorder : PreOrder near.
Proof.
  split; [split; set_solver|]. intros e1 e2 e3 [A1 A2 A3 A4 A5] [B1 B2 B3 B4 B5]. split; try congruence; [|].
  - set (X := scratch lo id ∪ {[stderr_path lo id]}) in *. set_solver.
  - set (Y := scratch lo id ∪ {[stderr_path lo id; tmp_path]}) in *. set_solver.
Qed.
#[export] Instance calm_preorder : PreOrder calm.
Proof. split; [split; reflexivity|]. intros e1 e2 e3 [] []. split; [by etrans|congruence..]. Qed.

(** Only the files differ, by one of the VM's own. *)
Lemma calm_files e e' p :
  en_db e' = en_db e -> rt_secrets (en_rt e') = rt_secrets (en_rt e) -> rt_vms_dir (en_rt e') = rt_vms_dir (en_rt e) ->
  rt_alive (en_rt e') = rt_alive (en_rt e) -> rt_signals (en_rt e') = rt_signals (en_rt e) ->
  p ∈ scratch lo id ∪ {[stderr_path lo id]} ->
  rt_files (en_rt e') = {[p]} ∪ rt_files (en_rt e) \/ rt_files (en_rt e') = rt_files (en_rt e) ∖ {[p]} ->
  calm e e'.
Proof.
  intros H1 H2 H3 H4 H5 Hp Hf. split; [|done..]. split; [by rewrite H1|by rewrite H2| | |done].
  - set_solver.
  - set (X := scratch lo id) in *. set_solver.
Qed.

Lemma calm_rm p e : p ∈ scratch lo id -> calm e (on_rt (rm_file p) e).
Proof. intros Hp. apply (calm_files e _ p); [done..|set_solver|by right]. Qed.
Lemma calm_add p e : p ∈ scratch lo id ∪ {[stderr_path lo id]} -> calm e (on_rt (add_file p) e).
Proof. intros Hp. apply (calm_files e _ p); [done..|by left]. Qed.

Lemma calm_hold l e : calm e (hold_secrets id l e).
Proof. split; [|done..]. split; [done| |set_solver..|done]. cbn. set_solver. Qed.

Lemma calm_same e e' : en_rt e' = en_rt e -> calm e e'.
Proof. intros E. split; [split|..]; unfold en_db; rewrite ?E; try done; set_solver. Qed.

(** *** The disk view *)

Lemma dom_disk_fs e : dom (disk_fs e) ⊆ rt_files (en_rt e).
Proof.
  unfold disk_fs. intros p [f Hf]%elem_of_dom. apply map_lookup_filter_Some in Hf as [_ Hp]. done.
Qed.

Lemma files_set_disk e σ : rt_files (en_rt (set_disk_fs σ e)) = (rt_files (en_rt e) ∖ dom (disk_fs e)) ∪ dom σ.
Proof. done. Qed.

Lemma set_disk_same e : rt_files (en_rt (set_disk_fs (disk_fs e) e)) = rt_files (en_rt e).
Proof.
  rewrite files_set_disk. pose proof (dom_disk_fs e). apply set_eq. intros p. destruct (decide (p ∈ dom (disk_fs e))); set_solver.
Qed.

Lemma created_image (σ σ' : fs) p b f vs : Qcow2Image.create_overlay σ p b f vs = Ok σ' -> exists buf, σ' = <[p := buf]> σ.
Proof. unfold Qcow2Image.create_overlay. intros (buf & _ & [= <-])%bind_Ok_inv. eauto. Qed.

#[local] Opaque Qcow2Image.create_overlay overlay_params.

Lemma calm_disk_grow e σ : dom σ ⊆ dom (disk_fs e) ∪ {[overlay_path lo id]} -> dom (disk_fs e) ∖ {[tmp_path]} ⊆ dom σ -> calm e (set_disk_fs σ e).
Proof.
  intros H1 H2. pose proof (dom_disk_fs e) as H3. split; [|done..]. split; [done..| | |done]; rewrite files_set_disk; unfold scratch.
  - set_solver.
  - intros p Hp. destruct (decide (p ∈ dom (disk_fs e))); set_solver.
Qed.

Lemma overlay_dom canonicalize base fmt (σ : fs) r σ' :
  create_overlay canonicalize (lo_disk lo) base fmt id σ = (r, σ') ->
  σ' = σ \/ (is_ok r = true /\ dom σ' ⊆ dom σ ∪ {[overlay_path lo id]} /\ dom σ ∖ {[tmp_path]} ⊆ dom σ').
Proof.
  unfold create_overlay. destruct (overlay_params _ _ _ _) as [[[abs vs] f]|]; [|intros [= _ <-]; by left].
  destruct (Qcow2Image.create_overlay _ _ _ _ _) as [σ1|] eqn:E; cbn [publish]; [|intros [= _ <-]; by left].
  apply created_image in E as [buf ->]. unfold rename. rewrite lookup_insert_eq. cbn [ok_or mbind result_bind].
  intros [= <- <-]. right. fold (overlay_path lo id). fold tmp_path. split_and!; [done|..]; rewrite dom_insert, dom_delete, dom_insert; set_solver.
Qed.

Lemma moves_overlay c : moves calm (with_overlay lo h id c).
Proof.
  unfold with_overlay. destruct (base_disk c) as [b|]; [|apply moves_ret; apply _].
  apply moves_bind; [apply _| |intros; apply moves_ret; apply _]. intros e. unfold disk.
  destruct (create_overlay _ _ _ _ _ _) as [r σ] eqn:E. cbn. apply overlay_dom in E as [->|(_ & E1 & E2)].
  - apply calm_disk_grow; set_solver.
  - by apply calm_disk_grow.
Qed.

(** *** The steps of the guarded part *)

Lemma sock_in : sock_path lo id ∈ scratch lo id. Proof. unfold scratch. set_solver. Qed.
Lemma json_in : json_path lo id ∈ scratch lo id. Proof. unfold scratch. set_solver. Qed.
Lemma net_in : net_path lo id ∈ scratch lo id. Proof. unfold scratch. set_solver. Qed.
Lemma overlay_in : overlay_path lo id ∈ scratch lo id. Proof. unfold scratch. set_solver. Qed.

Definition listens (c : VmConfig) : Prop := Forall (fun v => components (vp_path v) = sock_path lo id) (vsock_ports c).

Lemma moves_virtio_net live c : moves calm (virtio_net h id (lo_socks_dir lo) live c).
Proof.
  intros e. unfold virtio_net. destruct (prepare_virtio_net _ _ _ _ _ _) as [[[n|]|] c'] eqn:E; [|reflexivity..].
  unfold prepare_virtio_net in E. destruct (negb _); [done|]. destruct (mbind _ _) as [[prs pub]|]; [|done].
  destruct (reject_long_unix_path _); [|done]. injection E as <- <-. cbn [fst sn_socket_path]. unfold unlink_unix_socket.
  destruct (h_unlink h _); [reflexivity|]. apply calm_rm, net_in.
Qed.

Lemma virtio_net_listens live c c' n e e' :
  virtio_net h id (lo_socks_dir lo) live c e = (Ok (c', n), e') -> vsock_ports c' = vsock_ports c /\ virtiofs c' = virtiofs c.
Proof.
  unfold virtio_net, prepare_virtio_net. destruct (negb _); [intros [= <- <- <-]; done|].
  destruct (mbind _ _) as [[prs pub]|]; [|done]. destruct (reject_long_unix_path _); [|done]. unfold unlink_unix_socket.
  destruct (h_unlink h _); [done|]. intros [= <- <- <-]. done.
Qed.

Lemma moves_unlink vs : Forall (fun v => components (vp_path v) = sock_path lo id) vs -> moves calm (unlink_listeners h vs).
Proof.
  induction 1 as [|v vs Hv _ IH]; [apply moves_ret; apply _|]. cbn [unlink_listeners]. apply moves_bind; [apply _| |intros; apply IH].
  destruct (vp_listen v); [|apply moves_ret; apply _]. intros e. unfold unlink_unix_socket. destruct (h_unlink h _); [reflexivity|]. cbn. rewrite Hv. apply calm_rm, sock_in.
Qed.

Lemma moves_write_json : moves calm (write_shim_json h (json_path lo id)).
Proof.
  intros e. unfold write_shim_json. destruct (h_write_json h) as [[[] k]|]; [|reflexivity|]; apply calm_add; unfold scratch; set_solver.
Qed.

Lemma moves_fails o : moves calm (fails o).
Proof. destruct o; [apply moves_lift|apply moves_ret]; apply _. Qed.

Lemma errs_unlink_on_err {A} (m : M engine A) : errs calm m -> errs calm (unlink_on_err (json_path lo id) m).
Proof.
  intros H e x e'. unfold unlink_on_err. destruct (m e) as [[a|y] e1] eqn:E; [done|]. intros [= -> <-].
  etrans; [by apply (H _ _ _ E)|]. apply calm_rm, json_in.
Qed.

Lemma errs_spawn_shim c net gv shim bwrap : listens c ->
  errs calm (spawn_shim h c (join_text (lo_socks_dir lo) (id +:+ ".json")) (lo_socks_dir lo) net gv shim bwrap).
Proof.
  intros Hl. unfold spawn_shim. destruct (negb _); [apply moves_errs, moves_lift; apply _|].
  destruct (_ && _); [apply moves_errs, moves_lift; apply _|]. destruct (h_shim_json _ _); [|apply moves_errs, moves_lift; apply _].
  fold (json_path lo id). apply errs_bind; [apply _|apply moves_write_json|intros _]. apply errs_unlink_on_err.
  apply errs_bind; [apply _|apply moves_fails|intros _].
  apply errs_bind; [apply _|apply moves_modify; intros e; apply calm_add; unfold stderr_path; set_solver|intros _].
  apply errs_bind; [apply _| |intros wd].
  { destruct (watch_parent _); [|apply moves_ret; apply _]. apply moves_bind; [apply _|apply moves_lift; apply _|intros; apply moves_ret; apply _]. }
  apply errs_bind; [apply _|apply moves_lift; apply _|intros shim']. apply errs_bind; [apply _|apply moves_gets; apply _|intros σ].
  apply errs_bind; [apply _|by apply moves_unlink|intros _].
  intros e x e' [H|([p r] & e1 & H & [=])]%bind_Err_inv. unfold jail_spawn in H.
  destruct (spawn _ _ _ _ _ _ _ _ _) as [[pid rep]|]; [done|]. injection H as _ <-. reflexivity.
Qed.

(** On success the new process is all that changed beyond that. *)
Definition spawned (pid : Z) (e e' : engine) : Prop :=
  near e e' /\ rt_alive (en_rt e') = {[pid]} ∪ rt_alive (en_rt e) /\ rt_signals (en_rt e') = rt_signals (en_rt e).

Lemma calm_spawned pid e e1 e2 : calm e e1 -> spawned pid e1 e2 -> spawned pid e e2.
Proof. intros [H1 H2 H3] (K1 & K2 & K3). split_and!; [by etrans|congruence..]. Qed.

Definition oks {A} (Q : A -> engine -> engine -> Prop) (m : M engine A) : Prop := forall e a e', m e = (Ok a, e') -> Q a e e'.

Lemma oks_bind {A B} (pid : B -> Z) (m : M engine A) (f : A -> M engine B) :
  moves calm m -> (forall a, oks (fun b => spawned (pid b)) (f a)) -> oks (fun b => spawned (pid b)) (m ≫= f).
Proof.
  intros Hm Hf e b e' (a & e1 & H1 & H2)%bind_Ok_M. pose proof (Hm e) as K. rewrite H1 in K.
  apply (calm_spawned _ _ e1); [done|]. by apply (Hf a).
Qed.

Lemma oks_lift {A B} (pid : B -> Z) (r : result Error A) (f : A -> M engine B) :
  (forall a, r = Ok a -> oks (fun b => spawned (pid b)) (f a)) -> oks (fun b => spawned (pid b)) (lift_r r ≫= f).
Proof. intros Hf e b e' (a & e1 & [= H1 <-] & H2)%bind_Ok_M. by apply (Hf a). Qed.

Lemma oks_fail {A} (Q : A -> engine -> engine -> Prop) x : oks Q (lift_r (Err x)).
Proof. by intros e a e'. Qed.

Lemma oks_spawn_shim c net gv shim bwrap : listens c ->
  oks (fun r => spawned (sp_pid r)) (spawn_shim h c (join_text (lo_socks_dir lo) (id +:+ ".json")) (lo_socks_dir lo) net gv shim bwrap).
Proof.
  intros Hl. unfold spawn_shim. destruct (negb _); [apply oks_fail|].
  destruct (_ && _); [apply oks_fail|]. destruct (h_shim_json _ _); [|apply oks_fail].
  fold (json_path lo id). apply oks_bind; [apply moves_write_json|intros _].
  assert (K : forall m : M engine ShimSpawnResult, oks (fun r => spawned (sp_pid r)) m -> oks (fun r => spawned (sp_pid r)) (unlink_on_err (json_path lo id) m)).
  { intros m H e a e'. unfold unlink_on_err. destruct (m e) as [[b|y] e1] eqn:E; [|done]. intros [= -> <-]. by apply H. }
  apply K. apply oks_bind; [apply moves_fails|intros _].
  apply oks_bind; [apply moves_modify; intros e; apply calm_add; unfold stderr_path; set_solver|intros _].
  apply oks_bind; [|intros wd].
  { destruct (watch_parent _); [|apply moves_ret; apply _]. apply moves_bind; [apply _|apply moves_lift; apply _|intros; apply moves_ret; apply _]. }
  apply oks_bind; [apply moves_lift; apply _|intros shim']. apply oks_bind; [apply moves_gets; apply _|intros σ].
  apply oks_bind; [by apply moves_unlink|intros _].
  intros e r e' ([pid rep] & e1 & H & [= <- <-])%bind_Ok_M. unfold jail_spawn in H.
  destruct (spawn _ _ _ _ _ _ _ _ _) as [[pid' rep']|]; [|done]. injection H as <- <- <-.
  split_and!; [|done..]. split; [done..| | |done]; cbn; set_solver.
Qed.

(** *** The guarded part and its abort *)

Lemma secrets_listens staged c live c' : spawn_secrets h staged c = Ok (live, c') -> vsock_ports c' = vsock_ports c.
Proof.
  unfold spawn_secrets. destruct staged; [intros [= <- <-]; done|]. destruct (negb _); [done|].
  intros (l & _ & [= <- <-])%bind_Ok_inv. done.
Qed.

Lemma boot_env_listens ca c c' : inject_guest_boot_env (h_boot_json h) id ca c = Ok c' -> vsock_ports c' = vsock_ports c.
Proof. unfold inject_guest_boot_env. intros (v & _ & (en & _ & [= <-])%bind_Ok_inv)%bind_Ok_inv. done. Qed.

Lemma hold_moves (live : option LiveSecrets) : moves calm (match live with Some l => modify (hold_secrets id l) | None => mret () end).
Proof. destruct live; [apply moves_modify; intros; apply calm_hold|apply moves_ret; apply _]. Qed.

Lemma errs_guarded_part payload staged c : listens c -> errs calm (spawn_guarded lo h id payload staged c).
Proof.
  intros Hl e x e'. unfold spawn_guarded. intros [[= _ <-]|([live c1] & e1 & [= H1 <-] & H)]%bind_Err_inv; [reflexivity|].
  apply bind_Err_inv in H as [[= _ <-]|(c2 & e2 & [= H2 <-] & H)]; [reflexivity|].
  pose proof (moves_virtio_net live c2 e) as Hv.
  apply bind_Err_inv in H as [H|([c3 net] & e3 & H3 & H)]; [by rewrite H in Hv|]. rewrite H3 in Hv. etrans; [exact Hv|].
  apply virtio_net_listens in H3 as [L3 _].
  assert (Hl3 : listens c3) by (unfold listens; by rewrite L3, (boot_env_listens _ _ _ H2), (secrets_listens _ _ _ _ H1)).
  revert H. apply errs_bind; [apply _|apply hold_moves|intros _]. apply errs_last. by apply errs_spawn_shim.
Qed.

Lemma oks_guarded_part payload staged c : listens c -> oks (fun r => spawned (sp_pid r.2)) (spawn_guarded lo h id payload staged c).
Proof.
  intros Hl. unfold spawn_guarded. apply oks_lift. intros [live c1] H1. apply oks_lift. intros c2 H2.
  intros e r e' ([c3 net] & e3 & H3 & H)%bind_Ok_M. pose proof (moves_virtio_net live c2 e) as Hv. rewrite H3 in Hv.
  apply (calm_spawned _ _ e3); [exact Hv|]. apply virtio_net_listens in H3 as [L3 _].
  assert (Hl3 : listens c3) by (unfold listens; by rewrite L3, (boot_env_listens _ _ _ H2), (secrets_listens _ _ _ _ H1)).
  refine (oks_bind (fun r => sp_pid r.2) _ _ (hold_moves live) _ e3 r e' H). intros _ e4 r' e5 (s & e6 & Hs & [= <- <-])%bind_Ok_M.
  by apply (oks_spawn_shim c3 _ _ _ _ Hl3 _ _ _ Hs).
Qed.

(** *** Teardown *)

Definition teardown (pid : option Z) (rt : runtime) : runtime :=
  let rt := match pid with Some p => rt_signal p SIGKILL rt | None => rt end in
  let rt := rt_set_secrets (rt_secrets rt ∖ {[id]}) rt in
  db_drop (remove_vm_disk id (unlink_vm id (clean_unready_files (socket_of lo id) rt))) (delete id).

Lemma abort_partial_rt pid e : en_rt (abort_partial_spawn id (socket_of lo id) pid e) = teardown pid (en_rt e).
Proof. by destruct pid. Qed.

Lemma abort_unready_rt vm e : vm_id (v_state vm) = id -> vm_socket (v_state vm) = socket_of lo id ->
  en_rt (abort_unready h (vm, e)).2.2 = teardown (Some (vm_pid (v_state vm))) (en_rt e).
Proof. intros H1 H2. unfold teardown. rewrite <- H2, <- H1. done. Qed.

(** Nothing of the VM is left. *)
Record tidy (e : engine) : Prop := {
  tidy_row : id ∉ v_id <$> vms (en_db e);
  tidy_secrets : id ∉ rt_secrets (en_rt e);
  tidy_files : scratch lo id ## rt_files (en_rt e)
}.

Lemma others_absent d : id ∉ v_id <$> others id d.
Proof. intros (r & -> & Hr)%list_elem_of_fmap. apply elem_of_filter_bool in Hr as [_ Hr]. by rewrite bool_decide_true in Hr. Qed.

Lemma others_all d : id ∉ v_id <$> vms d -> others id d = vms d.
Proof.
  intros Hn. unfold others. assert (Hf : Forall (fun r => negb (bool_decide (v_id r = id)) = true) (vms d)).
  { apply Forall_forall. intros r Hr. rewrite bool_decide_false; [done|]. intros <-. apply Hn. by apply list_elem_of_fmap_2. }
  clear Hn. induction Hf as [|r l Hr _ IH]; [done|]. cbn [List.filter]. rewrite Hr. by f_equal.
Qed.

Lemma teardown_spec pid e e' :
  en_rt e' = teardown pid (en_rt e) -> rt_vms_dir (en_rt e) = components (vms_dir (lo_disk lo)) ->
  near e e' /\ tidy e' /\ rt_alive (en_rt e') = rt_alive (en_rt e)
  /\ rt_signals (en_rt e') = rt_signals (en_rt e) ++ (match pid with Some p => [(p, SIGKILL)] | None => [] end).
Proof.
  intros E Hd. destruct (vm_paths lo id Hdirs Hid) as (P1 & P2 & _ & P4). fold (sock_path lo id) in P1.
  assert (Hf : rt_files (en_rt e') = rt_files (en_rt e) ∖ {[sock_path lo id]} ∖ {[json_path lo id]} ∖ {[net_path lo id]} ∖ {[overlay_path lo id]}).
  { rewrite E. unfold teardown, clean_unready_files, clean_net_sock, clean_vsock_sock. fold (sock_path lo id). rewrite P1, P2.
    destruct pid; cbn; rewrite Hd, P4; done. }
  assert (Hr : vms (en_db e') = others id (en_db e)) by (unfold en_db; rewrite E; by destruct pid).
  assert (Hs : rt_secrets (en_rt e') = rt_secrets (en_rt e) ∖ {[id]}) by (rewrite E; by destruct pid).
  split_and!.
  - split.
    + unfold others at 1. rewrite Hr. change (others id (mkStateDb (others id (en_db e)) [] [] [] []) = others id (en_db e)).
      apply others_all, others_absent.
    + rewrite Hs. set_solver.
    + rewrite Hf. set_solver.
    + rewrite Hf. unfold scratch. set_solver.
    + rewrite E. by destruct pid.
  - split; [rewrite Hr; apply others_absent|rewrite Hs; set_solver|]. rewrite Hf. unfold scratch. set_solver.
  - rewrite E. by destruct pid.
  - rewrite E. destruct pid; [done|]. by rewrite app_nil_r.
Qed.

(** *** Failure *)

Record fresh (e : engine) : Prop := {
  fresh_tidy : tidy e;
  fresh_stderr : stderr_path lo id ∉ rt_files (en_rt e);
  fresh_tmp : tmp_path ∉ rt_files (en_rt e);
  fresh_dir : rt_vms_dir (en_rt e) = components (vms_dir (lo_disk lo))
}.

(** The rows, secrets and files are the ones from before, up to the log; at most
    one process was started, and it was killed. *)
Record undone (e e' : engine) : Prop := {
  un_rows : vms (en_db e') = vms (en_db e);
  un_secrets : rt_secrets (en_rt e') = rt_secrets (en_rt e);
  un_kept : rt_files (en_rt e) ⊆ rt_files (en_rt e');
  un_left : rt_files (en_rt e') ⊆ rt_files (en_rt e) ∪ {[stderr_path lo id]};
  un_process : (rt_alive (en_rt e') = rt_alive (en_rt e) /\ rt_signals (en_rt e') = rt_signals (en_rt e))
    \/ exists pid, rt_alive (en_rt e') = {[pid]} ∪ rt_alive (en_rt e)
         /\ rt_signals (en_rt e') = rt_signals (en_rt e) ++ [(pid, SIGKILL)]
}.

Lemma near_undone e e' : fresh e -> near e e' -> tidy e' ->
  ((rt_alive (en_rt e') = rt_alive (en_rt e) /\ rt_signals (en_rt e') = rt_signals (en_rt e))
   \/ exists pid, rt_alive (en_rt e') = {[pid]} ∪ rt_alive (en_rt e)
        /\ rt_signals (en_rt e') = rt_signals (en_rt e) ++ [(pid, SIGKILL)]) ->
  undone e e'.
Proof.
  intros [[F1 F2 F3] F4 F5 F6] [N1 N2 N3 N4 N5] [T1 T2 T3] Hp. split; [| | | |done].
  - rewrite !others_all in N1 by done. exact N1.
  - clear - N2 T2 F2. set_solver.
  - clear - F1 F3 F4 F5 N4. revert F3 F5 F1 F4 N4. generalize (scratch lo id) as X. clear. intros. intros p Hp.
    apply N4, elem_of_difference. split; [exact Hp|]. rewrite !elem_of_union, !elem_of_singleton.
    intros [HX|[->| ->]]; [|done..]. by apply (F3 p).
  - clear - T3 N3. revert T3 N3. generalize (scratch lo id) as X. clear. intros X T3 N3 p Hp.
    specialize (N3 p Hp). rewrite !elem_of_union in *. destruct N3 as [?|[HX|?]]; [by left| |by right].
    by destruct (T3 p).
Qed.

Lemma undone_refl e : undone e e.
Proof. split; [done..|set_solver|by left]. Qed.

Lemma guarded_err {A} pid (m : M engine A) e x e' :
  guarded id (socket_of lo id) pid m e = (Err x, e') -> exists e1, m e = (Err x, e1) /\ e' = abort_partial_spawn id (socket_of lo id) pid e1.
Proof. unfold guarded. destruct (m e) as [[a|y] e1]; [done|]. intros [= -> <-]. eauto. Qed.

Lemma guarded_ok {A} pid (m : M engine A) e a e' : guarded id (socket_of lo id) pid m e = (Ok a, e') -> m e = (Ok a, e').
Proof. unfold guarded. by destruct (m e) as [[b|y] e1]. Qed.

Lemma near_insert vm e d : vm_id vm = id -> insert (h_to_string h) vm (en_db e) = Ok d -> near e (set_rt (set_db (en_rt e) d) e).
Proof.
  intros Hv (j & _ & Hi)%bind_Ok_inv. destruct (_ || _); [done|]. injection Hi as <-. split; [|done|set_solver..|done].
  unfold others, en_db. cbn. rewrite List.filter_app. cbn. rewrite Hv, bool_decide_true by done. by rewrite app_nil_r.
Qed.

Lemma check_name_same name e : (check_name h name e).2 = e.
Proof.
  unfold check_name. destruct name as [n|]; [|done]. unfold mbind, M_bind, sql_query.
  destruct (get_by_name _ _ _) as [[s|]|]; done.
Qed.

Lemma tidy_same e e' : en_db e' = en_db e -> rt_secrets (en_rt e') = rt_secrets (en_rt e) -> rt_files (en_rt e') = rt_files (en_rt e) -> tidy e -> tidy e'.
Proof. intros H1 H2 H3 []. split; rewrite ?H1, ?H2, ?H3; done. Qed.

Lemma overlay_failed c e x e' : with_overlay lo h id c e = (Err x, e') -> tidy e -> calm e e' /\ tidy e'.
Proof.
  intros E Ht. pose proof (moves_overlay c e) as Hm. rewrite E in Hm. split; [exact Hm|].
  unfold with_overlay in E. destruct (base_disk c) as [b|]; [|done]. apply bind_Err_inv in E as [E|(a & e1 & _ & [=])].
  unfold disk in E. destruct (create_overlay _ _ _ _ _ _) as [r σ] eqn:Ho. injection E as -> <-.
  apply overlay_dom in Ho as [->|(Hok & _)]; [|done]. apply (tidy_same e); [done..|apply set_disk_same|done].
Qed.

Lemma overlay_listens c e c' e' : with_overlay lo h id c e = (Ok c', e') -> vsock_ports c' = vsock_ports c.
Proof.
  unfold with_overlay. destruct (base_disk c); [|intros [= <- <-]; done]. intros (a & e1 & _ & [= <- <-])%bind_Ok_M. done.
Qed.

Lemma managed_listens r inj c c' : prepare_managed_config r inj c = Ok c' -> vsock_ports c' = vsock_ports c.
Proof.
  unfold prepare_managed_config, apply_guest_pid1. destruct (is_overlay_only c); [done|].
  intros (g & _ & (u & _ & [= <-])%bind_Ok_inv)%bind_Ok_inv. done.
Qed.

Definition no_process (e e' : engine) : Prop := rt_alive (en_rt e') = rt_alive (en_rt e) /\ rt_signals (en_rt e') = rt_signals (en_rt e).

Lemma spawn_config_failed c staged image name ar e x e' :
  fresh e -> vsock_ports c = [] -> spawn_config lo h c staged image name ar e = (Err x, e') -> undone e e'.
Proof.
  intros Hf Hv H. unfold spawn_config in H. fold id in H.
  apply bind_Err_inv in H as [H|(u & e0 & H0 & H)].
  { pose proof (check_name_same name e) as E. rewrite H in E. cbn in E. subst. apply undone_refl. }
  pose proof (check_name_same name e) as E. rewrite H0 in E. cbn in E. subst e0. clear u H0.
  apply bind_Err_inv in H as [[= _ <-]|(u & e0 & [= _ <-] & H)]; [apply undone_refl|].
  apply bind_Err_inv in H as [[=]|(pl & e0 & [= Hpl <-] & H)].
  apply bind_Err_inv in H as [[= _ <-]|(c1 & e0 & [= Hc1 <-] & H)]; [apply undone_refl|].
  apply managed_listens in Hc1. rewrite Hv in Hc1.
  set (c2 := set_vsock _ _) in H.
  assert (Hl : forall c3, vsock_ports c3 = vsock_ports c2 -> listens c3).
  { intros c3 E. unfold listens. rewrite E. unfold c2. cbn. rewrite Hc1. by apply Forall_singleton. }
  apply bind_Err_inv in H as [H|(c3 & e1 & H3 & H)].
  { destruct (overlay_failed _ _ _ _ H (fresh_tidy _ Hf)) as [[Hn Ha Hs] Ht]. apply near_undone; [done..|by left]. }
  pose proof (moves_overlay c2 e) as Hm. rewrite H3 in Hm. apply overlay_listens, Hl in H3. cbn in Hm.
  assert (Hd : forall e2, near e e2 -> rt_vms_dir (en_rt e2) = components (vms_dir (lo_disk lo)))
    by (intros e2 Hn; rewrite (near_dir _ _ Hn); apply (fresh_dir _ Hf)).
  apply bind_Err_inv in H as [H|([c4 shim] & e2 & H4 & H)].
  { apply guarded_err in H as (e2 & H & ->). pose proof (errs_guarded_part _ _ _ H3 _ _ _ H) as Hg.
    assert (Hc : calm e e2) by (by etrans). destruct Hc as [Hn Ha Hs].
    destruct (teardown_spec None e2 _ (abort_partial_rt None e2) (Hd e2 Hn)) as (T1 & T2 & T3 & T4).
    apply near_undone; [done|by etrans|done|left]. rewrite T3, T4, app_nil_r. done. }
  apply guarded_ok in H4. pose proof (calm_spawned _ _ _ _ Hm (oks_guarded_part _ _ _ H3 _ _ _ H4)) as (Hn & Ha & Hs). cbn in Ha.
  apply bind_Err_inv in H as [H|(u5 & e3 & H5 & H)]; [|done].
  apply guarded_err in H as (e3 & H & ->). unfold sql in H. destruct (insert _ _ _); [done|]. injection H as _ <-.
  destruct (teardown_spec (Some (sp_pid shim)) e2 _ (abort_partial_rt _ e2) (Hd e2 Hn)) as (T1 & T2 & T3 & T4).
  apply near_undone; [done|by etrans|done|right]. exists (sp_pid shim). by rewrite T3, T4, Ha, Hs.
Qed.

Lemma spawn_config_ok c staged image name ar e vm e' :
  fresh e -> vsock_ports c = [] -> spawn_config lo h c staged image name ar e = (Ok vm, e') ->
  vm_id (v_state vm) = id /\ vm_socket (v_state vm) = socket_of lo id /\ vm_name (v_state vm) = name
  /\ vm_status (v_state vm) = Running
  /\ spawned (vm_pid (v_state vm)) e e'
  /\ exists e1, insert (h_to_string h) (v_state vm) (en_db e1) = Ok (en_db e') /\ others id (en_db e1) = others id (en_db e).
Proof.
  intros Hf Hv H. unfold spawn_config in H. fold id in H.
  apply bind_Ok_M in H as (u & e0 & H0 & H). pose proof (check_name_same name e) as E. rewrite H0 in E. cbn in E. subst e0. clear u H0.
  apply bind_Ok_M in H as (u & e0 & [= _ <-] & H). apply bind_Ok_M in H as (pl & e0 & [= Hpl <-] & H).
  apply bind_Ok_M in H as (c1 & e0 & [= Hc1 <-] & H). apply managed_listens in Hc1. rewrite Hv in Hc1.
  set (c2 := set_vsock _ _) in H.
  assert (Hl : forall c3, vsock_ports c3 = vsock_ports c2 -> listens c3).
  { intros c3 E. unfold listens. rewrite E. unfold c2. cbn. rewrite Hc1. by apply Forall_singleton. }
  apply bind_Ok_M in H as (c3 & e1 & H3 & H).
  pose proof (moves_overlay c2 e) as Hm. rewrite H3 in Hm. apply overlay_listens, Hl in H3. cbn in Hm.
  apply bind_Ok_M in H as ([c4 shim] & e2 & H4 & H). apply guarded_ok in H4.
  pose proof (calm_spawned _ _ _ _ Hm (oks_guarded_part _ _ _ H3 _ _ _ H4)) as (Hn & Ha & Hs). cbn in Ha.
  apply bind_Ok_M in H as (u5 & e3 & H5 & H). apply guarded_ok in H5. unfold sql in H5.
  destruct (insert _ _ _) as [d|] eqn:Hi; [|done]. injection H5 as _ <-.
  apply bind_Ok_M in H as (u6 & e3 & [= _ <-] & H). apply bind_Ok_M in H as (u7 & e4 & [= _ <-] & [= <- <-]).
  assert (Hn2 : near e2 (set_rt (set_db (en_rt e2) d) e2)) by (eapply near_insert; [|exact Hi]; done). cbn [v_state vm_id vm_socket vm_name vm_status vm_pid]. split_and!; [done..| |].
  - split_and!; [|done..]. etrans; [exact Hn|]. destruct Hn2. by split.
  - exists e2. split; [exact Hi|]. apply (near_rows _ _ Hn).
Qed.

(** *** After the row: volumes and readiness *)

Lemma calm_vol {A} (m : volM A) e :
  (forall s, vms (vo_db (m s).2) = vms (vo_db s)) -> calm e (vol m e).2.
Proof.
  intros H. unfold vol. specialize (H (mkVols (en_db e) (en_dirs e))). destruct (m _) as [r s]. cbn in *.
  split; [|done..]. split; [|done|set_solver..|done]. unfold others, en_db. cbn. by rewrite H.
Qed.

Lemma link_vm_rows vm rs s : vms (vo_db (link_vm vm rs s).2) = vms (vo_db s).
Proof.
  revert s. induction rs as [|r rs IH]; intros s; [done|]. cbn [link_vm]. destruct (rv_volume_id r) as [v|]; [|apply IH].
  unfold mbind, volM_bind, execute. destruct (insert_vm_volume _ _ _ _) as [d|] eqn:E; [|done]. rewrite IH. cbn.
  unfold insert_vm_volume in E. repeat (case_match; try done). by injection E as <-.
Qed.

Lemma on_handle_failed vm m e x e' :
  on_handle h vm m e = (Err x, e') -> (forall e, calm e (m (vm, e)).2.2 /\ v_state (m (vm, e)).2.1 = v_state vm) ->
  vm_id (v_state vm) = id -> vm_socket (v_state vm) = socket_of lo id -> forall e0, fresh e0 -> spawned (vm_pid (v_state vm)) e0 e -> undone e0 e'.
Proof.
  intros H Hm H1 H2 e0 Hf (Hn & Ha & Hs). unfold on_handle in H. destruct (Hm e) as [[Cn Ca Cs] Hv].
  destruct (m (vm, e)) as [r [vm' e1]]. cbn [fst snd] in Cn, Ca, Cs, Hv. destruct r as [u|y]; [done|].
  assert (He : (abort_unready h (vm', e1)).2.2 = e') by congruence. rewrite <- He. clear H He.
  assert (Hn1 : near e0 e1) by (by etrans).
  assert (T := teardown_spec (Some (vm_pid (v_state vm'))) e1 _ (abort_unready_rt vm' e1 ltac:(congruence) ltac:(congruence))).
  destruct T as (T1 & T2 & T3 & T4); [rewrite (near_dir _ _ Hn1); apply (fresh_dir _ Hf)|].
  apply near_undone; [done|by etrans|done|right]. exists (vm_pid (v_state vm)). rewrite T3, T4, Ca, Cs, Ha, Hs, Hv. done.
Qed.

Lemma on_handle_ok vm m e vm' e' :
  on_handle h vm m e = (Ok vm', e') -> m (vm, e) = (Ok (), (vm', e')).
Proof. unfold on_handle. destruct (m (vm, e)) as [[[]|y] [v1 e1]]; [|done]. by intros [= <- <-]. Qed.

Definition link_step (vm : Vm) (vols : list ResolvedVolume) : vmM () :=
  match vols with [] => mret () | _ => eng (vol (link_vm (vm_id (v_state vm)) vols)) end.
Definition ready_step (o : VmOptions) : vmM () := if op_ready_timeout o =? 0 then mret () else wait_ready h.

Lemma link_step_calm vm vols e : calm e (link_step vm vols (vm, e)).2.2 /\ v_state (link_step vm vols (vm, e)).2.1 = v_state vm.
Proof.
  unfold link_step. destruct vols as [|v vols]; [split; [reflexivity|done]|]. unfold eng.
  pose proof (calm_vol (link_vm (vm_id (v_state vm)) (v :: vols)) e (link_vm_rows _ _)) as H. cbn [fst snd]. destruct (vol _ e). done.
Qed.

Lemma ready_step_calm o vm e : calm e (ready_step o (vm, e)).2.2 /\ v_state (ready_step o (vm, e)).2.1 = v_state vm.
Proof.
  unfold ready_step. destruct (_ =? _); [split; [reflexivity|done]|]. unfold wait_ready.
  destruct (h_ready h); split; (reflexivity || done).
Qed.

Lemma create_spawn_failed o img vols e x e' : fresh e -> create_spawn lo h o img vols e = (Err x, e') -> undone e e'.
Proof.
  intros Hf H. unfold create_spawn in H.
  apply bind_Err_inv in H as [H|(vm & e1 & H1 & H)]; [eapply spawn_config_failed; [exact Hf| |exact H]; done|].
  apply spawn_config_ok in H1 as (I1 & I2 & _ & _ & Hsp & _); [|done..].
  fold (link_step vm vols) in H. apply bind_Err_inv in H as [H|(vm2 & e2 & H2 & H)].
  { by apply (on_handle_failed _ _ _ _ _ H (link_step_calm vm vols) I1 I2 e Hf). }
  apply on_handle_ok in H2. destruct (link_step_calm vm vols e1) as [[Cn Ca Cs] Cv]. rewrite H2 in Cn, Ca, Cs, Cv. cbn in Cn, Ca, Cs, Cv.
  fold (ready_step o) in H. rewrite <- Cv in I1, I2, Hsp. refine (on_handle_failed _ _ _ _ _ H (ready_step_calm o vm2) I1 I2 e Hf _).
  destruct Hsp as (P1 & P2 & P3). split_and!; [by etrans|congruence..].
Qed.

(** *** Before the spawn *)

(** Rows, secrets and processes stay; files, volumes and the payload may change. *)
Record resolving (e e' : engine) : Prop := {
  res_rows : vms (en_db e') = vms (en_db e);
  res_secrets : rt_secrets (en_rt e') = rt_secrets (en_rt e);
  res_alive : rt_alive (en_rt e') = rt_alive (en_rt e);
  res_signals : rt_signals (en_rt e') = rt_signals (en_rt e)
}.

#[export] Instance resolving_preorder : PreOrder resolving.
Proof. split; [done|]. intros e1 e2 e3 [] []. split; congruence. Qed.

Lemma vol_bind_rows {A B} (m : volM A) (f : A -> volM B) s :
  (forall s, vms (vo_db (m s).2) = vms (vo_db s)) -> (forall a s, vms (vo_db (f a s).2) = vms (vo_db s)) ->
  vms (vo_db (volM_bind A B f m s).2) = vms (vo_db s).
Proof.
  intros Hm Hf. unfold volM_bind. specialize (Hm s). destruct (m s) as [[a|x] s1]; cbn [snd] in Hm; [|exact Hm].
  etrans; [apply Hf|exact Hm].
Qed.

Lemma insert_volume_rows v s : vms (vo_db (execute (insert_volume v) s).2) = vms (vo_db s).
Proof. unfold execute, insert_volume. by destruct (_ || _). Qed.

Lemma resolve_mounts_rows root can isd home now ms s : vms (vo_db (resolve_mounts root can isd home now ms s).2) = vms (vo_db s).
Proof.
  unfold resolve_mounts. generalize 0%nat. revert s. induction ms as [|m ms IH]; intros s n; [done|]. cbn [resolve_from].
  apply vol_bind_rows; [clear; intros s|intros v s'; apply vol_bind_rows; [intros; apply IH|done]].
  unfold resolve_one. apply vol_bind_rows; [done|intros _ s1]. destruct (mo_source m).
  - apply vol_bind_rows; done.
  - apply vol_bind_rows; [clear; intros s|intros i s2; apply vol_bind_rows; done].
    unfold Volumes.create. apply vol_bind_rows; [done|intros _ s1]. apply vol_bind_rows; [done|intros [v|] s2; [done|]].
    apply vol_bind_rows; [done|intros _ s3]. apply vol_bind_rows; [apply insert_volume_rows|done].
Qed.

Lemma moves_resolve o : moves resolving (create_resolve lo h o).
Proof.
  assert (L : forall A (r : result Error A), moves resolving (lift_r r)) by (intros; apply moves_lift; apply _).
  assert (D : forall A (f : fs -> result Error A * fs), moves resolving (disk f)) by (intros A f e; unfold disk; by destruct (f _)).
  unfold create_resolve. do 3 (apply moves_bind; [apply _|apply L|intros ?]).
  apply moves_bind; [apply _|apply moves_modify; done|intros _].
  apply moves_bind; [apply _| |intros img].
  - unfold resolve_image. destruct (op_image o).
    + apply moves_bind; [apply _|apply L|intros ?]. apply moves_bind; [apply _|apply moves_gets; apply _|intros ?].
      apply moves_bind; [apply _|apply D|intros; apply moves_ret; apply _].
    + destruct (h_is_dir h p); [apply moves_ret; apply _|apply L].
    + apply moves_bind; [apply _|apply moves_gets; apply _|intros []]; [apply moves_ret; apply _|apply L].
  - apply moves_bind; [apply _| |intros; apply moves_ret; apply _]. intros e. unfold vol.
    set (s := mkVols _ _). pose proof (resolve_mounts_rows (lo_volumes_root lo) (fun p => to_opt (h_canonicalize h p)) (h_is_dir h) (h_home h) (h_now h)
      (op_volumes (merged_options o (ri_oci_cfg img))) s) as K.
    destruct (resolve_mounts _ _ _ _ _ _ s) as [r s']. cbn in *. by split.
Qed.
End Near.

(** C3.  A failed [create] leaves no trace of the VM: the table of VMs, the secrets in
    memory and the files are exactly the ones from before the spawn (images and
    volumes that were resolved stay for the next attempt), except that the
    shim's log may be kept; at most one process was started, and it was sent
    [SIGKILL]; nothing else was signalled. *)
Theorem failed_create_undone (lo : layout) (h : host) (o : VmOptions) (e e' : engine) (x : Error) :
  absolute_dirs lo -> plain_name (h_id h) ->
  create lo h o e = (Err x, e') ->
  let e1 := (create_resolve lo h o e).2 in
  fresh lo h e1 ->
  undone lo h e1 e' /\ vms (en_db e') = vms (en_db e) /\ rt_secrets (en_rt e') = rt_secrets (en_rt e).
Proof.
  intros Hdirs Hid H e1 Hf. pose proof (moves_resolve lo h o e) as [R1 R2 R3 R4]. fold e1 in R1, R2, R3, R4.
  assert (U : undone lo h e1 e'); [|destruct U as [U1 U2 U3 U4 U5]; split; [by split|split; congruence]].
  unfold create in H. apply bind_Err_inv in H as [H|([[o' img] vols] & e2 & H1 & H)].
  - unfold e1. rewrite H. by apply undone_refl.
  - unfold e1 in *. rewrite H1 in *. by eapply create_spawn_failed.
Qed.
