(* ===== verification/EngineProps.v ===== *)
(** * What the engine's operations guarantee

    Registration of a created VM, the fail-closed restart, snapshots, the gauge of
    running VMs, and the integrity of the tables under every operation of
    [Engine] and [EngineBoot]. *)

From S2P Require Import Prelude ProtoMessages Files Paths Qcow2Format Qcow2Image Qcow2Chain Qcow2Flatten ImageStore Ids Ports Boot StateTypes StateDb StateLookup Lifecycle LifecycleCorrect Volumes ManagedGuest Disk Text Process Options Jail Events Engine EngineBoot EngineCorrect.

#[local] Opaque Qcow2Image.create_overlay overlay_params Qcow2Flatten.flatten.

(** ** A created VM *)

(** A successful [create] adds exactly one row, and it is the running VM's: the
    new row is at the end of the table with the host's fresh id, the requested name,
    the socket named after the id, status running and the handle's configuration,
    every earlier row is untouched, the VM's process is the only new one and
    nothing was signalled. *)
Theorem created_vm_registered (lo : layout) (h : host) (o : VmOptions) (e e' : engine) (vm : Vm) :
  absolute_dirs lo -> plain_name (h_id h) ->
  create lo h o e = (Ok vm, e') ->
  fresh lo h (create_resolve lo h o e).2 ->
  exists json, h_to_string h (vm_config (v_state vm)) = Some json
    /\ vms (en_db e') = vms (en_db e) ++ [mkVmRow (h_id h) (vm_name (v_state vm)) (vm_pid (v_state vm)) (vm_image (v_state vm))
                                            (socket_of lo (h_id h)) "running" json (system_time_to_f64 (vm_created_at (v_state vm)))]
    /\ vm_name (v_state vm) = op_name o
    /\ rt_alive (en_rt e') = {[vm_pid (v_state vm)]} ∪ rt_alive (en_rt e) /\ rt_signals (en_rt e') = rt_signals (en_rt e).
Proof.
  intros Hdirs Hid H Hf. pose proof (moves_resolve lo h o e) as [R1 R2 R3 R4]. unfold create in H.
  apply bind_Ok_M in H as ([[o' img] vols] & e1 & H1 & H).
  assert (Hn : op_name o' = op_name o).
  { unfold create_resolve in H1. repeat (apply bind_Ok_M in H1 as (? & ? & _ & H1)). injection H1 as <- _ _ _. unfold merged_options.
    destruct (ri_oci_cfg _); [|done]. by destruct (merge_image_config _ _ _ _ _) as [[[? ?] ?] ?]. }
  rewrite H1 in *. cbn [snd] in *. unfold create_spawn in H.
  apply bind_Ok_M in H as (v1 & e2 & H2 & H). pose proof H2 as Hs.
  eapply spawn_config_ok in Hs as (I1 & I2 & I3 & I4 & (S1 & S2 & S3) & e0 & Hi & Ho); [|done..].
  apply bind_Ok_M in H as (v2 & e3 & H3 & H). apply on_handle_ok in H3, H.
  pose proof (link_step_calm lo h Hdirs Hid v1 vols e2) as [[_ L1 L2] Lv]. unfold link_step in L1, L2, Lv. rewrite H3 in L1, L2, Lv. cbn [fst snd] in *.
  assert (Hrows : vms (en_db e3) = vms (en_db e2)).
  { destruct vols as [|w ws]; [by injection H3 as _ <-|]. unfold eng, vol in H3. cbn [snd] in H3.
    pose proof (link_vm_rows (vm_id (v_state v1)) (w :: ws) (mkVols (en_db e2) (en_dirs e2))) as K.
    destruct (link_vm _ _ _) as [r s]. injection H3 as _ _ <-. exact K. }
  pose proof (ready_step_calm lo h Hdirs Hid o' v2 e3) as [_ Rv]. unfold ready_step in Rv. rewrite H in Rv.
  assert (He : e' = e3). { destruct (_ =? _); [by injection H|]. unfold wait_ready in H. destruct (h_ready h); [by injection H|done]. }
  subst e'. cbn [fst snd] in Rv. rewrite Rv, Lv.
  pose proof Hi as (json & Hj & Hi')%bind_Ok_inv. destruct (_ || _) eqn:Hc; [done|]. injection Hi' as Hd.
  apply orb_false_iff in Hc as [Hc _]. apply has_false in Hc. rewrite I1 in Hc.
  exists json. destruct (h_to_string h _) as [j|]; [|done]. injection Hj as ->. split; [done|]. split_and!.
  - rewrite Hrows, <- Hd. cbn [vms with_vms]. rewrite I1, I2, I4. f_equal. rewrite <- R1.
    rewrite (others_all h Hid) in Ho by done. rewrite Ho. by apply (others_all h Hid), (tidy_row _ _ _ (fresh_tidy _ _ _ Hf)).
  - congruence.
  - congruence.
  - congruence.
Qed.

(** ** Starting a stopped VM *)

(** A VM whose secrets are gone does not start without them: when the stored
    configuration requires secrets, none is held in memory for the id and the
    caller supplies none, [start_with] fails and the runtime is exactly as before;
    no process is started, no socket or file is touched and the row still says
    stopped.  If nothing fails earlier the error says that secrets are required. *)
Theorem start_needs_secrets (h : host) (o : StartOptions) (v : Vm) (e : engine) :
  vm_status (v_state v) = Stopped -> secrets_required (vm_config (v_state v)) = true ->
  so_secrets o = [] -> live_secrets (vm_id (v_state v)) e = None ->
  exists x v', start_with h o (v, e) = (Err x, (v', e)) /\ vm_status (v_state v') = Stopped
    /\ (forall p c, h_payload h (so_jailer (security (vm_config (v_state v))))
                      (is_some (rootfs (vm_config (v_state v))) || is_some (base_disk (vm_config (v_state v)))) = Ok p ->
        (forall g, prepare_restart_config (h_resolve_guest h g) (h_inject_rootfs h) (vm_config (v_state v)) = Ok c) -> x = SecretsRequired).
Proof.
  intros Hst Hreq Hso Hlive. unfold start_with, start_spawn, self, gets, mbind, M_bind. cbn [fst snd]. rewrite Hst.
  rewrite bool_decide_true by done. cbn [negb]. unfold lift_r at 1.
  destruct (h_payload h _ _) as [pl|x] eqn:Hp; [|exists x, v; split_and!; [done..|]; intros p c [=]].
  unfold lift_r at 1. 
  destruct (prepare_restart_config _ _ _) as [c|x] eqn:Hc; [|exists x, v; split_and!; [done..|]; intros p c _ K; by rewrite K in Hc].
  assert (Hk : secrets_required c = true /\ network c = network (vm_config (v_state v))).
  { unfold prepare_restart_config, apply_guest_pid1 in Hc. destruct (is_overlay_only _); [by injection Hc as <-|].
    apply bind_Ok_inv in Hc as (gg & _ & (u & _ & [= <-])%bind_Ok_inv). done. }
  destruct Hk as [Hk _]. unfold set_self, modify. cbn [fst snd]. unfold resolve_secrets. rewrite Hso.
  unfold gets, mbind, M_bind. cbn [fst snd v_state with_config vm_id vm_config]. rewrite Hlive, Hk. eexists _, _. split_and!; [reflexivity|done|done].
Qed.

(** ** The gauge of running VMs *)

(** The metrics after a step are the ones before it. *)
Definition same_metrics (e e' : engine) : Prop := en_metrics e' = en_metrics e.
Definition vm_same_metrics (s s' : Vm * engine) : Prop := en_metrics s'.2 = en_metrics s.2.

#[export] Instance same_metrics_preorder : PreOrder same_metrics.
Proof. split; [done|]. intros a b c E F. unfold same_metrics in *. congruence. Qed.
#[export] Instance vm_same_metrics_preorder : PreOrder vm_same_metrics.
Proof. split; [done|]. intros a b c E F. unfold vm_same_metrics in *. congruence. Qed.

(** Steps of a handle: the generic ones of [moves], for a relation on the engine. *)
Section Handle.
Context (R : relation engine) `{!PreOrder R}.

Definition on_snd (s s' : Vm * engine) : Prop := R s.2 s'.2.
#[export] Instance on_snd_preorder : PreOrder on_snd.
Proof. split; [by intros s; red|]. intros a b c E F. unfold on_snd in *. by etrans. Qed.

Lemma hmoves_eng {A} (m : M engine A) : moves R m -> moves on_snd (eng m).
Proof. intros H s. unfold eng, on_snd. specialize (H s.2). by destruct (m s.2). Qed.
Lemma hmoves_engine f : (forall e, R e (f e)) -> moves on_snd (on_engine f).
Proof. intros H s. apply H. Qed.
Lemma hmoves_self f : moves on_snd (set_self f).
Proof. intros s. unfold on_snd. reflexivity. Qed.
Lemma hmoves_vm_metrics f : moves on_snd (set_vm_metrics f).
Proof. intros s. unfold on_snd. reflexivity. Qed.
Lemma hmoves_keepalive b : moves on_snd (set_keepalive b).
Proof. intros s. unfold on_snd. reflexivity. Qed.
End Handle.

(** Walks through an operation; the leaves about the runtime are left over. *)
Ltac mv :=
  lazymatch goal with
  | |- moves _ (mbind _ _) => apply moves_bind; [apply _| |intros]; mv
  | |- moves _ (mret _) => apply moves_ret; apply _
  | |- moves _ (lift_r _) => apply moves_lift; apply _
  | |- moves _ (gets _) => apply moves_gets; apply _
  | |- moves _ self => unfold self; apply moves_gets; apply _
  | |- moves _ (sql_query _) => intros ?; unfold sql_query; cbn [snd]; reflexivity
  | |- moves (on_snd _) (eng _) => apply hmoves_eng; mv
  | |- moves (on_snd _) (set_self _) => apply hmoves_self; apply _
  | |- moves (on_snd _) (set_vm_metrics _) => apply hmoves_vm_metrics; apply _
  | |- moves (on_snd _) (set_keepalive _) => apply hmoves_keepalive; apply _
  | |- moves (on_snd _) (on_engine _) => apply hmoves_engine; intros
  | |- moves _ (modify _) => apply moves_modify; intros
  | |- moves _ (attempt _) => apply moves_attempt; mv
  | |- moves _ (drop_result _) => apply moves_drop; mv
  | |- moves _ (fails _) => unfold fails; mv
  | |- moves _ (emit_event _) => unfold emit_event; mv
  | |- moves _ (if ?b then _ else _) => destruct b; mv
  | |- moves _ (match ?x with _ => _ end) => destruct x; mv
  | |- moves _ (let '(_, _) := ?x in _) => destruct x; mv
  | _ => idtac
  end.

(** *** The shim's spawn, for any relation that the primitive steps respect *)

Class EngineRel (R : relation engine) : Prop := {
  er_preorder : PreOrder R;
  er_rt : forall e f, (forall rt, rt_db (f rt) = rt_db rt) -> R e (on_rt f e);
  er_hold : forall e id l, R e (hold_secrets id l e);
  er_event : forall e k, R e (add_event k e)
}.
#[export] Existing Instance er_preorder.

Section Generic.
Context (R : relation engine) `{!EngineRel R} (lo : layout) (h : host).

Lemma gen_rt f : (forall rt, rt_db (f rt) = rt_db rt) -> moves R (modify (on_rt f)).
Proof. intros H. apply moves_modify. intros e. by apply er_rt. Qed.

Lemma gen_write_json p : moves R (write_shim_json h p).
Proof.
  intros e. unfold write_shim_json. destruct (h_write_json h) as [[[] k]|]; cbn [snd]; [|reflexivity|]; by apply er_rt.
Qed.

Lemma gen_unlink_socket p : moves R (unlink_unix_socket h p).
Proof. intros e. unfold unlink_unix_socket. destruct (h_unlink h p); [reflexivity|by apply er_rt]. Qed.

Lemma gen_unlink vs : moves R (unlink_listeners h vs).
Proof. induction vs as [|v vs IH]; cbn [unlink_listeners]; mv; [apply gen_unlink_socket|exact IH..]. Qed.

Lemma gen_unlink_on_err {A} p (m : M engine A) : moves R m -> moves R (unlink_on_err p m).
Proof.
  intros H e. unfold unlink_on_err. specialize (H e). destruct (m e) as [[a|x] e1]; cbn [snd] in *; [done|].
  etrans; [exact H|by apply er_rt].
Qed.

Lemma gen_spawn_shim c p d net gv shim bwrap : moves R (spawn_shim h c p d net gv shim bwrap).
Proof.
  unfold spawn_shim. mv; [apply gen_write_json|]. apply gen_unlink_on_err. mv; [by apply er_rt|apply gen_unlink|].
  intros e. unfold jail_spawn. destruct (spawn _ _ _ _ _ _ _ _ _) as [[]|]; [by apply er_rt|reflexivity].
Qed.

Lemma gen_start_spawn o : moves (on_snd R) (start_spawn h o).
Proof.
  unfold start_spawn, resolve_secrets, self_virtio_net. mv; [apply er_hold| |].
  - apply gen_unlink_socket.
  - apply gen_spawn_shim.
Qed.
End Generic.

#[export] Instance same_metrics_rel : EngineRel same_metrics.
Proof. split; try apply _; done. Qed.

Lemma sql_metrics op : moves same_metrics (sql op).
Proof. intros e. unfold sql. by destruct (op _). Qed.

Lemma mark_stopped_metrics h s s' :
  mark_stopped h s = (Ok (), s') -> en_metrics s'.2 = on_vm_stopped (h_uptime_ms h) (en_metrics s.2).
Proof.
  intros H. unfold mark_stopped in H.
  apply bind_Ok_M in H as (? & s1 & [= _ <-] & H). apply bind_Ok_M in H as (vm & s2 & [= <- <-] & H).
  apply bind_Ok_M in H as (? & s3 & [= _ <-] & H). apply bind_Ok_M in H as (? & s4 & [= _ <-] & H).
  apply bind_Ok_M in H as (? & s5 & [= _ <-] & H). apply bind_Ok_M in H as (? & s6 & [= _ <-] & H).
  match type of H with ?m ?s = _ => assert (K : en_metrics (m s).2.2 = en_metrics s.2) end; [|by rewrite H in K].
  match goal with |- en_metrics (?m ?s).2.2 = _ => assert (Hm : moves (on_snd same_metrics) m); [|apply (Hm s)] end.
  mv; try (apply sql_metrics); done.
Qed.

(** Restarting is not counted: a successful [start_with] leaves the gauge of
    running VMs as it is, while stopping a VM always decrements it, so every
    start-and-stop of an existing VM moves the gauge down by one. *)
Theorem restart_uncounted (h h' : host) (o : StartOptions) (s s1 s2 : Vm * engine) :
  start_with h o s = (Ok (), s1) -> stop h' s1 = (Ok (), s2) ->
  vms_running (en_metrics s1.2) = vms_running (en_metrics s.2)
  /\ vms_running (en_metrics s2.2) = i64 (vms_running (en_metrics s.2) - 1).
Proof.
  intros H1 H2. assert (E1 : en_metrics s1.2 = en_metrics s.2).
  { unfold start_with in H1. apply bind_Ok_M in H1 as (vm & s0 & [= <- <-] & H1). destruct (negb _); [done|].
    assert (K : forall A (m : vmM A) s a s', moves (on_snd same_metrics) m -> m s = (Ok a, s') -> en_metrics s'.2 = en_metrics s.2).
    { intros A m t a t' Hm E. specialize (Hm t). rewrite E in Hm. exact Hm. }
    apply bind_Ok_M in H1 as (shim & t1 & E1 & H1). apply (K _ _ _ _ _ (gen_start_spawn same_metrics h o)) in E1.
    apply bind_Ok_M in H1 as (u2 & t2 & E2 & H1). apply K in E2.
    2: { unfold commit_start, revert_failed_start. mv; try (apply sql_metrics); done. }
    apply bind_Ok_M in H1 as (u3 & t3 & [= _ E3] & H1).
    apply bind_Ok_M in H1 as (r & t4 & E4 & H1). apply K in E4.
    2: { unfold wait_ready. mv. }
    destruct r as [u|x].
    - apply K in H1; [|unfold touch_activity; mv; apply sql_metrics]. rewrite H1, E4, <- E3. cbn. congruence.
    - apply bind_Ok_M in H1 as (u5 & t5 & _ & H1). by apply bind_Ok_M in H1 as (u6 & t6 & _ & H1). }
  split; [by rewrite E1|]. rewrite <- E1.
  unfold stop, stop_timeout in H2. apply bind_Ok_M in H2 as (vm & s0 & [= <- <-] & H2). destruct (negb _); [done|].
  apply bind_Ok_M in H2 as (u1 & t1 & [= _ <-] & H2). apply bind_Ok_M in H2 as (u2 & t2 & E2 & H2).
  assert (K2 : en_metrics t2.2 = en_metrics s1.2).
  { unfold eng in E2. cbn [snd] in E2. pose proof (sql_metrics (update_status (vm_id (v_state s1.1)) Stopping) s1.2) as K.
    destruct (sql _ _) as [r e]. injection E2 as _ <-. exact K. }
  destruct (h_exits h').
  - apply bind_Ok_M in H2 as (u3 & t3 & [= _ <-] & H2). apply mark_stopped_metrics in H2. rewrite H2. cbn. by rewrite K2.
  - unfold kill in H2. apply bind_Ok_M in H2 as (vm' & t4 & [= <- <-] & H2). apply bind_Ok_M in H2 as (u3 & t3 & [= _ <-] & H2).
    apply mark_stopped_metrics in H2. rewrite H2. cbn. by rewrite K2.
Qed.

(** ** Snapshots *)

Lemma disk_fs_set σ e : disk_fs (set_disk_fs σ e) = σ.
Proof.
  apply map_eq. intros p. unfold disk_fs. cbn [set_disk_fs en_bytes en_rt rt_files set_files].
  rewrite map_lookup_filter. destruct (σ !! p) as [f|] eqn:E.
  - rewrite (lookup_union_Some_l _ _ _ _ E). cbn. rewrite option_guard_True; [done|].
    apply elem_of_union. right. by apply elem_of_dom_2 in E.
  - rewrite lookup_union_r by done. destruct (en_bytes e !! p) as [f|] eqn:Eb; [|done]. cbn. rewrite option_guard_False; [done|].
    intros [[H1 H2]%elem_of_difference|H%elem_of_dom]%elem_of_union; [|rewrite E in H; by destruct H].
    apply H2, elem_of_dom. exists f. apply map_lookup_filter_Some. done.
Qed.

(** The guests frozen when a snapshot of [vm] is over. *)
Definition frozen_after (h : host) (vm : VmState) (before : gset string) : gset string :=
  if decide (vm_status vm = Running) then
    match h_quiesce h with
    | NotFrozen _ => before
    | FrozenUnheard _ => {[vm_id vm]} ∪ before
    | Frozen => if h_thaws h then before ∖ {[vm_id vm]} else {[vm_id vm]} ∪ before
    end
  else before.

(** C25.  A snapshot is the disk, or it is not there.  A copy is exact only while no
    guest writes: that is what is known of the host, for a frozen guest and for a VM
    that does not run.  On success the new file holds exactly the bytes the
    overlay had, it is the only file changed, and the row for it is the one
    database change; on any failure the database is unchanged, and when a running
    guest did not confirm the freeze no file is either.  A guest that confirmed the
    freeze and answers the thaw is not left frozen; one whose confirmation was lost is. *)
Theorem snapshot_is_the_disk (lo : layout) (h : host) (vm : VmState) (name : option string) (e e' : engine) (r : result Error SnapshotRow) :
  (forall overlay frozen f, root_disk (vm_config vm) = Some overlay ->
     vm_status vm <> Running \/ vm_id vm ∈ frozen -> h_read_disk h frozen (components overlay) f = f) ->
  create_snapshot lo h vm name e = (r, e') ->
  (is_Some (root_disk (vm_config vm)) -> en_frozen e' = frozen_after h vm (en_frozen e))
  /\ match r with
     | Ok row => insert_snapshot row (en_db e) = Ok (en_db e') /\ sn_vm row = vm_id vm
         /\ exists overlay f, root_disk (vm_config vm) = Some overlay /\ disk_fs e !! components overlay = Some f
            /\ disk_fs e' = <[components (sn_disk_path row) := f]> (disk_fs e) /\ sn_disk_bytes row = zlen f
     | Err _ => en_db e' = en_db e
         /\ (vm_status vm = Running -> h_quiesce h <> Frozen -> disk_fs e' = disk_fs e)
     end.
Proof.
  intros Hread H. unfold create_snapshot, mbind, M_bind in H. unfold lift_r at 1 in H.
  destruct (root_disk (vm_config vm)) as [overlay|] eqn:Hd; cbn [ok_or] in H; [|injection H as <- <-; split; [intros [? ?]; done|done]].
  unfold snapshot_create, mbind, M_bind, try_quiesce in H. unfold frozen_after.
  destruct (decide (vm_status vm = Running)) as [Hr|Hr].
  - rewrite bool_decide_true in H by done. cbn [negb] in H. destruct (h_quiesce h) as [|x|x] eqn:Hq; [|by injection H as <- <-..].
    set (e1 := set_frozen _ e) in H. assert (Hf1 : disk_fs e1 = disk_fs e) by done.
    assert (Hin : forall f, h_read_disk h (en_frozen e1) (components overlay) f = f)
      by (intros f; apply Hread; [done|right; unfold e1; cbn; set_solver]).
    assert (Hth : ({[vm_id vm]} ∪ en_frozen e) ∖ {[vm_id vm]} = en_frozen e ∖ {[vm_id vm]}) by set_solver.
    unfold attempt, copy_disk, disk, copy_file in H. rewrite Hf1 in H.
    unfold thaw, modify, lift_r, sql, emit_event in H. unfold mret, M_ret in H.
    destruct (disk_fs e !! components overlay) as [f|] eqn:Ho.
    + destruct (h_copy h) as [[k part]|].
      * injection H as <- <-. destruct (h_thaws h); (split; [intros _; first [exact Hth | done]|split; [done|by intros _ Hn]]).
      * rewrite Hin in H. destruct (h_thaws h); cbn [en_db en_rt set_disk_fs set_frozen rt_db set_files] in H; (destruct (insert_snapshot _ _) as [d|] eqn:Hi in H;
          injection H as <- <-; (split; [intros _; first [exact Hth | done]|]); [|split; [done|by intros _ Hn]]);
          (split; [exact Hi|split_and!; [done..|exists overlay, f; split_and!; [done..| |done]]]);
          exact (disk_fs_set (<[components _ := f]> (disk_fs e)) e1).
    + injection H as <- <-. destruct (h_thaws h); (split; [intros _; first [exact Hth | done]|split; [done|by intros _ Hn]]).
  - rewrite bool_decide_false in H by done. cbn [negb] in H. unfold attempt, copy_disk, disk, copy_file, lift_r, sql, emit_event, modify in H. unfold mret, M_ret in H.
    destruct (disk_fs e !! components overlay) as [f|] eqn:Ho.
    + destruct (h_copy h) as [[k part]|]; [by injection H as <- <-|]. rewrite Hread in H by first [done | by left].
      cbn [en_db en_rt set_disk_fs rt_db set_files] in H. destruct (insert_snapshot _ _) as [d|] eqn:Hi in H; injection H as <- <-; (split; [done|]); [|done].
      split; [exact Hi|split_and!; [done..|exists overlay, f; split_and!; [done..| |done]]].
      exact (disk_fs_set (<[components _ := f]> (disk_fs e)) e).
    + by injection H as <- <-.
Qed.

(** ** The tables under every operation *)

Definition keeps_db (e e' : engine) : Prop := db_ok (en_db e) -> db_ok (en_db e').

#[export] Instance keeps_db_preorder : PreOrder keeps_db.
Proof. split; [intros e H; exact H|]. intros a b c E F H. exact (F (E H)). Qed.

Lemma keeps_same e e' : en_db e' = en_db e -> keeps_db e e'.
Proof. intros E H. by rewrite E. Qed.
#[local] Hint Extern 0 (keeps_db _ _) => (apply keeps_same; reflexivity) : core.

#[export] Instance keeps_db_rel : EngineRel keeps_db.
Proof. split; [apply _|intros e f H|intros e id l|intros e k]; apply keeps_same; [apply H|done..]. Qed.

Lemma sql_keeps to_string op o : (forall d, op d = run_op to_string o d) -> moves keeps_db (sql op).
Proof. intros H e Hd. unfold sql. rewrite H. destruct (run_op _ _ _) as [d|] eqn:E; [|done]. cbn. by apply (run_op_ok to_string o _ _ E). Qed.

Definition no_json (c : VmConfig) : option string := None.

Lemma sql_insert f vm : moves keeps_db (sql (insert f vm)). Proof. by apply (sql_keeps f _ (OpInsert vm)). Qed.
Lemma sql_status id st : moves keeps_db (sql (update_status id st)). Proof. by apply (sql_keeps no_json _ (OpUpdateStatus id st)). Qed.
Lemma sql_pid_status id p st : moves keeps_db (sql (update_pid_status id p st)). Proof. by apply (sql_keeps no_json _ (OpUpdatePidStatus id p st)). Qed.
Lemma sql_config f id c : moves keeps_db (sql (update_config f id c)). Proof. by apply (sql_keeps f _ (OpUpdateConfig id c)). Qed.
Lemma sql_name id n : moves keeps_db (sql (update_name id n)). Proof. by apply (sql_keeps no_json _ (OpUpdateName id n)). Qed.
Lemma sql_delete id : moves keeps_db (sql (delete id)). Proof. by apply (sql_keeps no_json _ (OpDelete id)). Qed.
Lemma sql_snapshot s : moves keeps_db (sql (insert_snapshot s)). Proof. by apply (sql_keeps no_json _ (OpInsertSnapshot s)). Qed.
Lemma sql_del_snapshot id : moves keeps_db (sql (delete_snapshot id)). Proof. by apply (sql_keeps no_json _ (OpDeleteSnapshot id)). Qed.
Lemma sql_del_base id : moves keeps_db (sql (delete_base_disk id)). Proof. by apply (sql_keeps no_json _ (OpDeleteBase id)). Qed.
Create HintDb engine.
#[export] Hint Resolve sql_insert sql_status sql_pid_status sql_config sql_name sql_delete sql_snapshot sql_del_snapshot sql_del_base : engine.

Lemma db_drop_keeps to_string o rt : db_ok (rt_db rt) -> db_ok (rt_db (db_drop rt (run_op to_string o))).
Proof. intros H. unfold db_drop. destruct (run_op _ _ _) as [d|] eqn:E; [|done]. by apply (run_op_ok to_string o _ _ E). Qed.

Lemma unlink_keeps id e : keeps_db e (on_rt (unlink_vm id) e).
Proof. intros H. by apply (db_drop_keeps no_json (OpDetach id) (en_rt e)). Qed.
Lemma drop_delete_keeps id e : keeps_db e (on_rt (fun rt => db_drop rt (delete id)) e).
Proof. intros H. by apply (db_drop_keeps no_json (OpDelete id) (en_rt e)). Qed.

Lemma abort_partial_keeps id socket pid e : keeps_db e (abort_partial_spawn id socket pid e).
Proof.
  unfold abort_partial_spawn. etrans; [|apply drop_delete_keeps].
  etrans; [|by apply keeps_same]. etrans; [|apply unlink_keeps]. apply keeps_same. by destruct pid.
Qed.

Lemma guarded_keeps {A} id socket pid (m : M engine A) : moves keeps_db m -> moves keeps_db (guarded id socket pid m).
Proof.
  intros H e. unfold guarded. specialize (H e). destruct (m e) as [[a|x] e1]; cbn [snd] in *; [done|]. etrans; [exact H|apply abort_partial_keeps].
Qed.

Lemma disk_keeps {A} (f : fs -> result Error A * fs) : moves keeps_db (disk f).
Proof. intros e. unfold disk. by destruct (f _). Qed.

Lemma handle_keeps s : moves keeps_db (handle s).
Proof.
  intros e H. unfold handle, reconcile_dead_pid. destruct (_ && _); [|done]. cbn.
  by apply (db_drop_keeps no_json (OpUpdateStatus (vm_id s) Stopped) (en_rt e)).
Qed.

Lemma remove_row_keeps s : moves keeps_db (remove_row s).
Proof.
  intros e H. unfold remove_row, remove_stored. set (rt := remove_vm_disk _ _).
  assert (Hr : db_ok (rt_db rt)).
  { unfold rt, remove_vm_disk, unlink_vm. cbn [rt_db set_files]. by apply (db_drop_keeps no_json (OpDetach (vm_id s))). }
  destruct (delete _ _) as [d|] eqn:E; [|exact Hr]. by apply (run_op_ok no_json (OpDelete (vm_id s)) _ _ E).
Qed.
#[export] Hint Resolve disk_keeps handle_keeps remove_row_keeps unlink_keeps : engine.

(** The operations on volumes. *)
Definition vol_keeps {A} (m : volM A) : Prop := forall s, db_ok (vo_db s) -> db_ok (vo_db (m s).2).

Lemma vol_moves {A} (m : volM A) : vol_keeps m -> moves keeps_db (vol m).
Proof. intros H e He. unfold vol. specialize (H (mkVols (en_db e) (en_dirs e)) He). by destruct (m _). Qed.

Lemma vol_keeps_bind {A B} (m : volM A) (f : A -> volM B) : vol_keeps m -> (forall a, vol_keeps (f a)) -> vol_keeps (volM_bind A B f m).
Proof. intros Hm Hf s H. unfold volM_bind. specialize (Hm s H). destruct (m s) as [[a|x] s1]; [by apply Hf|done]. Qed.

Lemma link_vm_keeps id rs : vol_keeps (link_vm id rs).
Proof.
  induction rs as [|r rs IH]; [by intros s|]. cbn [link_vm]. destruct (rv_volume_id r) as [v|]; [|done].
  apply vol_keeps_bind; [|by intros]. intros s H. unfold execute. destruct (insert_vm_volume _ _ _ _) as [d|] eqn:E; [|done].
  by apply (run_op_ok no_json (OpAttach id v (rv_guest_path r)) _ _ E).
Qed.

Lemma resolve_mounts_keeps root can isd home now ms : vol_keeps (resolve_mounts root can isd home now ms).
Proof.
  unfold resolve_mounts. generalize 0%nat. induction ms as [|m ms IH]; intros n; [by intros s|]. cbn [resolve_from].
  apply vol_keeps_bind; [|intros v; apply vol_keeps_bind; [apply IH|by intros ? s]].
  unfold resolve_one. apply vol_keeps_bind; [by intros s|intros _]. destruct (mo_source m).
  - apply vol_keeps_bind; [by intros s|by intros ? s].
  - apply vol_keeps_bind; [|intros i; apply vol_keeps_bind; [by intros s|by intros ? s]].
    unfold Volumes.create. apply vol_keeps_bind; [by intros s|intros _]. apply vol_keeps_bind; [by intros s|intros [v|]; [by intros s|]].
    apply vol_keeps_bind; [by intros s|intros _]. apply vol_keeps_bind; [|by intros ? s]. intros s H. unfold execute.
    destruct (insert_volume _ _) as [d|] eqn:E; [|done]. by apply (run_op_ok no_json (OpInsertVolume _) _ _ E).
Qed.

(** *** Each operation *)

(** Walks through an operation; lemmas of the hint database close the leaves. *)
Ltac keep := mv; try solve [eauto with engine | by apply keeps_same].

Section Ops.
Context (lo : layout) (h : host).

Lemma mark_stopped_keeps : moves (on_snd keeps_db) (mark_stopped h).
Proof. unfold mark_stopped. keep. Qed.
#[local] Hint Resolve mark_stopped_keeps : engine.

Lemma kill_keeps : moves (on_snd keeps_db) (kill h).
Proof. unfold kill. keep. Qed.
#[local] Hint Resolve kill_keeps : engine.

Lemma abort_unready_keeps : moves (on_snd keeps_db) (abort_unready h).
Proof. unfold abort_unready. keep. Qed.

Lemma start_with_keeps o : moves (on_snd keeps_db) (start_with h o).
Proof.
  unfold start_with, commit_start, revert_failed_start, touch_activity, wait_ready. keep. apply (gen_start_spawn keeps_db).
Qed.

Lemma on_handle_keeps vm m : moves (on_snd keeps_db) m -> moves keeps_db (on_handle h vm m).
Proof.
  intros H e. unfold on_handle. pose proof (H (vm, e)) as K. destruct (m (vm, e)) as [[[]|x] [v e1]]; [exact K|].
  etrans; [exact K|]. apply (abort_unready_keeps (v, e1)).
Qed.

Lemma spawn_config_keeps c st i n ar : moves keeps_db (spawn_config lo h c st i n ar).
Proof.
  unfold spawn_config, check_name, with_overlay. keep.
  - apply guarded_keeps. unfold spawn_guarded. keep; [|apply (gen_spawn_shim keeps_db)].
    intros e. unfold virtio_net, unlink_unix_socket. destruct (prepare_virtio_net _ _ _ _ _ _) as [[[?|]|] ?]; [destruct (h_unlink h _)|..]; by apply keeps_same.
  - apply guarded_keeps. eauto with engine.
Qed.

Lemma create_keeps o : moves keeps_db (create lo h o).
Proof.
  unfold create. mv.
  - unfold create_resolve, resolve_image. keep. apply vol_moves, resolve_mounts_keeps.
  - unfold create_spawn. mv; [apply spawn_config_keeps|..]; apply on_handle_keeps; [|unfold wait_ready]; mv. apply vol_moves, link_vm_keeps.
Qed.

Lemma get_keeps s : moves keeps_db (get h s).
Proof. unfold get. keep. Qed.
Lemma get_exact_keeps s : moves keeps_db (get_exact h s).
Proof. unfold get_exact. keep. Qed.
#[local] Hint Resolve create_keeps get_keeps get_exact_keeps : engine.

Lemma list_keeps : moves keeps_db (list_infos h).
Proof.
  unfold list_infos. mv. match goal with |- moves _ (list_keep ?l) => induction l as [|v l IH] end; [apply moves_ret; apply _|].
  cbn [list_keep]. keep.
Qed.

Lemma gc_keeps : moves keeps_db (gc lo).
Proof.
  unfold gc. keep. generalize 0. match goal with |- forall _, moves _ (gc_loop _ ?l _) => induction l as [|o l IH] end; intros n;
    cbn [gc_loop]; keep.
Qed.

(** What a client can ask of a runtime; [h] is the world during that operation. *)
Inductive engine_op : Type :=
  | ECreate (o : VmOptions) | EGet (s : string) | EGetExact (id : string) | EList | ERemove (s : string) | ERename (s n : string) | EGc
  | EStart (v : Vm) (o : StartOptions) | EStop (v : Vm) | EKill (v : Vm) | EWait (v : Vm) | ETouch (v : Vm) | EAutoStop (v : Vm) (secs : option N)
  | ESnapshot (v : Vm) (name : option string) | EDeleteSnapshot (id : string)
  | EClone (new_id id : string) (name : option string) | ERestore (new_id snapshot : string) (name : option string).

Definition on_vm {A} (m : vmM A) (v : Vm) (e : engine) : engine := (m (v, e)).2.2.

Definition run_engine_op (op : engine_op) (e : engine) : engine :=
  match op with
  | ECreate o => (create lo h o e).2
  | EGet s => (get h s e).2
  | EGetExact id => (get_exact h id e).2
  | EList => (list_infos h e).2
  | ERemove s => (remove h s e).2
  | ERename s n => (rename_vm h s n e).2
  | EGc => (gc lo e).2
  | EStart v o => on_vm (start_with h o) v e
  | EStop v => on_vm (stop h) v e
  | EKill v => on_vm (kill h) v e
  | EWait v => on_vm (wait h) v e
  | ETouch v => on_vm (touch_activity h) v e
  | EAutoStop v s => on_vm (set_auto_stop_secs h s) v e
  | ESnapshot v n => (create_snapshot lo h (v_state v) n e).2
  | EDeleteSnapshot id => (snapshot_delete id e).2
  | EClone n id name => (clone lo h n id name e).2
  | ERestore n s name => (restore lo h n s name e).2
  end.

Lemma thaw_keeps id : moves keeps_db (thaw h id).
Proof. unfold thaw. mv. by destruct (h_thaws h). Qed.
Lemma quiesce_keeps id st : moves keeps_db (try_quiesce h id st).
Proof. intros e. unfold try_quiesce. destruct (negb _); [done|]. by destruct (h_quiesce h). Qed.
Lemma copy_keeps src dst : moves keeps_db (copy_disk h src dst).
Proof. intros e. apply disk_keeps. Qed.
#[local] Hint Resolve thaw_keeps quiesce_keeps copy_keeps list_keeps gc_keeps : engine.

Lemma vm_op_keeps {A} (m : vmM A) v e : moves (on_snd keeps_db) m -> keeps_db e (on_vm m v e).
Proof. intros H. apply (H (v, e)). Qed.
Lemma op_keeps {A} (m : M engine A) e : moves keeps_db m -> keeps_db e (m e).2.
Proof. intros H. apply H. Qed.

Lemma run_engine_keeps op e : keeps_db e (run_engine_op op e).
Proof.
  destruct op; cbn [run_engine_op]; lazymatch goal with
  | |- keeps_db _ (on_vm (start_with _ _) _ _) => apply vm_op_keeps, start_with_keeps
  | |- keeps_db _ (on_vm _ _ _) =>
      apply vm_op_keeps; unfold stop, stop_timeout, wait, touch_activity, set_auto_stop_secs; keep
  | |- _ => apply op_keeps;
      unfold remove, rename_vm, create_snapshot, snapshot_create, snapshot_delete, clone, clone_prepare, restore, restore_prepare; keep
  end.
Qed.
End Ops.

(** The states a runtime can reach, whatever the world answers each time. *)
Inductive reachable (lo : layout) (e0 : engine) : engine -> Prop :=
  | reach_start : reachable lo e0 e0
  | reach_step h op e : reachable lo e0 e -> reachable lo e0 (run_engine_op lo h op e).

(** The tables stay consistent: in every state that any sequence of runtime
    operations reaches from one with consistent tables, under any answers of the
    host, failures at every step included, ids and names are still unique and
    every snapshot and attachment refers to an existing VM and volume. *)
Theorem engine_tables_consistent (lo : layout) (e0 e : engine) : db_ok (en_db e0) -> reachable lo e0 e -> db_ok (en_db e).
Proof. intros H. induction 1 as [|h op e He IH]; [done|]. by apply run_engine_keeps. Qed.

Lemma outcome {A B} (p : A * B) a : p.1 = a -> p = (a, p.2).
Proof. intros <-. by destruct p. Qed.

Module Sample.
Definition lo : layout := mkLayout "/d/socks" (mkDisk "/d/b" "/d/v") "/d/volumes" "/d/snapshots" None None.
Definition tools : payload := mkPayload "/p/bux-shim" "/p/bux-guest" (Some "/p/bwrap").
Definition guest : ManagedGuestBinary := mkGuest (components "/p/bux-guest") "k" 4.

(** An unfrozen guest writes over the first byte. *)
Definition read_disk (frozen : gset string) (p : path) (f : list Z) : list Z :=
  if decide ("c0ffee"%string ∈ frozen) then f else 255 :: drop 1 f.

Definition world_with (q : quiesce_answer) (ready : result Error ()) : host :=
  mkHost Linux true (5 * NANOS) 100 "c0ffee" 2 (fun _ => Some "{}"%string) (fun _ => Some (default_config true)) (fun _ => Some "{}"%string)
    (fun _ => Some "{}"%string) (fun _ _ => Ok tools) (fun _ => Ok guest) (fun _ _ => Ok ()) (fun p => Ok p) (fun _ => true) (fun _ => true)
    (fun _ => true) None None None (Ok 7) None (fun _ => Err NotFound) (fun _ => Ok 1) (fun _ _ => (Ok (), Some [1]))
    (fun a b => (Ok (), a ++ b)) (fun l => Ok (mkLive l "cert" "key")) [] None (fun _ _ _ => ""%string) (fun _ => Some (Some 9))
    (fun _ => Ok 42) ready true q true read_disk (fun _ => None).

Definition world : result Error () -> host := world_with Frozen.

Definition idle : engine :=
  mkEngine (mkRt empty_db ∅ ∅ ∅ [] [] (components "/d/socks") (components "/d/v")) ∅ ∅ ∅ new_metrics [] None ∅.

Definition options : VmOptions := opt_name "web" (from_image true (Rootfs "/r")).
Definition after_resolve (r : result Error ()) : engine := (create_resolve lo (world r) options idle).2.

Lemma lo_absolute : absolute_dirs lo.
Proof. split; eexists; reflexivity. Defined.
Lemma id_plain r : plain_name (h_id (world r)).
Proof. split; [discriminate|reflexivity]. Defined.

Lemma world_fresh r : fresh lo (world r) (after_resolve r).
Proof.
  assert (E : en_rt (after_resolve r) = en_rt idle) by (vm_compute; reflexivity).
  split; [split|..]; unfold en_db; rewrite ?E; [apply not_elem_of_nil|apply not_elem_of_empty|apply disjoint_empty_r|apply not_elem_of_empty..|reflexivity].
Qed.

Lemma failed_create_undone_witness :
  let e' := (create lo (world (Err GuestUnavailable)) options idle).2 in
  (create lo (world (Err GuestUnavailable)) options idle).1 = Err GuestUnavailable
  /\ vms (en_db e') = [] /\ rt_signals (en_rt e') = [(42, SIGKILL)].
Proof.
  intros e'. assert (E : (create lo (world (Err GuestUnavailable)) options idle).1 = Err GuestUnavailable) by (vm_compute; reflexivity).
  split; [exact E|].
  destruct (failed_create_undone lo (world (Err GuestUnavailable)) options idle e' GuestUnavailable lo_absolute (id_plain _) (outcome _ _ E) (world_fresh _))
    as (_ & Hv & _). split; [exact Hv|]. vm_compute. reflexivity.
Defined.

Definition no_vm : Vm := mkHandle (mkVm "" None 0 None "" Stopped (default_config true) 0) new_vm_metrics false.
Definition vm_of (r : result Error Vm) : Vm := match r with Ok v => v | Err _ => no_vm end.

Lemma vm_of_ok (c : result Error Vm * engine) : is_ok c.1 = true -> c = (Ok (vm_of c.1), c.2).
Proof. by destruct c as [[v|x] e]. Qed.

Abbreviation made := (create lo (world (Ok ())) options idle).

Lemma created_vm_registered_witness :
  exists json, h_to_string (world (Ok ())) (vm_config (v_state (vm_of made.1))) = Some json /\ vm_name (v_state (vm_of made.1)) = Some "web"%string.
Proof.
  destruct (created_vm_registered lo (world (Ok ())) options idle made.2 (vm_of made.1) lo_absolute (id_plain _))
    as (json & Hj & _ & Hn & _); [apply vm_of_ok; vm_compute; reflexivity|exact (world_fresh (Ok ()))|].
  exists json. split; [exact Hj|exact Hn].
Defined.

(** The VM is stopped, started and stopped again. *)
Abbreviation stopped := (stop (world (Ok ())) (vm_of made.1, made.2)).2.
Abbreviation restarted := (start_with (world (Ok ())) (mkStart (Some READY_30S) []) stopped).2.
Abbreviation stopped_again := (stop (world (Ok ())) restarted).2.

Lemma restart_uncounted_witness :
  vms_running (en_metrics stopped.2) = 0 /\ vms_running (en_metrics restarted.2) = vms_running (en_metrics stopped.2)
  /\ vms_running (en_metrics stopped_again.2) = i64 (vms_running (en_metrics stopped.2) - 1).
Proof.
  split; [vm_compute; reflexivity|].
  apply (restart_uncounted (world (Ok ())) (world (Ok ())) (mkStart (Some READY_30S) []) stopped restarted stopped_again);
    apply outcome; vm_compute; reflexivity.
Defined.

Definition sealed : Vm := mkHandle (with_config (set_secrets_required true (default_config true)) (v_state stopped.1)) new_vm_metrics false.

Lemma start_needs_secrets_witness :
  exists x v', start_with (world (Ok ())) (mkStart None []) (sealed, stopped.2) = (Err x, (v', stopped.2)) /\ x = SecretsRequired.
Proof.
  destruct (start_needs_secrets (world (Ok ())) (mkStart None []) sealed stopped.2) as (x & v' & H & _ & Hx);
    [vm_compute; reflexivity..|].
  exists x, v'. split; [exact H|]. eapply Hx; [reflexivity|]. intros g. reflexivity.
Defined.

Definition disk_bytes : engine :=
  mkEngine (mkRt (en_db made.2) {[components "/d/v/c0ffee.qcow2"]} ∅ ∅ [] [] (components "/d/socks") (components "/d/v"))
    {[components "/d/v/c0ffee.qcow2" := [1; 2; 3]]} ∅ ∅ new_metrics [] None ∅.
Definition running : VmState := with_config (set_root (Some "/d/v/c0ffee.qcow2"%string) DiskQcow2 None (default_config true)) (v_state (vm_of made.1)).

Lemma read_frozen overlay frozen f :
  root_disk (vm_config running) = Some overlay -> vm_status running <> Running \/ vm_id running ∈ frozen ->
  h_read_disk (world (Ok ())) frozen (components overlay) f = f.
Proof.
  intros _ [Hs|Hs]; [by destruct Hs|].
  assert (E : vm_id running = "c0ffee"%string) by (vm_compute; reflexivity). rewrite E in Hs.
  change (read_disk frozen (components overlay) f = f). unfold read_disk. by rewrite decide_True.
Qed.

Lemma snapshot_is_the_disk_witness :
  exists row e', create_snapshot lo (world (Ok ())) running None disk_bytes = (Ok row, e')
    /\ en_frozen e' = ∅ /\ disk_fs e' !! components (sn_disk_path row) = Some [1; 2; 3].
Proof.
  assert (E : (create_snapshot lo (world (Ok ())) running None disk_bytes).1
              = Ok (mkSnapshot "c0ffee" "c0ffee" None "/d/snapshots/c0ffee.qcow2" 3 (5 * NANOS))) by (vm_compute; reflexivity).
  exists (mkSnapshot "c0ffee" "c0ffee" None "/d/snapshots/c0ffee.qcow2" 3 (5 * NANOS)), (create_snapshot lo (world (Ok ())) running None disk_bytes).2.
  split; [exact (outcome _ _ E)|].
  destruct (snapshot_is_the_disk lo (world (Ok ())) running None disk_bytes _ _
    read_frozen (outcome _ _ E)) as [H (_ & _ & overlay & f & Ho & Hf & He & _)].
  split; [rewrite (H (ex_intro _ _ eq_refl)); reflexivity|].
  assert (Ef : disk_fs disk_bytes !! components "/d/v/c0ffee.qcow2" = Some [1; 2; 3]) by (vm_compute; reflexivity).
  assert (Eo : overlay = "/d/v/c0ffee.qcow2"%string) by (vm_compute in Ho; congruence). subst overlay.
  rewrite Hf in Ef. rewrite He, lookup_insert_eq. exact Ef.
Defined.

(** A lost confirmation leaves the guest frozen: no thaw follows. *)
Definition lost_answer : host := world_with (FrozenUnheard GuestUnavailable) (Ok ()).

Example lost_confirmation_leaves_frozen :
  let '(r, e') := create_snapshot lo lost_answer running None disk_bytes in
  is_ok r = false /\ en_frozen e' = {["c0ffee"%string]}.
Proof. vm_compute. split; reflexivity. Qed.

End Sample.
