(* ===== verification/ServeAuth.v ===== *)
(** * Bearer keys and listen addresses of the HTTP worker

    [crates/bux-serve/src/lib.rs] ([ApiKey], key loading), [state.rs]
    ([tenant_for_bearer], [constant_time_eq], [Limits]), [auth.rs] and the address
    checks of [listen.rs].  The textual form of IPv6 addresses is a parameter. *)

From S2P Require Import Prelude Files Paths Ids Ports Text.

(** ** Errors of the start-up *)

Inductive serve_error : Type :=
  | NoApiKeys | ApiKeyMissingSeparator | ApiKeyFileSyntax (line : nat) | EmptyApiKeySecret (id : string)
  | DuplicateApiKeyId (id : string) | InvalidId (e : IdError) | InvalidListen (spec : string) | NonLoopback
  | PublicRequiresTcp | ServeIo (k : io_kind) | ServeRuntime.

Definition exit_code (e : serve_error) : Z := match e with ServeIo _ | ServeRuntime => 1 | _ => 2 end.

(** ** Keys *)

Record ApiKey : Type := mkKey { key_id : string; key_secret : string }.

Definition ApiKey_new (id secret : string) : result serve_error ApiKey :=
  map_err InvalidId (validate_tenant_id id) ≫= fun _ =>
  if decide (secret = ""%string) then Err (EmptyApiKeySecret id) else Ok (mkKey id secret).

Definition push_key (keys : list ApiKey) (id secret : string) : result serve_error (list ApiKey) :=
  key ← ApiKey_new id secret;
  if existsb (fun k => bool_decide (key_id k = key_id key)) keys then Err (DuplicateApiKeyId (key_id key)) else Ok (keys ++ [key]).

Definition push_colon_spec (keys : list ApiKey) (spec : string) : result serve_error (list ApiKey) :=
  match split_once ":" spec with
  | None => Err ApiKeyMissingSeparator
  | Some (id, secret) => push_key keys id secret
  end.

Fixpoint load_key_lines (i : nat) (keys : list ApiKey) (ls : list string) : result serve_error (list ApiKey) :=
  match ls with
  | [] => Ok keys
  | raw :: r =>
    let line := trim raw in
    if decide (line = ""%string) then load_key_lines (S i) keys r
    else if starts_with_char "#" line then load_key_lines (S i) keys r
    else match split_once "=" line with
         | None => Err (ApiKeyFileSyntax (i + 1))
         | Some (id, secret) => keys ← push_key keys (trim id) secret; load_key_lines (S i) keys r
         end
  end.

Definition load_key_file (text : result io_kind string) (keys : list ApiKey) : result serve_error (list ApiKey) :=
  text ← map_err ServeIo text; load_key_lines 0 keys (lines text).

Definition push_env (keys : list ApiKey) (spec : string) : result serve_error (list ApiKey) :=
  if decide (spec = ""%string) then Ok keys else push_colon_spec keys spec.

Definition load_api_keys (cli_keys : list string) (key_file : option (result io_kind string)) (env_keys : option string)
    : result serve_error (list ApiKey) :=
  keys ← match key_file with Some text => load_key_file text [] | None => Ok [] end;
  keys ← match env_keys with Some env => foldM push_env keys (split_on "," env) | None => Ok keys end;
  foldM push_colon_spec keys cli_keys.

(** ** state.rs: comparison in constant time *)

Definition CT_EQ_MIN_ITERS : nat := 256.

Definition byte_at (l : list Z) (i : nat) : Z := default 0 (l !! i).

Definition constant_time_eq (left right : list Z) : bool :=
  let n := (length left `max` length right `max` CT_EQ_MIN_ITERS)%nat in
  let acc := foldl (fun acc i => Z.lor acc (Z.lxor (byte_at left i) (byte_at right i)))
               (if bool_decide (length left <> length right) then 1 else 0) (seq 0 n) in
  acc =? 0.

Definition tenant_for_bearer (keys : list ApiKey) (token : string) : option string :=
  foldl (fun found k => if constant_time_eq (str_bytes (key_secret k)) (str_bytes token) then Some (key_id k) else found) None keys.

(** ** auth.rs *)

(** [HeaderValue::to_str]: visible ASCII and tabs. *)
Definition header_text (v : string) : option string :=
  if str_forallb (fun c => let b := byte_of_ascii c in ((32 <=? b) && (b <? 127)) || (b =? 9)) v then Some v else None.

Definition bearer_token (authorization : option string) : option string :=
  v ← authorization; value ← header_text v;
  '(scheme, rest) ← split_once " " value;
  if eq_ascii_nocase scheme "bearer" && negb (bool_decide (rest = ""%string)) then Some rest else None.

(** The tenant a request runs as, or 401. *)
Definition require_bearer (keys : list ApiKey) (authorization : option string) : option string :=
  token ← bearer_token authorization; tenant_for_bearer keys token.

(** ** listen.rs *)

Inductive socket_addr : Type := V4 (a b c d port : Z) | V6 (segments : list Z) (port : Z).
Inductive ListenAddr : Type := Tcp (a : socket_addr) | UnixSock (p : string).

Definition is_loopback (a : socket_addr) : bool :=
  match a with
  | V4 a _ _ _ _ => a =? 127
  | V6 segs _ => bool_decide (segs = [0; 0; 0; 0; 0; 0; 0; 1])
  end.

Definition parse_octet (s : string) : option Z :=
  if bool_decide (s = ""%string) || bool_decide (3 < String.length s)%nat
     || (starts_with_char "0" s && bool_decide (1 < String.length s)%nat) then None
  else v ← digits_val 0 s; if v <=? 255 then Some v else None.

Definition parse_port_digits (s : string) : option Z :=
  if decide (s = ""%string) then None else v ← digits_val 0 s; if v <=? U16_MAX then Some v else None.

Definition parse_v4 (s : string) : option socket_addr :=
  '(host, port) ← split_once ":" s;
  match split_on "." host with
  | [a; b; c; d] =>
    a ← parse_octet a; b ← parse_octet b; c ← parse_octet c; d ← parse_octet d; port ← parse_port_digits port;
    Some (V4 a b c d port)
  | _ => None
  end.

Section Listen.
Context (parse_v6 : string -> option (list Z * Z)).
Context (xdg_runtime_dir : option string) (uid : string).

Definition parse_socket_addr (s : string) : option socket_addr :=
  match parse_v4 s with
  | Some a => Some a
  | None => '(segs, port) ← parse_v6 s; Some (V6 segs port)
  end.

Definition listen_specs (cli : list string) (env : option string) : list string :=
  match cli with
  | _ :: _ => cli
  | [] => List.filter (fun s => negb (bool_decide (s = ""%string))) (trim <$> split_on "," (default ""%string env))
  end.

Definition parse_unix_path (p original : string) : result serve_error ListenAddr :=
  if negb (is_absolute (components p)) || negb (match file_name (components p) with Some _ => true | None => false end)
  then Err (InvalidListen original) else Ok (UnixSock p).

Definition parse_listen (spec : string) : result serve_error ListenAddr :=
  match strip_prefix_str "unix://" spec with
  | Some p => parse_unix_path p spec
  | None =>
    if starts_with_char "/" spec then parse_unix_path spec spec
    else match parse_socket_addr spec with
         | Some a => Ok (Tcp a)
         | None => Err (InvalidListen spec)
         end
  end.

Fixpoint parse_listen_specs (specs : list string) : result serve_error (list ListenAddr) :=
  match specs with
  | [] => Ok []
  | s :: r =>
    let spec := trim s in
    if decide (spec = ""%string) then parse_listen_specs r
    else a ← parse_listen spec; rest ← parse_listen_specs r; Ok (a :: rest)
  end.

Definition default_unix_path : string :=
  match xdg_runtime_dir with
  | Some dir => if decide (dir = ""%string) then "/tmp/bux-" +:+ uid +:+ ".sock" else dir +:+ "/bux.sock"
  | None => "/tmp/bux-" +:+ uid +:+ ".sock"
  end.

Definition default_listen : list ListenAddr := [Tcp (V4 127 0 0 1 8080); UnixSock default_unix_path].

Definition parse_listen_list (specs : list string) : result serve_error (list ListenAddr) :=
  addrs ← parse_listen_specs specs;
  match addrs with [] => Ok default_listen | _ => Ok addrs end.

Fixpoint check_public_from (any_tcp : bool) (addrs : list ListenAddr) (public : bool) : result serve_error () :=
  match addrs with
  | [] => if public && negb any_tcp then Err PublicRequiresTcp else Ok ()
  | Tcp a :: r => if negb (is_loopback a) && negb public then Err NonLoopback else check_public_from true r public
  | UnixSock _ :: r => check_public_from any_tcp r public
  end.

Definition check_public (addrs : list ListenAddr) (public : bool) : result serve_error () := check_public_from false addrs public.

Definition resolve_listen (specs : list string) (public : bool) : result serve_error (list ListenAddr) :=
  addrs ← parse_listen_list specs;
  check_public addrs public ≫= fun _ => Ok addrs.

(** [ServeConfig::bind]: the addresses and the keys. *)
Definition bind_config (specs : list string) (keys : list ApiKey) (public : bool) : result serve_error (list ListenAddr * list ApiKey) :=
  match keys with
  | [] => Err NoApiKeys
  | _ => addrs ← resolve_listen specs public; Ok (addrs, keys)
  end.
End Listen.

(** ** The comparison is equality *)

Lemma lor_zero a b : Z.lor a b = 0 <-> a = 0 /\ b = 0.
Proof. apply Z.lor_eq_0_iff. Qed.

Lemma fold_lor_zero (f : nat -> Z) l acc : foldl (fun a i => Z.lor a (f i)) acc l = 0 <-> acc = 0 /\ forall i, i ∈ l -> f i = 0.
Proof.
  revert acc. induction l as [|i l IH]; intros acc; simpl.
  - split; [intros H; split; [done|]; intros i Hi; by apply not_elem_of_nil in Hi|by intros [H _]].
  - rewrite IH, lor_zero. split.
    + intros [[H1 H2] H3]. split; [done|]. intros j [->|Hj]%elem_of_cons; [done|by apply H3].
    + intros [H1 H2]. split; [split; [done|apply H2; by left]|]. intros j Hj. apply H2. by right.
Qed.

Lemma ct_eq_bytes (l r : list Z) : constant_time_eq l r = true <-> l = r.
Proof.
  unfold constant_time_eq. rewrite Z.eqb_eq, (fold_lor_zero (fun i => Z.lxor (byte_at l i) (byte_at r i))). split.
  - intros [H1 H2]. assert (Hlen : length l = length r) by (revert H1; case_bool_decide; lia).
    apply list_eq. intros i. destruct (decide (i < length l)%nat) as [Hi|Hi].
    + specialize (H2 i ltac:(apply elem_of_seq; lia)). apply Z.lxor_eq in H2. unfold byte_at in H2.
      destruct (lookup_lt_is_Some_2 l i Hi) as [x Hx]. destruct (lookup_lt_is_Some_2 r i ltac:(lia)) as [y Hy].
      rewrite Hx, Hy in *. simpl in H2. by subst.
    + rewrite !lookup_ge_None_2 by lia. done.
  - intros ->. rewrite bool_decide_false by (intros H; by apply H). split; [done|]. intros i _. apply Z.lxor_nilpotent.
Qed.

(** Comparing secrets is equality: the constant-time comparison, with its
    padding to a minimum length and its accumulator, says yes exactly when the two
    strings are the same, whatever their lengths. *)
Theorem constant_time_eq_iff (a b : string) : constant_time_eq (str_bytes a) (str_bytes b) = true <-> a = b.
Proof. rewrite ct_eq_bytes. split; [apply str_bytes_inj|by intros ->]. Qed.

(** ** Loaded keys *)

Record keys_ok (keys : list ApiKey) : Prop := {
  keys_distinct : NoDup (key_id <$> keys);
  keys_valid : Forall (fun k => validate_tenant_id (key_id k) = Ok () /\ key_secret k <> ""%string) keys
}.

Lemma push_key_ok keys id secret keys' : keys_ok keys -> push_key keys id secret = Ok keys' -> keys_ok keys'.
Proof.
  intros [H1 H2] (k & Hk & H)%bind_Ok_inv. unfold ApiKey_new in Hk. apply bind_Ok_inv in Hk as ([] & Hv & Hk).
  destruct (validate_tenant_id id) as [[]|] eqn:Hid; [|done]. case_decide as Hs; [done|]. injection Hk as <-.
  destruct (existsb _ _) eqn:He; [done|]. injection H as <-. split.
  - rewrite fmap_app. apply NoDup_app. split_and!; [done| |apply NoDup_singleton].
    intros x Hx ->%list_elem_of_singleton. apply list_elem_of_fmap in Hx as (k & E & Hk). apply not_true_iff_false in He. apply He.
    apply existsb_exists. exists k. split; [by apply list_elem_of_In|]. by apply bool_decide_eq_true.
  - apply Forall_app. split; [done|]. by apply Forall_singleton.
Qed.

Lemma push_colon_ok keys s keys' : keys_ok keys -> push_colon_spec keys s = Ok keys' -> keys_ok keys'.
Proof. unfold push_colon_spec. destruct (split_once _ _) as [[i k]|]; [|done]. apply push_key_ok. Qed.

Lemma foldM_keeps {E S A} (P : S -> Prop) (f : S -> A -> result E S) (l : list A) s s' :
  (forall s a s', P s -> f s a = Ok s' -> P s') -> P s -> foldM f s l = Ok s' -> P s'.
Proof.
  intros Hf. revert s. induction l as [|a l IH]; intros s Hs; simpl; [by intros [= <-]|].
  intros (s1 & H1 & H2)%bind_Ok_inv. apply (IH s1); [by apply (Hf s a)|done].
Qed.

Lemma load_lines_ok i keys ls keys' : keys_ok keys -> load_key_lines i keys ls = Ok keys' -> keys_ok keys'.
Proof.
  revert i keys. induction ls as [|l ls IH]; intros i keys Hk; simpl; [by intros [= <-]|].
  case_decide; [by apply IH|]. destruct (starts_with_char _ _); [by apply IH|]. destruct (split_once _ _) as [[a b]|]; [|done].
  intros (k1 & H1 & H2)%bind_Ok_inv. exact (IH _ k1 (push_key_ok _ _ _ _ Hk H1) H2).
Qed.

Lemma load_api_keys_ok cli file env keys : load_api_keys cli file env = Ok keys -> keys_ok keys.
Proof.
  intros H. assert (H0 : keys_ok []) by (split; constructor).
  unfold load_api_keys in H. apply bind_Ok_inv in H as (k1 & H1 & H). apply bind_Ok_inv in H as (k2 & H2 & H).
  assert (K1 : keys_ok k1).
  { destruct file as [t|]; [|by injection H1 as <-]. apply bind_Ok_inv in H1 as (s & _ & H1). exact (load_lines_ok _ _ _ _ H0 H1). }
  assert (K2 : keys_ok k2).
  { destruct env as [v|]; [|by injection H2 as <-]. refine (foldM_keeps keys_ok _ _ _ _ _ K1 H2).
    intros s a s' Hs. unfold push_env. case_decide; [by intros [= <-]|by apply push_colon_ok]. }
  refine (foldM_keeps keys_ok _ _ _ _ _ K2 H). intros; by eapply push_colon_ok.
Qed.

Lemma secret_matches k token : constant_time_eq (str_bytes (key_secret k)) (str_bytes token) = true <-> key_secret k = token.
Proof. rewrite ct_eq_bytes. split; [apply str_bytes_inj|by intros ->]. Qed.

(** The last key with the secret decides. *)
Lemma tenant_for_bearer_last keys token t : tenant_for_bearer keys token = Some t <->
  exists ks k rest, keys = ks ++ k :: rest /\ key_secret k = token /\ key_id k = t /\ Forall (fun k => key_secret k <> token) rest.
Proof.
  unfold tenant_for_bearer. induction keys as [|k keys IH] using rev_ind.
  - simpl. split; [done|]. intros (ks & k & rest & E & _). by destruct ks.
  - rewrite foldl_app. cbn [foldl]. destruct (constant_time_eq _ _) eqn:E.
    + apply secret_matches in E. split.
      * intros [= <-]. exists keys, k, []. split_and!; [done..|constructor].
      * intros (ks & k' & rest & Eq & E1 & E2 & E3). destruct rest as [|r rest _] using rev_ind.
        -- apply app_inj_tail in Eq as [-> ->]. by rewrite E2.
        -- rewrite app_comm_cons, app_assoc in Eq. apply app_inj_tail in Eq as [_ ->]. apply Forall_app in E3 as [_ E3].
           inversion E3; subst. contradiction.
    + assert (Hne : key_secret k <> token) by (intros K; apply secret_matches in K; congruence).
      rewrite IH. split; intros (ks & k' & rest & Eq & E1 & E2 & E3).
      * exists ks, k', (rest ++ [k]). split_and!; [by rewrite Eq, <- app_assoc|done..|]. apply Forall_app. split; [done|by apply Forall_singleton].
      * destruct rest as [|r rest _] using rev_ind.
        -- apply app_inj_tail in Eq as [_ ->]. contradiction.
        -- rewrite app_comm_cons, app_assoc in Eq. apply app_inj_tail in Eq as [-> ->]. apply Forall_app in E3 as [E3 _].
           exists ks, k', rest. done.
Qed.

Lemma own_secret_matches keys k : k ∈ keys -> exists t, tenant_for_bearer keys (key_secret k) = Some t.
Proof.
  induction keys as [|k' keys IH] using rev_ind; [by intros ?%not_elem_of_nil|]. unfold tenant_for_bearer.
  rewrite foldl_app. cbn [foldl]. intros [Hin| ->%list_elem_of_singleton]%elem_of_app.
  - destruct (constant_time_eq _ _); [by eexists|]. by apply IH.
  - rewrite (proj2 (secret_matches k' _) eq_refl). by eexists.
Qed.

(** C28.  Whatever the key file, the environment and the command line hold, the keys
    that are loaded have distinct tenant ids, every id is a well-formed tenant id
    and no secret is empty; a bearer token authenticates a tenant exactly when that
    tenant's key is the last one with the token as its secret, every loaded key's
    own secret authenticates some tenant, and the empty token none. *)
Theorem loaded_keys_authenticate (cli : list string) (file : option (result io_kind string)) (env : option string) (keys : list ApiKey) :
  load_api_keys cli file env = Ok keys ->
  keys_ok keys
  /\ (forall token t, tenant_for_bearer keys token = Some t <->
        exists ks k rest, keys = ks ++ k :: rest /\ key_secret k = token /\ key_id k = t /\ Forall (fun k => key_secret k <> token) rest)
  /\ (forall k, k ∈ keys -> exists t, tenant_for_bearer keys (key_secret k) = Some t)
  /\ tenant_for_bearer keys "" = None.
Proof.
  intros Hk%load_api_keys_ok. split_and!; [done|intros; apply tenant_for_bearer_last|intros; by apply own_secret_matches|].
  destruct (tenant_for_bearer keys "") as [t|] eqn:E; [|done]. apply tenant_for_bearer_last in E as (ks & k & rest & -> & E & _).
  destruct Hk as [_ Hv]. apply Forall_app in Hv as [_ Hv]. inversion Hv as [|? ? [_ Hs] _]; subst. by rewrite E in Hs.
Qed.

(** ** Where the worker listens *)

Definition is_tcp (a : ListenAddr) : Prop := exists t, a = Tcp t.

Lemma check_public_private any addrs : check_public_from any addrs false = Ok () -> forall a, Tcp a ∈ addrs -> is_loopback a = true.
Proof.
  revert any. induction addrs as [|[a|p] r IH]; intros any H x Hx; [by apply not_elem_of_nil in Hx|..].
  - simpl in H. destruct (is_loopback a) eqn:Ha; [|done]. apply elem_of_cons in Hx as [[= ->]|Hx]; [done|]. by apply (IH true H).
  - apply elem_of_cons in Hx as [[=]|Hx]. by apply (IH any H).
Qed.

Lemma check_public_public any addrs : check_public_from any addrs true = Ok () -> any = true \/ exists a, Tcp a ∈ addrs.
Proof.
  revert any. induction addrs as [|[a|p] r IH]; intros any H; simpl in H.
  - destruct any; [by left|done].
  - right. exists a. by left.
  - destruct (IH any H) as [?|[a Ha]]; [by left|]. right. exists a. by right.
Qed.

Lemma parse_listen_nonempty v6 xdg uid specs addrs : parse_listen_list v6 xdg uid specs = Ok addrs -> addrs <> [].
Proof. unfold parse_listen_list. intros (l & _ & H)%bind_Ok_inv. by destruct l; injection H as <-. Qed.

(** The worker never starts open to the network by accident: a start that
    succeeds has at least one key and one address; unless the operator said
    [--public], every TCP address is a loopback one, and if the operator said it
    there is a TCP address to publish. *)
Theorem bind_stays_private (v6 : string -> option (list Z * Z)) (xdg : option string) (uid : string) (specs : list string)
    (keys : list ApiKey) (public : bool) addrs keys' :
  bind_config v6 xdg uid specs keys public = Ok (addrs, keys') ->
  keys' = keys /\ keys <> [] /\ addrs <> []
  /\ (public = false -> forall a, Tcp a ∈ addrs -> is_loopback a = true)
  /\ (public = true -> exists a, Tcp a ∈ addrs).
Proof.
  unfold bind_config. destruct keys as [|k keys]; [done|]. intros (l & Hl & H)%bind_Ok_inv. injection H as <- <-.
  apply bind_Ok_inv in Hl as (l' & Hl & H). apply bind_Ok_inv in H as ([] & Hc & H). injection H as <-. apply parse_listen_nonempty in Hl.
  split_and!; [done|done|done| |].
  - intros ->. by apply (check_public_private false).
  - intros ->. apply check_public_public in Hc as [?|?]; done.
Qed.

Module Sample.
Definition key_text : string := "# tenants" +:+ String "010"%char (" acme =s3cret " +:+ String "010"%char "").

(** Relative to the file, the environment and two command-line keys. *)
Lemma loaded_keys_authenticate_witness :
  exists keys, load_api_keys ["ops:ops-key"] (Some (Ok key_text)) (Some "web:w1") = Ok keys
  /\ tenant_for_bearer keys "s3cret" = Some "acme"%string /\ tenant_for_bearer keys "s3cre" = None /\ keys_ok keys.
Proof.
  eexists. split; [vm_compute; reflexivity|]. split; [vm_compute; reflexivity|]. split; [vm_compute; reflexivity|].
  refine (proj1 (loaded_keys_authenticate ["ops:ops-key"] (Some (Ok key_text)) (Some "web:w1") _ _)). vm_compute. reflexivity.
Defined.

Definition no_v6 (_ : string) : option (list Z * Z) := None.

Lemma bind_stays_private_witness :
  exists addrs, bind_config no_v6 None "0" [" 127.0.0.1:9000 "; "unix:///run/bux.sock"] [mkKey "acme" "s3cret"] false = Ok (addrs, [mkKey "acme" "s3cret"])
  /\ (forall a, Tcp a ∈ addrs -> is_loopback a = true).
Proof.
  eexists. split; [vm_compute; reflexivity|].
  refine (proj1 (proj2 (proj2 (proj2 (bind_stays_private no_v6 None "0" [" 127.0.0.1:9000 "; "unix:///run/bux.sock"] [mkKey "acme" "s3cret"] false _ _ _)))) eq_refl).
  vm_compute. reflexivity.
Defined.

Example open_address_refused : bind_config no_v6 None "0" ["0.0.0.0:8080"] [mkKey "acme" "s3cret"] false = Err NonLoopback.
Proof. vm_compute. reflexivity. Qed.
End Sample.
