(* ===== verification/Serve.v ===== *)
(** * The HTTP worker: sandboxes and snapshots

    [crates/bux-serve/src/error.rs] (the error envelope), [state.rs] ([Limits]),
    [sandboxes.rs] and [snapshots.rs]: every handler, over the state of the engine.
    A handler runs as the tenant [ServeAuth] authenticated.  Messages are not
    modelled; status, code, existing id and field are.  What other requests do
    while a handler waits is explicit: [w_others] between admission and the end of
    the create, [w_polls] between two polls of a stopping sandbox. *)

From S2P Require Import Prelude ProtoMessages Files Paths Qcow2Format ImageStore Ids Ports StateTypes StateDb StateLookup Lifecycle Volumes Disk Text Options Jail Events Engine EngineBoot ServeAuth.

(** ** error.rs *)

Record ApiError : Type := mkApi { ae_status : Z; ae_code : string; ae_existing_id : option string; ae_field : option string }.

Definition api_error (status : Z) (code : string) : ApiError := mkApi status code None None.

Definition payload_too_large_msg : ApiError := api_error 413 "payload_too_large".
Definition invalid_config : ApiError := api_error 400 "invalid_config".
Definition not_found : ApiError := api_error 404 "not_found".
Definition image_in_use_error : ApiError := api_error 409 "busy".
Definition oci_error : ApiError := api_error 502 "oci".
Definition name_occupied (existing_id : string) : ApiError := mkApi 409 "name_occupied" (Some existing_id) None.
Definition name_occupied_unknown : ApiError := api_error 409 "name_occupied".
Definition sandbox_exists (existing_id field : string) : ApiError := mkApi 409 "sandbox_exists" (Some existing_id) (Some field).
Definition still_stopping : ApiError := api_error 503 "guest_unavailable".
Definition resource_exhausted : ApiError := api_error 429 "resource_exhausted".
Definition internal : ApiError := api_error 500 "internal".
Definition exec_collect_timeout : ApiError := api_error 504 "exec_timeout".
Definition with_field (field : string) (e : ApiError) : ApiError := mkApi (ae_status e) (ae_code e) (ae_existing_id e) (Some field).
Definition conflict (code : string) : ApiError := api_error 409 code.

Definition map_oci (message : string) : ApiError :=
  if str_starts_with "invalid image reference" message then invalid_config
  else if str_starts_with "image not found" message then not_found
  else oci_error.

(** [Panic] is not a value of [bux::Error]: it falls in the last case here, where
    the program aborts the request. *)
Definition from_engine (err : Error) : ApiError :=
  match err with
  | InvalidConfig => invalid_config
  | NotFound => not_found
  | Ambiguous => name_occupied_unknown
  | InvalidState => conflict "invalid_state"
  | Busy => conflict "busy"
  | GuestUnavailable => api_error 503 "guest_unavailable"
  | SecretsRequired => conflict "secrets_required"
  | SecretsNeedVirtioNet => invalid_config
  | SecurityUnavailable => api_error 412 "security_unavailable"
  | StateTypes.Oci display => map_oci display
  | Shutdown => api_error 503 "shutdown"
  | StateTypes.Io EkFileTooLarge => payload_too_large_msg
  | _ => internal
  end.

Definition from_id {A} (r : result IdError A) : result ApiError A := map_err (fun _ => invalid_config) r.

(** ** state.rs *)

Record Limits : Type := mkLimits {
  max_sandboxes : Z;
  max_sandboxes_global : Z;
  max_ram_mib : Z;
  max_vcpus : Z;
  max_running_ram_mib : Z;
  max_disk_bytes : Z;
  max_pull_bytes : Z;
  max_exec_output_bytes : Z;
  pull_timeout_secs : Z;
  default_ram_mib : Z;
  default_vcpus : Z
}.

Definition default_limits : Limits :=
  mkLimits 32 32 2048 4 8192 (32 * 1024 * 1024 * 1024) (4 * 1024 * 1024 * 1024) (1024 * 1024) 300 512 1.

(** What a handler sees of the world; [w_usage] is [data_dir_usage], [w_parse] the
    canonical text of an image reference. *)
Record world : Type := mkWorld {
  w_lo : layout;
  w_host : host;
  w_limits : Limits;
  w_unrestricted : bool;
  w_usage : result io_kind Z;
  w_parse : string -> option string;
  w_others : engine -> engine;
  w_polls : list (engine -> engine)
}.

(** ** The handler monad *)

Definition srvM (A : Type) : Type := engine -> result ApiError A * engine.

#[global] Instance srvM_ret : MRet srvM := fun A a e => (Ok a, e).
#[global] Instance srvM_bind : MBind srvM :=
  fun A B f m e => match m e with (Ok a, e') => f a e' | (Err x, e') => (Err x, e') end.

Definition fail {A} (x : ApiError) : srvM A := fun e => (Err x, e).
Definition pure_r {A} (r : result ApiError A) : srvM A := fun e => (r, e).
Definition others_run (f : engine -> engine) : srvM () := fun e => (Ok (), f e).

(** [op.map_err(ApiError::from_engine)?], and a [match] on the result. *)
Definition api {A} (m : M engine A) : srvM A := fun e => let '(r, e') := m e in (map_err from_engine r, e').
Definition try_op {A} (m : M engine A) : srvM (result Error A) := fun e => let '(r, e') := m e in (Ok r, e').

(** A method of a handle; the handle after it. *)
Definition on_vm {A} (v : Vm) (m : vmM A) : srvM (A * Vm) := fun e =>
  let '(r, (v', e')) := m (v, e) in
  match r with Ok a => (Ok (a, v'), e') | Err x => (Err (from_engine x), e') end.
Definition try_vm {A} (v : Vm) (m : vmM A) : srvM (result Error A * Vm) := fun e =>
  let '(r, (v', e')) := m (v, e) in (Ok (r, v'), e').
Definition info_of (v : Vm) : srvM VmInfo := fun e => (Ok (from_stored (en_rt e) (v_state v)), e).

(** ** sandboxes.rs: data *)

Definition WORKSPACE_GUEST_PATH : string := "/workspace".
Definition DEFAULT_AUTO_STOP_SECS : N := 1800.

Record CreateRequest : Type := mkCreate {
  cr_agent_id : string;
  cr_image : string;
  cr_vcpus : option Z;
  cr_ram_mib : option Z;
  cr_allow_net : list string;
  cr_unrestricted : bool;
  cr_env : list string;
  cr_workdir : option string;
  cr_auto_stop_secs : option N
}.

Record CreateSpec : Type := mkSpec { cs_image : string; cs_ram_mib : Z; cs_vcpus : Z; cs_network : NetworkSpec }.

Record SandboxBody : Type := mkBody {
  sb_id : string;
  sb_name : option string;
  sb_agent_id : option string;
  sb_tenant_id : option string;
  sb_image : option string;
  sb_status : string;
  sb_ram_mib : Z;
  sb_vcpus : Z;
  sb_network : NetworkSpec;
  sb_egress : EgressClass;
  sb_secrets_required : bool;
  sb_workload_env : list string;
  sb_workload_workdir : option string;
  sb_created_at : Z
}.

Definition body_status (s : Status) : string :=
  match s with Running => "running" | Stopping => "stopping" | Stopped => "stopped" end.

(** Whole seconds since the epoch, 0 before it. *)
Definition unix_secs (t : Z) : Z := if t <? 0 then 0 else t / NANOS.

(** [SandboxBody::from_info]; the note on isolation is a constant text. *)
Definition from_info (i : VmInfo) : SandboxBody :=
  mkBody (in_id i) (in_name i) (in_agent_id i) (in_tenant_id i) (in_image i) (body_status (in_status i)) (in_ram_mib i) (in_vcpus i)
    (in_network i) (in_egress i) (in_secrets_required i) (in_workload_env i) (in_workload_workdir i) (unix_secs (in_created_at i)).

Definition is_vm_id (id : string) : bool :=
  bool_decide (String.length id = 12%nat)
  && str_forallb (fun c => in_range 48 57 c || in_range 97 102 c) id.

Definition body_of (v : Vm) : srvM SandboxBody := i ← info_of v; mret (from_info i).

(** ** sandboxes.rs: checks *)

Section Handlers.
Context (w : world).
Abbreviation h := (w_host w).
Abbreviation lo := (w_lo w).

Definition canonical (image : string) : option string := to_opt (canonical_reference (w_parse w) image).

Definition parse_image (image : string) : result ApiError string :=
  if decide (image = ""%string) then Err (with_field "image" invalid_config)
  else ok_or (canonical image) invalid_config.

Definition translate_network (allow_net : list string) (unrestricted allow_unrestricted : bool) : result ApiError NetworkSpec :=
  if unrestricted then
    if negb allow_unrestricted then Err (with_field "unrestricted" invalid_config) else Ok (NetEnabled [])
  else match allow_net with [] => Ok NetDisabled | _ => Ok (NetEnabled allow_net) end.

Definition image_matches (stored : option string) (canon : string) : bool :=
  bool_decide ((label ← stored; canonical label) = Some canon).

#[global] Instance network_eq_dec : EqDecision NetworkSpec.
Proof. solve_decision. Defined.

Definition spec_mismatch (i : VmInfo) (spec : CreateSpec) : option string :=
  if negb (image_matches (in_image i) (cs_image spec)) then Some "image"%string
  else if negb (in_ram_mib i =? cs_ram_mib spec) then Some "ram_mib"%string
  else if negb (in_vcpus i =? cs_vcpus spec) then Some "vcpus"%string
  else if negb (bool_decide (in_network i = cs_network spec)) then Some "network"%string
  else None.

Definition load_owned (tenant id : string) : srvM Vm :=
  if negb (is_vm_id id) then fail not_found else
  r ← try_op (get_exact h id);
  match r with
  | Ok vm =>
    i ← info_of vm;
    if decide (in_tenant_id i = Some tenant) then mret vm else fail not_found
  | Err NotFound => fail not_found
  | Err x => fail (from_engine x)
  end.

Definition tenant_count (tenant : string) (infos : list VmInfo) : Z :=
  zlen (List.filter (fun i => bool_decide (in_tenant_id i = Some tenant)) infos).
Definition running_ram (infos : list VmInfo) : Z :=
  foldl (fun a b => u64 (a + b)) 0 (in_ram_mib <$> List.filter (fun i => is_active (in_status i)) infos).

Definition admit_sandbox (tenant : string) (ram_mib vcpus : Z) : srvM () :=
  let L := w_limits w in
  if ram_mib =? 0 then fail (with_field "ram_mib" invalid_config)
  else if vcpus =? 0 then fail (with_field "vcpus" invalid_config)
  else if max_ram_mib L <? ram_mib then fail (with_field "ram_mib" invalid_config)
  else if max_vcpus L <? vcpus then fail (with_field "vcpus" invalid_config)
  else
    infos ← api (list_infos h);
    if max_sandboxes L <=? tenant_count tenant infos then fail resource_exhausted
    else if max_sandboxes_global L <=? zlen infos then fail resource_exhausted
    else if max_running_ram_mib L <? saturating_add (running_ram infos) ram_mib then fail resource_exhausted
    else
      usage ← pure_r (map_err (fun k => from_engine (StateTypes.Io k)) (w_usage w));
      if max_disk_bytes L <=? usage then fail resource_exhausted else mret ().

(** ** sandboxes.rs: handlers *)

Definition list_sandboxes (tenant : string) : srvM (list SandboxBody) :=
  infos ← api (list_infos h);
  mret (from_info <$> List.filter (fun i => bool_decide (in_tenant_id i = Some tenant)) infos).

Definition get_one (tenant id : string) : srvM SandboxBody := vm ← load_owned tenant id; body_of vm.

Definition start_vm (vm : Vm) : srvM Vm := '(_, vm) ← on_vm vm (start h READY_30S); mret vm.

Definition start_one (tenant id : string) : srvM SandboxBody :=
  vm ← load_owned tenant id;
  i ← info_of vm;
  if (in_secrets_required i : bool) then fail (from_engine SecretsRequired)
  else vm ← start_vm vm; body_of vm.

Fixpoint wait_not_stopping (name : string) (polls : list (engine -> engine)) : srvM Vm :=
  o ← api (get_named h name);
  match o with
  | None => fail not_found
  | Some vm =>
    i ← info_of vm;
    if decide (in_status i <> Stopping) then mret vm else
    match polls with
    | [] => fail still_stopping
    | f :: r => others_run f ≫= fun _ => wait_not_stopping name r
    end
  end.

Definition resume_matching (name : string) (vm : Vm) : srvM (Z * SandboxBody) :=
  i ← info_of vm;
  vm ← match in_status i with Stopping => wait_not_stopping name (w_polls w) | _ => mret vm end;
  i ← info_of vm;
  match in_status i with
  | Running => b ← body_of vm; mret (200, b)
  | Stopped => vm ← start_vm vm; b ← body_of vm; mret (200, b)
  | Stopping => fail still_stopping
  end.

Definition existing_sandbox (tenant name : string) (vm : Vm) (spec : CreateSpec) : srvM (Z * SandboxBody) :=
  i ← info_of vm;
  if decide (in_tenant_id i <> Some tenant) then fail (name_occupied (in_id i))
  else if (in_secrets_required i : bool) then fail (from_engine SecretsRequired)
  else match spec_mismatch i spec with
       | Some field => fail (sandbox_exists (in_id i) field)
       | None => resume_matching name vm
       end.

Definition create_options (tenant name volume : string) (req : CreateRequest) (spec : CreateSpec) : VmOptions :=
  let o := from_image (linux h) (Options.Oci (cs_image spec)) in
  let o := opt_tenant_id tenant (opt_agent_id (cr_agent_id req) (opt_name name o)) in
  let o := opt_volume (named volume WORKSPACE_GUEST_PATH) (opt_network (cs_network spec) (opt_detach true o)) in
  let o := opt_auto_stop_secs (Some (default DEFAULT_AUTO_STOP_SECS (cr_auto_stop_secs req))) o in
  let o := opt_resources (cs_vcpus spec) (cs_ram_mib spec) (opt_env (cr_env req) o) in
  let o := opt_ready_timeout READY_30S (opt_security (default_security (linux h)) o) in
  match cr_workdir req with Some d => opt_workdir d o | None => o end.

Definition create_miss_error (err : Error) : ApiError :=
  match err with Ambiguous => name_occupied_unknown | other => from_engine other end.

Definition create_new (tenant name : string) (req : CreateRequest) (spec : CreateSpec) : srvM (Z * SandboxBody) :=
  volume ← pure_r (from_id (workspace_volume_name tenant (cr_agent_id req)));
  admit_sandbox tenant (cs_ram_mib spec) (cs_vcpus spec) ≫= fun _ =>
  others_run (w_others w) ≫= fun _ =>
  r ← try_op (create lo h (create_options tenant name volume req spec));
  match r with
  | Ok vm => b ← body_of vm; mret (201, b)
  | Err err =>
    found ← try_op (get_named h name);
    match found with
    | Ok (Some vm) => existing_sandbox tenant name vm spec
    | Ok None => fail (create_miss_error err)
    | Err lookup => fail (from_engine lookup)
    end
  end.

Definition spec_of (req : CreateRequest) : result ApiError CreateSpec :=
  image ← parse_image (cr_image req);
  network ← translate_network (cr_allow_net req) (cr_unrestricted req) (w_unrestricted w);
  Ok (mkSpec image (default (default_ram_mib (w_limits w)) (cr_ram_mib req)) (default (default_vcpus (w_limits w)) (cr_vcpus req)) network).

Definition create_sandbox (tenant : string) (req : CreateRequest) : srvM (Z * SandboxBody) :=
  pure_r (from_id (validate_agent_id (cr_agent_id req))) ≫= fun _ =>
  spec ← pure_r (spec_of req);
  name ← pure_r (from_id (sandbox_name tenant (cr_agent_id req)));
  o ← api (get_named h name);
  match o with
  | Some vm => existing_sandbox tenant name vm spec
  | None => create_new tenant name req spec
  end.

(** [timeout(STOP_WAIT, vm.wait())]: [h_exits] says whether the process went in time. *)
Definition stop_for_delete (vm : Vm) : srvM Vm :=
  i ← info_of vm;
  match in_status i with
  | Running =>
    '(r, vm) ← try_vm vm (stop_timeout h);
    match r with Ok _ => mret vm | Err _ => '(_, vm) ← on_vm vm (kill h); mret vm end
  | Stopping =>
    if h_exits h then
      '(r, vm) ← try_vm vm (wait h);
      match r with Ok _ => mret vm | Err _ => '(_, vm) ← on_vm vm (kill h); mret vm end
    else '(_, vm) ← on_vm vm (kill h); mret vm
  | Stopped => mret vm
  end.

Definition remove_workspace_volume (name : string) : srvM () :=
  r ← try_op (vol (Volumes.remove name));
  match r with
  | Ok _ | Err NotFound => mret ()
  | Err Busy => fail internal
  | Err x => fail (from_engine x)
  end.

Definition volume_of (i : VmInfo) : result ApiError (option string) :=
  match in_tenant_id i, in_agent_id i with
  | Some t, Some a => n ← map_err (fun _ => internal) (workspace_volume_name t a); Ok (Some n)
  | _, _ => Ok None
  end.

Definition delete_one (tenant id : string) : srvM Z :=
  vm ← load_owned tenant id;
  i ← info_of vm;
  volume ← pure_r (volume_of i);
  vm ← stop_for_delete vm;
  i2 ← info_of vm;
  (if is_active (in_status i2) then '(_, vm) ← on_vm vm (kill h); mret () else mret ()) ≫= fun _ =>
  api (Engine.remove h (in_id i)) ≫= fun _ =>
  match volume with Some name => remove_workspace_volume name | None => mret () end ≫= fun _ =>
  mret 204.

(** ** snapshots.rs *)

Record SnapshotBody : Type := mkSnap { nb_id : string; nb_vm_id : string; nb_name : option string; nb_disk_bytes : Z; nb_created_at : Z }.

Definition snapshot_body (s : SnapshotRow) : SnapshotBody :=
  mkSnap (sn_id s) (sn_vm s) (sn_name s) (sn_disk_bytes s) (unix_secs (sn_created_at s)).

Definition snapshots_of (vm : Vm) : srvM (list SnapshotRow) := api (list_snapshots_of (v_state vm)).

Definition list_sandbox_snapshots (tenant id : string) : srvM (list SnapshotBody) :=
  vm ← load_owned tenant id; snaps ← snapshots_of vm; mret (snapshot_body <$> snaps).

Definition snapshot_name_taken (vm : Vm) (name : string) : srvM bool :=
  snaps ← snapshots_of vm; mret (existsb (fun s => bool_decide (sn_name s = Some name)) snaps).

Definition duplicate_snapshot_name : ApiError := from_engine InvalidState.

Definition reject_snapshot_name (vm : Vm) (name : string) : srvM () :=
  taken ← snapshot_name_taken vm name; if (taken : bool) then fail duplicate_snapshot_name else mret ().

Definition nonempty_name (name : option string) : option string :=
  n ← name; if decide (n = ""%string) then None else Some n.

Definition create_sandbox_snapshot (tenant id : string) (name : option string) : srvM (Z * SnapshotBody) :=
  vm ← load_owned tenant id;
  let name := nonempty_name name in
  match name with Some n => reject_snapshot_name vm n | None => mret () end ≫= fun _ =>
  r ← try_op (create_snapshot lo h (v_state vm) name);
  match r with
  | Ok s => mret (201, snapshot_body s)
  | Err err =>
    taken ← match name with Some n => snapshot_name_taken vm n | None => mret false end;
    if (taken : bool) then fail duplicate_snapshot_name else fail (from_engine err)
  end.

Definition owned_snapshot (vm : Vm) (id sid : string) : srvM SnapshotRow :=
  snaps ← snapshots_of vm;
  match List.find (fun s => bool_decide (sn_id s = sid)) snaps with
  | None => fail not_found
  | Some s => if decide (sn_vm s <> id) then fail not_found else mret s
  end.

Definition delete_sandbox_snapshot (tenant id sid : string) : srvM Z :=
  vm ← load_owned tenant id;
  owned_snapshot vm id sid ≫= fun _ =>
  api (snapshot_delete sid) ≫= fun _ => mret 204.

Definition reject_occupied (name : string) : srvM () :=
  o ← api (get_named h name);
  match o with Some vm => i ← info_of vm; fail (name_occupied (in_id i)) | None => mret () end.

Definition prepare_spawn (tenant agent : string) (ram_mib vcpus : Z) : srvM string :=
  name ← pure_r (from_id (sandbox_name tenant agent));
  reject_occupied name ≫= fun _ =>
  admit_sandbox tenant ram_mib vcpus ≫= fun _ => mret name.

Definition attach_workspace (tenant agent id : string) : srvM () :=
  name ← pure_r (from_id (workspace_volume_name tenant agent));
  rs ← api (vol (resolve_mounts (lo_volumes_root lo) (fun p => to_opt (h_canonicalize h p)) (h_is_dir h) (h_home h) (h_now h)
                   [named name WORKSPACE_GUEST_PATH]));
  api (vol (link_vm id rs)).

Definition finish_spawn (tenant agent : string) (vm : Vm) : srvM (Z * SandboxBody) :=
  '(_, vm) ← on_vm vm (set_auto_stop_secs h (Some DEFAULT_AUTO_STOP_SECS));
  i ← info_of vm;
  attach_workspace tenant agent (in_id i) ≫= fun _ => mret (201, from_info i).

Definition spawn_create_error (name : string) (err : Error) : srvM (Z * SandboxBody) :=
  found ← try_op (get_named h name);
  match found with
  | Ok (Some vm) => i ← info_of vm; fail (name_occupied (in_id i))
  | Ok None => fail (from_engine err)
  | Err lookup => fail (from_engine lookup)
  end.

Definition restore_snapshot (restore_id tenant id sid agent : string) : srvM (Z * SandboxBody) :=
  pure_r (from_id (validate_agent_id agent)) ≫= fun _ =>
  vm ← load_owned tenant id;
  snap ← owned_snapshot vm id sid;
  i ← info_of vm;
  name ← prepare_spawn tenant agent (in_ram_mib i) (in_vcpus i);
  others_run (w_others w) ≫= fun _ =>
  r ← try_op (restore lo h restore_id (sn_id snap) (Some name));
  match r with Ok vm => finish_spawn tenant agent vm | Err err => spawn_create_error name err end.

Definition clone_one (clone_id tenant id agent : string) : srvM (Z * SandboxBody) :=
  pure_r (from_id (validate_agent_id agent)) ≫= fun _ =>
  vm ← load_owned tenant id;
  i ← info_of vm;
  name ← prepare_spawn tenant agent (in_ram_mib i) (in_vcpus i);
  others_run (w_others w) ≫= fun _ =>
  r ← try_op (clone lo h clone_id (in_id i) (Some name));
  match r with Ok vm => finish_spawn tenant agent vm | Err err => spawn_create_error name err end.
End Handlers.
