(* ===== verification/ServeExec.v ===== *)
(** * The HTTP worker: commands, files, logs and images

    [crates/bux-serve/src/exec.rs], [files.rs], [logs.rs], [images.rs] and the [me],
    [config] and [metrics] handlers of [router.rs], with [Vm::exec],
    [Vm::read_file] and [Vm::write_file] of [crates/bux/src/runtime/vm.rs] over the
    guest client's answers.  The stream of an exec is the list of what arrives
    before the host's deadline: its end is the deadline. *)

From S2P Require Import Prelude Files Paths SafeRoot ImageStore Ids Ports ProtoMessages StateTypes StateDb StateLookup Lifecycle Text Process Options Events Engine EngineBoot ServeAuth Serve.

(** ** exec.rs: collecting *)

Definition DEFAULT_TIMEOUT_MS : Z := 30000.
Definition MAX_TIMEOUT_MS : Z := 300000.

Record ExecRequest : Type := mkExecRequest {
  xr_cmd : string; xr_args : list string; xr_env : list string; xr_cwd : option string; xr_timeout_ms : option Z
}.

Record ExecResponse : Type := mkExecResponse {
  rx_stdout : string; rx_stderr : string; rx_code : Z; rx_timed_out : bool; rx_duration_ms : Z; rx_truncated : bool
}.

Definition parse_timeout_ms (timeout_ms : option Z) : result ApiError Z :=
  let t := default DEFAULT_TIMEOUT_MS timeout_ms in
  if (1 <=? t) && (t <=? MAX_TIMEOUT_MS) then Ok t else Err (with_field "timeout_ms" invalid_config).

(** The buffer afterwards, and whether the whole chunk fitted. *)
Definition append_capped (buf chunk : list Z) (cap : nat) : list Z * bool :=
  let room := (cap - length buf)%nat in
  if bool_decide (length chunk <= room)%nat then (buf ++ chunk, true) else (buf ++ take room chunk, false).

(** What the collector has so far, with the signals it sent to the guest. *)
Record collector : Type := mkCollector {
  cl_stdout : list Z; cl_stderr : list Z; cl_truncated : bool; cl_signaled : bool; cl_sent : list Z
}.

Definition new_collector : collector := mkCollector [] [] false false [].

Definition kill_once (c : collector) : collector :=
  if cl_signaled c then c else mkCollector (cl_stdout c) (cl_stderr c) (cl_truncated c) true (cl_sent c ++ [9]).

Definition on_stdout (cap : nat) (chunk : list Z) (c : collector) : collector :=
  let '(buf, fit) := append_capped (cl_stdout c) chunk cap in
  let c := mkCollector buf (cl_stderr c) (cl_truncated c) (cl_signaled c) (cl_sent c) in
  if fit then c else kill_once (mkCollector (cl_stdout c) (cl_stderr c) true (cl_signaled c) (cl_sent c)).

Definition on_stderr (cap : nat) (chunk : list Z) (c : collector) : collector :=
  let '(buf, fit) := append_capped (cl_stderr c) chunk cap in
  let c := mkCollector (cl_stdout c) buf (cl_truncated c) (cl_signaled c) (cl_sent c) in
  if fit then c else kill_once (mkCollector (cl_stdout c) (cl_stderr c) true (cl_signaled c) (cl_sent c)).

(** At the deadline one more signal goes out, whatever was sent before. *)
Fixpoint collect_loop (cap : nat) (events : list (result io_kind ExecOut)) (c : collector) : result ApiError ExecResponse * list Z :=
  match events with
  | [] => (Err exec_collect_timeout, cl_sent c ++ [9])
  | Ok (Stdout chunk) :: r => collect_loop cap r (on_stdout cap chunk c)
  | Ok (Stderr chunk) :: r => collect_loop cap r (on_stderr cap chunk c)
  | Ok (Exit code _ timed_out duration_ms _) :: _ =>
    (Ok (mkExecResponse (from_utf8_lossy (cl_stdout c)) (from_utf8_lossy (cl_stderr c)) code timed_out duration_ms (cl_truncated c)), cl_sent c)
  | Ok (ExecError _) :: _ => (Err (from_engine (StateTypes.Io EkOther)), cl_sent c)
  | Err k :: _ => (Err (from_engine (StateTypes.Io k)), cl_sent c)
  end.

Definition collect_capped (cap : nat) (events : list (result io_kind ExecOut)) : result ApiError ExecResponse * list Z :=
  collect_loop cap events new_collector.

(** ** The handlers over the guest client *)

(** The client's answers: [exec] gives the id and the stream, [read_file] and
    [write_file] one result; the stderr file of the shim. *)
Record guest_io : Type := mkGuestIo {
  gi_exec : ExecStart -> result io_kind (string * list (result io_kind ExecOut));
  gi_read : string -> Z -> result io_kind (list Z);
  gi_write : string -> list Z -> Z -> result io_kind ();
  gi_stderr : path -> result io_kind (list Z)
}.

Section GuestHandlers.
Context (w : world) (g : guest_io).
Abbreviation h := (w_host w).

(** [Vm::exec]: recording the activity is best effort. *)
Definition vm_exec (req : ExecStart) : vmM (list (result io_kind ExecOut)) :=
  vm ← self;
  let c := vm_config vm in
  let req := apply_workload_defaults req (workload_env c) (workload_workdir c) (workload_user c) in
  '(exec_id, stream) ← lift_r (map_err StateTypes.Io (gi_exec g req));
  drop_result (touch_activity h) ≫= fun _ =>
  eng (emit_event (ExecStarted (vm_id vm) (es_cmd req) exec_id)) ≫= fun _ => mret stream.

Definition vm_read_file (p : string) (max_bytes : Z) : vmM (list Z) := lift_r (map_err StateTypes.Io (gi_read g p max_bytes)).

Definition vm_write_file (p : string) (data : list Z) (mode : Z) : vmM () :=
  lift_r (map_err StateTypes.Io (gi_write g p data mode)) ≫= fun _ =>
  vm ← self; eng (emit_event (FileCopied (vm_id vm) CopyIn p)).

Definition exec_start (req : ExecRequest) (timeout_ms : Z) : ExecStart :=
  let start := with_timeout (with_env (with_args (ExecStart_new (xr_cmd req)) (xr_args req)) (xr_env req)) timeout_ms in
  match xr_cwd req with Some cwd => with_cwd start cwd | None => start end.

(** The response and the signals the guest got. *)
Definition exec_one (tenant id : string) (req : ExecRequest) : srvM (ExecResponse * list Z) :=
  if decide (xr_cmd req = ""%string) then fail (with_field "cmd" invalid_config) else
  timeout_ms ← pure_r (parse_timeout_ms (xr_timeout_ms req));
  vm ← load_owned w tenant id;
  i ← info_of vm;
  if (in_secrets_required i : bool) then fail (from_engine SecretsRequired) else
  '(stream, _) ← on_vm vm (vm_exec (exec_start req timeout_ms));
  let '(r, sent) := collect_capped (Z.to_nat (max_exec_output_bytes (w_limits w))) stream in
  resp ← pure_r r; mret (resp, sent).

(** ** files.rs *)

(** 0o644 *)
Definition DEFAULT_FILE_MODE : Z := 420.
Definition MAX_FILE_BODY_BYTES : Z := 32 * 1024 * 1024.

Definition validate_guest_path (p : string) : result ApiError () :=
  if starts_with_char "/" p && negb (str_contains ".." p) then Ok () else Err (with_field "path" invalid_config).

Definition put_file (tenant id p : string) (mode : option Z) (body : list Z) : srvM Z :=
  pure_r (validate_guest_path p) ≫= fun _ =>
  vm ← load_owned w tenant id;
  '(_, vm) ← on_vm vm (vm_write_file p body (default DEFAULT_FILE_MODE mode));
  on_vm vm (touch_activity h) ≫= fun _ => mret 204.

Definition get_file (tenant id p : string) : srvM (list Z) :=
  pure_r (validate_guest_path p) ≫= fun _ =>
  vm ← load_owned w tenant id;
  '(data, vm) ← on_vm vm (vm_read_file p MAX_FILE_BODY_BYTES);
  on_vm vm (touch_activity h) ≫= fun _ => mret data.

(** ** logs.rs *)

Definition read_stderr (vm : Vm) : result ApiError string :=
  match gi_stderr g (log_path (v_state vm)) with
  | Ok bytes => Ok (from_utf8_lossy bytes)
  | Err EkNotFound => Ok ""%string
  | Err k => Err (from_engine (StateTypes.Io k))
  end.

Definition logs_one (tenant id : string) : srvM string := vm ← load_owned w tenant id; pure_r (read_stderr vm).
End GuestHandlers.

(** ** router.rs *)

Definition me (w : world) (tenant : string) : string * Z := (tenant, max_sandboxes (w_limits w)).
Definition config (w : world) : Limits := w_limits w.

Record MetricsBody : Type := mkMetricsBody {
  mb_vms_created_total : Z; mb_num_running_vms : Z; mb_vms_failed_total : Z; mb_total_uptime_ms : Z;
  mb_disk_bytes_used : Z; mb_data_dir_bytes : Z
}.

Definition metrics (w : world) : srvM MetricsBody := fun e =>
  let m := en_metrics e in
  match w_usage w with
  | Err k => (Err (from_engine (StateTypes.Io k)), e)
  | Ok bytes => (Ok (mkMetricsBody (vms_created m) (vms_running m) (vms_failed m) (total_uptime_ms m) (disk_bytes_used m) bytes), e)
  end.

(** A 413 that no handler wrote gets the envelope; one in JSON already has it. *)
Definition map_payload_too_large (status : Z) (content_type : option string) : option ApiError :=
  if negb (status =? 413) then None
  else if match content_type with Some ct => str_starts_with "application/json" ct | None => false end then None
  else Some payload_too_large_msg.

(** ** images.rs *)

Record ImageInfo : Type := mkImageInfo { ii_reference : string; ii_digest : string; ii_size : Z }.

Section Images.
Context (w : world).
(** The registry of the store, and whether a pull ends before its deadline. *)
Context (manifest_bytes : string -> result Error Z) (pull_image_op : string -> result Error ImageInfo) (in_time : bool).

Definition admit_disk : result ApiError () :=
  match w_usage w with
  | Err k => Err (from_engine (StateTypes.Io k))
  | Ok usage => if max_disk_bytes (w_limits w) <=? usage then Err resource_exhausted else Ok ()
  end.

Definition pull_from_registry (reference : string) : result ApiError ImageInfo :=
  compressed ← map_err from_engine (manifest_bytes reference);
  if max_pull_bytes (w_limits w) <? compressed then Err payload_too_large_msg
  else map_err from_engine (pull_image_op reference).

Definition pull_image (image : string) : result ApiError ImageInfo :=
  reference ← ok_or (canonical w image) invalid_config;
  admit_disk ≫= fun _ =>
  if in_time then pull_from_registry reference else Err oci_error.

Definition image_in_use (reference : string) : srvM bool :=
  infos ← api (list_infos (w_host w));
  mret (existsb (fun i => match in_image i with
                          | Some label => bool_decide (canonical w label = Some reference)
                          | None => false
                          end) infos).

(** [impl From<OciError> for Error] keeps the display. *)
Context (oci_display : OciError -> string).

(** The image store is separate state. *)
Definition delete_image (image : string) (σ : store) : engine -> result ApiError Z * (engine * store) := fun e =>
  match canonical w image with
  | None => (Err invalid_config, (e, σ))
  | Some reference =>
    match image_in_use reference e with
    | (Err x, e') => (Err x, (e', σ))
    | (Ok true, e') => (Err image_in_use_error, (e', σ))
    | (Ok false, e') =>
      match ImageStore.remove (w_parse w) reference σ with
      | (Ok _, σ') => (Ok 204, (e', σ'))
      | (Err x, σ') => (Err (from_engine (StateTypes.Oci (oci_display x))), (e', σ'))
      end
    end
  end.
End Images.

(** ** What a collected exec is *)

(** The outputs up to the event that ends the exec. *)
Definition is_chunk (ev : result io_kind ExecOut) : bool :=
  match ev with Ok (Stdout _) | Ok (Stderr _) => true | _ => false end.

Fixpoint chunks_of (events : list (result io_kind ExecOut)) : list (result io_kind ExecOut) :=
  match events with ev :: r => if is_chunk ev then ev :: chunks_of r else [] | [] => [] end.

Fixpoint ending (events : list (result io_kind ExecOut)) : option (result io_kind ExecOut) :=
  match events with ev :: r => if is_chunk ev then ending r else Some ev | [] => None end.

Definition stdout_of (events : list (result io_kind ExecOut)) : list Z :=
  concat ((fun ev => match ev with Ok (Stdout d) => d | _ => [] end) <$> chunks_of events).
Definition stderr_of (events : list (result io_kind ExecOut)) : list Z :=
  concat ((fun ev => match ev with Ok (Stderr d) => d | _ => [] end) <$> chunks_of events).

(** What is answered when [out] and [err] are all the bytes and [e] ends the exec. *)
Definition answer_of (cap : nat) (out err : list Z) (e : option (result io_kind ExecOut)) : result ApiError ExecResponse * list Z :=
  let cut := bool_decide (cap < length out)%nat || bool_decide (cap < length err)%nat in
  let sent := if cut then [9] else [] in
  match e with
  | Some (Ok (Exit code _ timed_out duration_ms _)) =>
    (Ok (mkExecResponse (from_utf8_lossy (take cap out)) (from_utf8_lossy (take cap err)) code timed_out duration_ms cut), sent)
  | Some (Err k) => (Err (from_engine (StateTypes.Io k)), sent)
  | Some _ => (Err (from_engine (StateTypes.Io EkOther)), sent)
  | None => (Err exec_collect_timeout, sent ++ [9])
  end.

(** The reference: read everything, cut each stream at the cap, and say what ended
    it; one SIGKILL if something was cut, one more at the deadline. *)
Definition collect_spec (cap : nat) (events : list (result io_kind ExecOut)) : result ApiError ExecResponse * list Z :=
  answer_of cap (stdout_of events) (stderr_of events) (ending events).

Lemma append_capped_spec out chunk cap :
  append_capped (take cap out) chunk cap
  = (take cap (out ++ chunk), bool_decide (length chunk <= cap - length out)%nat).
Proof.
  unfold append_capped. rewrite length_take. replace (cap - min cap (length out))%nat with (cap - length out)%nat by lia.
  rewrite take_app. case_bool_decide as H; f_equal; f_equal. rewrite take_ge; [done|lia].
Qed.

(** The collector after reading [out] and [err]. *)
Definition collected (cap : nat) (out err : list Z) : collector :=
  let cut := bool_decide (cap < length out)%nat || bool_decide (cap < length err)%nat in
  mkCollector (take cap out) (take cap err) cut cut (if cut then [9] else []).

Lemma collected_stdout cap out err chunk : on_stdout cap chunk (collected cap out err) = collected cap (out ++ chunk) err.
Proof.
  unfold on_stdout, collected. cbn [cl_stdout]. rewrite append_capped_spec. unfold kill_once. cbn. rewrite length_app.
  repeat case_bool_decide; cbn; try lia; done.
Qed.

Lemma collected_stderr cap out err chunk : on_stderr cap chunk (collected cap out err) = collected cap out (err ++ chunk).
Proof.
  unfold on_stderr, collected. cbn [cl_stderr]. rewrite append_capped_spec. unfold kill_once. cbn. rewrite length_app.
  repeat case_bool_decide; cbn; try lia; done.
Qed.

Lemma collect_from cap events out err :
  collect_loop cap events (collected cap out err) = answer_of cap (out ++ stdout_of events) (err ++ stderr_of events) (ending events).
Proof.
  revert out err. induction events as [|[[d|d|code s t dur m|x]|k] r IH]; intros out err;
    cbn [collect_loop ending is_chunk]; rewrite ?collected_stdout, ?collected_stderr, ?IH; unfold stdout_of, stderr_of;
    cbn [chunks_of is_chunk fmap list_fmap concat]; rewrite ?app_nil_r, ?app_assoc, ?app_nil_r; done.
Qed.

(** C27.  Collecting an exec with bounded buffers is equivalent to reading all of
    it: the response holds exactly the first [cap] bytes of each stream, says that
    it is truncated precisely when a stream was longer, an exit, a guest error or a
    broken connection ends it, and the deadline answers 504; the guest is sent one
    SIGKILL when output is cut, however many chunks follow, and one more only at
    the deadline. *)
Theorem collect_capped_spec (cap : nat) (events : list (result io_kind ExecOut)) :
  collect_capped cap events = collect_spec cap events
  /\ (length (collect_capped cap events).2 <= 2)%nat
  /\ (forall r sent, collect_capped cap events = (Ok r, sent) -> sent = if rx_truncated r then [9] else []).
Proof.
  assert (H : collect_capped cap events = collect_spec cap events).
  { unfold collect_capped. replace new_collector with (collected cap [] []) by (unfold collected; by rewrite !take_nil). apply collect_from. }
  rewrite H. unfold collect_spec, answer_of. split; [done|]. destruct (ending events) as [[[]|]|]; destruct (_ || _); cbn;
    (split; [lia|]); intros r sent E; simplify_eq; done.
Qed.

Example collected_sample :
  collect_capped 3 [Ok (Stdout [72; 105]); Ok (Stderr [33]); Ok (Stdout [74; 75]); Ok (Stdout [76]); Ok (Exit 137 (Some 9) false 5 None)]
  = (Ok (mkExecResponse "HiJ" "!" 137 false 5 true), [9]).
Proof. vm_compute. reflexivity. Qed.
