(* ===== verification/ServeCorrect.v ===== *)
(** * What the HTTP worker guarantees to its tenants

    Isolation of the handlers of one sandbox, admission and deletion, for [Serve] and
    [ServeExec]. *)

From S2P Require Import Prelude ProtoMessages Files Paths Qcow2Format ImageStore Ids Ports StateTypes StateDb StateLookup Lifecycle LifecycleCorrect Volumes Disk Text Options Jail Events Engine EngineBoot EngineCorrect EngineProps ServeAuth Serve ServeExec.

(** ** The requests about one sandbox *)

Inductive sandbox_request : Type :=
  | ReqGet | ReqStart | ReqDelete | ReqSnapshots
  | ReqSnapshot (name : option string)
  | ReqDropSnapshot (sid : string)
  | ReqRestore (restore_id sid agent : string)
  | ReqClone (clone_id agent : string)
  | ReqExec (req : ExecRequest)
  | ReqPut (path : string) (mode : option Z) (body : list Z)
  | ReqRead (path : string)
  | ReqLogs.

Inductive response : Type :=
  | RespBody (status : Z) (b : SandboxBody)
  | RespSnapshots (l : list SnapshotBody)
  | RespSnapshot (status : Z) (s : SnapshotBody)
  | RespStatus (status : Z)
  | RespExec (r : ExecResponse)
  | RespBytes (data : list Z)
  | RespText (s : string).

Definition serve_request (w : world) (g : guest_io) (tenant id : string) (req : sandbox_request) : srvM response :=
  match req with
  | ReqGet => b ← get_one w tenant id; mret (RespBody 200 b)
  | ReqStart => b ← start_one w tenant id; mret (RespBody 200 b)
  | ReqDelete => n ← delete_one w tenant id; mret (RespStatus n)
  | ReqSnapshots => l ← list_sandbox_snapshots w tenant id; mret (RespSnapshots l)
  | ReqSnapshot name => '(n, s) ← create_sandbox_snapshot w tenant id name; mret (RespSnapshot n s)
  | ReqDropSnapshot sid => n ← delete_sandbox_snapshot w tenant id sid; mret (RespStatus n)
  | ReqRestore rid sid agent => '(n, b) ← restore_snapshot w rid tenant id sid agent; mret (RespBody n b)
  | ReqClone cid agent => '(n, b) ← clone_one w cid tenant id agent; mret (RespBody n b)
  | ReqExec r => '(x, _) ← exec_one w g tenant id r; mret (RespExec x)
  | ReqPut p mode body => n ← put_file w g tenant id p mode body; mret (RespStatus n)
  | ReqRead p => d ← get_file w g tenant id p; mret (RespBytes d)
  | ReqLogs => s ← logs_one w g tenant id; mret (RespText s)
  end.

(** What a handler checks of the request itself before it looks the sandbox up. *)
Definition precheck (req : sandbox_request) : result ApiError () :=
  match req with
  | ReqRestore _ _ a | ReqClone _ a => from_id (validate_agent_id a)
  | ReqExec r =>
    if decide (xr_cmd r = ""%string) then Err (with_field "cmd" invalid_config) else
    _ ← parse_timeout_ms (xr_timeout_ms r); Ok ()
  | ReqPut p _ _ | ReqRead p => ServeExec.validate_guest_path p
  | _ => Ok ()
  end.

Lemma srv_bind_err {A B} (m : srvM A) (f : A -> srvM B) e x e' : m e = (Err x, e') -> (m ≫= f) e = (Err x, e').
Proof. intros H. unfold mbind, srvM_bind. by rewrite H. Qed.

Lemma srv_bind_ok {A B} (m : srvM A) (f : A -> srvM B) e a e1 : m e = (Ok a, e1) -> (m ≫= f) e = f a e1.
Proof. intros H. unfold mbind, srvM_bind. by rewrite H. Qed.

Lemma srv_bind_inv {A B} (m : srvM A) (f : A -> srvM B) e b e' :
  (m ≫= f) e = (Ok b, e') -> exists a e1, m e = (Ok a, e1) /\ f a e1 = (Ok b, e').
Proof. unfold mbind, srvM_bind. destruct (m e) as [[a|x] e1]; [eauto|done]. Qed.

(** Looking a sandbox up may notice that its process is dead: nothing changes
    unless the row says active and the process is gone, and then the row says
    stopped and the files of the dead VM go. *)
Definition noticed (h : host) (id : string) (e e' : engine) : Prop :=
  e' = e \/ exists s, get_by_id (h_from_str h) id (en_db e) = Ok s
    /\ is_active (vm_status s) = true /\ is_pid_alive (en_rt e) (vm_pid s) = false
    /\ e' = set_rt (clean_vm_files (vm_socket s) (db_drop (en_rt e) (update_status (vm_id s) Stopped))) e.

Lemma reconciled_noticed h id s e : get_by_id (h_from_str h) id (en_db e) = Ok s -> noticed h id e (set_rt (reconcile_dead_pid s (en_rt e)).2 e).
Proof.
  intros Hs. unfold reconcile_dead_pid. destruct (is_active (vm_status s)) eqn:Ea; [|left; by destruct e].
  destruct (is_pid_alive _ _) eqn:Ep; [left; by destruct e|]. right. exists s. by split_and!.
Qed.

Lemma handle_eq s e : handle s e = (Ok (mkHandle (reconcile_dead_pid s (en_rt e)).1 new_vm_metrics false), set_rt (reconcile_dead_pid s (en_rt e)).2 e).
Proof. unfold handle. by destruct (reconcile_dead_pid s (en_rt e)). Qed.

Lemma get_exact_eq h id e :
  get_exact h id e = match get_by_id (h_from_str h) id (en_db e) with Ok s => handle s e | Err x => (Err x, e) end.
Proof. unfold get_exact, sql_query, mbind, M_bind. by destruct (get_by_id _ _ _). Qed.

Lemma reconcile_fields s rt : vm_id (reconcile_dead_pid s rt).1 = vm_id s /\ vm_config (reconcile_dead_pid s rt).1 = vm_config s.
Proof. unfold reconcile_dead_pid. by destruct (_ && _). Qed.

Lemma load_owned_foreign w tenant id e :
  (forall s, get_by_id (h_from_str (w_host w)) id (en_db e) = Ok s -> tenant_id (vm_config s) <> Some tenant) ->
  (forall x, get_by_id (h_from_str (w_host w)) id (en_db e) = Err x -> x = NotFound) ->
  exists e', load_owned w tenant id e = (Err not_found, e') /\ noticed (w_host w) id e e'.
Proof.
  intros Ho Hx. unfold load_owned. destruct (negb _); [exists e; split; [done|by left]|].
  unfold try_op, mbind, srvM_bind. rewrite get_exact_eq. destruct (get_by_id _ _ _) as [s|x] eqn:E.
  - rewrite handle_eq. eexists. split; [|by apply (reconciled_noticed _ _ s)]. unfold info_of.
    rewrite decide_False; [done|]. cbn. rewrite (proj2 (reconcile_fields s _)). by apply Ho.
  - rewrite (Hx x eq_refl). exists e. split; [done|by left].
Qed.

Lemma request_loads_first w g tenant id req e x e' :
  precheck req = Ok () -> load_owned w tenant id e = (Err x, e') -> serve_request w g tenant id req e = (Err x, e').
Proof.
  intros Ha H. destruct req; cbn [serve_request precheck] in *; apply srv_bind_err;
    unfold get_one, start_one, delete_one, list_sandbox_snapshots, create_sandbox_snapshot, delete_sandbox_snapshot, restore_snapshot, clone_one,
      exec_one, put_file, get_file, logs_one; try rewrite Ha;
    try (by apply srv_bind_err); try (exact (srv_bind_err _ _ _ _ _ H)).
  case_decide; [done|]. destruct (parse_timeout_ms _); [|done]. exact (srv_bind_err _ _ _ _ _ H).
Qed.

Lemma request_refused w g tenant id req e x : precheck req = Err x -> serve_request w g tenant id req e = (Err x, e).
Proof.
  intros Ha. destruct req; cbn [serve_request precheck] in *; try done; apply srv_bind_err;
    unfold restore_snapshot, clone_one, exec_one, put_file, get_file; try (by rewrite Ha).
  case_decide; [by injection Ha as <-|]. destruct (parse_timeout_ms _); [done|]. by injection Ha as <-.
Qed.

(** C4.  Tenants do not see each other: any request about a sandbox id that is not
    the caller's, whether another tenant owns the sandbox or it does not exist at
    all or the id is malformed, is answered with the very same 404, commands, files
    and logs included, unless the request itself is refused before the sandbox is
    looked up; nothing changes, except that a sandbox whose process is found dead
    is marked stopped; and a listing holds the caller's sandboxes only. *)
Theorem other_tenants_invisible (w : world) (g : guest_io) (tenant id : string) (req : sandbox_request) (e : engine) :
  (forall s, get_by_id (h_from_str (w_host w)) id (en_db e) = Ok s -> tenant_id (vm_config s) <> Some tenant) ->
  (forall x, get_by_id (h_from_str (w_host w)) id (en_db e) = Err x -> x = NotFound) ->
  match precheck req with
  | Ok _ => exists e', serve_request w g tenant id req e = (Err not_found, e') /\ noticed (w_host w) id e e'
  | Err x => serve_request w g tenant id req e = (Err x, e)
  end
  /\ (forall bs e', list_sandboxes w tenant e = (Ok bs, e') -> Forall (fun b => sb_tenant_id b = Some tenant) bs).
Proof.
  intros Ho Hx. split.
  - destruct (precheck req) as [[]|x] eqn:Ep; [|by apply request_refused].
    destruct (load_owned_foreign w tenant id e Ho Hx) as (e' & He & Hn). exists e'. split; [by apply request_loads_first|done].
  - intros bs e' (infos & e1 & _ & [= <- <-])%srv_bind_inv. apply Forall_fmap, Forall_forall.
    intros i [_ Hi]%elem_of_filter_bool. by apply bool_decide_eq_true in Hi.
Qed.

(** ** Admission *)

Definition ram_sum (l : list VmInfo) : Z := foldr Z.add 0 (in_ram_mib <$> List.filter (fun i => is_active (in_status i)) l).

Lemma fold_u64_sum (l : list Z) acc : 0 <= acc -> Forall (fun r => 0 <= r < 2^32) l -> acc + zlen l * 2^32 < 2^64 ->
  foldl (fun a b => u64 (a + b)) acc l = acc + foldr Z.add 0 l.
Proof.
  revert acc. induction l as [|r l IH]; intros acc Ha H Hs; cbn [foldl foldr]; [lia|].
  apply Forall_cons in H as [Hr H]. assert (Hc : zlen (r :: l) = zlen l + 1) by (unfold zlen; simpl length; lia).
  pose proof (zlen_nonneg l). rewrite u64_id by nia. rewrite IH; [lia|lia|done|nia].
Qed.

Lemma ram_sum_bound infos : Forall (fun i => 0 <= in_ram_mib i < 2^32) infos -> 0 <= ram_sum infos <= zlen infos * 2^32.
Proof.
  unfold ram_sum, zlen. induction 1 as [|i l Hi _ IH]; [simpl; lia|].
  change (length (i :: l)) with (S (length l)). cbn [List.filter]. destruct (is_active _); cbn [fmap list_fmap foldr]; lia.
Qed.

Lemma running_ram_sum infos : Forall (fun i => 0 <= in_ram_mib i < 2^32) infos -> zlen infos < 2^32 -> running_ram infos = ram_sum infos.
Proof.
  intros H Hl. unfold running_ram, ram_sum. rewrite fold_u64_sum; [lia|lia| |].
  - apply Forall_fmap, Forall_forall. intros i [Hi _]%elem_of_filter_bool. rewrite Forall_forall in H. by apply H.
  - assert (Hf : (length (List.filter (fun i => is_active (in_status i)) infos) <= length infos)%nat) by apply filter_length_le.
    unfold zlen in *. rewrite length_fmap. nia.
Qed.

(** C23.  Admission is exact: with the sandboxes the listing reports, a request is
    admitted precisely when its RAM and vCPUs are within 1 and the maxima, the
    caller and the worker stay below their counts with it, the RAM of the active
    sandboxes, summed without wrapping, stays within the cap with the new one
    added, and the data directory is below its cap. *)
Theorem admission_exact (w : world) (tenant : string) (ram vcpus usage : Z) (e e1 : engine) (infos : list VmInfo) :
  list_infos (w_host w) e = (Ok infos, e1) -> w_usage w = Ok usage ->
  0 <= ram < 2^32 -> 0 <= vcpus < 2^8 ->
  Forall (fun i => 0 <= in_ram_mib i < 2^32) infos ->
  max_sandboxes_global (w_limits w) < 2^32 -> max_running_ram_mib (w_limits w) < 2^32 ->
  (exists e', admit_sandbox w tenant ram vcpus e = (Ok tt, e')) <->
    1 <= ram <= max_ram_mib (w_limits w) /\ 1 <= vcpus <= max_vcpus (w_limits w)
    /\ tenant_count tenant infos + 1 <= max_sandboxes (w_limits w) /\ zlen infos + 1 <= max_sandboxes_global (w_limits w)
    /\ ram_sum infos + ram <= max_running_ram_mib (w_limits w) /\ usage < max_disk_bytes (w_limits w).
Proof.
  intros Hl Hu Hr Hv Hi Hg Hm. pose proof (ram_sum_bound infos Hi) as Hrs. unfold admit_sandbox. split.
  - intros [e' H]. destruct (ram =? 0) eqn:E1; [done|]. destruct (vcpus =? 0) eqn:E2; [done|].
    destruct (_ <? ram) eqn:E3; [done|]. destruct (_ <? vcpus) eqn:E4; [done|].
    unfold api, mbind, srvM_bind in H. rewrite Hl in H. cbn [map_err] in H.
    destruct (_ <=? tenant_count _ _) eqn:E5; [done|]. destruct (_ <=? zlen infos) eqn:E6; [done|].
    destruct (_ <? saturating_add _ _) eqn:E7; [done|]. rewrite Hu in H. cbn in H. destruct (_ <=? usage) eqn:E8; [done|].
    zify_bool. rewrite running_ram_sum in E7 by (done || lia). unfold saturating_add, U64_MAX in E7. lia.
  - intros (H1 & H2 & H3 & H4 & H5 & H6). exists e1.
    rewrite (proj2 (Z.eqb_neq ram 0)), (proj2 (Z.eqb_neq vcpus 0)), (proj2 (Z.ltb_ge _ ram)), (proj2 (Z.ltb_ge _ vcpus)) by lia.
    unfold api, mbind, srvM_bind. rewrite Hl. cbn [map_err].
    rewrite (proj2 (Z.leb_gt _ (tenant_count _ _))), (proj2 (Z.leb_gt _ (zlen infos))) by lia.
    rewrite running_ram_sum by (done || lia). unfold saturating_add, U64_MAX. rewrite (proj2 (Z.ltb_ge _ _)) by lia. rewrite Hu. cbn.
    by rewrite (proj2 (Z.leb_gt _ usage)) by lia.
Qed.

(** ** Deletion touches one sandbox *)

Section Smoves.
Context (R : relation engine) `{!PreOrder R}.

Definition smoves {A} (m : srvM A) : Prop := forall e, R e (m e).2.

Lemma smoves_ret {A} (a : A) : smoves (mret a). Proof. intros e. reflexivity. Qed.
Lemma smoves_fail {A} x : smoves (@fail A x). Proof. intros e. reflexivity. Qed.
Lemma smoves_pure {A} (r : result ApiError A) : smoves (pure_r r). Proof. intros e. reflexivity. Qed.
Lemma smoves_info v : smoves (info_of v). Proof. intros e. reflexivity. Qed.
Lemma smoves_bind {A B} (m : srvM A) (f : A -> srvM B) : smoves m -> (forall a, smoves (f a)) -> smoves (m ≫= f).
Proof.
  intros Hm Hf e. unfold mbind, srvM_bind. specialize (Hm e). destruct (m e) as [[a|x] e1]; [|done]. etrans; [exact Hm|apply Hf].
Qed.
Lemma smoves_api {A} (m : M engine A) : moves R m -> smoves (api m).
Proof. intros H e. unfold api. specialize (H e). by destruct (m e). Qed.
Lemma smoves_try {A} (m : M engine A) : moves R m -> smoves (try_op m).
Proof. intros H e. unfold try_op. specialize (H e). by destruct (m e). Qed.
End Smoves.

(** The rows of other VMs stay as they are, and the VM's own row keeps its name. *)
Record only_row (id : string) (e e' : engine) : Prop := {
  only_others : others id (en_db e') = others id (en_db e);
  only_named : forall r, r ∈ vms (en_db e') -> v_id r = id -> exists r0, r0 ∈ vms (en_db e) /\ v_id r0 = id /\ v_name r0 = v_name r
}.

#[export] Instance only_row_preorder id : PreOrder (only_row id).
Proof.
  split; [split; [done|eauto]|]. intros e1 e2 e3 [A1 A2] [B1 B2]. split; [congruence|].
  intros r Hr Hi. destruct (B2 r Hr Hi) as (r2 & H2 & I2 & N2). destruct (A2 r2 H2 I2) as (r1 & H1 & I1 & N1).
  exists r1. split_and!; [done..|congruence].
Qed.

Lemma only_same id e e' : vms (en_db e') = vms (en_db e) -> only_row id e e'.
Proof. intros H. split; unfold others; rewrite H; eauto. Qed.

Lemma others_update id f d : (forall r, v_id (f r) = v_id r) -> others id (update_vm id f d) = others id d.
Proof.
  intros Hf. unfold others, update_vm. cbn [vms with_vms]. induction (vms d) as [|r l IH]; [done|]. cbn [fmap list_fmap List.filter].
  destruct (decide (v_id r = id)) as [E|E]; [rewrite Hf|]; destruct (bool_decide _) eqn:K; cbn [negb];
    [exact IH|by apply bool_decide_eq_false in K|by apply bool_decide_eq_true in K|by rewrite IH].
Qed.

Lemma only_update id f e e' : (forall r, v_id (f r) = v_id r /\ v_name (f r) = v_name r) ->
  en_db e' = update_vm id f (en_db e) -> only_row id e e'.
Proof.
  intros Hf He. split; rewrite He.
  - apply others_update. intros r. apply Hf.
  - unfold update_vm. cbn [vms with_vms]. intros r (r0 & -> & Hr0)%list_elem_of_fmap Hi. exists r0.
    destruct (decide (v_id r0 = id)) as [E|E]; [|done]. split_and!; [done..|]. symmetry. apply Hf.
Qed.

Lemma only_delete id e e' d : delete id (en_db e) = Ok d -> en_db e' = d -> only_row id e e' /\ id ∉ v_id <$> vms (en_db e').
Proof.
  intros [= <-] He. assert (Hno : id ∉ v_id <$> vms (en_db e')).
  { rewrite He. cbn [vms]. intros (r & -> & [_ Hr]%elem_of_filter_bool)%list_elem_of_fmap. by rewrite bool_decide_true in Hr. }
  split; [|done]. split.
  - rewrite He. unfold others. cbn [vms]. generalize (vms (en_db e)). intros l. induction l as [|r l IH]; [done|]. cbn [List.filter].
    destruct (negb _) eqn:K; [|exact IH]. cbn [List.filter]. by rewrite K, IH.
  - intros r Hr <-. destruct Hno. by apply list_elem_of_fmap_2.
Qed.

Definition status_row (st : Status) (r : vm_row) : vm_row :=
  mkVmRow (v_id r) (v_name r) (v_pid r) (v_image r) (v_socket r) (status_str st) (v_config r) (v_created r).

Lemma only_reconcile s e : only_row (vm_id s) e (set_rt (reconcile_dead_pid s (en_rt e)).2 e).
Proof.
  unfold reconcile_dead_pid. destruct (_ && _); [|by apply only_same]. by apply (only_update _ (status_row Stopped)).
Qed.

(** *** Handle operations on the sandbox's own handle *)

Definition own_step (id : string) (s s' : Vm * engine) : Prop :=
  vm_id (v_state s.1) = id -> vm_id (v_state s'.1) = id /\ only_row id s.2 s'.2.

Lemma own_intro id s s' : (vm_id (v_state s.1) = id -> vm_id (v_state s'.1) = id /\ only_row id s.2 s'.2) -> own_step id s s'.
Proof. done. Qed.

(** Unfolds a straight-line operation of a handle. *)
Ltac run_vm := unfold set_self, self, on_engine, eng, sql, modify, gets, emit_event, mbind, M_bind; cbn.

Lemma own_mark_stopped h id : moves (own_step id) (mark_stopped h).
Proof.
  intros [v e] Hid. cbn [fst] in Hid. unfold mark_stopped. run_vm. destruct (auto_remove (vm_config (v_state v))); cbn; (split; [done|]); rewrite Hid.
  - by apply (only_delete id _ _ _ eq_refl).
  - by apply (only_update id (status_row Stopped)).
Qed.

#[export] Instance own_step_preorder id : PreOrder (own_step id).
Proof.
  split; [intros s; done|]. intros s1 s2 s3 H1 H2 Hid. destruct (H1 Hid) as [I1 O1]. destruct (H2 I1) as [I2 O2]. split; [done|by etrans].
Qed.

Lemma own_then {A} id (m : vmM A) s s1 : moves (own_step id) m -> own_step id s s1 -> own_step id s (m s1).2.
Proof. intros Hm H. etrans; [exact H|apply Hm]. Qed.

Lemma own_kill h id : moves (own_step id) (kill h).
Proof.
  intros [v e]. unfold kill. run_vm. apply own_then; [apply own_mark_stopped|]. intros Hid. split; [done|]. by apply only_same.
Qed.

Lemma own_wait h id : moves (own_step id) (wait h).
Proof.
  intros [v e]. unfold wait. run_vm. apply own_then; [apply own_mark_stopped|]. intros Hid. split; [done|]. by apply only_same.
Qed.

Lemma own_stop h id : moves (own_step id) (stop_timeout h).
Proof.
  intros [v e]. unfold stop_timeout. run_vm. destruct (can_stop (vm_status (v_state v))); [|done]. cbn [negb].
  set (v1 := mkHandle _ _ _). set (e1 := set_rt _ _).
  assert (H1 : own_step id (v, e) (v1, e1)).
  { intros Hid. split; [done|]. apply (only_update id (status_row Stopping)); [done|]. cbn in Hid. by rewrite <- Hid. }
  destruct (h_exits h).
  - apply (own_then id (mark_stopped h)); [apply own_mark_stopped|]. intros Hid. destruct (H1 Hid) as [I O]. split; [done|].
    etrans; [exact O|by apply only_same].
  - apply (own_then id (kill h)); [apply own_kill|exact H1].
Qed.

(** *** The handler *)

Definition keeps_handle (id : string) (m : srvM Vm) : Prop :=
  forall e, only_row id e (m e).2 /\ forall v e', m e = (Ok v, e') -> vm_id (v_state v) = id.

Lemma keeps_mret id v : vm_id (v_state v) = id -> keeps_handle id (mret v).
Proof. intros H e. split; [reflexivity|]. by intros v' e' [= <- _]. Qed.

Lemma keeps_on_vm {A} id v (m : vmM A) : vm_id (v_state v) = id -> moves (own_step id) m -> keeps_handle id ('(_, v) ← on_vm v m; mret v).
Proof.
  intros Hid Hm e. unfold on_vm, mbind, srvM_bind. destruct (Hm (v, e) Hid) as [H1 H2].
  destruct (m (v, e)) as [[a|x] [v' e']]; cbn in *; split; try done. by intros ? ? [= <- _].
Qed.

Lemma keeps_try_vm {A} id v (m : vmM A) (f : result Error A * Vm -> srvM Vm) :
  vm_id (v_state v) = id -> moves (own_step id) m -> (forall r v', vm_id (v_state v') = id -> keeps_handle id (f (r, v'))) ->
  keeps_handle id (try_vm v m ≫= f).
Proof.
  intros Hid Hm Hf e. unfold try_vm, mbind, srvM_bind. destruct (Hm (v, e) Hid) as [H1 H2].
  destruct (m (v, e)) as [r [v' e']]. cbn in *. destruct (Hf r v' H1 e') as [K1 K2]. split; [by etrans|done].
Qed.

Lemma keeps_stop w id v : vm_id (v_state v) = id -> keeps_handle id (stop_for_delete w v).
Proof.
  intros Hid. unfold stop_for_delete. unfold info_of at 1, mbind, srvM_bind at 1. intros e. cbn.
  assert (Hk : forall v', vm_id (v_state v') = id -> keeps_handle id ('(_, v) ← on_vm v' (kill (w_host w)); mret v))
    by (intros; by apply keeps_on_vm, own_kill).
  assert (Hs : forall (m : vmM ()), moves (own_step id) m -> keeps_handle id ('(r, vm) ← try_vm v m;
      match r with Ok _ => mret vm | Err _ => '(_, vm) ← on_vm vm (kill (w_host w)); mret vm end)).
  { intros m Hm. apply keeps_try_vm; [done..|]. intros [u|x] v' Hv'; [by apply keeps_mret|by apply Hk]. }
  destruct (vm_status (v_state v)); [apply Hs, own_stop|destruct (h_exits (w_host w)); [apply Hs, own_wait|by apply Hk]|by apply keeps_mret].
Qed.

Lemma volumes_remove_vms name s : vms (vo_db (Volumes.remove name s).2) = vms (vo_db s).
Proof.
  unfold Volumes.remove. apply vol_bind_rows; [intros s1; unfold Volumes.get; by apply vol_bind_rows|intros i s1].
  apply vol_bind_rows; [done|intros n s2]. destruct (0 <? n); [done|]. apply vol_bind_rows.
  - intros s3. unfold execute, delete_volume. by destruct (_ && _).
  - intros _ s3. unfold remove_dir_if_exists. by destruct (bool_decide _).
Qed.

Lemma workspace_only id name e : only_row id e (remove_workspace_volume name e).2.
Proof.
  unfold remove_workspace_volume, try_op, vol, mbind, srvM_bind. pose proof (volumes_remove_vms name (mkVols (en_db e) (en_dirs e))) as H.
  destruct (Volumes.remove name _) as [r s]. cbn in *.
  destruct r as [u|[]]; by apply only_same.
Qed.

Lemma vm_id_lower id : is_vm_id id = true -> String.length id = 12%nat /\ to_ascii_lowercase id = id /\ no_wildcard id.
Proof.
  unfold is_vm_id. intros [H1%bool_decide_eq_true H2]%andb_true_iff. split; [done|]. clear H1.
  induction id as [|c id IH]; [done|]. simpl in H2. apply andb_true_iff in H2 as [Hc H2]. destruct (IH H2) as [L [W1 W2]].
  unfold no_wildcard. cbn [to_ascii_lowercase str_contains_char]. rewrite L, W1, W2, !orb_false_r. clear IH H2 L W1 W2.
  destruct c as [[] [] [] [] [] [] [] []]; vm_compute in Hc; try discriminate Hc; vm_compute; done.
Qed.

Lemma prefix_same_length a b : String.prefix a b = true -> String.length a = String.length b -> a = b.
Proof.
  revert b. induction a as [|c a IH]; intros [|d b] H Hl; [done..|]. simpl in *. destruct (ascii_dec c d) as [->|]; [|done].
  f_equal. apply IH; [done|lia].
Qed.

Lemma row_state_id from_str r s : row_to_state from_str r = Ok s -> vm_id s = v_id r.
Proof. unfold row_to_state. by intros (c & _ & (t & _ & [= <-])%bind_Ok_inv)%bind_Ok_inv. Qed.

(** The names and ids that the worker itself gives. *)
Definition plain_rows (id : string) (e : engine) : Prop :=
  forall r, r ∈ vms (en_db e) -> is_vm_id (v_id r) = true /\ v_name r <> Some id.

Lemma get_own h id e : is_vm_id id = true -> plain_rows id e ->
  forall v e', get h id e = (Ok v, e') -> vm_id (v_state v) = id /\ only_row id e e'.
Proof.
  intros Hid Hp v e' H. unfold get in H. apply bind_Ok_M in H as (o & e1 & [= Ho <-] & H).
  assert (o = None) as ->.
  { unfold get_by_name in Ho. destruct (List.find _ _) as [r|] eqn:E; [|by injection Ho].
    apply find_Some_elem in E as [Hr Hn%bool_decide_eq_true]. by destruct (proj2 (Hp r Hr)). }
  apply bind_Ok_M in H as (s & e1 & [= Hs <-] & H). assert (Hi : vm_id s = id).
  { unfold get_by_id_prefix in Hs. destruct (List.find _ _) as [r|] eqn:E.
    - apply find_Some_elem in E as [_ Hr%bool_decide_eq_true]. by rewrite (row_state_id _ _ _ Hs).
    - apply bind_Ok_inv in Hs as (ms & Hc & Hs). destruct ms as [|m [|]]; [done| |done]. injection Hs as ->.
      apply collect_Ok in Hc. apply Forall2_cons_inv_r in Hc as (r & rs & Hr & _ & Ef).
      assert (Hin : r ∈ List.filter (fun r => like (id +:+ "%") (v_id r)) (vms (en_db e))) by (rewrite Ef; by left).
      apply elem_of_filter_bool in Hin as [Hin Hl]. destruct (vm_id_lower id Hid) as (L1 & L2 & L3).
      destruct (vm_id_lower (v_id r) (proj1 (Hp r Hin))) as (R1 & R2 & _). rewrite like_prefix, L2, R2 in Hl by done.
      rewrite (row_state_id _ _ _ Hr). symmetry. apply prefix_same_length; [done|by rewrite L1, R1]. }
  rewrite handle_eq in H. injection H as <- <-. split; [cbn; by rewrite (proj1 (reconcile_fields s _))|]. rewrite <- Hi. apply only_reconcile.
Qed.

Lemma get_err_same h id e x e' : get h id e = (Err x, e') -> e' = e.
Proof.
  unfold get, sql_query, mbind, M_bind. destruct (get_by_name _ _ _) as [[s|]|]; [by rewrite handle_eq| |by intros [= _ <-]].
  destruct (get_by_id_prefix _ _ _) as [s|]; [by rewrite handle_eq|by intros [= _ <-]].
Qed.

Lemma remove_row_own s e :
  only_row (vm_id s) e (remove_row s e).2 /\ forall u e', remove_row s e = (Ok u, e') -> vm_id s ∉ v_id <$> vms (en_db e').
Proof.
  unfold remove_row, remove_stored. cbn [delete]. set (e1 := set_rt (unlink_vm (vm_id s) (en_rt e)) e).
  set (e2 := add_event _ _). destruct (only_delete (vm_id s) e1 e2 _ eq_refl eq_refl) as [H1 H2]. cbn. split.
  - etrans; [|exact H1]. by apply only_same.
  - intros u e' [= _ <-]. exact H2.
Qed.

Lemma remove_own h id e : is_vm_id id = true -> plain_rows id e ->
  only_row id e (Engine.remove h id e).2 /\ forall u e', Engine.remove h id e = (Ok u, e') -> id ∉ v_id <$> vms (en_db e').
Proof.
  intros Hid Hp. unfold Engine.remove. destruct (get h id e) as [[v|x] e1] eqn:Hg.
  - destruct (get_own h id e Hid Hp v e1 Hg) as [Hv Ho]. unfold mbind, M_bind. rewrite Hg.
    destruct (negb _); [by split|]. destruct (remove_row_own (v_state v) e1) as [H1 H2]. rewrite Hv in *. split; [by etrans|done].
  - apply get_err_same in Hg as Hs. subst e1. unfold mbind, M_bind. rewrite Hg. by split.
Qed.

Lemma plain_rows_step id e e' : is_vm_id id = true -> only_row id e e' -> plain_rows id e -> plain_rows id e'.
Proof.
  intros Hid [Ho Hn] Hp r Hr. destruct (decide (v_id r = id)) as [<-|Hne].
  - split; [done|]. destruct (Hn r Hr eq_refl) as (r0 & H0 & _ & <-). by apply Hp.
  - assert (Hin : r ∈ others id (en_db e)).
    { rewrite <- Ho. unfold others. apply elem_of_filter_bool. split; [done|]. by rewrite bool_decide_false. }
    unfold others in Hin. apply elem_of_filter_bool in Hin as [Hin _]. by apply Hp.
Qed.

Lemma load_owned_own w tenant id e :
  only_row id e (load_owned w tenant id e).2
  /\ forall v e', load_owned w tenant id e = (Ok v, e') -> is_vm_id id = true /\ vm_id (v_state v) = id.
Proof.
  unfold load_owned. destruct (is_vm_id id); cbn [negb]; [|by split]. unfold try_op, mbind, srvM_bind. rewrite get_exact_eq.
  destruct (get_by_id _ _ _) as [s|x] eqn:E; [|destruct x; by split].
  assert (Hi : vm_id s = id).
  { unfold get_by_id in E. destruct (List.find _ _) as [r|] eqn:F; [|done]. apply find_Some_elem in F as [_ F%bool_decide_eq_true].
    by rewrite (row_state_id _ _ _ E). }
  rewrite handle_eq. pose proof (only_reconcile s e) as Ho. rewrite Hi in Ho. unfold info_of.
  destruct (decide _); (split; [exact Ho|]); intros v e' [= <- <-]. split; [done|]. cbn. by rewrite (proj1 (reconcile_fields s _)).
Qed.

(** What the worker puts in the table: generated ids, and names of [sandbox_name] or
    none. *)
Definition worker_row (r : vm_row) : Prop :=
  is_vm_id (v_id r) = true /\ (v_name r = None \/ exists t a n, sandbox_name t a = Ok n /\ v_name r = Some n).

Lemma sandbox_name_not_id t a n : sandbox_name t a = Ok n -> is_vm_id n = false.
Proof.
  unfold sandbox_name. destruct (validate_tenant_id t); [|done]. destruct (validate_agent_id a); [|done]. intros [= <-].
  unfold is_vm_id. apply andb_false_iff. right. reflexivity.
Qed.

Lemma worker_plain id e : is_vm_id id = true -> Forall worker_row (vms (en_db e)) -> plain_rows id e.
Proof.
  intros Hid Hw r Hr. rewrite Forall_forall in Hw. destruct (Hw r Hr) as [H1 H2]. split; [done|].
  destruct H2 as [->|(t & a & n & Hn & ->)]; [done|]. intros [= ->]. apply sandbox_name_not_id in Hn. congruence.
Qed.

(** *** Stepping through a handler that works on one sandbox *)

Section OwnRun.
Context (id : string) (Hid : is_vm_id id = true).

Definition own_run {A} (P : engine -> Prop) (m : srvM A) (Q : A -> engine -> Prop) : Prop := forall e,
  plain_rows id e -> P e -> only_row id e (m e).2 /\ forall a e', m e = (Ok a, e') -> Q a e'.

Lemma own_run_bind {A B} P Q Q' (m : srvM A) (f : A -> srvM B) :
  own_run P m Q -> (forall a, own_run (Q a) (f a) Q') -> own_run P (m ≫= f) Q'.
Proof.
  intros Hm Hf e Hp HP. destruct (Hm e Hp HP) as [H1 H2]. unfold mbind, srvM_bind.
  destruct (m e) as [[a|x] e1]; [|by split]. cbn [snd] in H1. destruct (Hf a e1 (plain_rows_step id e e1 Hid H1 Hp) (H2 a e1 eq_refl)) as [H3 H4].
  split; [by etrans|done].
Qed.

Lemma own_run_ret {A} (a : A) (P : engine -> Prop) (Q : A -> engine -> Prop) : (forall e, P e -> Q a e) -> own_run P (mret a) Q.
Proof. intros H e _ HP. split; [reflexivity|]. intros a' e' [= <- <-]. by apply H. Qed.

Lemma own_run_info v (P : engine -> Prop) : own_run P (info_of v) (fun i e => in_id i = vm_id (v_state v) /\ P e).
Proof. intros e _ HP. split; [reflexivity|]. by intros i e' [= <- <-]. Qed.

Lemma own_run_pure {A} (r : result ApiError A) (P : engine -> Prop) : own_run P (pure_r r) (fun _ => P).
Proof. intros e _ HP. split; [reflexivity|]. by intros a e' [= _ <-]. Qed.

Lemma own_run_handle m (P : engine -> Prop) : keeps_handle id m -> own_run P m (fun v _ => vm_id (v_state v) = id).
Proof. intros H e _ _. apply H. Qed.

Definition gone (e : engine) : Prop := id ∉ v_id <$> vms (en_db e).

Lemma gone_stays e e' : only_row id e e' -> gone e -> gone e'.
Proof.
  intros [_ Hn] Hg (r & Hi & Hr)%list_elem_of_fmap. destruct (Hn r Hr (eq_sym Hi)) as (r0 & H0 & I0 & _). apply Hg. rewrite <- I0.
  by apply list_elem_of_fmap_2.
Qed.

Lemma own_run_delete w tenant : own_run (fun _ => True) (delete_one w tenant id) (fun n e => n = 204 /\ gone e).
Proof.
  unfold delete_one. apply (own_run_bind _ (fun v _ => vm_id (v_state v) = id)).
  { intros e _ _. destruct (load_owned_own w tenant id e) as [H1 H2]. split; [done|]. intros v e' Hv. by apply (H2 v e'). }
  intros v. apply (own_run_bind _ _ _ _ _ (own_run_info v _)). intros i.
  apply (own_run_bind _ _ _ _ _ (own_run_pure _ _)). intros volume.
  apply (own_run_bind _ (fun v' _ => vm_id (v_state v') = id /\ in_id i = id)).
  { intros e _ [H1 H2]. destruct (keeps_stop w id v H2 e) as [K1 K2]. split; [done|]. intros v' e' Hv'.
    split; [by apply (K2 v' e')|congruence]. }
  intros v'. apply (own_run_bind _ _ _ _ _ (own_run_info v' _)). intros i2.
  apply (own_run_bind _ (fun _ _ => in_id i = id)).
  { intros e Hp (_ & H1 & H2). destruct (is_active _); [|by apply (own_run_ret () (fun _ => in_id i = id))].
    destruct (keeps_on_vm id v' (kill (w_host w)) H1 (own_kill _ _) e) as [K1 _].
    unfold on_vm, mbind, srvM_bind in *. destruct (kill _ _) as [[u|x] [v2 e2]]; by split. }
  intros _. apply (own_run_bind _ (fun _ => gone)).
  { intros e Hp Hi. rewrite Hi. destruct (remove_own (w_host w) id e Hid Hp) as [K1 K2]. unfold api.
    destruct (Engine.remove _ _ _) as [[u|x] e1]; (split; [done|]); [|done]. intros u' e' [= _ <-]. by apply (K2 u). }
  intros _. apply (own_run_bind _ (fun _ => gone)).
  { intros e Hp Hg. destruct volume as [name|]; [|by apply (own_run_ret () gone)]. split; [apply workspace_only|].
    intros u e' He. pose proof (workspace_only id name e) as K. rewrite He in K. by apply (gone_stays e). }
  intros _. by apply own_run_ret.
Qed.
End OwnRun.

(** C24.  Deleting a sandbox touches no other: whatever its outcome, the rows of all
    other sandboxes are unchanged, in order; when it reports success, the sandbox's
    row is gone.  The rows are those the worker makes, so that no sandbox is named
    like another one's id. *)
Theorem delete_touches_own_only (w : world) (tenant id : string) (e : engine) :
  Forall worker_row (vms (en_db e)) ->
  others id (en_db (delete_one w tenant id e).2) = others id (en_db e)
  /\ forall n e', delete_one w tenant id e = (Ok n, e') -> n = 204 /\ id ∉ v_id <$> vms (en_db e').
Proof.
  intros Hw. destruct (is_vm_id id) eqn:Hid.
  - destruct (own_run_delete id Hid w tenant e (worker_plain id e Hid Hw) I) as [[H1 _] H2]. split; [done|exact H2].
  - assert (He : delete_one w tenant id e = (Err not_found, e)).
    { unfold delete_one. apply srv_bind_err. unfold load_owned. by rewrite Hid. }
    rewrite He. by split.
Qed.
