(* ===== verification/ServeCreate.v ===== *)
(** * Repeating a create request

    The configuration a create request ends up with, and that asking again for the
    same sandbox finds it. *)

From S2P Require Import Prelude ProtoMessages Files Paths Qcow2Format ImageStore Ids Ports Boot StateTypes StateDb StateLookup Lifecycle LifecycleCorrect Volumes ManagedGuest Disk Text Process Options Jail Events Engine EngineBoot EngineCorrect EngineProps ServeAuth Serve ServeExec ServeCorrect.

#[local] Opaque create_managed_base resolve_mounts.

(** ** What a boot does to the configuration *)

Record same_spec (c c' : VmConfig) : Prop := {
  ss_network : network c' = network c;
  ss_ram : ram_mib c' = ram_mib c;
  ss_vcpus : vcpus c' = vcpus c;
  ss_tenant : tenant_id c' = tenant_id c;
  ss_agent : agent_id c' = agent_id c
}.

#[export] Instance same_spec_preorder : PreOrder same_spec.
Proof. split; [done|]. intros a b c [] []. split; congruence. Qed.

Section Created.
Context (lo : layout) (h : host).

Lemma managed_spec r inj c c' : prepare_managed_config r inj c = Ok c' -> same_spec c c'.
Proof.
  unfold prepare_managed_config, apply_guest_pid1. destruct (is_overlay_only c); [done|].
  by intros (g & _ & (u & _ & [= <-])%bind_Ok_inv)%bind_Ok_inv.
Qed.

Lemma overlay_spec id c e c' e' : with_overlay lo h id c e = (Ok c', e') -> same_spec c c'.
Proof. unfold with_overlay. destruct (base_disk c); [|by intros [= <- <-]]. by intros (a & e1 & _ & [= <- <-])%bind_Ok_M. Qed.

Lemma boot_env_spec j id ca c c' : inject_guest_boot_env j id ca c = Ok c' -> same_spec c c' /\ secrets_required c' = secrets_required c.
Proof. unfold inject_guest_boot_env. by intros (v & _ & (en & _ & [= <-])%bind_Ok_inv)%bind_Ok_inv. Qed.

Lemma virtio_spec m probes id dir live c : let c' := (prepare_virtio_net m probes id dir live c).2 in
  same_spec c c' /\ secrets_required c' = secrets_required c.
Proof.
  unfold prepare_virtio_net. destruct (negb _); [done|].
  match goal with |- context [match ?r with _ => _ end] => destruct r as [[pairs published]|x] end; [|done].
  by destruct (reject_long_unix_path _).
Qed.

Lemma jail_spawn_alive shim p jc e r e' : jail_spawn h shim p jc e = (Ok r, e') -> r.1 ∈ rt_alive (en_rt e').
Proof. unfold jail_spawn. destruct (spawn _ _ _ _ _ _ _ _ _) as [[pid rep]|]; [|done]. intros [= <- <-]. cbn. set_solver. Qed.

Lemma spawn_shim_alive c p d net gv shim bwrap e r e' : spawn_shim h c p d net gv shim bwrap e = (Ok r, e') -> sp_pid r ∈ rt_alive (en_rt e').
Proof.
  unfold spawn_shim. destruct (negb _); [done|]. destruct (_ && _); [done|]. destruct (h_shim_json _ _); [|done].
  intros (u & e1 & _ & H)%bind_Ok_M. unfold unlink_on_err in H.
  match type of H with match ?r with _ => _ end = _ => destruct r as [[a|y] e2] eqn:E end; [|done]. injection H as -> <-.
  do 6 (apply bind_Ok_M in E as (? & ? & _ & E)). apply bind_Ok_M in E as ([pid rep] & e3 & Hj & E). injection E as <- <-.
  by apply jail_spawn_alive in Hj.
Qed.

Lemma guarded_spec id pl c e c' shim e' : spawn_guarded lo h id pl [] c e = (Ok (c', shim), e') ->
  same_spec c c' /\ secrets_required c' = false /\ sp_pid shim ∈ rt_alive (en_rt e').
Proof.
  unfold spawn_guarded. intros ([live c1] & e1 & [= <- <- <-] & H)%bind_Ok_M.
  apply bind_Ok_M in H as (c2 & e2 & [= H2 <-] & H). apply boot_env_spec in H2 as [S2 R2].
  apply bind_Ok_M in H as ([c3 net] & e3 & H3 & H).
  assert (S3 : same_spec c2 c3 /\ secrets_required c3 = secrets_required c2).
  { unfold virtio_net in H3. pose proof (virtio_spec (macos h) (h_probes h) id (lo_socks_dir lo) None c2) as K.
    unfold unlink_unix_socket in H3. destruct (prepare_virtio_net _ _ _ _ _ _) as [[[n|]|x] c4]; [destruct (h_unlink h _); [done|]|..|done];
      injection H3 as <- _ _; exact K. }
  apply bind_Ok_M in H as (u & e4 & _ & H). apply bind_Ok_M in H as (s & e5 & H5 & H). injection H as <- <- <-.
  apply spawn_shim_alive in H5. destruct S3 as [S3 R3]. cbn in R2. split_and!; [|cbn; congruence|done].
  transitivity c2; [|transitivity c3; [done|by split]]. by destruct S2; split.
Qed.

(** The VM [create] registers: its row, in full, is in the table. *)
Record registered (c0 : VmConfig) (name image : option string) (vm : VmState) (e : engine) : Prop := {
  rg_row : exists d d', insert (h_to_string h) vm d = Ok d' /\ vms (en_db e) = vms d';
  rg_id : vm_id vm = h_id h;
  rg_name : vm_name vm = name;
  rg_image : vm_image vm = image;
  rg_status : vm_status vm = Running;
  rg_created : vm_created_at vm = h_now h;
  rg_alive : vm_pid vm ∈ rt_alive (en_rt e);
  rg_spec : same_spec c0 (vm_config vm);
  rg_secrets : secrets_required (vm_config vm) = false
}.

Lemma spawn_config_registers c image name ar e v e' :
  spawn_config lo h c [] image name ar e = (Ok v, e') -> registered c name image (v_state v) e'.
Proof.
  unfold spawn_config. intros (u & e0 & _ & H)%bind_Ok_M. apply bind_Ok_M in H as (u1 & e1 & _ & H).
  apply bind_Ok_M in H as (pl & e2 & _ & H). apply bind_Ok_M in H as (c1 & e3 & [= H3 _] & H). apply managed_spec in H3.
  apply bind_Ok_M in H as (c2 & e4 & H4 & H). apply overlay_spec in H4. apply bind_Ok_M in H as ([c3 shim] & e5 & H5 & H).
  apply guarded_ok, guarded_spec in H5 as (S5 & R5 & A5). apply bind_Ok_M in H as (u6 & e6 & H6 & H). apply guarded_ok in H6.
  apply bind_Ok_M in H as (u7 & e7 & [= _ <-] & H). apply bind_Ok_M in H as (u8 & e8 & [= _ <-] & H). injection H as <- <-.
  unfold sql in H6. destruct (insert _ _ _) as [d|] eqn:Hi; [|done]. injection H6 as _ <-.
  split; cbn [v_state vm_id vm_name vm_image vm_status vm_created_at vm_pid vm_config]; try done.
  - by do 2 eexists.
  - transitivity c1; [done|]. transitivity c2; [|done]. by destruct H4; split.
Qed.

Lemma registered_later c name image vm e e' :
  vms (en_db e') = vms (en_db e) -> rt_alive (en_rt e') = rt_alive (en_rt e) -> registered c name image vm e -> registered c name image vm e'.
Proof. intros H1 H2 []. split; try done; [by rewrite H1|by rewrite H2]. Qed.

Lemma on_handle_quiet v (m : vmM ()) e v' e' :
  v_state (m (v, e)).2.1 = v_state v -> vms (en_db (m (v, e)).2.2) = vms (en_db e) -> rt_alive (en_rt (m (v, e)).2.2) = rt_alive (en_rt e) ->
  on_handle h v m e = (Ok v', e') ->
  v_state v' = v_state v /\ vms (en_db e') = vms (en_db e) /\ rt_alive (en_rt e') = rt_alive (en_rt e).
Proof. intros H1 H2 H3 H%on_handle_ok. by rewrite H in *. Qed.

Lemma create_spawn_registers o img vols e v e' : op_secrets o = [] -> create_spawn lo h o img vols e = (Ok v, e') ->
  exists c, registered c (op_name o) (ri_image_label img) (v_state v) e'
    /\ network c = op_network o /\ ram_mib c = op_ram_mib o /\ vcpus c = op_vcpus o /\ tenant_id c = op_tenant_id o /\ agent_id c = op_agent_id o.
Proof.
  intros Hs H. unfold create_spawn in H. rewrite Hs in H. apply bind_Ok_M in H as (v1 & e1 & H1 & H). apply spawn_config_registers in H1.
  apply bind_Ok_M in H as (v2 & e2 & H2 & H).
  assert (Q2 : v_state v2 = v_state v1 /\ vms (en_db e2) = vms (en_db e1) /\ rt_alive (en_rt e2) = rt_alive (en_rt e1)).
  { destruct vols as [|w ws]; [by apply (on_handle_quiet _ (mret ())) in H2|]. revert H2. apply on_handle_quiet; unfold eng, vol; cbn [snd];
      pose proof (link_vm_rows (vm_id (v_state v1)) (w :: ws) (mkVols (en_db e1) (en_dirs e1))) as K; destruct (link_vm _ _ _) as [r s]; done. }
  assert (Q3 : v_state v = v_state v2 /\ vms (en_db e') = vms (en_db e2) /\ rt_alive (en_rt e') = rt_alive (en_rt e2)).
  { revert H. apply on_handle_quiet; destruct (_ =? _); try done; unfold wait_ready; by destruct (h_ready h). }
  exists (config_from_options (linux h) (h_now h) o (ri_rootfs img) (ri_base_disk img) (to_virtiofs <$> vols)).
  split; [|split_and!; reflexivity]. destruct Q2 as (A1 & A2 & A3), Q3 as (B1 & B2 & B3). rewrite B1, A1.
  apply (registered_later _ _ _ _ e1); [congruence|congruence|exact H1].
Qed.

Lemma create_registers o r e v e' : op_secrets o = [] -> op_image o = Options.Oci r -> create lo h o e = (Ok v, e') ->
  exists c p, h_oci_ensure h r = Ok p /\ registered c (op_name o) (Some (pr_reference p)) (v_state v) e'
    /\ network c = op_network o /\ ram_mib c = op_ram_mib o /\ vcpus c = op_vcpus o /\ tenant_id c = op_tenant_id o /\ agent_id c = op_agent_id o.
Proof.
  intros Hs Hi. unfold create. intros ([[o' img] vols] & e1 & H1 & H)%bind_Ok_M. unfold create_resolve in H1.
  apply bind_Ok_M in H1 as (u1 & s1 & _ & H1). apply bind_Ok_M in H1 as (u2 & s2 & _ & H1). apply bind_Ok_M in H1 as (pl & s3 & _ & H1).
  apply bind_Ok_M in H1 as (u4 & s4 & _ & H1). apply bind_Ok_M in H1 as (im & s5 & H5 & H1). apply bind_Ok_M in H1 as (vs & s6 & _ & H1).
  injection H1 as <- <- <- <-. unfold resolve_image in H5. rewrite Hi in H5. apply bind_Ok_M in H5 as (p & s7 & [= Hp _] & H5).
  apply bind_Ok_M in H5 as (pl' & s8 & _ & H5). apply bind_Ok_M in H5 as (b & s9 & _ & [= <- _]).
  assert (Hm : forall cfg, let m := merged_options o cfg in op_secrets m = [] /\ op_name m = op_name o /\ op_network m = op_network o /\
            op_ram_mib m = op_ram_mib o /\ op_vcpus m = op_vcpus o /\ op_tenant_id m = op_tenant_id o /\ op_agent_id m = op_agent_id o).
  { intros [cfg|]; [|done]. unfold merged_options. by destruct (merge_image_config _ _ _ _ _) as [[[? ?] ?] ?]. }
  destruct (Hm (pr_config p)) as (M1 & M2 & M3 & M4 & M5 & M6 & M7). cbn [ri_oci_cfg] in *.
  apply create_spawn_registers in H as (c & Hr & C1 & C2 & C3 & C4 & C5); [|done]. cbn [ri_image_label] in *.
  rewrite ?M2, ?M3, ?M4, ?M5, ?M6, ?M7 in *. by exists c, p.
Qed.
End Created.

(** ** Finding it again *)

Lemma find_by_name (d d' : state_db) to_string vm n : insert to_string vm d = Ok d' -> vm_name vm = Some n ->
  exists j, to_string (vm_config vm) = Some j /\ List.find (fun r => bool_decide (v_name r = Some n)) (vms d')
    = Some (mkVmRow (vm_id vm) (vm_name vm) (vm_pid vm) (vm_image vm) (vm_socket vm) (status_str (vm_status vm)) j (system_time_to_f64 (vm_created_at vm))).
Proof.
  unfold insert. intros (j & Hj & H)%bind_Ok_inv Hn. destruct (_ || _) eqn:Hc; [done|]. injection H as <-.
  exists j. split; [destruct (to_string (vm_config vm)); [by injection Hj as ->|done]|]. cbn [vms with_vms]. rewrite find_app.
  apply orb_false_iff in Hc as [_ Hc]. rewrite clash_false in Hc.
  destruct (List.find _ (vms d)) as [r|] eqn:E.
  - apply find_Some_elem in E as [Hr Hrn%bool_decide_eq_true]. destruct (Hc n Hn). apply list_elem_of_omap. by exists r.
  - cbn. by rewrite bool_decide_true.
Qed.

Lemma registered_found h h2 c0 n image vm e t : registered h c0 (Some n) image vm e ->
  (forall c j, h_to_string h c = Some j -> h_from_str h2 j = Some c) ->
  f64_to_system_time (system_time_to_f64 (h_now h)) = Some t ->
  get_named h2 n e = (Ok (Some (mkHandle (mkVm (vm_id vm) (Some n) (vm_pid vm) image (vm_socket vm) Running (vm_config vm) t) new_vm_metrics false)), e).
Proof.
  intros [(d & d' & Hi & Hv) Hid Hn Hm Hst Hcr Hal Hsp Hse] Hjson Ht.
  destruct (find_by_name d d' _ vm n Hi Hn) as (j & Hj & Hf). unfold get_named, sql_query, mbind, M_bind, get_by_name. rewrite Hv, Hf.
  unfold row_to_state, at_time. cbn [v_config v_created]. rewrite (Hjson _ _ Hj), Hcr, Ht. cbn [ok_or mbind result_bind].
  cbn [v_id v_name v_pid v_image v_socket v_status]. rewrite Hst, Hn, Hm. unfold mbind, result_bind. cbn [ok_or].
  rewrite handle_eq. unfold reconcile_dead_pid. cbn [vm_status vm_pid parse_status status_str].
  unfold is_pid_alive. rewrite bool_decide_true by done. rewrite andb_false_r. cbn [fst snd]. destruct e as [[] ? ? ? ? ? ? ?]. done.
Qed.

Lemma existing_status w tenant name v spec e st b e' : existing_sandbox w tenant name v spec e = (Ok (st, b), e') -> st = 200.
Proof.
  unfold existing_sandbox. intros (i & e1 & _ & H)%srv_bind_inv. destruct (decide _); [done|]. destruct (in_secrets_required i); [done|].
  destruct (spec_mismatch w i spec); [done|]. unfold resume_matching in H. apply srv_bind_inv in H as (i2 & e2 & _ & H).
  apply srv_bind_inv in H as (v2 & e3 & _ & H). apply srv_bind_inv in H as (i3 & e4 & _ & H). destruct (in_status i3); [| done|].
  - apply srv_bind_inv in H as (b2 & e5 & _ & H). by injection H.
  - apply srv_bind_inv in H as (v3 & e5 & _ & H). apply srv_bind_inv in H as (b2 & e6 & _ & H). by injection H.
Qed.

(** The sandbox is the tenant's, needs no secret, fits the request and runs. *)
Lemma existing_running w tenant name v spec e :
  tenant_id (vm_config (v_state v)) = Some tenant -> secrets_required (vm_config (v_state v)) = false -> vm_status (v_state v) = Running ->
  ram_mib (vm_config (v_state v)) = cs_ram_mib spec -> vcpus (vm_config (v_state v)) = cs_vcpus spec ->
  network (vm_config (v_state v)) = cs_network spec -> image_matches w (vm_image (v_state v)) (cs_image spec) = true ->
  existing_sandbox w tenant name v spec e = (Ok (200, from_info (from_stored (en_rt e) (v_state v))), e).
Proof.
  intros H1 H2 H3 H4 H5 H6 H7. unfold existing_sandbox, info_of, mbind, srvM_bind. cbn [in_tenant_id from_stored].
  rewrite H1, decide_False by (intros K; by apply K). cbn [in_secrets_required from_stored]. rewrite H2.
  unfold spec_mismatch. cbn [in_image in_ram_mib in_vcpus in_network from_stored]. rewrite H7, H4, H5, H6, !Z.eqb_refl, bool_decide_true by done.
  cbn [negb]. unfold resume_matching, info_of, mbind, srvM_bind, body_of, info_of. cbn [in_status from_stored]. rewrite H3. cbn. by rewrite H3.
Qed.

Lemma create_options_fields w tenant name volume req spec : let o := create_options w tenant name volume req spec in
  op_secrets o = [] /\ op_image o = Options.Oci (cs_image spec) /\ op_name o = Some name /\ op_network o = cs_network spec
  /\ op_ram_mib o = cs_ram_mib spec /\ op_vcpus o = cs_vcpus spec /\ op_tenant_id o = Some tenant /\ op_agent_id o = Some (cr_agent_id req).
Proof. unfold create_options. by destruct (cr_workdir req). Qed.

(** What a later world must share with the one of the first request. *)
Record same_service (w w2 : world) : Prop := {
  sv_limits : w_limits w2 = w_limits w;
  sv_unrestricted : w_unrestricted w2 = w_unrestricted w;
  sv_parse : forall s, w_parse w2 s = w_parse w s
}.

Lemma spec_of_same w w2 req : same_service w w2 -> spec_of w2 req = spec_of w req.
Proof. intros [H1 H2 H3]. unfold spec_of, parse_image, canonical, canonical_reference. by rewrite H1, H2, H3. Qed.

(** C22.  Creating is idempotent: after a create that answered 201, the same request
    answers 200 with the same running sandbox and changes nothing at all, whatever
    else the world answers by then; the sandbox is the tenant's and the agent's,
    with the requested resources and network.  The JSON of a configuration reads
    back, the registry labels an image with its canonical reference. *)
Theorem repeated_create_finds_it (w w2 : world) (tenant : string) (req : CreateRequest) (e e' : engine) (b : SandboxBody) (t : Z) :
  same_service w w2 ->
  (forall c j, h_to_string (w_host w) c = Some j -> h_from_str (w_host w2) j = Some c) ->
  (forall r p, w_parse w (cr_image req) = Some r -> h_oci_ensure (w_host w) r = Ok p -> w_parse w (pr_reference p) = Some r) ->
  f64_to_system_time (system_time_to_f64 (h_now (w_host w))) = Some t ->
  create_sandbox w tenant req e = (Ok (201, b), e') ->
  sb_tenant_id b = Some tenant /\ sb_agent_id b = Some (cr_agent_id req) /\ sb_id b = h_id (w_host w)
  /\ exists b', create_sandbox w2 tenant req e' = (Ok (200, b'), e') /\ sb_id b' = sb_id b /\ sb_status b' = "running"%string
       /\ sb_ram_mib b' = sb_ram_mib b /\ sb_vcpus b' = sb_vcpus b /\ sb_network b' = sb_network b.
Proof.
  intros Hsv Hjson Hreg Ht H. unfold create_sandbox in H.
  apply srv_bind_inv in H as (u & e1 & H1 & H). injection H1 as Ha <-. apply srv_bind_inv in H as (spec & e1 & H1 & H). injection H1 as Hs <-.
  apply srv_bind_inv in H as (name & e1 & H1 & H). injection H1 as Hn <-. apply srv_bind_inv in H as (o & e1 & _ & H).
  destruct o as [v|]; [by apply existing_status in H|]. unfold create_new in H.
  apply srv_bind_inv in H as (volume & e2 & _ & H). apply srv_bind_inv in H as (u2 & e3 & _ & H). apply srv_bind_inv in H as (u3 & e4 & _ & H).
  apply srv_bind_inv in H as (r & e5 & Hc & H). unfold try_op in Hc. destruct (create _ _ _ _) as [r' e6] eqn:Hcr. injection Hc as -> ->.
  destruct r as [v|x].
  2:{ apply srv_bind_inv in H as (f & e7 & _ & H). destruct f as [[v|]|]; [by apply existing_status in H|done..]. }
  destruct (create_options_fields w tenant name volume req spec) as (O1 & O2 & O3 & O4 & O5 & O6 & O7 & O8).
  destruct (create_registers _ _ _ _ _ _ _ O1 O2 Hcr) as (c & p & Hp & Hr & C1 & C2 & C3 & C4 & C5). rewrite O3 in Hr.
  unfold body_of, info_of, mbind, srvM_bind in H. cbn in H. injection H as <- <-.
  destruct (rg_spec _ _ _ _ _ _ Hr) as [S1 S2 S3 S4 S5].
  cbn [sb_tenant_id sb_agent_id sb_id sb_ram_mib sb_vcpus sb_network from_info from_stored in_tenant_id in_agent_id in_id in_ram_mib in_vcpus in_network].
  split; [congruence|]. split; [congruence|]. split; [apply (rg_id _ _ _ _ _ _ Hr)|].
  pose proof (registered_found _ (w_host w2) _ _ _ _ _ t Hr Hjson Ht) as Hf.
  assert (Hi : image_matches w2 (Some (pr_reference p)) (cs_image spec) = true).
  { unfold image_matches. apply bool_decide_eq_true. cbn [mbind option_bind]. unfold canonical, canonical_reference. rewrite (sv_parse _ _ Hsv).
    unfold spec_of in Hs. apply bind_Ok_inv in Hs as (img & Him & (net & _ & [= <-])%bind_Ok_inv). cbn [cs_image] in *.
    unfold parse_image in Him. destruct (decide _); [done|]. unfold canonical, canonical_reference in Him.
    destruct (w_parse w (cr_image req)) as [r|] eqn:Er; [|done]. injection Him as ->. by rewrite (Hreg img p eq_refl Hp). }
  eexists. split; [|split_and!].
  - unfold create_sandbox. rewrite (spec_of_same w w2 req Hsv). unfold mbind at 1, srvM_bind at 1, pure_r at 1. rewrite Ha.
    unfold mbind at 1, srvM_bind at 1, pure_r at 1. rewrite Hs. unfold mbind at 1, srvM_bind at 1, pure_r at 1. rewrite Hn.
    unfold mbind at 1, srvM_bind at 1, api at 1. rewrite Hf. cbn [map_err]. apply existing_running; cbn [v_state vm_config vm_status vm_image]; try done.
    + congruence.
    + apply (rg_secrets _ _ _ _ _ _ Hr).
    + congruence.
    + congruence.
    + congruence.
  - reflexivity.
  - reflexivity.
  - reflexivity.
  - reflexivity.
  - reflexivity.
Qed.

(** ** Worked example: one tenant, one sandbox *)

Module Sample.
Import EngineProps.Sample.

#[local] Instance security_opts_dec : EqDecision SecurityOptions. Proof. solve_decision. Defined.
#[local] Instance layer_dec : EqDecision LayerStatus. Proof. solve_decision. Defined.
#[local] Instance security_status_dec : EqDecision SecurityStatus. Proof. solve_decision. Defined.
#[local] Instance published_dec : EqDecision PublishedPort. Proof. solve_decision. Defined.
#[local] Instance virtiofs_dec : EqDecision VirtioFs. Proof. solve_decision. Defined.
#[local] Instance vsock_dec : EqDecision VsockPort. Proof. solve_decision. Defined.
#[local] Instance format_dec : EqDecision DiskFormat. Proof. solve_decision. Defined.
#[local] Instance config_dec : EqDecision VmConfig. Proof. solve_decision. Defined.

Definition alpine : string := "docker.io/library/alpine:latest".
Definition parse_ref (s : string) : option string := if decide (s = "alpine"%string \/ s = alpine) then Some alpine else None.

Definition host_with (to_string : VmConfig -> option string) (from_str : string -> option VmConfig) : host :=
  mkHost Linux true (5 * NANOS) 100 "c0ffee000001" 2 to_string from_str (fun _ => Some "{}"%string)
    (fun _ => Some "{}"%string) (fun _ _ => Ok tools) (fun _ => Ok guest) (fun _ _ => Ok ()) (fun p => Ok p) (fun _ => true) (fun _ => true)
    (fun _ => true) None None None (Ok 7) None (fun r => Ok (mkPull r "sha256:ab" "/img/rootfs" None)) (fun _ => Ok 1) (fun _ _ => (Ok (), Some [1]))
    (fun a b => (Ok (), a ++ b)) (fun l => Ok (mkLive l "cert" "key")) [] None (fun _ _ _ => ""%string) (fun _ => Some (Some 9))
    (fun _ => Ok 42) (Ok ()) true Frozen true (fun _ _ f => f) (fun _ => None).

(** A worker with nothing but the guest agent's binary. *)
Definition worker0 : engine :=
  mkEngine (mkRt empty_db {[components "/p/bux-guest"]} ∅ ∅ [] [] (components "/d/socks") (components "/d/v"))
    {[components "/p/bux-guest" := [9]]} ∅ ∅ new_metrics [] None ∅.

Definition req : CreateRequest := mkCreate "a1" "alpine" None None [] false [] None None.
Definition world_of (h : host) : Serve.world := mkWorld lo h default_limits false (Ok 0) parse_ref (fun e => e) [].

(** The configuration that the request ends up with. *)
Definition expected : VmConfig := {|
  vcpus := 1; ram_mib := 512; rootfs := None; root_disk := Some "/d/v/c0ffee000001.qcow2"%string; disk_format := DiskQcow2;
  base_disk := None; exec_path := Some "/bux/bin/bux-guest"%string; exec_args := [];
  cfg_env := Some ["BUX_GUEST_CONFIG={}"%string]; ports := []; published_ports := [];
  virtiofs := [{| vf_tag := "vol_ws-acme-a1"; vf_path := "/d/volumes/ws-acme-a1"; vf_guest_path := "/workspace"; vf_read_only := false |}];
  vsock_ports := [{| vp_port := 1024; vp_path := "/d/socks/c0ffee000001.sock"; vp_listen := true |}];
  network := NetDisabled; secrets_required := false; workload_env := []; workload_workdir := None; workload_user := None;
  workload_cmd := []; security := {| so_jailer := true; so_landlock := true; so_allow_degraded := false |};
  security_status := {| ss_sandbox := "bwrap"; ss_landlock := Enforced; ss_mac := NotApplicable |};
  auto_remove := false; auto_stop_secs := Some 1800%N; auto_delete_secs := None; last_activity_at := Some 5000000000;
  last_error := None; detach := true; agent_id := Some "a1"%string; tenant_id := Some "acme"%string
|}.

Definition to_string (c : VmConfig) : option string := if decide (c = expected) then Some "{}"%string else None.
Definition from_str (j : string) : option VmConfig := if decide (j = "{}"%string) then Some expected else None.

Lemma json_ok c j : to_string c = Some j -> from_str j = Some c.
Proof. unfold to_string. destruct (decide _) as [->|]; [|discriminate]. intros [= <-]. reflexivity. Defined.

Abbreviation w := (world_of (host_with to_string from_str)).
Abbreviation first := (create_sandbox w "acme" req worker0).

Definition no_body : SandboxBody := mkBody "" None None None None "" 0 0 NetDisabled EgressDisabled false [] None 0.
Definition answer (r : result ApiError (Z * SandboxBody)) : Z * SandboxBody := match r with Ok a => a | Err _ => (0, no_body) end.

Example first_created : (answer first.1).1 = 201.
Proof. vm_compute. reflexivity. Qed.

Lemma answered {A} (p : result ApiError (Z * A) * engine) st b : p.1 = Ok (st, b) -> p = (Ok (st, b), p.2).
Proof. by destruct p; intros [= ->]. Qed.

Lemma repeated_create_finds_it_witness :
  exists b b', first = (Ok (201, b), first.2) /\ create_sandbox w "acme" req first.2 = (Ok (200, b'), first.2)
    /\ sb_id b' = "c0ffee000001"%string /\ sb_id b' = sb_id b.
Proof.
  assert (E : first.1 = Ok (201, (answer first.1).2)) by (vm_compute; reflexivity).
  destruct (repeated_create_finds_it w w "acme" req worker0 first.2 (answer first.1).2 (5 * NANOS)) as (_ & _ & Hid & b' & H1 & H2 & _).
  - split; reflexivity.
  - exact json_ok.
  - intros r p Hr Hp. injection Hp as <-. vm_compute in Hr. injection Hr as <-. vm_compute. reflexivity.
  - vm_compute. reflexivity.
  - exact (answered first _ _ E).
  - exists (answer first.1).2, b'. split; [exact (answered first _ _ E)|]. split; [exact H1|]. split; [|exact H2].
    transitivity (sb_id (answer first.1).2); [exact H2|vm_compute; reflexivity].
Defined.

Lemma delete_touches_own_only_witness :
  exists e', delete_one w "acme" "c0ffee000001" first.2 = (Ok 204, e') /\ "c0ffee000001"%string ∉ v_id <$> vms (en_db e').
Proof.
  assert (E : (delete_one w "acme" "c0ffee000001" first.2).1 = Ok 204) by (vm_compute; reflexivity).
  exists (delete_one w "acme" "c0ffee000001" first.2).2.
  assert (H : delete_one w "acme" "c0ffee000001" first.2 = (Ok 204, (delete_one w "acme" "c0ffee000001" first.2).2))
    by (destruct (delete_one w "acme" "c0ffee000001" first.2) as [r x]; cbn [fst] in E; rewrite E; reflexivity).
  split; [exact H|].
  refine (proj2 (proj2 (delete_touches_own_only w "acme" "c0ffee000001" first.2 _) 204 _ H)).
  assert (V : (fun r => (v_id r, v_name r)) <$> vms (en_db first.2) = [("c0ffee000001", Some "a-acme-a1")]%string) by (vm_compute; reflexivity).
  revert V. generalize (vms (en_db first.2)). intros [|r [|? ?]] V; try discriminate V. injection V as V1 V2.
  constructor; [|constructor]. split; [rewrite V1; reflexivity|right]. exists "acme"%string, "a1"%string, "a-acme-a1"%string. split; [reflexivity|exact V2].
Defined.

(** A guest that answers everything. *)
Definition open_guest : guest_io :=
  mkGuestIo (fun _ => Ok ("exec-1"%string, [])) (fun _ _ => Ok [1; 2]) (fun _ _ _ => Ok ()) (fun _ => Ok [3]).

Lemma other_tenants_invisible_witness :
  (exists e', serve_request w open_guest "evil" "c0ffee000001" ReqDelete first.2 = (Err not_found, e')
    /\ noticed (w_host w) "c0ffee000001" first.2 e')
  /\ (exists e', serve_request w open_guest "evil" "c0ffee000001" (ReqRead "/etc/shadow") first.2 = (Err not_found, e')
    /\ noticed (w_host w) "c0ffee000001" first.2 e').
Proof.
  assert (E : (tenant_id ∘ vm_config) <$> to_opt (get_by_id (h_from_str (w_host w)) "c0ffee000001" (en_db first.2)) = Some (Some "acme"%string))
    by (vm_compute; reflexivity).
  assert (H1 : forall s, get_by_id (h_from_str (w_host w)) "c0ffee000001" (en_db first.2) = Ok s -> tenant_id (vm_config s) <> Some "evil"%string)
    by (intros s Hs; rewrite Hs in E; injection E as E; rewrite E; discriminate).
  assert (H2 : forall x, get_by_id (h_from_str (w_host w)) "c0ffee000001" (en_db first.2) = Err x -> x = NotFound)
    by (intros x Hx; rewrite Hx in E; discriminate E).
  split.
  - exact (proj1 (other_tenants_invisible w open_guest "evil" "c0ffee000001" ReqDelete first.2 H1 H2)).
  - exact (proj1 (other_tenants_invisible w open_guest "evil" "c0ffee000001" (ReqRead "/etc/shadow") first.2 H1 H2)).
Defined.

Lemma admission_exact_witness :
  ~ (exists e', admit_sandbox w "acme" 4096 1 worker0 = (Ok tt, e')) /\ (exists e', admit_sandbox w "acme" 2048 4 worker0 = (Ok tt, e')).
Proof.
  assert (L : list_infos (w_host w) worker0 = (Ok [], worker0)) by (vm_compute; reflexivity). split.
  - intros H. apply (admission_exact w "acme" 4096 1 0 worker0 worker0 [] L eq_refl) in H; [|lia|lia|constructor|vm_compute; reflexivity..].
    vm_compute in H. destruct H as ((_ & H) & _). by apply H.
  - apply (admission_exact w "acme" 2048 4 0 worker0 worker0 [] L eq_refl); [lia|lia|constructor|vm_compute; reflexivity..|].
    vm_compute. repeat split; discriminate.
Defined.

(** A VM that is named like a sandbox's id is the one that a deletion of this
    sandbox removes, as [remove] looks for names first; the sandbox itself stays and
    so does the attachment of its volume, hence the 500. *)
Definition namesake : engine :=
  set_rt (set_db (en_rt first.2) (with_vms (en_db first.2)
    ((fun r => mkVmRow (v_id r) (v_name r) 1 (v_image r) (v_socket r) "stopped" (v_config r) (v_created r)) <$> vms (en_db first.2)
     ++ [mkVmRow "b0ffee000002" (Some "c0ffee000001"%string) 1 None "/d/socks/b.sock" "stopped" "{}" (system_time_to_f64 0)]))) first.2.

Example namesake_deleted :
  let '(r, e) := delete_one w "acme" "c0ffee000001" namesake in r = Err internal /\ v_id <$> vms (en_db e) = ["c0ffee000001"]%string.
Proof. vm_compute. split; reflexivity. Qed.
End Sample.
