(* ===== verification/GuestReaper.v ===== *)
(** * The child reaper of the guest agent

    [crates/bux-guest/src/reaper.rs]: the agent is process 1, so one drain of
    [waitpid] collects every child, those an exec waits for and those nobody
    does, and hands each status to the waiter registered under its pid.  The
    kernel's side is a small model of its own: children that live, children that
    died and were not waited for yet, pids used again only once waited for. *)

From S2P Require Import Prelude Files.

(** ** reaper.rs *)

(** [nix::sys::wait::WaitStatus] and the [errno]s told apart. *)
Inductive WaitStatus : Type :=
  | Exited (pid code : Z)
  | Signaled (pid sig : Z) (core_dump : bool)
  | Stopped (pid sig : Z)
  | PtraceEvent (pid sig event : Z)
  | PtraceSyscall (pid : Z)
  | Continued (pid : Z)
  | StillAlive.

Inductive Errno : Type := ECHILD | EINTR | OtherErrno.

Record ExitStatus : Type := mkExitStatus { xt_pid : Z; xt_code : Z; xt_signal : option Z }.

(** [Inner]: the waiters, each a channel; and what the channels were sent. *)
Record Inner : Type := mkInner { waiters : gmap Z nat; sent : gmap nat ExitStatus }.

Definition decode (st : WaitStatus) : option (Z * ExitStatus) :=
  match st with
  | Exited pid code => Some (u32 pid, mkExitStatus (u32 pid) code None)
  | Signaled pid sig _ => Some (u32 pid, mkExitStatus (u32 pid) (128 + sig) (Some sig))
  | _ => None
  end.

(** One status that [waitpid] returned. *)
Definition reap_status (st : WaitStatus) (inner : Inner) : Inner :=
  match decode st with
  | None => inner
  | Some (pid, exit) =>
    match waiters inner !! pid with
    | None => inner
    | Some tx => mkInner (delete pid (waiters inner)) (<[tx := exit]> (sent inner))
    end
  end.

(** The loop over the answers of [waitpid]; the kernel has nothing to add after the last. *)
Fixpoint reap (answers : list (result Errno WaitStatus)) (inner : Inner) : Inner :=
  match answers with
  | [] => inner
  | Ok StillAlive :: _ | Err ECHILD :: _ => inner
  | Err EINTR :: r => reap r inner
  | Ok st :: r => reap r (reap_status st inner)
  | Err OtherErrno :: _ => inner
  end.

(** ** The kernel *)

Inductive death : Type := ByExit (code : Z) | BySignal (sig : Z) (core_dump : bool).

Definition status_of (pid : Z) (d : death) : WaitStatus :=
  match d with ByExit code => Exited pid code | BySignal sig core => Signaled pid sig core end.

(** [ch_chan] is the channel on which somebody waits for the child. *)
Record child : Type := mkChild { ch_pid : Z; ch_chan : option nat }.

(** [died] remembers how the child of a channel ended. *)
Record procs : Type := mkProcs {
  live : list child; zombies : list (child * death); died : gmap nat (Z * death); next_chan : nat; inner : Inner
}.

Definition pids (s : procs) : list Z := (ch_pid <$> live s) ++ (ch_pid ∘ fst <$> zombies s).

Definition child_exit (pid : Z) (d : death) (s : procs) : procs :=
  match List.filter (fun c => ch_pid c =? pid) (live s) with
  | c :: _ =>
    mkProcs (List.filter (fun c => negb (ch_pid c =? pid)) (live s)) (zombies s ++ [(c, d)])
      (match ch_chan c with Some t => <[t := (pid, d)]> (died s) | None => died s end) (next_chan s) (inner s)
  | [] => s
  end.

Definition child_exits (ds : list (Z * death)) (s : procs) : procs := foldl (fun s d => child_exit d.1 d.2 s) s ds.

(** What [waitpid(-1, WNOHANG)] answers until it has nothing more. *)
Definition wait_answers (s : procs) : list (result Errno WaitStatus) :=
  ((fun z => Ok (status_of (ch_pid z.1) z.2)) <$> zombies s) ++ [if decide (live s = []) then Err ECHILD else Ok StillAlive].

Definition with_inner (s : procs) (i : Inner) : procs := mkProcs (live s) (zombies s) (died s) (next_chan s) i.

(** [reap_locked]: every zombie has been waited for afterwards. *)
Definition reap_locked (s : procs) : procs := mkProcs (live s) [] (died s) (next_chan s) (reap (wait_answers s) (inner s)).

(** [cmd.spawn()]: the new child, watched on channel [t] or not. *)
Definition fork (pid : Z) (t : option nat) (s : procs) : procs :=
  mkProcs (live s ++ [mkChild pid t]) (zombies s) (died s) (next_chan s) (inner s).

(** [Reaper::spawn], children of any age dying between the fork and the registration: the
    channel. *)
Definition spawn (forked : result io_kind Z) (late : list (Z * death)) (s : procs) : result io_kind nat * procs :=
  let s := reap_locked s in
  match forked with
  | Err k => (Err k, s)
  | Ok pid =>
    let t := next_chan s in
    let s := child_exits late (fork pid (Some t) s) in
    let s := mkProcs (live s) (zombies s) (died s) (S t) (mkInner (<[u32 pid := t]> (waiters (inner s))) (sent (inner s))) in
    (Ok t, reap_locked s)
  end.

Definition spawn_unwatched (forked : result io_kind Z) (s : procs) : result io_kind Z * procs :=
  match forked with Err k => (Err k, s) | Ok pid => (Ok pid, fork pid None s) end.

Definition start : procs := mkProcs [] [] ∅ 0 (mkInner ∅ ∅).

(** A pid the kernel may give: positive, and not that of a child still to be waited for. *)
Definition free_pid (pid : Z) (s : procs) : Prop := 0 < pid < 2^31 /\ pid ∉ pids s.

Inductive step : procs -> procs -> Prop :=
  | step_exit pid d s : step s (child_exit pid d s)
  | step_sigchld s : step s (reap_locked s)
  | step_spawn pid late s : free_pid pid (reap_locked s) -> step s (spawn (Ok pid) late s).2
  | step_spawn_failed k late s : step s (spawn (Err k) late s).2
  | step_unwatched pid s : free_pid pid s -> step s (spawn_unwatched (Ok pid) s).2.

Definition reachable : procs -> Prop := rtc step start.

(** ** The invariant *)

Definition exit_of (e : Z * death) : ExitStatus :=
  match e.2 with
  | ByExit code => mkExitStatus e.1 code None
  | BySignal sig _ => mkExitStatus e.1 (128 + sig) (Some sig)
  end.

Lemma decode_status pid d : 0 < pid < 2^31 -> decode (status_of pid d) = Some (pid, exit_of (pid, d)).
Proof. intros H. assert (u32 pid = pid) as Hu by (unfold u32; apply Z.mod_small; lia). by destruct d; simpl; rewrite Hu. Qed.

(** All children not waited for yet, with the death of those that died. *)
Definition kids (s : procs) : list (child * option death) := ((., None) <$> live s) ++ (prod_map id Some <$> zombies s).

Lemma pids_kids s : pids s = ch_pid ∘ fst <$> kids s.
Proof. unfold pids, kids. rewrite fmap_app, <- !list_fmap_compose. done. Qed.

(** What relates the children [L] still to be waited for, the waiters [W], the
    deaths [D], what was sent [T] and the channels below [n]. *)
Record inv (L : list (child * option death)) (W : gmap Z nat) (D : gmap nat (Z * death)) (T : gmap nat ExitStatus) (n : nat) : Prop := {
  inv_pids : NoDup (ch_pid ∘ fst <$> L);
  inv_range : forall c o, (c, o) ∈ L -> 0 < ch_pid c < 2^31;
  inv_kid : forall c o t, (c, o) ∈ L -> ch_chan c = Some t ->
    W !! ch_pid c = Some t /\ D !! t = (ch_pid c,.) <$> o /\ T !! t = None /\ (t < n)%nat;
  inv_waiter : forall p t, W !! p = Some t -> exists c o, (c, o) ∈ L /\ ch_pid c = p /\ ch_chan c = Some t;
  inv_inj : forall p q t, W !! p = Some t -> W !! q = Some t -> p = q;
  inv_sent : forall t x, T !! t = Some x -> exists e, D !! t = Some e /\ x = exit_of e;
  inv_died : forall t e, D !! t = Some e ->
    (t < n)%nat /\ (T !! t = Some (exit_of e) \/ exists c, (c, Some e.2) ∈ L /\ ch_pid c = e.1 /\ ch_chan c = Some t)
}.

#[export] Instance inv_proper : Proper ((≡ₚ) ==> eq ==> eq ==> eq ==> eq ==> iff) inv.
Proof.
  assert (forall L L' W D T n, L ≡ₚ L' -> inv L W D T n -> inv L' W D T n) as Hp.
  { intros L L' W D T n HL []. split; try done; intros *; rewrite <- ?HL; eauto.
    - intros H. destruct (inv_waiter0 _ _ H) as (c & o & ? & ?). exists c, o. by rewrite <- HL.
    - intros H. destruct (inv_died0 _ _ H) as [? [?|(c & ? & ?)]]; split; auto. right. exists c. by rewrite <- HL. }
  intros L L' HL W ? <- D ? <- T ? <- n ? <-. split; by apply Hp.
Qed.

(** No other child has the pid of the first. *)
Lemma inv_other c o L W D T n c' o' : inv ((c, o) :: L) W D T n -> (c', o') ∈ L -> ch_pid c' <> ch_pid c.
Proof.
  intros Hi Hin He. pose proof (inv_pids _ _ _ _ _ Hi) as Hd. rewrite fmap_cons, NoDup_cons in Hd. destruct Hd as [Hn _].
  apply Hn. apply list_elem_of_fmap. by exists (c', o').
Qed.

Lemma inv_exit c d L W D T n :
  inv ((c, None) :: L) W D T n ->
  inv ((c, Some d) :: L) W (match ch_chan c with Some t => <[t := (ch_pid c, d)]> D | None => D end) T n.
Proof.
  intros Hi. pose proof (fun c' o' => inv_other c None L W D T n c' o' Hi) as Ho. destruct Hi. split; try done.
  - intros c' o' [[= -> ->]|H]%elem_of_cons; eapply inv_range0; [by left|by right].
  - intros c' o' t [[= -> ->]|H]%elem_of_cons Ht.
    + destruct (inv_kid0 c None t ltac:(by left) Ht) as (? & _ & ? & ?). rewrite Ht. simpl. by rewrite lookup_insert_eq.
    + destruct (inv_kid0 c' o' t ltac:(by right) Ht) as (HW & HD & ? & ?). split; [done|]. split; [|done].
      destruct (ch_chan c) as [t0|] eqn:E; [|done].
      rewrite lookup_insert_ne; [done|]. intros ->. destruct (inv_kid0 c None t ltac:(by left) E) as (HW' & _).
      by apply (Ho c' o' H), (inv_inj0 _ _ t).
  - intros p t H. destruct (inv_waiter0 _ _ H) as (c' & o' & [[= -> ->]|Hin]%elem_of_cons & ? & ?).
    + exists c, (Some d). split; [by left|done].
    + exists c', o'. split; [by right|done].
  - intros t x H. destruct (inv_sent0 _ _ H) as (e & He & ->). exists e. split; [|done].
    destruct (ch_chan c) as [t0|] eqn:E; [|done]. rewrite lookup_insert_ne; [done|]. intros ->.
    destruct (inv_kid0 c None t ltac:(by left) E) as (_ & _ & ? & _). congruence.
  - intros t e H. assert (forall t', D !! t' = Some e -> (t' < n)%nat /\ (T !! t' = Some (exit_of e) \/
      exists c0, (c0, Some e.2) ∈ (c, Some d) :: L /\ ch_pid c0 = e.1 /\ ch_chan c0 = Some t')) as Hold.
    { intros t' H'. destruct (inv_died0 _ _ H') as [? [?|(c' & [[=]|Hin]%elem_of_cons & ?)]]; split; auto.
      right. exists c'. split; [by right|done]. }
    destruct (ch_chan c) as [t0|] eqn:E; [|by apply Hold]. destruct (decide (t0 = t)) as [->|]; simplify_map_eq; [|by apply Hold].
    split; [by eapply inv_kid0; [left|]|]. right. exists c. split; [by left|done].
Qed.

Lemma inv_fork_unwatched pid L W D T n :
  0 < pid < 2^31 -> pid ∉ (ch_pid ∘ fst <$> L) -> inv L W D T n -> inv ((mkChild pid None, None) :: L) W D T n.
Proof.
  intros Hr Hp []. split; try done.
  - rewrite fmap_cons, NoDup_cons. done.
  - intros c o [[= -> ->]|H]%elem_of_cons; [done|by eapply inv_range0].
  - intros c o t [[= -> ->]|H]%elem_of_cons Ht; [done|by eapply inv_kid0].
  - intros p t H. destruct (inv_waiter0 _ _ H) as (c & o & ? & ?). exists c, o. split; [by right|done].
  - intros t e H. destruct (inv_died0 _ _ H) as [? [?|(c & ? & ?)]]; split; auto. right. exists c. split; [by right|done].
Qed.

(** A pid that is free has no waiter left over. *)
Lemma inv_no_waiter pid L W D T n : pid ∉ (ch_pid ∘ fst <$> L) -> inv L W D T n -> W !! pid = None.
Proof.
  intros Hp Hi. destruct (W !! pid) as [t|] eqn:E; [|done]. destruct (inv_waiter _ _ _ _ _ Hi _ _ E) as (c & o & Hin & He & _).
  destruct Hp. apply list_elem_of_fmap. by exists (c, o).
Qed.

Lemma inv_fork pid L W D T n :
  0 < pid < 2^31 -> pid ∉ (ch_pid ∘ fst <$> L) -> inv L W D T n ->
  inv ((mkChild pid (Some n), None) :: L) (<[pid := n]> W) D T (S n).
Proof.
  intros Hr Hp Hi. pose proof (inv_no_waiter _ _ _ _ _ _ Hp Hi) as Hw.
  assert (forall c o, (c, o) ∈ L -> pid <> ch_pid c) as Ho.
  { intros c o H ->. destruct Hp. apply list_elem_of_fmap. by exists (c, o). }
  destruct Hi. assert (D !! n = None) as HD by (destruct (D !! n) eqn:E; [destruct (inv_died0 _ _ E); lia|done]).
  assert (T !! n = None) as HT by (destruct (T !! n) eqn:E; [destruct (inv_sent0 _ _ E) as (? & ? & _); congruence|done]).
  assert (forall p t, W !! p = Some t -> (t < n)%nat) as Hlt.
  { intros p t H. destruct (inv_waiter0 _ _ H) as (c & o & ? & _ & ?). by eapply inv_kid0. }
  split.
  - rewrite fmap_cons, NoDup_cons. done.
  - intros c o [[= -> ->]|H]%elem_of_cons; [done|by eapply inv_range0].
  - intros c o t [[= -> ->]|H]%elem_of_cons Ht; simpl in *; [simplify_eq; rewrite lookup_insert_eq; auto with lia|].
    destruct (inv_kid0 _ _ _ H Ht) as (? & ? & ? & ?). rewrite lookup_insert_ne by by eapply Ho. auto with lia.
  - intros p t [[<- <-]|[? H]]%lookup_insert_Some; [exists (mkChild pid (Some n)), None; split; [by left|done]|].
    destruct (inv_waiter0 _ _ H) as (c & o & ? & ?). exists c, o. split; [by right|done].
  - intros p q t [[<- <-]|[? H]]%lookup_insert_Some [[<- ?]|[? H']]%lookup_insert_Some; try done.
    + pose proof (Hlt _ _ H'). lia.
    + pose proof (Hlt _ _ H). lia.
    + by eapply inv_inj0.
  - done.
  - intros t e H. destruct (inv_died0 _ _ H) as [? Hor]. split; [lia|]. destruct Hor as [?|(c & ? & ?)]; [by left|].
    right. exists c. split; [by right|done].
Qed.

(** One reaped child: its waiter, if it has one, gets its status. *)
Lemma inv_reap c d L W D T n :
  inv ((c, Some d) :: L) W D T n ->
  let i := reap_status (status_of (ch_pid c) d) (mkInner W T) in inv L (waiters i) D (sent i) n.
Proof.
  intros Hi i. pose proof (fun c' o' => inv_other c _ L W D T n c' o' Hi) as Ho. destruct Hi.
  pose proof (inv_range0 c _ ltac:(by left)) as Hr. rewrite fmap_cons, NoDup_cons in inv_pids0. destruct inv_pids0 as [Hp Hd].
  subst i. unfold reap_status. rewrite decode_status by done. cbn [waiters sent].
  destruct (W !! ch_pid c) as [t|] eqn:E; cbn [waiters sent].
  - destruct (inv_waiter0 _ _ E) as (c1 & o1 & [[= -> ->]|Hin]%elem_of_cons & Hc1 & Ht); [|by destruct (Ho _ _ Hin)].
    destruct (inv_kid0 c (Some d) t ltac:(by left) Ht) as (_ & HD & HT & Hlt). simpl in HD.
    assert (forall c' o' t', (c', o') ∈ L -> ch_chan c' = Some t' -> t' <> t) as Hne.
    { intros c' o' t' H Ht' ->. destruct (inv_kid0 c' o' t ltac:(by right) Ht') as (HW & _). by apply (Ho _ _ H), (inv_inj0 _ _ t). }
    split; try done.
    + intros c' o' H. eapply inv_range0. by right.
    + intros c' o' t' H Ht'. destruct (inv_kid0 c' o' t' ltac:(by right) Ht') as (? & ? & ? & ?).
      rewrite lookup_delete_ne by by apply not_eq_sym, (Ho _ _ H). rewrite lookup_insert_ne by by apply not_eq_sym, (Hne _ _ _ H). done.
    + intros p t' [Hpn H]%lookup_delete_Some. destruct (inv_waiter0 _ _ H) as (c' & o' & [[= -> ->]|Hin]%elem_of_cons & <- & ?); [done|eauto].
    + intros p q t' [_ H]%lookup_delete_Some [_ H']%lookup_delete_Some. by eapply inv_inj0.
    + intros t' x [[<- <-]|[_ H]]%lookup_insert_Some; [by eexists|by apply inv_sent0].
    + intros t' e H. destruct (inv_died0 _ _ H) as [? Hor]. split; [done|]. destruct (decide (t' = t)) as [->|].
      { rewrite lookup_insert_eq. left. congruence. }
      rewrite lookup_insert_ne by done. destruct Hor as [?|(c' & [[= -> ->]|Hin]%elem_of_cons & ?)]; [by left|naive_solver|eauto].
  - split; try done.
    + intros c' o' H. eapply inv_range0. by right.
    + intros c' o' t' H. eapply inv_kid0. by right.
    + intros p t' H. destruct (inv_waiter0 _ _ H) as (c' & o' & [[= -> ->]|Hin]%elem_of_cons & <- & ?); [congruence|eauto].
    + intros t' e H. destruct (inv_died0 _ _ H) as [? [?|(c' & [[= -> _]|Hin]%elem_of_cons & Hc & Ht)]]; split; auto; [|right; eauto].
      destruct (inv_kid0 c (Some d) t' ltac:(by left) Ht). congruence.
Qed.

(** ** The operations keep the invariant *)

Definition ok_with (W : gmap Z nat) (n : nat) (s : procs) : Prop := inv (kids s) W (died s) (sent (inner s)) n.
Definition ok (s : procs) : Prop := ok_with (waiters (inner s)) (next_chan s) s.

Lemma filter_pid pid ls c r :
  NoDup (ch_pid <$> ls) -> List.filter (fun c => ch_pid c =? pid) ls = c :: r ->
  ch_pid c = pid /\ ls ≡ₚ c :: List.filter (fun c => negb (ch_pid c =? pid)) ls.
Proof.
  induction ls as [|a ls IH]; simpl; [done|]. rewrite NoDup_cons. intros [Ha Hd]. destruct (Z.eqb_spec (ch_pid a) pid); simpl.
  - intros [= <- <-]. split; [done|]. f_equiv. clear IH Hd. induction ls as [|b ls IH]; [done|]. simpl.
    rewrite fmap_cons, not_elem_of_cons in Ha. destruct Ha as [Hb Ha]. rewrite (proj2 (Z.eqb_neq _ _)) by congruence. cbn [negb].
    f_equiv. by apply IH.
  - intros H. destruct (IH Hd H) as [? HP]. split; [done|]. rewrite (Permutation_swap a c). by apply perm_skip.
Qed.

Lemma ok_exit W n pid d s : ok_with W n s -> ok_with W n (child_exit pid d s).
Proof.
  unfold ok_with. intros Hi. pose proof (inv_pids _ _ _ _ _ Hi) as Hd. rewrite <- pids_kids in Hd. apply NoDup_app in Hd as [Hd _].
  unfold child_exit. destruct (List.filter _ (live s)) as [|c r] eqn:E; [done|].
  destruct (filter_pid _ _ _ _ Hd E) as [<- HP]. cbn [died inner kids]. unfold kids in *. cbn [live zombies].
  rewrite fmap_app. cbn [fmap list_fmap prod_map fst snd id]. rewrite (assoc (++)), (comm (++) _ [_]).
  apply inv_exit. apply (fmap_Permutation (fun c => (c, @None death))) in HP. by rewrite HP in Hi.
Qed.

Lemma ok_exits W n ds s : ok_with W n s -> ok_with W n (child_exits ds s).
Proof. unfold child_exits. revert s. induction ds as [|d ds IH]; intros s H; [done|]. apply IH, ok_exit, H. Qed.

Lemma ok_reap_loop ls zs W D T n (last : result Errno WaitStatus) :
  last = Err ECHILD \/ last = Ok StillAlive ->
  inv (((., None) <$> ls) ++ (prod_map id Some <$> zs)) W D T n ->
  let i := reap (((fun z => Ok (status_of (ch_pid z.1) z.2)) <$> zs) ++ [last]) (mkInner W T) in
  inv ((., None) <$> ls) (waiters i) D (sent i) n.
Proof.
  intros Hl. revert W T. induction zs as [|[c d] zs IH]; intros W T Hi; cbn [fmap list_fmap app].
  - rewrite app_nil_r in Hi. by destruct Hl as [-> | ->].
  - cbn [fmap list_fmap prod_map fst snd id] in Hi. rewrite <- Permutation_middle in Hi.
    apply inv_reap in Hi. cbn [fst snd]. destruct (reap_status (status_of (ch_pid c) d) (mkInner W T)) as [W' T'] eqn:E.
    assert (forall q, reap (Ok (status_of (ch_pid c) d) :: q) (mkInner W T) = reap q (mkInner W' T')) as Hr.
    { intros q. rewrite <- E. by destruct d. }
    rewrite Hr. by apply IH.
Qed.

Lemma ok_reap s : ok s -> ok (reap_locked s).
Proof.
  unfold ok, ok_with. intros Hi. unfold reap_locked, kids. cbn [live zombies died inner next_chan fmap list_fmap]. rewrite app_nil_r.
  destruct s as [ls zs D n [W T]]. eapply ok_reap_loop in Hi; [exact Hi|]. cbn [live]. case_decide; auto.
Qed.

Lemma kids_fork pid t s : kids (fork pid t s) ≡ₚ (mkChild pid t, None) :: kids s.
Proof. unfold kids, fork. cbn [live zombies]. rewrite fmap_app, (comm (++) ((., None) <$> live s)). done. Qed.

Lemma ok_spawn forked late s :
  (forall pid, forked = Ok pid -> free_pid pid (reap_locked s)) -> ok s -> ok (spawn forked late s).2.
Proof.
  intros Hf H. unfold spawn. destruct forked as [pid|k]; [|by apply ok_reap].
  apply ok_reap in H. destruct (Hf _ eq_refl) as [Hr Hp]. set (s1 := reap_locked s) in *. clearbody s1.
  apply ok_reap. unfold ok, ok_with in *. cbn [inner waiters sent next_chan died kids live zombies].
  rewrite pids_kids in Hp. pose proof (inv_fork pid _ _ _ _ _ Hr Hp H) as Hi.
  rewrite u32_id by lia. set (s2 := fork pid (Some (next_chan s1)) s1).
  assert (ok_with (<[pid:=next_chan s1]> (waiters (inner s1))) (S (next_chan s1)) (child_exits late s2)) as H2.
  { apply ok_exits. unfold ok_with, s2. rewrite kids_fork. exact Hi. }
  assert (inner (child_exits late s2) = inner s1) as Hin; [|unfold ok_with in H2; rewrite Hin in H2; rewrite Hin; exact H2].
  clear. change (inner s1) with (inner s2). clearbody s2. unfold child_exits. revert s2. induction late as [|d late IH]; intros s2; [done|]. cbn [foldl].
  rewrite IH. unfold child_exit. by case_match.
Qed.

Lemma ok_step s s' : step s s' -> ok s -> ok s'.
Proof.
  destruct 1 as [pid d s|s|pid late s Hf|k late s|pid s [Hr Hp]].
  - intros H. pose proof (ok_exit _ _ pid d s H) as H'. unfold ok. replace (inner _) with (inner s) by (unfold child_exit; by case_match).
    replace (next_chan _) with (next_chan s); [exact H'|]. unfold child_exit. by case_match.
  - apply ok_reap.
  - apply ok_spawn. by intros ? [= <-].
  - by apply ok_spawn.
  - unfold ok, ok_with. cbn [spawn_unwatched snd]. rewrite kids_fork. intros H. rewrite pids_kids in Hp. by apply inv_fork_unwatched.
Qed.

Lemma ok_start : ok start.
Proof.
  unfold ok, ok_with, start, kids. cbn. split; try done.
  - by apply NoDup_nil.
  - intros c o H. by apply elem_of_nil in H.
  - intros c o t H. by apply elem_of_nil in H.
Qed.

Lemma ok_reachable s : reachable s -> ok s.
Proof.
  unfold reachable. generalize ok_start. generalize start. intros s0 H0 H. revert H0.
  induction H as [|s0 s1 s2 Hs _ IH]; [done|]. intros H. by eapply IH, ok_step.
Qed.

(** C17.  Exactly its own exit: however forks, deaths (also between the fork of a
    child and the registration of its waiter), drains and forks of children
    nobody waits for interleave, a channel is only ever sent the status of the
    child it was made for, never that of another child which had or got the same
    pid; and once the child has died the next drain has sent it, so no exit is
    lost and no wait hangs. *)
Theorem exits_delivered (s : procs) (t : nat) :
  reachable s ->
  (forall x, sent (inner s) !! t = Some x -> exists e, died s !! t = Some e /\ x = exit_of e)
  /\ (forall e, died s !! t = Some e -> sent (inner (reap_locked s)) !! t = Some (exit_of e)).
Proof.
  intros Hs%ok_reachable. split; [apply (inv_sent _ _ _ _ _ Hs)|]. intros e He.
  pose proof (inv_died _ _ _ _ _ (ok_reap s Hs) t e He) as [_ [?|(c & Hin & _)]]; [done|].
  unfold kids, reap_locked in Hin. cbn [live zombies fmap list_fmap] in Hin. rewrite app_nil_r in Hin.
  by apply list_elem_of_fmap in Hin as (? & [=] & _).
Qed.

Module Sample.
(** A child that dies before its waiter is registered, an orphan with the same pid
    later, and a second child on the pid again. *)
Definition s1 : procs := (spawn (Ok 41) [(41, ByExit 3)] start).2.
Definition s2 : procs := child_exit 41 (BySignal 9 false) (spawn_unwatched (Ok 41) s1).2.
Definition s3 : procs := child_exit 41 (BySignal 15 true) (spawn (Ok 41) [] s2).2.

Lemma free pid s : 0 < pid < 2^31 -> pids s = [] -> free_pid pid s.
Proof. intros H E. split; [done|]. rewrite E. apply not_elem_of_nil. Qed.

Lemma exits_delivered_witness :
  died s3 = {[ 0%nat := (41, ByExit 3); 1%nat := (41, BySignal 15 true) ]}
  /\ sent (inner s3) !! 0%nat = Some (mkExitStatus 41 3 None)
  /\ sent (inner (reap_locked s3)) !! 1%nat = Some (mkExitStatus 41 143 (Some 15)).
Proof.
  split; [reflexivity|]. split; [reflexivity|].
  refine (proj2 (exits_delivered s3 1 _) (41, BySignal 15 true) eq_refl).
  apply (rtc_l _ _ s1); [apply (step_spawn 41 [(41, ByExit 3)] start), free; [lia|reflexivity]|].
  apply (rtc_l _ _ (spawn_unwatched (Ok 41) s1).2); [apply (step_unwatched 41 s1), free; [lia|reflexivity]|].
  apply (rtc_l _ _ s2); [apply (step_exit 41 (BySignal 9 false))|].
  apply (rtc_l _ _ (spawn (Ok 41) [] s2).2); [apply (step_spawn 41 [] s2), free; [lia|reflexivity]|].
  apply (rtc_l _ _ s3); [apply (step_exit 41 (BySignal 15 true))|].
  apply rtc_refl.
Defined.
End Sample.
