(* ===== verification/GuestCopy.v ===== *)
(** * Unpacking an archive inside the guest

    The jailed unpacking of [crates/bux-guest/src/files.rs]: [jailed_join],
    [copy_in_archive] and [copy_in_traversal_blocked], on the tree of [Vfs].  The
    tar crate is a parameter: the members its reader yields, and
    [Entry::unpack], with what it documents (it writes at the path it is given)
    as the class [Unpacks].  The proofs use the program logic of
    [ExtractConfined]. *)

From S2P Require Import Prelude Files Paths Vfs SafeRoot LayerExtract ExtractConfined.

(** ** The code *)

(** The loop of [jailed_join] over the components. *)
Fixpoint jailed_from (cur : loc) (rel : path) : sys (option loc) :=
  match rel with
  | [] => mret (Some cur)
  | CurDir :: r => jailed_from cur r
  | Normal name :: r =>
    meta ← try (symlink_metadata (cur ++ [name]));
    match meta with
    | Ok (ESym _) => mret None
    | Ok _ | Err EkNotFound => jailed_from (cur ++ [name]) r
    | Err _ => mret None
    end
  | ParentDir :: _ | RootDir :: _ => mret None
  end.

Definition jailed_join (base : loc) (rel : path) : sys (option loc) :=
  if is_absolute rel then mret None else jailed_from base rel.

Definition copy_in_traversal_blocked {A} : sys A := fail EkPermissionDenied.

Section Archive.
(** [tar::Entry::unpack]. *)
Context (unpack : entry -> loc -> sys ()).

Definition copy_in_entry (dest : loc) (raw_entry : result io_kind entry) : sys () :=
  match raw_entry with
  | Err k => fail k
  | Ok e =>
    target ← jailed_join dest (e_path e);
    match target with
    | None => copy_in_traversal_blocked
    | Some target =>
      match parent (e_path e) with
      | None => mret ()
      | Some parent_rel =>
        p ← jailed_join dest parent_rel;
        match p with
        | None => copy_in_traversal_blocked
        | Some p => create_dir_all p
        end
      end ≫= fun _ =>
      if decide (e_type e = TLink) then copy_in_traversal_blocked else unpack e target
    end
  end.

Definition copy_in_archive (dest : loc) (members : list (result io_kind entry)) : sys () :=
  forM (fun _ => copy_in_entry dest) () members.
End Archive.

(** ** What unpacking promises *)

(** A file that has a name at or below [R]. *)
Definition held (R : loc) (σ : vfs) (i : nat) : Prop :=
  exists l, R `prefix_of` l /\ ents σ !! l = Some (EFile i).

(** Nothing changes but entries at or below [R], new files and files with a name
    there, and no file from elsewhere gets a name there. *)
Definition within (R : loc) (σ σ' : vfs) : Prop :=
  (forall l, ~ R `prefix_of` l -> ents σ' !! l = ents σ !! l)
  /\ (forall i, (i < next_ino σ)%nat -> ~ held R σ i -> inodes σ' !! i = inodes σ !! i)
  /\ (next_ino σ <= next_ino σ')%nat
  /\ (forall i, (i < next_ino σ)%nat -> held R σ' i -> held R σ i).

(** [σ'] is [σ] with another entry at [t], over a directory only a directory, and
    with no file changed but the one that was at [t]. *)
Record unpacked (t : loc) (σ σ' : vfs) : Prop := {
  up_wf : wf_tree σ';
  up_other : forall l, l <> t -> ents σ' !! l = ents σ !! l;
  up_dir : forall m, ents σ !! t = Some (EDir m) -> exists m', ents σ' !! t = Some (EDir m');
  up_inode : forall i, (i < next_ino σ)%nat -> ents σ !! t <> Some (EFile i) -> inodes σ' !! i = inodes σ !! i;
  up_next : (next_ino σ <= next_ino σ')%nat;
  up_file : forall i, ents σ' !! t = Some (EFile i) -> ents σ !! t = Some (EFile i) \/ (next_ino σ <= i)%nat
}.

(** [Entry::unpack] of anything but a hard link writes at the path it is given. *)
Class Unpacks (unpack : entry -> loc -> sys ()) : Prop := unpacks :
  forall (t : loc) (e : entry) (σ : vfs), wf_tree σ -> nolink σ [] t -> e_type e <> TLink ->
  unpacked t σ (unpack e t σ).2.

(** ** Lemmas *)

Lemma within_refl R σ : within R σ σ.
Proof. by split_and!. Qed.

Lemma within_trans R σ1 σ2 σ3 : within R σ1 σ2 -> within R σ2 σ3 -> within R σ1 σ3.
Proof.
  intros (A1 & B1 & C1 & D1) (A2 & B2 & C2 & D2). split_and!; [| |lia|].
  - intros l Hl. by rewrite A2, A1.
  - intros i Hi Hh. rewrite B2; [by apply B1|lia|]. intros H. by apply Hh, D1.
  - intros i Hi Hh. apply D1, D2; [done|lia|done].
Qed.

Lemma prefix_below R l : R `prefix_of` l -> l = R \/ below R l.
Proof. intros [[|n s] ->]; [left; apply app_nil_r|right; by exists n, s]. Qed.

(** Directories that are created hold no files. *)
Definition no_new_files (σ σ' : vfs) : Prop :=
  (forall l i, ents σ' !! l = Some (EFile i) -> ents σ !! l = Some (EFile i)).

Lemma add_dir_no_files p m σ : no_new_files σ (add_entry p (EDir m) σ).2.
Proof.
  unfold add_entry. destruct (lookup_path σ false true p) as [l|k]; [|by intros l i].
  destruct (ents σ !! l) eqn:E; intros l' i H; [done|]. simpl in H.
  by apply lookup_insert_Some in H as [[_ [=]]|[_ H]].
Qed.

Lemma no_files_trans σ1 σ2 σ3 : no_new_files σ1 σ2 -> no_new_files σ2 σ3 -> no_new_files σ1 σ3.
Proof. intros H1 H2 l i H. by apply H1, H2. Qed.

Lemma bind_no_files {E A B} (m : fsM E A) (f : A -> fsM E B) :
  (forall σ, no_new_files σ (m σ).2) -> (forall a σ, no_new_files σ (f a σ).2) -> forall σ, no_new_files σ ((m ≫= f) σ).2.
Proof.
  intros Hm Hf σ. specialize (Hm σ). unfold mbind, fsM_bind. destruct (m σ) as [[a|e] σ1]; [|done].
  eapply no_files_trans; [exact Hm|apply Hf].
Qed.

Lemma try_no_files {E F A} (m : fsM E A) σ : no_new_files σ (m σ).2 -> no_new_files σ (try (F := F) m σ).2.
Proof. unfold try. by destruct (m σ). Qed.

Lemma create_dir_all_no_files n p σ : no_new_files σ (create_dir_all_aux n p σ).2.
Proof.
  revert p σ. induction n as [|n IH]; intros p; cbn [create_dir_all_aux];
    (apply bind_no_files; [intros σ; apply try_no_files, add_dir_no_files|]); intros [[]|[]]; try (by intros σ l i);
    try (apply bind_no_files; [by intros σ l i|]; intros []; by intros σ l i).
  apply bind_no_files; [apply IH|]. intros _. apply bind_no_files; [intros σ; apply try_no_files, add_dir_no_files|].
  intros [[]|k]; [by intros σ l i|]. apply bind_no_files; [by intros σ l i|]. intros []; by intros σ l i.
Qed.

(** A path that cannot climb. *)
Definition stays (p : path) : Prop := Forall (fun c => c = CurDir \/ is_normal c) p.

Lemma jailed_from_state cur rel σ : exists o, jailed_from cur rel σ = (Ok o, σ).
Proof.
  revert cur. induction rel as [|[| | |n] rel IH]; intros cur; cbn [jailed_from]; try (by eexists); [apply IH|].
  unfold mbind, fsM_bind, try, symlink_metadata, reading.
  destruct (lstat (cur ++ [n]) σ) as [[| |]|[]]; try apply IH; by eexists.
Qed.

Lemma jailed_from_spec R q rel σ t :
  inv R σ -> nolink σ R q -> (jailed_from (R ++ q) rel σ).1 = Ok (Some t) ->
  stays rel /\ exists q', t = R ++ q' /\ nolink σ R q'.
Proof.
  intros Hi. revert q. induction rel as [|c rel IH]; intros q Hq H; [|destruct c as [| | |n]; cbn [jailed_from] in H].
  - injection H as <-. split; [constructor|]. eauto.
  - done.
  - destruct (IH q Hq H) as [Hs He]. split; [|done]. constructor; [by left|done].
  - done.
  - unfold mbind, fsM_bind, try, symlink_metadata, reading in H.
    pose proof (lstat_nolink σ (R ++ q) n (proj1 Hi) (nolink_below _ _ _ Hi Hq)) as Hl.
    assert (Hnext : (forall t, ents σ !! ((R ++ q) ++ [n]) <> Some (ESym t)) ->
      (jailed_from ((R ++ q) ++ [n]) rel σ).1 = Ok (Some t) -> stays (Normal n :: rel) /\ exists q', t = R ++ q' /\ nolink σ R q').
    { intros Hn Hj. rewrite <- app_assoc in Hn, Hj. destruct (IH (q ++ [n])) as [Hs He]; [by apply nolink_snoc|done|].
      split; [|done]. constructor; [by right|done]. }
    destruct (lstat ((R ++ q) ++ [n]) σ) as [[| |]|[]]; try done; apply Hnext; try done; intros ? ?; congruence.
Qed.

Lemma jailed_join_spec R rel σ t :
  inv R σ -> (jailed_join R rel σ).1 = Ok (Some t) -> stays rel /\ exists q, t = R ++ q /\ nolink σ R q.
Proof.
  intros Hi. unfold jailed_join. destruct (is_absolute rel); [done|]. intros H.
  apply (jailed_from_spec R []); [done|done|]. by rewrite app_nil_r.
Qed.

Lemma jailed_join_state base rel σ : exists o, jailed_join base rel σ = (Ok o, σ).
Proof. unfold jailed_join. destruct (is_absolute rel); [by eexists|apply jailed_from_state]. Qed.

(** A member step keeps this, whatever its outcome. *)
Definition jailed (R : loc) (m : vfs -> result io_kind () * vfs) : Prop :=
  forall σ, inv R σ -> inv R (m σ).2 /\ within R σ (m σ).2.

Lemma confined_within R σ σ' : confined R σ σ' -> no_new_files σ σ' -> within R σ σ'.
Proof.
  intros (A & B & C) Hf. split_and!; [|by intros i Hi _; apply B|done|].
  - intros l Hl. apply A. intros Hb. apply Hl. destruct Hb as (n & s & ->). by exists (n :: s).
  - intros i _ (l & Hl & He). exists l. split; [done|by apply Hf].
Qed.

Lemma create_dir_all_jailed R q σ :
  inv R σ -> nolink σ R q -> let σ' := (create_dir_all (R ++ q) σ).2 in
  inv R σ' /\ within R σ σ' /\ no_new_links σ σ'.
Proof.
  intros Hi Hq. destruct (quiet_create_dir_all R (length (R ++ q)) q σ Hi Hq) as (H1 & H2 & H3).
  cbv zeta. split_and!; [done| |done]. apply confined_within; [done|apply create_dir_all_no_files].
Qed.

Section Jail.
Context (unpack : entry -> loc -> sys ()) `{!Unpacks unpack} (R : loc).

Lemma unpack_jailed e q σ :
  inv R σ -> nolink σ R q -> e_type e <> TLink -> let σ' := (unpack e (R ++ q) σ).2 in inv R σ' /\ within R σ σ'.
Proof.
  intros Hi Hq He. destruct (unpacks (R ++ q) e σ (proj1 Hi) (nolink_below _ _ _ Hi Hq) He) as [Hwf Ho Hd Hin Hnx Hf].
  cbv zeta. set (σ' := (unpack e (R ++ q) σ).2) in *. split; [split; [done|]|split_and!; [| |done|]].
  - intros k Hk. destruct (proj2 Hi k Hk) as [m Hm]. destruct (decide (k = R ++ q)) as [->|Hne]; [by apply (Hd m)|].
    exists m. by rewrite Ho.
  - intros l Hl. apply Ho. intros ->. apply Hl. by exists q.
  - intros i Hlt Hh. apply Hin; [done|]. intros E. apply Hh. exists (R ++ q). split; [by exists q|done].
  - intros i Hlt (l & Hl & E). destruct (decide (l = R ++ q)) as [->|Hne].
    + destruct (Hf i E) as [E'|Hge]; [|lia]. by exists (R ++ q).
    + exists l. split; [done|]. by rewrite <- Ho.
Qed.

(** What is left of the step once the target is known to be jailed. *)
Lemma copy_in_entry_jailed raw : jailed R (copy_in_entry unpack R raw).
Proof.
  intros σ Hi. unfold copy_in_entry. destruct raw as [e|k]; [|split; [done|apply within_refl]].
  unfold mbind, fsM_bind. pose proof (jailed_join_spec R (e_path e) σ) as Hj.
  destruct (jailed_join_state R (e_path e) σ) as [o Eo]. rewrite Eo in Hj |- *.
  destruct o as [t|]; [|split; [done|apply within_refl]]. destruct (Hj t Hi eq_refl) as (_ & q & -> & Hq).
  assert (Hlast : forall σ1, inv R σ1 -> nolink σ1 R q ->
    let s := (if decide (e_type e = TLink) then copy_in_traversal_blocked else unpack e (R ++ q)) σ1 in
    inv R s.2 /\ within R σ1 s.2).
  { intros σ1 Hi1 Hq1. case_decide; [split; [done|apply within_refl]|by apply unpack_jailed]. }
  destruct (parent (e_path e)) as [pr|]; [|by apply Hlast].
  pose proof (jailed_join_spec R pr σ) as Hj'.
  destruct (jailed_join_state R pr σ) as [o Eo']. rewrite Eo' in Hj' |- *.
  destruct o as [p|]; [|split; [done|apply within_refl]]. destruct (Hj' p Hi eq_refl) as (_ & q' & -> & Hq').
  destruct (create_dir_all_jailed R q' σ Hi Hq') as (Hi1 & Hw1 & Hn1).
  destruct (create_dir_all (R ++ q') σ) as [[[]|k] σ1]; [|done]. cbn [snd] in *.
  destruct (Hlast σ1 Hi1) as [Hi2 Hw2]; [by eapply nolink_mono|]. split; [done|by eapply within_trans].
Qed.

Lemma copy_in_archive_jailed members : jailed R (copy_in_archive unpack R members).
Proof.
  unfold copy_in_archive. induction members as [|m ms IH]; intros σ Hi; cbn [forM]; [split; [done|apply within_refl]|].
  destruct (copy_in_entry_jailed m σ Hi) as [Hi1 Hw1]. unfold mbind, fsM_bind.
  destruct (copy_in_entry unpack R m σ) as [[[]|k] σ1]; [|done].
  destruct (IH σ1 Hi1) as [Hi2 Hw2]. split; [done|by eapply within_trans].
Qed.

(** The members of an archive that was unpacked to its end. *)
Definition admissible (raw : result io_kind entry) : Prop :=
  exists e, raw = Ok e /\ stays (e_path e) /\ e_type e <> TLink.

Lemma copy_in_entry_ok raw σ : inv R σ -> (copy_in_entry unpack R raw σ).1 = Ok () -> admissible raw.
Proof.
  intros Hi. unfold copy_in_entry. destruct raw as [e|k]; [|done]. unfold mbind, fsM_bind.
  pose proof (jailed_join_spec R (e_path e) σ) as Hj.
  destruct (jailed_join_state R (e_path e) σ) as [o Eo]. rewrite Eo in Hj |- *. destruct o as [t|]; [|done].
  destruct (Hj t Hi eq_refl) as (Hs & _).
  assert (Hlast : forall σ1, ((if decide (e_type e = TLink) then copy_in_traversal_blocked else unpack e t) σ1).1 = Ok () -> admissible (Ok e)).
  { intros σ1. case_decide; [done|]. intros _. by exists e. }
  destruct (parent (e_path e)) as [pr|]; [|apply Hlast].
  destruct (jailed_join R pr σ) as [[[p|]|k] σ1]; try done.
  destruct (create_dir_all p σ1) as [[[]|k] σ2]; [apply Hlast|done].
Qed.

Lemma copy_in_archive_ok members σ : inv R σ -> (copy_in_archive unpack R members σ).1 = Ok () -> Forall admissible members.
Proof.
  unfold copy_in_archive. revert σ. induction members as [|m ms IH]; intros σ Hi; cbn [forM]; [constructor|].
  pose proof (copy_in_entry_ok m σ Hi) as Hm. destruct (copy_in_entry_jailed m σ Hi) as [Hi1 _].
  unfold mbind, fsM_bind. destruct (copy_in_entry unpack R m σ) as [[[]|k] σ1]; [|done].
  intros H. constructor; [by apply Hm|by apply (IH σ1)].
Qed.
End Jail.

(** C19.  Copying an archive into the guest is jailed: whatever members it holds,
    links planted before or by the archive itself included, and wherever it
    fails, no directory entry outside the destination changes and no file
    without a name inside it does; an archive that is unpacked to its end has
    only members whose paths never climb and no hard links. *)
Theorem copy_in_jailed (unpack : entry -> loc -> sys ()) (dest : loc) (members : list (result io_kind entry)) (σ : vfs) :
  Unpacks unpack -> wf_tree σ -> root_dir dest σ ->
  let '(r, σ') := copy_in_archive unpack dest members σ in
  (forall l, ~ dest `prefix_of` l -> ents σ' !! l = ents σ !! l)
  /\ (forall i, (i < next_ino σ)%nat -> ~ held dest σ i -> inodes σ' !! i = inodes σ !! i)
  /\ wf_tree σ'
  /\ (r = Ok () -> Forall admissible members).
Proof.
  intros Hu Hwf Hr. destruct (copy_in_archive_jailed unpack dest members σ (conj Hwf Hr)) as [[Hwf' _] (He & Hin & _)].
  pose proof (copy_in_archive_ok unpack dest members σ (conj Hwf Hr)) as Hok.
  destruct (copy_in_archive unpack dest members σ) as [r σ']. by split_and!.
Qed.

(** ** An unpacker, and hostile archives *)

Module Sample.
(** The parts of [Entry::unpack] a test needs: what is at the path goes, unless it
    is a directory. *)
Definition unpack (e : entry) (t : loc) : sys () := fun σ =>
  match ents σ !! t, ents σ !! parent_loc t with
  | Some (EDir _), _ =>
    match e_type e with
    | TDirectory => (Ok (), with_ents σ (<[t := EDir (default 0x1ed (e_mode e))]> (ents σ)))
    | _ => (Err EkOther, σ)
    end
  | _, Some (EDir _) =>
    if decide (t = []) then (Err EkOther, σ) else
    match e_type e, e_link_name e with
    | TSymlink, Ok (Some p) => (Ok (), with_ents σ (<[t := ESym p]> (ents σ)))
    | TDirectory, _ => (Ok (), with_ents σ (<[t := EDir (default 0x1ed (e_mode e))]> (ents σ)))
    | _, _ => (Ok (), mkVfs (<[t := EFile (next_ino σ)]> (ents σ))
                        (<[next_ino σ := mkInode (default 0x1a4 (e_mode e)) (e_data e)]> (inodes σ)) (S (next_ino σ)))
    end
  | _, _ => (Err EkNotFound, σ)
  end.

Lemma unpacked_refl t σ : wf_tree σ -> unpacked t σ σ.
Proof. intros H. split; eauto. Qed.

Lemma put_wf t en σ :
  wf_tree σ -> (t = [] \/ exists m, ents σ !! parent_loc t = Some (EDir m)) ->
  ((exists m, en = EDir m) \/ forall m, ents σ !! t <> Some (EDir m)) -> wf_tree (with_ents σ (<[t := en]> (ents σ))).
Proof.
  intros Hwf Hp Hd l n e' H. simpl in *. destruct (decide (t = l)) as [<-|Hne].
  - rewrite lookup_insert_eq.
    rewrite lookup_insert_ne in H by (intros E; apply (f_equal length) in E; rewrite length_app in E; simpl in E; lia).
    destruct Hd as [[m ->]|Hd]; [by exists m|]. destruct (Hwf _ _ _ H) as [m Hm]. by destruct (Hd m).
  - rewrite lookup_insert_ne by done. destruct (decide (t = l ++ [n])) as [->|Hne'].
    + destruct Hp as [Hp|[m Hm]]; [by destruct l|]. rewrite parent_snoc in Hm. by exists m.
    + rewrite lookup_insert_ne in H by done. by eapply Hwf.
Qed.

Lemma put_unpacked t en σ :
  wf_tree σ -> (t = [] \/ exists m, ents σ !! parent_loc t = Some (EDir m)) ->
  ((exists m, en = EDir m) \/ forall m, ents σ !! t <> Some (EDir m)) -> (forall i, en <> EFile i) ->
  unpacked t σ (with_ents σ (<[t := en]> (ents σ))).
Proof.
  intros Hwf Hp Hd Hf. split; [by apply put_wf|..]; simpl; try done.
  - intros l Hl. by rewrite lookup_insert_ne.
  - intros m Hm. rewrite lookup_insert_eq. destruct Hd as [[m' ->]|Hd]; [by exists m'|by destruct (Hd m)].
  - intros i H. rewrite lookup_insert_eq in H. injection H as ->. by destruct (Hf i).
Qed.

Lemma new_unpacked t n σ :
  wf_tree σ -> (t = [] \/ exists m, ents σ !! parent_loc t = Some (EDir m)) -> (forall m, ents σ !! t <> Some (EDir m)) ->
  unpacked t σ (mkVfs (<[t := EFile (next_ino σ)]> (ents σ)) (<[next_ino σ := n]> (inodes σ)) (S (next_ino σ))).
Proof.
  intros Hwf Hp Hd. split; simpl; [|..].
  - intros l x e' H. simpl in *. apply (put_wf t (EFile (next_ino σ)) σ Hwf Hp (or_intror Hd) l x e' H).
  - intros l Hl. by rewrite lookup_insert_ne.
  - intros m Hm. by destruct (Hd m).
  - intros i Hi _. rewrite lookup_insert_ne by lia. done.
  - lia.
  - intros i H. rewrite lookup_insert_eq in H. injection H as <-. by right.
Qed.

#[global] Instance unpack_law : Unpacks unpack.
Proof.
  intros t e σ Hwf Hn He. pose proof (unpacked_refl t σ Hwf) as Hsame. unfold unpack.
  destruct (ents σ !! t) as [[m|i|tg]|] eqn:Et.
  { destruct (e_type e); try exact Hsame. apply put_unpacked; [done| |by left; eexists|done].
    destruct t as [|x t _] using rev_ind; [by left|right]. rewrite parent_snoc. by eapply Hwf. }
  all: destruct (ents σ !! parent_loc t) as [[pm| |]|] eqn:Ep; try exact Hsame; (case_decide as Ht; [exact Hsame|]);
    assert (Hp : t = [] \/ exists m, ents σ !! parent_loc t = Some (EDir m)) by (right; by eexists);
    assert (Hd : forall m, ents σ !! t <> Some (EDir m)) by (intros ?; rewrite Et; discriminate);
    destruct (e_type e), (e_link_name e) as [[p|]|]; try (by apply new_unpacked); apply put_unpacked; auto; by left; eexists.
Qed.

(** A link to [/home], and a member below it. *)
Definition hostile : list (result io_kind entry) :=
  [symlink_member [Normal "a"] [RootDir; Normal "home"]; file_member [Normal "a"; Normal "f"] [1; 2]].

Lemma copy_in_jailed_witness :
  let '(r, σ') := copy_in_archive unpack ["r"%string] hostile host in
  (forall l, ~ ["r"%string] `prefix_of` l -> ents σ' !! l = ents host !! l) /\ r = Err EkPermissionDenied.
Proof.
  pose proof (copy_in_jailed unpack ["r"%string] hostile host _ ltac:(apply wf_check_ok; vm_compute; reflexivity)
    ltac:(apply root_check_ok; vm_compute; reflexivity)) as H.
  assert (E : (copy_in_archive unpack ["r"%string] hostile host).1 = Err EkPermissionDenied) by (vm_compute; reflexivity).
  destruct (copy_in_archive unpack ["r"%string] hostile host) as [r σ']. destruct H as (H & _). by split.
Defined.

Example plain_archive :
  (copy_in_archive unpack ["r"%string] [dir_member [CurDir] 0x1c0; file_member [Normal "b"; Normal "f"] [3]] host).1 = Ok ().
Proof. vm_compute. reflexivity. Qed.
End Sample.
