(* ===== verification/Wire.v ===== *)
(** * Connections

    Both ends of a connection to the guest agent as computations over what is
    still to be read, what was written and a state: the monad in which
    [crates/bux/src/client.rs] and [crates/bux-guest/src] are modelled, the
    operations of [crates/bux-proto/src/codec.rs] in it, and what it means that
    two ends talk to each other: each reads exactly what the other writes. *)

From S2P Require Import Prelude Files ProtoMessages Codec.

Record conn (S : Type) : Type := mkConn { c_in : list Z; c_out : list Z; c_st : S }.
Arguments mkConn {S}.
Arguments c_in {S}.
Arguments c_out {S}.
Arguments c_st {S}.

Definition cM (S A : Type) : Type := conn S -> result cerror A * conn S.

#[global] Instance cM_ret {S} : MRet (cM S) := fun A a c => (Ok a, c).
#[global] Instance cM_bind {S} : MBind (cM S) :=
  fun A B f m c => match m c with (Ok a, c') => f a c' | (Err e, c') => (Err e, c') end.

Section Conn.
Context {S : Type}.

Definition stop {A} (e : cerror) : cM S A := fun c => (Err e, c).
Definition done {A} (r : result cerror A) : cM S A := fun c => (r, c).
Definition io_err {A} (k : io_kind) : cM S A := stop (CIo k).
Definition attempt {A} (m : cM S A) : cM S (result cerror A) := fun c => let '(r, c') := m c in (Ok r, c').

Definition get_state : cM S S := fun c => (Ok (c_st c), c).
Definition modify (f : S -> S) : cM S () := fun c => (Ok (), mkConn (c_in c) (c_out c) (f (c_st c))).

Definition tx {T} `{Postcard T} (msg : T) : cM S () := fun c =>
  match send (c_out c) msg with
  | Ok w => (Ok (), mkConn (c_in c) w (c_st c))
  | Err e => (Err e, c)
  end.

(** After a failed receive the connection is given up. *)
Definition rx (T : Type) `{Postcard T} : cM S T := fun c =>
  match recv (c_in c) with
  | Ok (m, r) => (Ok m, mkConn r (c_out c) (c_st c))
  | Err e => (Err e, c)
  end.

Fixpoint tx_pieces {T} `{Postcard T} (chunk : list Z -> T) (ds : list (list Z)) : cM S () :=
  match ds with
  | [] => mret ()
  | d :: r => tx (chunk d) ≫= fun _ => tx_pieces chunk r
  end.

Definition tx_upload `{Postcard Upload} (data : list Z) (chunk_size : Z) : cM S () :=
  if chunk_size =? 0 then stop CPanic
  else tx_pieces UChunk (chunks (Z.to_nat chunk_size) data) ≫= fun _ => tx UDone.

(** [src.read(&mut buf)] until it returns nothing. *)
Fixpoint tx_reads {T} `{Postcard T} (chunk : list Z -> T) (reads : list (list Z)) : cM S () :=
  match reads with
  | [] | [] :: _ => mret ()
  | d :: r => tx (chunk d) ≫= fun _ => tx_reads chunk r
  end.

Definition tx_upload_from_reader `{Postcard Upload} (reads : list (list Z)) : cM S () :=
  tx_reads UChunk reads ≫= fun _ => tx UDone.
Definition tx_download_from_reader `{Postcard Download} (reads : list (list Z)) : cM S () :=
  tx_reads DChunk reads ≫= fun _ => tx DDone.

(** [recv_upload_to_writer] into an empty file: what was written to it, also
    when it fails. *)
Definition rx_upload_to_writer `{Postcard Upload} (max_bytes : Z) : cM S (result cerror Z * list Z) := fun c =>
  match recv_upload_to_writer (c_in c) [] max_bytes with
  | (Ok (total, r), dst) => (Ok (Ok total, dst), mkConn r (c_out c) (c_st c))
  | (Err e, dst) => (Ok (Err e, dst), c)
  end.

Definition rx_download `{Postcard Download} (max_bytes : Z) : cM S (list Z) := fun c =>
  match recv_download (c_in c) max_bytes with
  | Ok (data, r) => (Ok data, mkConn r (c_out c) (c_st c))
  | Err e => (Err e, c)
  end.

Definition rx_download_to_writer `{Postcard Download} (max_bytes : Z) : cM S (result cerror Z * list Z) := fun c =>
  match recv_download_to_writer (c_in c) [] max_bytes with
  | (Ok (total, r), dst) => (Ok (Ok total, dst), mkConn r (c_out c) (c_st c))
  | (Err e, dst) => (Ok (Err e, dst), c)
  end.
End Conn.

(** ** Two ends of a connection *)

(** A complete conversation: what the host end wrote is what the guest end had to
    read and the other way round.  The host ends with [r], the guest's state goes
    from [s] to [s']. *)
Definition exchange {U S A B} (host : cM U A) (guest : cM S B) (u : U) (s : S) (r : result cerror A) (u' : U) (s' : S) : Prop :=
  exists (up down : list Z) (hc : conn U) (gr : result cerror B) (gc : conn S),
    host (mkConn down [] u) = (r, hc) /\ c_out hc = up /\ c_st hc = u'
    /\ guest (mkConn up [] s) = (gr, gc) /\ c_out gc = down /\ c_st gc = s'.

(** ** One message *)

Section Laws.
Context {S : Type}.

Lemma tx_fits {T} `{Postcard T} (m : T) (i w : list Z) (s : S) :
  fits m -> tx m (mkConn i w s) = (Ok (), mkConn i (w ++ enc m) s).
Proof. intros Hf. unfold tx. cbn [c_out]. by rewrite send_enc. Qed.

Lemma rx_enc {T} `{PostcardLaws T} (m : T) (r w : list Z) (s : S) :
  fits m -> rx T (mkConn (enc m ++ r) w s) = (Ok m, mkConn r w s).
Proof. intros Hf. unfold rx. cbn [c_in]. by rewrite recv_enc. Qed.

Lemma rx_empty {T} `{Postcard T} (w : list Z) (s : S) : rx T (mkConn [] w s) = (Err (CIo EkUnexpectedEof), mkConn [] w s).
Proof. done. Qed.

Lemma modify_run f i w (s : S) : modify f (mkConn i w s) = (Ok (), mkConn i w (f s)).
Proof. done. Qed.

Lemma bind_Ok {A B} (m : cM S A) (f : A -> cM S B) c a c' : m c = (Ok a, c') -> (m ≫= f) c = f a c'.
Proof. intros H. unfold mbind, cM_bind. by rewrite H. Qed.

Lemma bind_Err {A B} (m : cM S A) (f : A -> cM S B) c e c' : m c = (Err e, c') -> (m ≫= f) c = (Err e, c').
Proof. intros H. unfold mbind, cM_bind. by rewrite H. Qed.

Lemma tx_pieces_fits {T} `{Postcard T} (chunk : list Z -> T) ds (i w : list Z) (s : S) :
  Forall fits (chunk <$> ds) -> tx_pieces chunk ds (mkConn i w s) = (Ok (), mkConn i (w ++ encs (chunk <$> ds)) s).
Proof.
  revert w. induction ds as [|d ds IH]; intros w HF; cbn [tx_pieces].
  - unfold encs. simpl. by rewrite app_nil_r.
  - rewrite fmap_cons, Forall_cons in HF. destruct HF as [Hd HF]. erewrite bind_Ok by (by apply tx_fits).
    rewrite IH by done. unfold encs. rewrite fmap_cons. cbn [fmap list_fmap concat]. by rewrite <- app_assoc.
Qed.

Lemma tx_reads_fits {T} `{Postcard T} (chunk : list Z -> T) ds (i w : list Z) (s : S) :
  Forall (fun d => d <> []) ds -> Forall fits (chunk <$> ds) ->
  tx_reads chunk ds (mkConn i w s) = (Ok (), mkConn i (w ++ encs (chunk <$> ds)) s).
Proof.
  intros Hne. revert w. induction Hne as [|d ds Hd Hne IH]; intros w HF; cbn [tx_reads].
  - unfold encs. simpl. by rewrite app_nil_r.
  - rewrite fmap_cons, Forall_cons in HF. destruct HF as [Hf HF]. destruct d as [|x d]; [done|].
    erewrite bind_Ok by (by apply tx_fits).
    rewrite IH by done. unfold encs. rewrite fmap_cons. cbn [fmap list_fmap concat]. by rewrite <- app_assoc.
Qed.

(** The bytes of a whole upload and download. *)
Definition upload_bytes `{Postcard Upload} (ds : list (list Z)) : list Z := encs (UChunk <$> ds) ++ enc UDone.
Definition download_bytes `{Postcard Download} (ds : list (list Z)) : list Z := encs (DChunk <$> ds) ++ enc DDone.

Lemma tx_upload_fits `{Postcard Upload} data n (i w : list Z) (s : S) :
  0 < n -> Forall fits (UChunk <$> chunks (Z.to_nat n) data) -> fits UDone ->
  tx_upload data n (mkConn i w s) = (Ok (), mkConn i (w ++ upload_bytes (chunks (Z.to_nat n) data)) s).
Proof.
  intros Hn HF Hd. unfold tx_upload. rewrite (proj2 (Z.eqb_neq _ _)) by lia.
  erewrite bind_Ok by (by apply tx_pieces_fits). rewrite tx_fits by done. unfold upload_bytes. by rewrite app_assoc.
Qed.

Lemma tx_download_fits `{Postcard Download} ds (i w : list Z) (s : S) :
  Forall (fun d => d <> []) ds -> Forall fits (DChunk <$> ds) -> fits DDone ->
  tx_download_from_reader ds (mkConn i w s) = (Ok (), mkConn i (w ++ download_bytes ds) s).
Proof.
  intros Hne HF Hd. unfold tx_download_from_reader. erewrite bind_Ok by (by apply tx_reads_fits).
  rewrite tx_fits by done. unfold download_bytes. by rewrite app_assoc.
Qed.

Lemma rx_upload_bytes `{PostcardLaws Upload, !UploadSizes} ds (rest w : list Z) (s : S) max_bytes :
  Forall fits (UChunk <$> ds) -> fits UDone -> zlen (concat ds) <= max_bytes -> max_bytes + MAX_FRAME < 2^64 ->
  rx_upload_to_writer max_bytes (mkConn (upload_bytes ds ++ rest) w s)
  = (Ok (Ok (zlen (concat ds)), concat ds), mkConn rest w s).
Proof.
  intros HF Hd Hm Hb. unfold rx_upload_to_writer. cbn [c_in]. pose proof (zlen_nonneg (concat ds)).
  assert (Hr : recv_upload (upload_bytes ds ++ rest) max_bytes = Ok (concat ds, rest)).
  { unfold recv_upload, upload_bytes. rewrite <- app_assoc.
    rewrite (recv_upload_stream ds); [|done|done|change (zlen []) with 0; lia|by apply stream_fuel].
    cbn [app]. by rewrite (proj2 (Z.leb_le _ _)) by lia. }
  assert (Ha : stream_agrees (recv_upload (upload_bytes ds ++ rest) max_bytes)
                 (recv_upload_to_writer (upload_bytes ds ++ rest) [] max_bytes) [] max_bytes []).
  { unfold recv_upload, recv_upload_to_writer. change 0 with (zlen (@nil Z)) at 1.
    apply upload_loop_agrees; [lia|change (zlen []) with 0; lia|done]. }
  destruct Ha as (ext & He & _ & _ & Hs). rewrite Hr in Hs. cbn [app] in *.
  destruct (recv_upload_to_writer _ _ _) as [[[total r']|e] dst]; simpl in *; [|done].
  destruct Hs as [-> [= <- <-]]. by rewrite He.
Qed.

Lemma rx_download_bytes `{PostcardLaws Download} ds (rest w : list Z) (s : S) max_bytes :
  Forall fits (DChunk <$> ds) -> fits DDone -> zlen (concat ds) <= max_bytes < U64_MAX ->
  rx_download max_bytes (mkConn (download_bytes ds ++ rest) w s) = (Ok (concat ds), mkConn rest w s).
Proof.
  intros HF Hd Hm. unfold rx_download, recv_download, download_bytes. cbn [c_in]. rewrite <- app_assoc.
  pose proof (zlen_nonneg (concat ds)). change 0 with (zlen (@nil Z)) at 1.
  rewrite (recv_download_stream ds); [|done|done|change (zlen []) with 0; lia|by apply stream_fuel].
  cbn [app]. by rewrite (proj2 (Z.leb_le _ _)) by lia.
Qed.
End Laws.
