(* ===== verification/GuestFiles.v ===== *)
(** * File transfers of the guest agent

    [crates/bux-guest/src/files.rs]: [handle_read], [handle_write],
    [handle_copy_in], [handle_copy_out], [recv_upload_to_file] and the temporary
    files they go through, over the tree of [Vfs] and the connection of [Wire].
    Paths come from the host as text, so the calls here take any path, relative
    ones from the root, where the agent runs.  The texts of errors, the tar crate
    and the pieces in which the kernel returns a file are parameters. *)

From S2P Require Import Prelude Files Paths Ports Text ProtoMessages Codec Vfs SafeRoot LayerExtract ExtractConfined GuestCopy Wire.

(** ** [std::fs] on any path *)

Definition resolve (σ : vfs) (follow missing : bool) (p : path) : result io_kind loc := walk SYMLOOP_MAX σ follow missing [] p.

(** A file whose contents can, or cannot, be read once it is open. *)
Definition open_read (p : path) (σ : vfs) : result io_kind (result io_kind (list Z)) :=
  l ← resolve σ true false p;
  match ents σ !! l with
  | Some (EFile i) => Ok (ok_or (i_data <$> inodes σ !! i) EkOther)
  | Some _ => Ok (Err EkOther)
  | None => Err EkNotFound
  end.

Definition mkdir (p : path) : sys () := fun σ =>
  match resolve σ false true p with
  | Err k => (Err k, σ)
  | Ok l => match ents σ !! l with
            | Some _ => (Err EkOther, σ)
            | None => (Ok (), with_ents σ (<[l := EDir 0x1ed]> (ents σ)))
            end
  end.

Definition is_dir (σ : vfs) (p : path) : bool :=
  match resolve σ true false p with
  | Ok l => match ents σ !! l with Some (EDir _) => true | _ => false end
  | Err _ => false
  end.

(** [create_dir_all]; [n] is the number of components. *)
Fixpoint mkdir_all_aux (n : nat) (p : path) : sys () :=
  if decide (p = []) then mret tt else
  r ← try (mkdir p);
  match r with
  | Ok _ => mret tt
  | Err EkNotFound =>
    match n, parent p with
    | S n, Some d =>
      mkdir_all_aux n d ≫= fun _ =>
      r ← try (mkdir p);
      match r with
      | Ok _ => mret tt
      | Err k => b ← reading (fun σ => Ok (is_dir σ p)); if b : bool then mret tt else fail k
      end
    | _, _ => fail EkOther
    end
  | Err k => b ← reading (fun σ => Ok (is_dir σ p)); if b : bool then mret tt else fail k
  end.
Definition mkdir_all (p : path) : sys () := mkdir_all_aux (length p) p.

(** [fs::copy]: the contents and the permission bits; a file copied onto itself
    has been truncated before it is read. *)
Definition copy (src : loc) (dst : path) : sys () := fun σ =>
  match lookup_path σ true false src ≫= fun ls => ok_or (ents σ !! ls) EkNotFound with
  | Ok (EFile i) =>
    match inodes σ !! i, resolve σ true true dst with
    | None, _ => (Err EkOther, σ)
    | _, Err k => (Err k, σ)
    | Some n, Ok l =>
      match ents σ !! l with
      | None => (Ok (), mkVfs (<[l := EFile (next_ino σ)]> (ents σ)) (<[next_ino σ := n]> (inodes σ)) (S (next_ino σ)))
      | Some (EFile j) =>
        (Ok (), mkVfs (ents σ) (<[j := mkInode (i_mode n) (if decide (i = j) then [] else i_data n)]> (inodes σ)) (next_ino σ))
      | Some _ => (Err EkOther, σ)
      end
    end
  | Ok _ => (Err EkInvalidInput, σ)
  | Err k => (Err k, σ)
  end.

Definition chmod (p : path) (mode : Z) : sys () := fun σ =>
  match resolve σ true false p with
  | Err k => (Err k, σ)
  | Ok l => match ents σ !! l with
            | Some (EDir _) => (Ok (), with_ents σ (<[l := EDir mode]> (ents σ)))
            | Some (EFile i) => (Ok (), mkVfs (ents σ) (alter (fun n => mkInode mode (i_data n)) i (inodes σ)) (next_ino σ))
            | _ => (Err EkOther, σ)
            end
  end.

(** ** The agent's state and what answers it *)

Record guest : Type := mkGuest { g_fs : vfs; g_temp_seq : Z }.

Section Files.
Context {PU : Postcard Upload} {PD : Postcard Download} {PR : Postcard UploadResult}.
(** [Display] of an error; [std::process::id]; the reads of a file of the given
    contents with a buffer of [STREAM_CHUNK_SIZE] bytes. *)
Context (error_text : cerror -> string) (pid : string) (reads : list Z -> list (list Z)).
(** The tar crate: the members of an archive, the unpacking of one, and the
    archive of a directory or of one path under a name. *)
Context (members : list Z -> list (result io_kind entry)) (unpack : entry -> loc -> sys ())
  (append_dir_all : bool -> path -> vfs -> result io_kind (list Z))
  (append_path_with_name : bool -> path -> string -> vfs -> result io_kind (list Z)).

Abbreviation gM := (cM guest).

(** File-system calls, their error as a value. *)
Definition on_fs {A} (m : sys A) : gM (result io_kind A) := fun c =>
  let '(r, σ) := m (g_fs (c_st c)) in (Ok r, mkConn (c_in c) (c_out c) (mkGuest σ (g_temp_seq (c_st c)))).

Definition internal_error (e : cerror) : ErrorInfo := ErrorInfo_new Internal (error_text e).

Definition temp_file_path (tag : string) : gM loc := fun c =>
  let seq := g_temp_seq (c_st c) in
  (Ok ["tmp"; "bux-" +:+ tag +:+ "-" +:+ pid +:+ "-" +:+ dec_u64 seq]%string,
   mkConn (c_in c) (c_out c) (mkGuest (g_fs (c_st c)) (u64 (seq + 1)))).

(** [File::create] makes files of mode 0644. *)
Definition recv_upload_to_file : gM (result cerror loc) :=
  t ← temp_file_path "upload";
  created ← on_fs (write_new t 0x1a4 []);
  match created with
  | Err k => mret (Err (CIo k))
  | Ok _ =>
    '(r, data) ← rx_upload_to_writer MAX_UPLOAD_BYTES;
    written ← on_fs (write_new t 0x1a4 data);
    match r, written with
    | Ok _, Ok _ => mret (Ok t)
    | Err e, _ => on_fs (remove_file t) ≫= fun _ => mret (Err e)
    | _, Err k => on_fs (remove_file t) ≫= fun _ => mret (Err (CIo k))
    end
  end.

Definition reply (result : result io_kind ()) : gM () :=
  match result with
  | Ok _ => tx UploadOk
  | Err k => tx (UploadError (internal_error (CIo k)))
  end.

Definition handle_read (p : string) : gM () := fun c =>
  match open_read (components p) (g_fs (c_st c)) with
  | Err k => tx (DError (ErrorInfo_new NotFound (error_text (CIo k)))) c
  | Ok (Err k) => io_err k c
  | Ok (Ok data) => tx_download_from_reader (reads data) c
  end.

(** Placing the received file. *)
Definition place_upload (t : loc) (p : string) (mode : Z) : sys () :=
  match parent (components p) with Some d => mkdir_all d | None => mret () end ≫= fun _ =>
  copy t (components p) ≫= fun _ =>
  chmod (components p) mode.

Definition handle_write (p : string) (mode : Z) : gM () :=
  temp ← recv_upload_to_file;
  match temp with
  | Err e => tx (UploadError (internal_error e))
  | Ok t =>
    result ← on_fs (place_upload t p mode);
    on_fs (remove_file t) ≫= fun _ => reply result
  end.

Definition unpack_upload (t : loc) (dest : string) : sys () :=
  mkdir_all (components dest) ≫= fun _ =>
  canonical ← reading (fun σ => resolve σ true false (components dest));
  data ← reading (fun σ => r ← open_read (RootDir :: (Normal <$> t)) σ; r);
  copy_in_archive unpack canonical (members data).

Definition handle_copy_in (dest : string) : gM () :=
  temp ← recv_upload_to_file;
  match temp with
  | Err e => tx (UploadError (internal_error e))
  | Ok t =>
    result ← on_fs (unpack_upload t dest);
    on_fs (remove_file t) ≫= fun _ => reply result
  end.

(** The archive of [p]; a name-less path is stored as [file]. *)
Definition pack (p : path) (follow : bool) (σ : vfs) : result io_kind (list Z) :=
  l ← resolve σ follow false p;
  meta ← ok_or (ents σ !! l) EkNotFound;
  match meta with
  | EDir _ => append_dir_all follow p σ
  | _ => append_path_with_name follow p (default "file"%string (file_name p)) σ
  end.

Definition handle_copy_out (p : string) (follow : bool) : gM () :=
  t ← temp_file_path "download";
  result ← on_fs (
    write_new t 0x1a4 [] ≫= fun _ =>
    data ← reading (pack (components p) follow);
    write_new t 0x1a4 data);
  match result with
  | Ok _ =>
    opened ← on_fs (reading (open_read (RootDir :: (Normal <$> t))));
    match opened with
    | Err k => io_err k
    | Ok contents =>
      sent ← attempt (match contents with
                      | Ok data => tx_download_from_reader (reads data)
                      | Err k => io_err k
                      end);
      on_fs (remove_file t) ≫= fun _ => done sent
    end
  | Err k =>
    on_fs (remove_file t) ≫= fun _ => tx (DError (ErrorInfo_new NotFound (error_text (CIo k))))
  end.
End Files.

(** ** Walks and fresh names *)

Section Walk.
Implicit Types (σ : vfs) (p : path) (cur l : loc).

(** Unfolding one component, the same for every number of links left. *)
Lemma walk_normal k σ f m cur n r :
  walk k σ f m cur (Normal n :: r) =
  match ents σ !! (cur ++ [n]) with
  | None => if m && bool_decide (r = []) then Ok (cur ++ [n]) else Err EkNotFound
  | Some (EDir _) => walk k σ f m (cur ++ [n]) r
  | Some (EFile _) => if decide (r = []) then Ok (cur ++ [n]) else Err EkNotADirectory
  | Some (ESym t) =>
    if bool_decide (r = []) && negb f then Ok (cur ++ [n]) else
    match k with O => Err EkOther | S k => walk k σ f m cur (t ++ r) end
  end.
Proof. by destruct k. Qed.

Lemma walk_nil k σ f m cur : walk k σ f m cur [] = Ok cur.
Proof. by destruct k. Qed.
Lemma walk_root k σ f m cur r : walk k σ f m cur (RootDir :: r) = walk k σ f m [] r.
Proof. by destruct k. Qed.
Lemma walk_cur k σ f m cur r : walk k σ f m cur (CurDir :: r) = walk k σ f m cur r.
Proof. by destruct k. Qed.
Lemma walk_up k σ f m cur r : walk k σ f m cur (ParentDir :: r) = walk k σ f m (parent_loc cur) r.
Proof. by destruct k. Qed.

(** Entries are kept. *)
Definition grows σ σ' : Prop := forall l e, ents σ !! l = Some e -> ents σ' !! l = Some e.

(** A walk that ends well ends there in a larger tree, also when the last
    component was missing and is a file now. *)
Lemma walk_grows k σ σ' f m m' cur p l :
  grows σ σ' -> (m = true -> ents σ !! l = None -> exists i, ents σ' !! l = Some (EFile i)) ->
  walk k σ f m cur p = Ok l -> walk k σ' f m' cur p = Ok l.
Proof.
  intros Hg. revert cur p. induction k as [|k IHk]; intros cur p; revert cur;
    (induction p as [|[| | |n] r IH]; intros cur Hl; [by rewrite !walk_nil|rewrite !walk_root; by apply IH|rewrite !walk_cur; by apply IH
       |rewrite !walk_up; by apply IH|rewrite !walk_normal]);
    (destruct (ents σ !! (cur ++ [n])) as [[d|i|t]|] eqn:E;
     [rewrite (Hg _ _ E); by apply IH|rewrite (Hg _ _ E); done|rewrite (Hg _ _ E)|]).
  all: try (destruct (bool_decide (r = []) && negb f); [done|]; by apply IHk).
  all: try done.
  all: destruct m; [|done]; simpl; case_bool_decide as Hr; [|done]; intros [= <-]; destruct (Hl eq_refl E) as [i ->];
    by rewrite decide_True.
Qed.

(** Trees that agree except at names [n]. *)
Definition agree_off (n : string) σ σ' : Prop := forall l, last l <> Some n -> ents σ' !! l = ents σ !! l.
Definition links_avoid (n : string) σ : Prop := forall l t, ents σ !! l = Some (ESym t) -> Normal n ∉ t.

Lemma last_not (l : loc) n : n ∉ l -> last l <> Some n.
Proof. intros Hn Hl. apply Hn. by apply last_Some_elem_of. Qed.

Lemma parent_loc_not (cur : loc) n : n ∉ cur -> n ∉ parent_loc cur.
Proof. unfold parent_loc. intros H Hn. apply elem_of_take in Hn as (i & Hn & _). apply H. by apply list_elem_of_lookup_2 in Hn. Qed.

Lemma snoc_not (cur : loc) n x : n ∉ cur -> Normal x <> Normal n -> n ∉ cur ++ [x].
Proof. intros H Hx [Hn|Hn%list_elem_of_singleton]%elem_of_app; [done|congruence]. Qed.

Lemma walk_avoids n k σ σ' f m cur p :
  agree_off n σ σ' -> links_avoid n σ -> n ∉ cur -> Normal n ∉ p ->
  walk k σ' f m cur p = walk k σ f m cur p /\ (forall l, walk k σ f m cur p = Ok l -> n ∉ l).
Proof.
  intros Ha Hl. revert cur p. induction k as [|k IHk]; intros cur p; revert cur;
    (induction p as [|c r IH]; intros cur Hc Hp; [rewrite !walk_nil; split; [done|by intros ? [= <-]]|]);
    apply not_elem_of_cons in Hp as [Hcn Hp]; (destruct c as [| | |x];
     [rewrite !walk_root; apply IH; [apply not_elem_of_nil|done]|rewrite !walk_cur; by apply IH
     |rewrite !walk_up; apply IH; [by apply parent_loc_not|done]|]);
    rewrite !walk_normal; pose proof (snoc_not cur n x Hc (not_eq_sym Hcn)) as Hx;
    rewrite (Ha (cur ++ [x])) by (rewrite last_snoc; congruence);
    (destruct (ents σ !! (cur ++ [x])) as [[d|i|t]|] eqn:E;
     [by apply IH|destruct (decide (r = [])); split; [done|by intros ? [= <-]|done|done]|
     |destruct m, (bool_decide (r = [])); simpl; split; try done; by intros ? [= <-]]).
  all: destruct (bool_decide (r = []) && negb f); [split; [done|by intros ? [= <-]]|]; try done.
  apply IHk; [done|]. intros [Ht|Ht]%elem_of_app; [by apply (Hl _ _ E)|done].
Qed.

(** A walk to a name that no entry has, or that follows no last link, ends at an
    entry of that name. *)
Lemma walk_last k σ f m cur p n l :
  (f = false \/ forall l t, last l = Some n -> ents σ !! l <> Some (ESym t)) ->
  walk k σ f m cur (p ++ [Normal n]) = Ok l -> last l = Some n.
Proof.
  intros Hf. revert cur p. induction k as [|k IHk]; intros cur p; revert cur;
    (induction p as [|c r IH]; intros cur; cbn [app];
     [|destruct c as [| | |x];
       [rewrite walk_root; apply IH|rewrite walk_cur; apply IH|rewrite walk_up; apply IH|]]).
  all: rewrite walk_normal.
  all: try (destruct (ents σ !! (cur ++ [x])) as [[d|i|t]|];
     [apply IH|case_decide as E; [by destruct r|done]| |rewrite (bool_decide_eq_false_2 _) by (by destruct r); by rewrite andb_false_r];
     rewrite (bool_decide_eq_false_2 _) by (by destruct r); cbn [andb]; first [done|rewrite app_assoc; apply IHk]).
  all: destruct (ents σ !! (cur ++ [n])) as [[d|i|t]|] eqn:E.
  all: try (rewrite walk_nil; intros [= <-]; apply last_snoc).
  all: try (rewrite decide_True by done; intros [= <-]; apply last_snoc).
  all: try (destruct m; simpl; intros [= <-]; apply last_snoc).
  all: destruct Hf as [->|Hf]; [simpl; intros [= <-]; apply last_snoc|].
  all: by destruct (Hf (cur ++ [n]) t (last_snoc _ _)).
Qed.
End Walk.

#[local] Opaque SYMLOOP_MAX.

(** ** A temporary file *)

(** No entry is called [n] and no link mentions it; files are numbered. *)
Record fresh_name (n : string) (σ : vfs) : Prop := {
  fn_none : forall l, last l = Some n -> ents σ !! l = None;
  fn_links : links_avoid n σ;
  fn_inodes : forall l i, ents σ !! l = Some (EFile i) -> (i < next_ino σ)%nat
}.

(** The file [q/n], at [l] in the tree. *)
Record temp_at (q : loc) (n : string) (l : loc) (i : nat) (mode : Z) (data : list Z) (σ : vfs) : Prop := {
  ta_last : last l = Some n;
  ta_ent : ents σ !! l = Some (EFile i);
  ta_inode : inodes σ !! i = Some (mkInode mode data);
  ta_walk : lookup_path σ true false (q ++ [n]) = Ok l;
  ta_only : forall l' j, l' <> l -> ents σ !! l' = Some (EFile j) -> j <> i;
  ta_names : forall l', last l' = Some n -> l' <> l -> ents σ !! l' = None;
  ta_links : links_avoid n σ;
  ta_bound : forall l' j, ents σ !! l' = Some (EFile j) -> (j < next_ino σ)%nat
}.

Section Temp.
Context (q : loc) (n : string).

Lemma create_temp mode σ σ1 :
  fresh_name n σ -> write_new (q ++ [n]) mode [] σ = (Ok (), σ1) -> exists l, temp_at q n l (next_ino σ) mode [] σ1.
Proof.
  intros [Hn Hl Hi]. unfold write_new. destruct (lookup_path σ true true (q ++ [n])) as [l|k] eqn:E; [|done].
  assert (Hns : forall l t, last l = Some n -> ents σ !! l <> Some (ESym t)) by (intros l0 t0 Hx; rewrite (Hn l0 Hx); discriminate).
  assert (Hlast : last l = Some n).
  { unfold lookup_path in E. rewrite fmap_app in E. apply (walk_last _ _ _ _ _ _ _ _ (or_intror Hns) E). }
  rewrite (Hn l Hlast). intros [= <-]. exists l.
  assert (Hg : grows σ (mkVfs (<[l := EFile (next_ino σ)]> (ents σ)) (<[next_ino σ := mkInode mode []]> (inodes σ)) (S (next_ino σ)))).
  { intros l' e' H'. cbn [ents]. rewrite lookup_insert_ne; [done|]. intros <-. by rewrite Hn in H'. }
  split; cbn [ents inodes next_ino]; rewrite ?lookup_insert_eq; [done..| | | | |].
  - refine (walk_grows _ _ _ _ true _ _ _ _ Hg _ E). intros _ _. eexists. cbn [ents]. apply lookup_insert_eq.
  - intros l' j Hne. rewrite lookup_insert_ne by done. intros H'. apply Hi in H'. lia.
  - intros l' Hl' Hne. rewrite lookup_insert_ne by done. by apply Hn.
  - intros l' t H'. cbn [ents with_ents] in H'. apply lookup_insert_Some in H' as [[_ [=]]|[_ H']]. by apply (Hl l').
  - intros l' j H'. cbn [ents with_ents] in H'. apply lookup_insert_Some in H' as [[_ [= <-]]|[_ H']]; [lia|]. apply Hi in H'. lia.
Qed.

Lemma fill_temp l i mode mode' d data σ :
  temp_at q n l i mode d σ -> exists σ', write_new (q ++ [n]) mode' data σ = (Ok (), σ') /\ temp_at q n l i mode data σ'.
Proof.
  intros [H1 H2 H3 H4 H5 H6 H7 H8]. unfold write_new, lookup_path.
  rewrite (walk_grows SYMLOOP_MAX σ σ true false true [] _ l (fun _ _ H => H) ltac:(done) H4), H2. eexists. split; [done|].
  split; cbn [ents inodes next_ino]; [done|done|by rewrite lookup_alter_eq, H3|exact H4|done..].
Qed.

Lemma mkdir_temp l i mode data p σ :
  Normal n ∉ p -> temp_at q n l i mode data σ -> temp_at q n l i mode data (mkdir p σ).2.
Proof.
  intros Hp [H1 H2 H3 H4 H5 H6 H7 H8]. unfold mkdir, resolve.
  destruct (walk_avoids n SYMLOOP_MAX σ σ false true [] p (fun _ _ => eq_refl) H7 ltac:(apply not_elem_of_nil) Hp) as [_ Hav].
  destruct (walk _ _ _ _ _ _) as [l0|k] eqn:E; [|done]. specialize (Hav l0 eq_refl).
  destruct (ents σ !! l0) eqn:E0; [done|].
  assert (Hne : l0 <> l) by (intros ->; by apply (last_not _ _ Hav)).
  assert (Hg : grows σ (with_ents σ (<[l0 := EDir 0x1ed]> (ents σ)))).
  { intros l' e' H'. cbn [ents with_ents]. rewrite lookup_insert_ne; [done|]. intros <-. congruence. }
  split; cbn [ents inodes next_ino with_ents snd].
  - exact H1.
  - by rewrite lookup_insert_ne.
  - exact H3.
  - refine (walk_grows _ _ _ _ false _ _ _ _ Hg _ H4). discriminate.
  - intros l' j Hl' H'. apply lookup_insert_Some in H' as [[_ [=]]|[_ H']]. by apply (H5 l').
  - intros l' Hl' Hx. rewrite lookup_insert_ne; [by apply H6|]. intros <-. by apply (last_not _ _ Hav).
  - intros l' t H'. cbn [ents with_ents] in H'. apply lookup_insert_Some in H' as [[_ [=]]|[_ H']]. by apply (H7 l').
  - intros l' j H'. cbn [ents with_ents] in H'. apply lookup_insert_Some in H' as [[_ [=]]|[_ H']]. by apply (H8 l').
Qed.

Lemma parent_not_mem (p d : path) c : c ∉ p -> parent p = Some d -> c ∉ d.
Proof.
  unfold parent. intros Hc H. assert (Hd : d = take (length p - 1) p) by (destruct (last p) as [[]|]; by simplify_eq).
  subst d. intros (i & Hi & _)%elem_of_take. apply Hc. by apply list_elem_of_lookup_2 in Hi.
Qed.

Lemma mkdir_all_temp l i mode data p σ :
  Normal n ∉ p -> temp_at q n l i mode data σ -> temp_at q n l i mode data (mkdir_all p σ).2.
Proof.
  unfold mkdir_all. generalize (length p) as m. intros m. revert p σ.
  induction m as [|m IH]; intros p σ Hp Ht; cbn [mkdir_all_aux]; (case_decide; [done|]); unfold mbind, fsM_bind, try, reading;
    pose proof (mkdir_temp l i mode data p σ Hp Ht) as H1; destruct (mkdir p σ) as [[[]|[]] σ1]; cbn [snd] in H1;
    try done; try (by destruct (is_dir σ1 p)).
  destruct (parent p) as [d|] eqn:Ed; [|done].
  pose proof (IH d σ1 ltac:(by eapply parent_not_mem) H1) as H2. destruct (mkdir_all_aux m d σ1) as [[[]|k] σ2]; [|done].
  cbn [snd] in H2. pose proof (mkdir_temp l i mode data p σ2 Hp H2) as H3. destruct (mkdir p σ2) as [[[]|k] σ3]; [done|].
  cbn [snd] in *. by destruct (is_dir σ3 p).
Qed.

End Temp.

(** The path [p] names a file of this mode and contents, and no link mentions
    the temporary name. *)
Record file_at (n : string) (p : path) (mode : Z) (data : list Z) (l : loc) (j : nat) (σ : vfs) : Prop := {
  fa_walk : resolve σ true false p = Ok l;
  fa_ent : ents σ !! l = Some (EFile j);
  fa_inode : inodes σ !! j = Some (mkInode mode data);
  fa_not : n ∉ l;
  fa_links : links_avoid n σ
}.

Section Place.
Context (q : loc) (n : string) (p : path) (Hp : Normal n ∉ p).

Lemma copy_temp l i mode data σ σ' :
  temp_at q n l i mode data σ -> copy (q ++ [n]) p σ = (Ok (), σ') -> exists l' j, file_at n p mode data l' j σ'.
Proof.
  intros [H1 H2 H3 H4 H5 H6 H7 H8]. unfold copy. rewrite H4. cbn [mbind result_bind]. rewrite H2. cbn [ok_or]. rewrite H3.
  unfold resolve.
  destruct (walk_avoids n SYMLOOP_MAX σ σ true true [] p (fun _ _ => eq_refl) H7 ltac:(apply not_elem_of_nil) Hp) as [_ Hav].
  destruct (walk SYMLOOP_MAX σ true true [] p) as [l'|k] eqn:E; [|done]. specialize (Hav l' eq_refl).
  assert (Hne : l' <> l) by (intros ->; by apply (last_not _ _ Hav)).
  destruct (ents σ !! l') as [[d|j|t]|] eqn:E'; try done; intros [= <-]; cbn [i_mode i_data].
  - exists l', j. split; cbn [ents inodes next_ino]; [|exact E'| |exact Hav|exact H7].
    + refine (walk_grows _ _ _ _ true _ _ _ _ _ _ E); [by intros x e Hx|]. intros _ _. by exists j.
    + rewrite lookup_insert_eq. rewrite decide_False; [done|]. intros ->. by apply (H5 l' j).
  - exists l', (next_ino σ). split; cbn [ents inodes next_ino]; [|apply lookup_insert_eq|apply lookup_insert_eq|exact Hav|].
    + refine (walk_grows _ _ _ _ true _ _ _ _ _ _ E).
      * intros x e Hx. cbn [ents]. rewrite lookup_insert_ne; [done|]. intros <-. congruence.
      * intros _ _. eexists. cbn [ents]. apply lookup_insert_eq.
    + intros x t Hx. cbn [ents] in Hx. apply lookup_insert_Some in Hx as [[_ [=]]|[_ Hx]]. by apply (H7 x).
Qed.

Lemma chmod_file l j mode mode' data σ σ' :
  file_at n p mode data l j σ -> chmod p mode' σ = (Ok (), σ') -> file_at n p mode' data l j σ'.
Proof.
  intros [H1 H2 H3 H4 H5]. unfold chmod. rewrite H1, H2. intros [= <-].
  split; cbn [ents inodes]; [|exact H2|by rewrite lookup_alter_eq, H3|exact H4|exact H5].
  refine (walk_grows _ _ _ _ false _ _ _ _ _ _ H1); [by intros x e Hx|discriminate].
Qed.

Lemma remove_keeps_file l j mode data σ :
  file_at n p mode data l j σ -> file_at n p mode data l j (remove_file (q ++ [n]) σ).2.
Proof.
  intros [H1 H2 H3 H4 H5]. unfold remove_file. destruct (lookup_path σ false false (q ++ [n])) as [x|k] eqn:E; [|done].
  assert (Hx : last x = Some n).
  { unfold lookup_path in E. rewrite fmap_app in E. exact (walk_last _ _ _ _ _ _ _ _ (or_introl eq_refl) E). }
  assert (Hne : x <> l) by (intros ->; by apply (last_not _ _ H4)).
  assert (Hd : file_at n p mode data l j (with_ents σ (delete x (ents σ)))).
  { split; cbn [ents inodes with_ents]; [|by rewrite lookup_delete_ne|exact H3|exact H4|].
    - rewrite <- H1. refine (proj1 (walk_avoids n SYMLOOP_MAX σ _ true false [] p _ H5 (not_elem_of_nil _) Hp)).
      intros y Hy. cbn [ents with_ents]. rewrite lookup_delete_ne; congruence.
    - intros y t' Hy. cbn [ents with_ents] in Hy. apply lookup_delete_Some in Hy as [_ Hy]. by apply (H5 y). }
  destruct (ents σ !! x) as [[d|i|t]|]; first [exact Hd|by split].
Qed.

Lemma file_at_read l j mode data σ : file_at n p mode data l j σ -> open_read p σ = Ok (Ok data).
Proof. intros [H1 H2 H3 _ _]. unfold open_read. rewrite H1. cbn [mbind result_bind]. rewrite H2, H3. done. Qed.
End Place.

(** An accepted file is there with its contents and its mode, also once the
    temporary file is gone. *)
Lemma place_upload_file q n (text : string) mode l i m data σ σ' :
  Normal n ∉ components text -> temp_at q n l i m data σ -> place_upload (q ++ [n]) text mode σ = (Ok (), σ') ->
  exists l' j, file_at n (components text) mode data l' j (remove_file (q ++ [n]) σ').2.
Proof.
  intros Hp Ht. unfold place_upload.
  assert (Hmk : forall σ1, temp_at q n l i m data σ1 ->
    (copy (q ++ [n]) (components text) ≫= fun _ => chmod (components text) mode) σ1 = (Ok (), σ') ->
    exists l' j, file_at n (components text) mode data l' j (remove_file (q ++ [n]) σ').2).
  { intros σ1 H1 H. unfold mbind, fsM_bind in H. destruct (copy _ _ σ1) as [[[]|k] σ2] eqn:Ec; [|done].
    destruct (copy_temp q n _ Hp _ _ _ _ _ _ H1 Ec) as (l' & j & Hf). exists l', j.
    apply remove_keeps_file; [done|]. by eapply chmod_file. }
  destruct (parent (components text)) as [d|] eqn:Ed; [|by apply Hmk].
  pose proof (mkdir_all_temp q n l i m data d σ (parent_not_mem _ _ _ Hp Ed) Ht) as H1.
  intros H. unfold mbind, fsM_bind in H. destruct (mkdir_all d σ) as [[[]|k] σ1]; [|done]. by apply (Hmk σ1).
Qed.

(** ** The handlers over the wire *)

Section Handlers.
Context {PU : Postcard Upload} {PD : Postcard Download} {PR : Postcard UploadResult}.
Context `{!PostcardLaws Upload, !UploadSizes}.
Context (error_text : cerror -> string) (pid : string).

Definition upload_name (g : guest) : string := ("bux-upload-" +:+ pid +:+ "-" +:+ dec_u64 (g_temp_seq g))%string.

(** The answer to a transfer. *)
Definition answer_of (r : result cerror ()) : UploadResult :=
  match r with Ok _ => UploadOk | Err e => UploadError (internal_error error_text e) end.

Lemma on_fs_run {A} (m : sys A) i w g :
  on_fs m (mkConn i w g) = (Ok (m (g_fs g)).1, mkConn i w (mkGuest (m (g_fs g)).2 (g_temp_seq g))).
Proof. unfold on_fs. cbn [c_st c_in c_out]. by destruct (m (g_fs g)). Qed.

(** The received file, or why there is none. *)
Lemma recv_upload_run (ds : list (list Z)) (rest w : list Z) (g : guest) :
  Forall fits (UChunk <$> ds) -> fits UDone -> zlen (concat ds) <= MAX_UPLOAD_BYTES -> fresh_name (upload_name g) (g_fs g) ->
  exists r i g', recv_upload_to_file pid (mkConn (upload_bytes ds ++ rest) w g) = (Ok r, mkConn i w g')
    /\ forall t, r = Ok t -> i = rest /\ t = ["tmp"%string; upload_name g]
         /\ exists l j, temp_at ["tmp"%string] (upload_name g) l j 0x1a4 (concat ds) (g_fs g').
Proof.
  intros HF Hd Hm Hfresh. unfold recv_upload_to_file.
  set (n := upload_name g). set (g1 := mkGuest (g_fs g) (u64 (g_temp_seq g + 1))).
  erewrite bind_Ok by (unfold temp_file_path; cbn [c_in c_out c_st]; reflexivity).
  change (["tmp"%string; ("bux-" +:+ "upload" +:+ "-" +:+ pid +:+ "-" +:+ dec_u64 (g_temp_seq g))%string]) with (["tmp"%string] ++ [n]).
  change (mkGuest (g_fs g) (u64 (g_temp_seq g + 1))) with g1.
  erewrite bind_Ok by apply on_fs_run. cbn [g_fs g1].
  destruct (write_new (["tmp"%string] ++ [n]) 0x1a4 [] (g_fs g)) as [[[]|k] σ1] eqn:Ec; cbn [fst snd]; [|by do 3 eexists].
  destruct (create_temp _ _ _ _ _ Hfresh Ec) as [l Hl].
  erewrite bind_Ok by (apply rx_upload_bytes; [done..|change MAX_FRAME with 16777216; change MAX_UPLOAD_BYTES with 536870912; lia]). cbv beta iota.
  erewrite bind_Ok by apply on_fs_run. cbn [g_fs g_temp_seq].
  destruct (fill_temp ["tmp"%string] n l _ _ 0x1a4 _ (concat ds) _ Hl) as (σ2 & -> & Hl2). cbn [fst snd].
  do 3 eexists. split; [reflexivity|]. intros t [= <-]. split; [done|]. split; [done|]. cbn [g_fs]. eauto.
Qed.

Lemma handle_write_run (p : string) (mode : Z) (ds : list (list Z)) (rest w : list Z) (g : guest) :
  Forall fits (UChunk <$> ds) -> fits UDone -> (forall r, fits (answer_of r)) ->
  zlen (concat ds) <= MAX_UPLOAD_BYTES -> fresh_name (upload_name g) (g_fs g) -> Normal (upload_name g) ∉ components p ->
  exists r i g', handle_write error_text pid p mode (mkConn (upload_bytes ds ++ rest) w g) = (Ok (), mkConn i (w ++ enc (answer_of r)) g')
    /\ (r = Ok () -> open_read (components p) (g_fs g') = Ok (Ok (concat ds))).
Proof.
  intros HF Hd Ha Hm Hfresh Hp. unfold handle_write.
  destruct (recv_upload_run ds rest w g HF Hd Hm Hfresh) as (r & i & g1 & E & Hr).
  erewrite bind_Ok by exact E. destruct r as [t|e]; [|exists (Err e), i, g1; split; [|done]; by apply tx_fits; apply (Ha (Err e))].
  destruct (Hr t eq_refl) as (-> & -> & l & j & Ht). erewrite bind_Ok by apply on_fs_run.
  erewrite bind_Ok by apply on_fs_run. cbn [g_fs g_temp_seq].
  set (t := ["tmp"%string; upload_name g]). set (placed := place_upload t p mode (g_fs g1)).
  exists (match placed.1 with Ok _ => Ok () | Err k => Err (CIo k) end), rest,
    (mkGuest (remove_file t placed.2).2 (g_temp_seq g1)). split.
  - unfold reply. destruct placed.1; apply tx_fits; [apply (Ha (Ok ()))|apply (Ha (Err (CIo e)))].
  - destruct placed as [[[]|k] σ'] eqn:Ep; [|done]. intros _. cbn [g_fs snd].
    destruct (place_upload_file ["tmp"%string] (upload_name g) p mode l j _ _ _ σ' Hp Ht Ep) as (l' & j' & Hf).
    by eapply file_at_read.
Qed.

Lemma handle_read_run reads (p : string) (data w : list Z) (g : guest) i :
  open_read (components p) (g_fs g) = Ok (Ok data) ->
  Forall (fun d => d <> []) (reads data) -> Forall fits (DChunk <$> reads data) -> fits DDone ->
  handle_read error_text reads p (mkConn i w g) = (Ok (), mkConn i (w ++ download_bytes (reads data)) g).
Proof. intros Ho Hne HF Hd. unfold handle_read. cbn [c_st]. rewrite Ho. by apply tx_download_fits. Qed.
End Handlers.
