(* ===== verification/GuestExec.v ===== *)
(** * Command execution in the guest agent

    [crates/bux-guest/src/exec/mod.rs] and [exec/pty.rs]: how a request becomes a
    command, and the loop that relays between the host's frames, the child's
    output and the clock until the job ends.  Which branch of [select!] comes next,
    what a read of the child's output returns and how much of a half-received host
    frame a cancelled [recv] takes with it are given as a list of turns.  Writing
    to the child never blocks here. *)

From S2P Require Import Prelude Files Text ProtoMessages Codec Process Wire GuestReaper.

Definition SIGKILL : Z := 9.

(** [pid as i32]. *)
Definition i32 (z : Z) : Z := let u := u32 z in if u <? 2^31 then u else u - 2^32.

(** ** Commands *)

(** What the child does between fork and exec, in order. *)
Inductive pre_exec : Type := PSetpgid | PSetsid | PSetControllingTty | PSetgid (gid : Z) | PSetuid (uid : Z).

Inductive stdio : Type := Inherit | Piped | PtySlave.

Record command : Type := mkCommand {
  cm_program : string; cm_args : list string; cm_env : gmap string string; cm_cwd : option string;
  cm_stdin : stdio; cm_output : stdio; cm_pre_exec : list pre_exec
}.

Definition credential_steps (credentials : option (Z * Z)) : list pre_exec :=
  match credentials with Some (uid, gid) => [PSetgid gid; PSetuid uid] | None => [] end.

(** [handle_pipe]'s command, with [apply_exec_options!]. *)
Definition pipe_command (req : ExecStart) (credentials : option (Z * Z)) : command :=
  mkCommand (es_cmd req) (es_args req) (env_map (es_env req)) (es_cwd req)
    (if es_stdin req then Piped else Inherit) Piped (PSetpgid :: credential_steps credentials).

Definition pty_command (req : ExecStart) (credentials : option (Z * Z)) : command :=
  mkCommand (es_cmd req) (es_args req) (env_map (es_env req)) (es_cwd req)
    PtySlave PtySlave ([PSetsid; PSetControllingTty] ++ credential_steps credentials).

(** Every job first leaves the process group of the agent. *)
Lemma jobs_leave_the_agents_group req c :
  (exists r, cm_pre_exec (pipe_command req c) = PSetpgid :: r) /\ exists r, cm_pre_exec (pty_command req c) = PSetsid :: r.
Proof. split; by eexists. Qed.

(** ** The state of an exec *)

(** The counter of the agent; what the child was given and sent: bytes on its
    standard input, the calls of [kill] and [setpgid], the window size; whether its
    input is open, the clock is armed, and it ran out. *)
Record execution : Type := mkExecution {
  x_seq : Z; x_stdin : bool; x_fed : list Z; x_kills : list (Z * Z); x_groups : list Z;
  x_winsize : option TtyConfig; x_armed : bool; x_timed_out : bool
}.

Definition set_stdin (b : bool) (s : execution) : execution :=
  mkExecution (x_seq s) b (x_fed s) (x_kills s) (x_groups s) (x_winsize s) (x_armed s) (x_timed_out s).
Definition add_fed (d : list Z) (s : execution) : execution :=
  mkExecution (x_seq s) (x_stdin s) (x_fed s ++ d) (x_kills s) (x_groups s) (x_winsize s) (x_armed s) (x_timed_out s).
Definition set_winsize (w : TtyConfig) (s : execution) : execution :=
  mkExecution (x_seq s) (x_stdin s) (x_fed s) (x_kills s) (x_groups s) (Some w) (x_armed s) (x_timed_out s).
Definition set_armed (b : bool) (s : execution) : execution :=
  mkExecution (x_seq s) (x_stdin s) (x_fed s) (x_kills s) (x_groups s) (x_winsize s) b (x_timed_out s).
Definition set_timed_out (s : execution) : execution :=
  mkExecution (x_seq s) (x_stdin s) (x_fed s) (x_kills s) (x_groups s) (x_winsize s) false true.
Definition set_group (pid : Z) (s : execution) : execution :=
  mkExecution (x_seq s) (x_stdin s) (x_fed s) (x_kills s) (x_groups s ++ [pid]) (x_winsize s) (x_armed s) (x_timed_out s).

(** Negative for the group, then the process itself. *)
Definition kill_job (pgid sig : Z) (s : execution) : execution :=
  if pgid <=? 1 then s else
  mkExecution (x_seq s) (x_stdin s) (x_fed s) (x_kills s ++ [(- pgid, sig); (pgid, sig)]) (x_groups s) (x_winsize s)
    (x_armed s) (x_timed_out s).

Abbreviation xM := (cM execution).

(** Bytes that a [recv] had taken when another branch was chosen. *)
Definition lose (n : nat) : xM () := fun c => (Ok (), mkConn (drop n (c_in c)) (c_out c) (c_st c)).

(** ** The loops *)

Inductive turn : Type :=
  | HostTurn
  | OutTurn (r : result io_kind (list Z)) (lost : nat)
  | ErrTurn (r : result io_kind (list Z)) (lost : nat)
  | TimerTurn.

Section Exec.
Context {PA : Postcard HelloAck} {PI : Postcard ExecIn} {PO : Postcard ExecOut}.
(** [Display] of an error. *)
Context (error_text : io_kind -> string).

(** The task of [spawn_timeout_killer]: it runs beside the loop and cancels nothing. *)
Definition timeout_killer (pid : Z) : xM () :=
  modify (fun s => if x_armed s then kill_job pid SIGKILL (set_timed_out s) else s).

(** Whether the loop was left, or is waiting when the turns are used up. *)
Fixpoint pipe_loop (pid : Z) (turns : list turn) (stdout_done stderr_done : bool) : xM bool :=
  if stdout_done && stderr_done then mret true else
  match turns with
  | [] => mret false
  | HostTurn :: r =>
    host_msg ← attempt (rx ExecIn);
    match host_msg with
    | Ok (Stdin data) => modify (fun s => if x_stdin s then add_fed data s else s) ≫= fun _ => pipe_loop pid r stdout_done stderr_done
    | Ok StdinClose => modify (set_stdin false) ≫= fun _ => pipe_loop pid r stdout_done stderr_done
    | Ok (Signal sig) => modify (kill_job pid sig) ≫= fun _ => pipe_loop pid r stdout_done stderr_done
    | Ok _ => pipe_loop pid r stdout_done stderr_done
    | Err _ => modify (kill_job pid SIGKILL) ≫= fun _ => mret true
    end
  | OutTurn n lost :: r =>
    if stdout_done then pipe_loop pid r stdout_done stderr_done else
    lose lost ≫= fun _ =>
    match n with
    | Ok [] | Err _ => pipe_loop pid r true stderr_done
    | Ok d => tx (Stdout d) ≫= fun _ => pipe_loop pid r stdout_done stderr_done
    end
  | ErrTurn n lost :: r =>
    if stderr_done then pipe_loop pid r stdout_done stderr_done else
    lose lost ≫= fun _ =>
    match n with
    | Ok [] | Err _ => pipe_loop pid r stdout_done true
    | Ok d => tx (Stderr d) ≫= fun _ => pipe_loop pid r stdout_done stderr_done
    end
  | TimerTurn :: r => timeout_killer pid ≫= fun _ => pipe_loop pid r stdout_done stderr_done
  end.

Fixpoint pty_loop (pid : Z) (turns : list turn) : xM bool :=
  match turns with
  | [] => mret false
  | HostTurn :: r =>
    host_msg ← attempt (rx ExecIn);
    match host_msg with
    | Ok (Stdin data) => modify (add_fed data) ≫= fun _ => pty_loop pid r
    | Ok (Signal sig) => modify (kill_job pid sig) ≫= fun _ => pty_loop pid r
    | Ok (ResizeTty config) => modify (set_winsize config) ≫= fun _ => pty_loop pid r
    | Ok _ => pty_loop pid r
    | Err _ => modify (kill_job pid SIGKILL) ≫= fun _ => mret true
    end
  | OutTurn n lost :: r =>
    lose lost ≫= fun _ =>
    match n with
    | Ok [] | Err _ => mret true
    | Ok d => tx (Stdout d) ≫= fun _ => pty_loop pid r
    end
  | ErrTurn _ _ :: r => pty_loop pid r
  | TimerTurn :: r => timeout_killer pid ≫= fun _ => pty_loop pid r
  end.

(** ** The handlers *)

(** [/etc/passwd] and [/etc/group]; [Reaper::spawn] of a command; the exit the
    reaper delivers, [None] when its task is gone; the elapsed milliseconds; the
    calls that make a pseudo terminal. *)
Context (passwd group : result io_kind string) (spawned : command -> result io_kind Z)
  (waited : Z -> option ExitStatus) (elapsed : Z)
  (openpty : TtyConfig -> result io_kind ()) (dup_fd : string -> result io_kind ()).

(** The block of the guard: leaving it, also by an error, stops the clock and kills the job. *)
Definition guarded (pid timeout_ms : Z) (body : xM bool) : xM bool :=
  modify (set_armed (negb (timeout_ms =? 0))) ≫= fun _ =>
  left_by ← attempt body;
  match left_by with
  | Ok false => mret false
  | _ => modify (fun s => kill_job pid SIGKILL (set_armed false s)) ≫= fun _ => done left_by
  end.

Definition send_exit (wait : option ExitStatus) : xM () :=
  exit ← done (ok_or wait (CIo EkOther));
  s ← get_state;
  tx (Exit (xt_code exit) (xt_signal exit) (x_timed_out s) (u64 elapsed) None).

(** The end of both handlers. *)
Definition finish (left_loop : bool) (pid : Z) : xM bool :=
  if left_loop then send_exit (waited pid) ≫= fun _ => mret true else mret false.

Definition refuse (text : string) : xM bool :=
  tx (AckError (ErrorInfo_new Internal text)) ≫= fun _ => mret true.

Definition handle_pipe (turns : list turn) (req : ExecStart) (exec_id : string) : xM bool :=
  match resolve_credentials passwd group req with
  | Err e => refuse (error_text e)
  | Ok credentials =>
    match spawned (pipe_command req credentials) with
    | Err e => refuse (error_text e)
    | Ok id =>
      let pid := i32 id in
      modify (set_group pid) ≫= fun _ =>
      tx (AckExecStarted exec_id pid) ≫= fun _ =>
      modify (set_stdin (es_stdin req)) ≫= fun _ =>
      left_loop ← guarded pid (es_timeout_ms req) (pipe_loop pid turns false false);
      modify (set_stdin false) ≫= fun _ =>
      finish left_loop pid
    end
  end.

(** [pty::spawn]: the text of its error, or the child. *)
Definition pty_spawn (req : ExecStart) : result string Z :=
  tty ← ok_or (es_tty req) "tty config required for PTY spawn"%string;
  let dup label := map_err (fun e => "dup " +:+ label +:+ ": " +:+ error_text e)%string (dup_fd label) in
  map_err (fun e => "openpty: " +:+ error_text e)%string (openpty tty) ≫= fun _ =>
  dup "stdin"%string ≫= fun _ => dup "stdout"%string ≫= fun _ => dup "stderr"%string ≫= fun _ =>
  credentials ← map_err error_text (resolve_credentials passwd group req);
  id ← map_err error_text (spawned (pty_command req credentials));
  dup "master_read"%string ≫= fun _ => dup "master_write"%string ≫= fun _ =>
  Ok (i32 id).

Definition handle_pty (turns : list turn) (req : ExecStart) (exec_id : string) : xM bool :=
  match pty_spawn req with
  | Err text => refuse text
  | Ok pid =>
    modify (fun s => match es_tty req with Some w => set_winsize w s | None => s end) ≫= fun _ =>
    tx (AckExecStarted exec_id pid) ≫= fun _ =>
    left_loop ← guarded pid (es_timeout_ms req) (pty_loop pid turns);
    finish left_loop pid
  end.

(** What an exec starts with. *)
Definition fresh_execution (seq : Z) : execution := mkExecution seq false [] [] [] None false false.

(** [handle]: ids are numbered. *)
Definition handle (turns : list turn) (req : ExecStart) : xM bool := fun c =>
  let seq := x_seq (c_st c) in
  let exec_id := ("exec-" +:+ dec_u64 seq)%string in
  let c := mkConn (c_in c) (c_out c) (fresh_execution (u64 (seq + 1))) in
  match es_tty req with
  | Some _ => handle_pty turns req exec_id c
  | None => handle_pipe turns req exec_id c
  end.
End Exec.

(** ** What the loops do *)

(** The end of an output stream. *)
Definition at_end (n : result io_kind (list Z)) : bool := match n with Ok [] | Err _ => true | _ => false end.

Definition out_of (t : turn) : option (result io_kind (list Z)) := match t with OutTurn n _ => Some n | _ => None end.
Definition err_of (t : turn) : option (result io_kind (list Z)) := match t with ErrTurn n _ => Some n | _ => None end.

(** The stream has ended; the bytes it gave before that. *)
Definition ended (sel : turn -> option (result io_kind (list Z))) (turns : list turn) : bool :=
  existsb (fun t => match sel t with Some n => at_end n | None => false end) turns.
Fixpoint bytes_of (sel : turn -> option (result io_kind (list Z))) (turns : list turn) : list Z :=
  match turns with
  | [] => []
  | t :: r => match sel t with
              | Some (Ok (x :: d)) => (x :: d) ++ bytes_of sel r
              | Some _ => []
              | None => bytes_of sel r
              end
  end.

Definition stdout_of (f : ExecOut) : list Z := match f with Stdout d => d | _ => [] end.
Definition stderr_of (f : ExecOut) : list Z := match f with Stderr d => d | _ => [] end.
Definition is_output (f : ExecOut) : bool := match f with Stdout _ | Stderr _ => true | _ => false end.

(** The counter and the kills so far stay, and an unarmed clock does nothing. *)
Record later (s s' : execution) : Prop := {
  later_seq : x_seq s' = x_seq s;
  later_kills : x_kills s `prefix_of` x_kills s';
  later_clock : x_armed s = false -> x_armed s' = false /\ x_timed_out s' = x_timed_out s
}.

#[export] Instance later_preorder : PreOrder later.
Proof.
  split; [by split|]. intros s1 s2 s3 [Hs Hk Hc] [Hs' Hk' Hc']. split; [congruence|by etrans|].
  intros H. destruct (Hc H) as [H2 <-]. by apply Hc'.
Qed.

Lemma later_kill pid sig s : later s (kill_job pid sig s).
Proof. unfold kill_job. case_match; [done|]. split; [done| |done]. by eexists. Qed.

Lemma later_stdin b s : later s (set_stdin b s).
Proof. by split. Qed.

Lemma later_fed d s : later s (add_fed d s).
Proof. by split. Qed.

Lemma later_winsize w s : later s (set_winsize w s).
Proof. by split. Qed.

Lemma later_timer pid s : later s (if x_armed s then kill_job pid SIGKILL (set_timed_out s) else s).
Proof.
  destruct (x_armed s) eqn:E; [|done]. split; [| |congruence].
  - unfold kill_job. by case_match.
  - apply (later_kills (set_timed_out s)), later_kill.
Qed.

Lemma later_refl s : later s s.
Proof. done. Qed.

#[export] Hint Resolve later_refl later_kill later_stdin later_fed later_winsize later_timer : core.

Lemma lose_run n i w (s : execution) : lose n (mkConn i w s) = (Ok (), mkConn (drop n i) w s).
Proof. done. Qed.

Lemma attempt_rx `{Postcard ExecIn} {B} (f : result cerror ExecIn -> xM B) i w (s : execution) :
  (attempt (rx ExecIn) ≫= f) (mkConn i w s)
  = match recv i with Ok (m, r) => f (Ok m) (mkConn r w s) | Err e => f (Err e) (mkConn i w s) end.
Proof. unfold mbind, cM_bind, attempt, rx. cbn [c_in c_out c_st]. by destruct (recv i) as [[m r]|e]. Qed.

Section Ends.
Context `{PA : PostcardLaws HelloAck} `{PI : PostcardLaws ExecIn} `{PO : PostcardLaws ExecOut}.

(** The pieces that the reads return fit in a frame. *)
Definition turn_fits (t : turn) : Prop :=
  match t with OutTurn (Ok d) _ => fits (Stdout d) | ErrTurn (Ok d) _ => fits (Stderr d) | _ => True end.

(** The frames of a left loop: output only, and of each stream no more than it gave. *)
Record relays (so se : bool) (turns : list turn) (frames : list ExecOut) : Prop := {
  rl_output : Forall (fun f => is_output f = true) frames;
  rl_fits : Forall fits frames;
  rl_stdout : concat (stdout_of <$> frames) `prefix_of` if so then [] else bytes_of out_of turns;
  rl_stderr : concat (stderr_of <$> frames) `prefix_of` if se then [] else bytes_of err_of turns
}.

Lemma relays_nil so se turns : relays so se turns [].
Proof. split; [constructor|constructor| |]; apply prefix_nil. Qed.

Lemma relays_skip so se t turns fs : out_of t = None -> err_of t = None -> relays so se turns fs -> relays so se (t :: turns) fs.
Proof. intros Ho He []. split; cbn [bytes_of]; rewrite ?Ho, ?He; done. Qed.

(** One step of a stream: more bytes, its end, and what comes after the end. *)
Lemma relays_out_more so se x d lost turns fs :
  so = false -> fits (Stdout (x :: d)) -> relays so se turns fs -> relays so se (OutTurn (Ok (x :: d)) lost :: turns) (Stdout (x :: d) :: fs).
Proof. intros -> Hf []. split; [by constructor..| |done]. rewrite fmap_cons. cbn [concat stdout_of bytes_of out_of]. by apply prefix_app. Qed.

Lemma relays_err_more so se x d lost turns fs :
  se = false -> fits (Stderr (x :: d)) -> relays so se turns fs -> relays so se (ErrTurn (Ok (x :: d)) lost :: turns) (Stderr (x :: d) :: fs).
Proof. intros -> Hf []. split; [by constructor..|done|]. rewrite fmap_cons. cbn [concat stderr_of bytes_of err_of]. by apply prefix_app. Qed.

Lemma relays_out_done so se n lost turns fs : relays true se turns fs -> relays so se (OutTurn n lost :: turns) fs.
Proof. intros []. split; [done..| |done]. apply prefix_nil_inv in rl_stdout0 as ->. apply prefix_nil. Qed.

Lemma relays_err_done so se n lost turns fs : relays so true turns fs -> relays so se (ErrTurn n lost :: turns) fs.
Proof. intros []. split; [done..|done|]. apply prefix_nil_inv in rl_stderr0 as ->. apply prefix_nil. Qed.

Lemma pipe_loop_ends pid turns so se i w s :
  Forall turn_fits turns -> so || ended out_of turns = true -> se || ended err_of turns = true ->
  exists frames i' s', pipe_loop pid turns so se (mkConn i w s) = (Ok true, mkConn i' (w ++ encs frames) s')
    /\ relays so se turns frames /\ later s s'.
Proof.
  intros HF. revert so se i w s. induction HF as [|t turns Ht HF IH]; intros so se i w s Ho He.
  { rewrite orb_false_r in Ho, He. subst. exists [], i, s. split; [|split; [apply relays_nil|done]]. unfold encs. simpl. by rewrite app_nil_r. }
  cbn [pipe_loop]. destruct (so && se) eqn:E.
  { exists [], i, s. split; [unfold encs; simpl; by rewrite app_nil_r|]. split; [apply relays_nil|done]. }
  assert (forall so' se' i' s1, later s s1 ->
    (forall fs, relays so' se' turns fs -> relays so se (t :: turns) fs) ->
    so' || ended out_of turns = true -> se' || ended err_of turns = true ->
    exists frames i'' s', pipe_loop pid turns so' se' (mkConn i' w s1) = (Ok true, mkConn i'' (w ++ encs frames) s')
      /\ relays so se (t :: turns) frames /\ later s s') as Hnext.
  { intros so' se' i' s1 Hl Hr Ho' He'. destruct (IH so' se' i' w s1 Ho' He') as (fs & i'' & s' & H1 & H2 & H3).
    exists fs, i'', s'. split; [exact H1|]. split; [by apply Hr|by etrans]. }
  destruct t as [|n lost|n lost|].
  - rewrite attempt_rx. destruct (recv i) as [[[d| |sig|tty] r]|e]; cbv beta iota; erewrite ?bind_Ok by apply modify_run.
    1-4: apply Hnext; auto; try (intros ?; by apply relays_skip).
    + destruct (x_stdin s); auto.
    + exists [], i, (kill_job pid SIGKILL s). unfold encs. cbn. rewrite app_nil_r. split; [done|]. split; [apply relays_nil|auto].
  - destruct so; [apply Hnext; auto; intros ?; apply relays_out_done|].
    erewrite bind_Ok by apply lose_run. destruct n as [[|x d]|k].
    + apply Hnext; auto. intros ?. apply relays_out_done.
    + erewrite bind_Ok by (by apply tx_fits). simpl in Ho.
      destruct (IH false se (drop lost i) (w ++ enc (Stdout (x :: d))) s) as (fs & i' & s' & -> & Hr & Hl); [done..|].
      exists (Stdout (x :: d) :: fs), i', s'. rewrite encs_cons. split; [done|]. split; [|done]. by apply relays_out_more.
    + apply Hnext; auto. intros ?. apply relays_out_done.
  - destruct se; [apply Hnext; auto; intros ?; apply relays_err_done|].
    erewrite bind_Ok by apply lose_run. destruct n as [[|x d]|k].
    + apply Hnext; auto. intros ?. apply relays_err_done.
    + erewrite bind_Ok by (by apply tx_fits). simpl in He.
      destruct (IH so false (drop lost i) (w ++ enc (Stderr (x :: d))) s) as (fs & i' & s' & -> & Hr & Hl); [done..|].
      exists (Stderr (x :: d) :: fs), i', s'. rewrite encs_cons. split; [done|]. split; [|done]. by apply relays_err_more.
    + apply Hnext; auto. intros ?. apply relays_err_done.
  - unfold timeout_killer. erewrite bind_Ok by apply modify_run. apply Hnext; auto. intros ?. by apply relays_skip.
Qed.

Lemma pty_loop_ends pid turns i w s :
  Forall turn_fits turns -> ended out_of turns = true ->
  exists frames i' s', pty_loop pid turns (mkConn i w s) = (Ok true, mkConn i' (w ++ encs frames) s')
    /\ relays false true turns frames /\ later s s'.
Proof.
  intros HF. revert i w s. induction HF as [|t turns Ht HF IH]; intros i w s He; [done|].
  assert (forall i' s1, later s s1 -> (forall fs, relays false true turns fs -> relays false true (t :: turns) fs) ->
    ended out_of turns = true ->
    exists frames i'' s', pty_loop pid turns (mkConn i' w s1) = (Ok true, mkConn i'' (w ++ encs frames) s')
      /\ relays false true (t :: turns) frames /\ later s s') as Hnext.
  { intros i' s1 Hl Hr He'. destruct (IH i' w s1 He') as (fs & i'' & s' & H1 & H2 & H3).
    exists fs, i'', s'. split; [exact H1|]. split; [by apply Hr|by etrans]. }
  assert (forall i' s1, later s s1 -> exists frames i'' s', (Ok true, mkConn i' w s1) = (@Ok cerror _ true, mkConn i'' (w ++ encs frames) s')
      /\ relays false true (t :: turns) frames /\ later s s') as Hbreak.
  { intros i' s1 Hl. exists [], i', s1. unfold encs. cbn. rewrite app_nil_r. split; [done|]. split; [apply relays_nil|done]. }
  cbn [pty_loop]. destruct t as [|n lost|n lost|].
  - rewrite attempt_rx. destruct (recv i) as [[[d| |sig|tty] r]|e]; cbv beta iota; erewrite ?bind_Ok by apply modify_run.
    1-4: apply Hnext; auto; intros ?; by apply relays_skip.
    apply Hbreak; auto.
  - erewrite bind_Ok by apply lose_run. destruct n as [[|x d]|k]; [apply Hbreak; auto| |apply Hbreak; auto].
    erewrite bind_Ok by (by apply tx_fits).
    destruct (IH (drop lost i) (w ++ enc (Stdout (x :: d))) s) as (fs & i' & s' & -> & Hr & Hl); [done|].
    exists (Stdout (x :: d) :: fs), i', s'. rewrite encs_cons. split; [done|]. split; [|done]. by apply relays_out_more.
  - apply Hnext; auto. intros ?. apply relays_err_done.
  - unfold timeout_killer. erewrite bind_Ok by apply modify_run. apply Hnext; auto. intros ?. by apply relays_skip.
Qed.

Lemma guarded_run pid ms body i w s i' w' s' :
  body (mkConn i w (set_armed (negb (ms =? 0)) s)) = (Ok true, mkConn i' w' s') ->
  guarded pid ms body (mkConn i w s) = (Ok true, mkConn i' w' (kill_job pid SIGKILL (set_armed false s'))).
Proof.
  intros H. unfold guarded. erewrite bind_Ok by apply modify_run.
  erewrite bind_Ok by (unfold attempt; by rewrite H). cbv beta iota. by erewrite bind_Ok by apply modify_run.
Qed.

(** ** A connected host *)

(** What a child with an open input gets of the host's frames. *)
Fixpoint stdin_of (msgs : list ExecIn) : list Z :=
  match msgs with
  | Stdin d :: r => d ++ stdin_of r
  | StdinClose :: _ | [] => []
  | _ :: r => stdin_of r
  end.

(** No receive was cancelled in the middle of a frame. *)
Definition lost_by (t : turn) : nat := match t with OutTurn _ l | ErrTurn _ l => l | _ => 0 end.
Definition host_turns (turns : list turn) : nat := length (List.filter (fun t => match t with HostTurn => true | _ => false end) turns).

(** Every byte of both streams was sent, and nothing else. *)
Record sends_all (so se : bool) (turns : list turn) (frames : list ExecOut) : Prop := {
  sa_output : Forall (fun f => is_output f = true) frames;
  sa_fits : Forall fits frames;
  sa_stdout : concat (stdout_of <$> frames) = if so then [] else bytes_of out_of turns;
  sa_stderr : concat (stderr_of <$> frames) = if se then [] else bytes_of err_of turns
}.

Lemma sends_nil turns : sends_all true true turns [].
Proof. by split. Qed.

Lemma sends_out_more so se x d lost turns fs :
  so = false -> fits (Stdout (x :: d)) -> sends_all so se turns fs -> sends_all so se (OutTurn (Ok (x :: d)) lost :: turns) (Stdout (x :: d) :: fs).
Proof. intros -> Hf [?? Ho ?]. split; [by constructor..| |done]. rewrite fmap_cons. cbn [concat stdout_of bytes_of out_of]. by rewrite Ho. Qed.

Lemma sends_err_more so se x d lost turns fs :
  se = false -> fits (Stderr (x :: d)) -> sends_all so se turns fs -> sends_all so se (ErrTurn (Ok (x :: d)) lost :: turns) (Stderr (x :: d) :: fs).
Proof. intros -> Hf [??? He]. split; [by constructor..|done|]. rewrite fmap_cons. cbn [concat stderr_of bytes_of err_of]. by rewrite He. Qed.

(** Turns that send nothing. *)
Lemma sends_skip so se so' se' t turns fs :
  (so' = so /\ out_of t = None \/ so' = true /\ (so = true \/ exists n, out_of t = Some n /\ at_end n = true)) ->
  (se' = se /\ err_of t = None \/ se' = true /\ (se = true \/ exists n, err_of t = Some n /\ at_end n = true)) ->
  sends_all so' se' turns fs -> sends_all so se (t :: turns) fs.
Proof.
  intros Ho He [?? Hso Hse]. split; [done..| |].
  - rewrite Hso. destruct Ho as [[-> Ho]|[-> [->|(n & Ho & Hn)]]]; cbn [bytes_of]; rewrite ?Ho; [done|done|].
    destruct so; [done|]. by destruct n as [[|]|].
  - rewrite Hse. destruct He as [[-> He]|[-> [->|(n & He & Hn)]]]; cbn [bytes_of]; rewrite ?He; [done|done|].
    destruct se; [done|]. by destruct n as [[|]|].
Qed.

Definition fed_from (s : execution) (msgs : list ExecIn) : list Z := x_fed s ++ if x_stdin s then stdin_of msgs else [].

Lemma fed_from_nil s : fed_from s [] = x_fed s.
Proof. unfold fed_from. destruct (x_stdin s); simpl; apply app_nil_r. Qed.

Lemma kill_job_pipe pid sig s : x_fed (kill_job pid sig s) = x_fed s /\ x_stdin (kill_job pid sig s) = x_stdin s.
Proof. unfold kill_job. by case_match. Qed.

Lemma fed_from_kill pid sig s ms : fed_from (kill_job pid sig s) ms = fed_from s ms.
Proof. unfold fed_from. by destruct (kill_job_pipe pid sig s) as [-> ->]. Qed.

Lemma pipe_loop_relays pid turns so se msgs rest w s :
  Forall turn_fits turns -> Forall (fun t => lost_by t = 0%nat) turns -> Forall fits msgs ->
  (host_turns turns <= length msgs)%nat ->
  so || ended out_of turns = true -> se || ended err_of turns = true ->
  exists frames k i' s', pipe_loop pid turns so se (mkConn (encs msgs ++ rest) w s) = (Ok true, mkConn i' (w ++ encs frames) s')
    /\ sends_all so se turns frames /\ x_fed s' = fed_from s (take k msgs).
Proof.
  intros HF HL. revert so se msgs w s. induction turns as [|t turns IH]; intros so se msgs w s Hm Hc Ho He.
  { rewrite orb_false_r in Ho, He. subst. exists [], 0%nat, (encs msgs ++ rest), s. unfold encs at 2. cbn. rewrite app_nil_r, fed_from_nil. split; [done|]. split; [apply sends_nil|done]. }
  apply Forall_cons in HF as [Ht HF]. apply Forall_cons in HL as [H0 HL]. specialize (IH HF HL).
  cbn [pipe_loop]. destruct (so && se) eqn:E.
  { apply andb_prop in E as [-> ->]. exists [], 0%nat, (encs msgs ++ rest), s. unfold encs at 2. cbn. rewrite app_nil_r, fed_from_nil. split; [done|]. split; [apply sends_nil|done]. }
  assert (forall so' se' s1, (forall ms, fed_from s1 ms = fed_from s ms) ->
    (forall fs, sends_all so' se' turns fs -> sends_all so se (t :: turns) fs) ->
    (host_turns turns <= length msgs)%nat -> so' || ended out_of turns = true -> se' || ended err_of turns = true ->
    exists frames k i' s', pipe_loop pid turns so' se' (mkConn (encs msgs ++ rest) w s1) = (Ok true, mkConn i' (w ++ encs frames) s')
      /\ sends_all so se (t :: turns) frames /\ x_fed s' = fed_from s (take k msgs)) as Hnext.
  { intros so' se' s1 Hs Hr Hc' Ho' He'. destruct (IH so' se' msgs w s1 Hm Hc' Ho' He') as (fs & k & i' & s' & H1 & H2 & H3).
    exists fs, k, i', s'. rewrite <- Hs. auto. }
  destruct t as [|n lost|n lost|].
  - destruct msgs as [|m msgs]; [unfold host_turns in Hc; simpl in Hc; lia|]. apply Forall_cons in Hm as [Hf Hm].
    assert (host_turns turns <= length msgs)%nat as Hc' by (unfold host_turns in *; simpl in Hc; lia).
    assert (forall s1, (forall ms, fed_from s1 ms = fed_from s (m :: ms)) ->
      exists frames k i' s', pipe_loop pid turns so se (mkConn (encs msgs ++ rest) w s1) = (Ok true, mkConn i' (w ++ encs frames) s')
        /\ sends_all so se (HostTurn :: turns) frames /\ x_fed s' = fed_from s (take k (m :: msgs))) as Hmsg.
    { intros s1 Hs. destruct (IH so se msgs w s1 Hm Hc' Ho He) as (fs & k & i' & s' & H1 & H2 & H3).
      exists fs, (S k), i', s'. cbn [firstn take]. rewrite <- Hs. split; [done|]. split; [|done]. eapply sends_skip; [..|exact H2]; auto. }
    rewrite attempt_rx. change (encs (m :: msgs)) with (enc m ++ encs msgs). rewrite <- app_assoc, recv_enc by done.
    destruct m as [d| |sig|tty]; cbv beta iota; erewrite ?bind_Ok by apply modify_run; apply Hmsg; intros ms.
    + unfold fed_from. destruct (x_stdin s) eqn:Es; cbn [x_fed x_stdin add_fed stdin_of]; rewrite ?Es; [by rewrite app_assoc|done].
    + unfold fed_from. cbn. destruct (x_stdin s); done.
    + rewrite fed_from_kill. unfold fed_from. by destruct (x_stdin s).
    + unfold fed_from. by destruct (x_stdin s).
  - simpl in H0. subst lost. destruct so; [apply Hnext; auto; intros ?; apply sends_skip; auto|].
    erewrite bind_Ok by apply lose_run. rewrite drop_0. destruct n as [[|x d]|k]; [apply Hnext; auto; intros ?; apply sends_skip; eauto 6| |apply Hnext; auto; intros ?; apply sends_skip; eauto 6].
    erewrite bind_Ok by (by apply tx_fits). simpl in Ho.
    destruct (IH false se msgs (w ++ enc (Stdout (x :: d))) s) as (fs & k & i' & s' & -> & Hr & Hl); [done..|].
    exists (Stdout (x :: d) :: fs), k, i', s'. rewrite encs_cons. split; [done|]. split; [|done]. by apply sends_out_more.
  - simpl in H0. subst lost. destruct se; [apply Hnext; auto; intros ?; apply sends_skip; auto|].
    erewrite bind_Ok by apply lose_run. rewrite drop_0. destruct n as [[|x d]|k]; [apply Hnext; auto; intros ?; apply sends_skip; eauto 6| |apply Hnext; auto; intros ?; apply sends_skip; eauto 6].
    erewrite bind_Ok by (by apply tx_fits). simpl in He.
    destruct (IH so false msgs (w ++ enc (Stderr (x :: d))) s) as (fs & k & i' & s' & -> & Hr & Hl); [done..|].
    exists (Stderr (x :: d) :: fs), k, i', s'. rewrite encs_cons. split; [done|]. split; [|done]. by apply sends_err_more.
  - unfold timeout_killer. erewrite bind_Ok by apply modify_run. apply Hnext; auto; [|intros ?; apply sends_skip; auto].
    intros ms. destruct (x_armed s); [by rewrite fed_from_kill|done].
Qed.

(** ** The handler *)

Context (error_text : io_kind -> string) (passwd group : result io_kind string) (spawned : command -> result io_kind Z)
  (waited : Z -> option ExitStatus) (elapsed : Z)
  (openpty : TtyConfig -> result io_kind ()) (dup_fd : string -> result io_kind ()).

(** The child that [handle] starts. *)
Definition launched (req : ExecStart) : result string Z :=
  match es_tty req with
  | Some _ => pty_spawn error_text passwd group spawned openpty dup_fd req
  | None =>
    credentials ← map_err error_text (resolve_credentials passwd group req);
    id ← map_err error_text (spawned (pipe_command req credentials)); Ok (i32 id)
  end.

(** The streams that the agent reads have ended. *)
Definition output_ends (req : ExecStart) (turns : list turn) : bool :=
  ended out_of turns && match es_tty req with Some _ => true | None => ended err_of turns end.

Abbreviation run_exec := (handle error_text passwd group spawned waited elapsed openpty dup_fd).

Lemma finish_run pid exit i w s :
  waited pid = Some exit -> fits (Exit (xt_code exit) (xt_signal exit) (x_timed_out s) (u64 elapsed) None) ->
  finish waited elapsed true pid (mkConn i w s)
  = (Ok true, mkConn i (w ++ enc (Exit (xt_code exit) (xt_signal exit) (x_timed_out s) (u64 elapsed) None)) s).
Proof.
  intros Hw Hf. unfold finish, send_exit. rewrite Hw. erewrite bind_Ok; [done|]. erewrite bind_Ok by done.
  erewrite bind_Ok by done. by apply tx_fits.
Qed.

Lemma killed pid s : 1 < pid -> [(- pid, SIGKILL); (pid, SIGKILL)] `suffix_of` x_kills (kill_job pid SIGKILL s).
Proof. intros H. unfold kill_job. rewrite (proj2 (Z.leb_gt _ _)) by lia. by eexists. Qed.

Lemma kill_job_fields pid sig s :
  x_seq (kill_job pid sig s) = x_seq s /\ x_timed_out (kill_job pid sig s) = x_timed_out s.
Proof. unfold kill_job. by case_match. Qed.

(** The state in which the pipe loop starts. *)
Definition piped (req : ExecStart) (pid seq : Z) : execution :=
  set_armed (negb (es_timeout_ms req =? 0)) (set_stdin (es_stdin req) (set_group pid (fresh_execution (u64 (seq + 1))))).

Definition exec_id_of (s : execution) : string := ("exec-" +:+ dec_u64 (x_seq s))%string.

Lemma handle_pipe_run turns req pid exit i w s i' w' s' :
  es_tty req = None -> launched req = Ok pid -> waited pid = Some exit -> fits (AckExecStarted (exec_id_of s) pid) ->
  fits (Exit (xt_code exit) (xt_signal exit) (x_timed_out s') (u64 elapsed) None) ->
  pipe_loop pid turns false false (mkConn i (w ++ enc (AckExecStarted (exec_id_of s) pid)) (piped req pid (x_seq s))) = (Ok true, mkConn i' w' s') ->
  run_exec turns req (mkConn i w s)
  = (Ok true, mkConn i' (w' ++ enc (Exit (xt_code exit) (xt_signal exit) (x_timed_out s') (u64 elapsed) None))
                (set_stdin false (kill_job pid SIGKILL (set_armed false s')))).
Proof.
  unfold launched, handle, exec_id_of. cbn [c_in c_out c_st]. intros -> Hl Hw Hf Hx Hrun. inv_bind. unfold handle_pipe.
  destruct (resolve_credentials passwd group req) as [cr|k]; simpl in *; simplify_eq.
  destruct (spawned (pipe_command req a)) as [id|k]; simpl in *; simplify_eq.
  erewrite bind_Ok by apply modify_run. erewrite bind_Ok by (by apply tx_fits). erewrite bind_Ok by apply modify_run.
  erewrite bind_Ok by (apply guarded_run, Hrun). erewrite bind_Ok by apply modify_run.
  destruct (kill_job_fields (i32 a0) SIGKILL (set_armed false s')) as [_ Ht].
  erewrite finish_run; [|done|]; cbn [x_timed_out set_stdin]; by rewrite Ht.
Qed.

(** C11.  An exec always ends: whatever the host sends, stays silent about or breaks
    off in the middle, whatever it loses to a cancelled receive and whenever the
    clock strikes, once the streams of the started child have ended the handler
    returns.  It has then answered with the child's id first, relayed only output,
    of each stream a beginning of what the child wrote, and as its last frame sent
    the status that the reaper delivered, marked as timed out only if the request
    had a timeout; and the last thing it did to the job was to kill its group. *)
Theorem exec_ends turns req pid exit i w s :
  launched req = Ok pid -> waited pid = Some exit -> output_ends req turns = true ->
  Forall turn_fits turns ->
  fits (AckExecStarted (exec_id_of s) pid) ->
  (forall timed_out, fits (Exit (xt_code exit) (xt_signal exit) timed_out (u64 elapsed) None)) ->
  exists frames timed_out i' s',
    run_exec turns req (mkConn i w s)
    = (Ok true, mkConn i' (w ++ enc (AckExecStarted (exec_id_of s) pid) ++ encs frames
                             ++ enc (Exit (xt_code exit) (xt_signal exit) timed_out (u64 elapsed) None)) s')
    /\ relays false (bool_decide (is_Some (es_tty req))) turns frames
    /\ (es_timeout_ms req = 0 -> timed_out = false)
    /\ (1 < pid -> [(- pid, SIGKILL); (pid, SIGKILL)] `suffix_of` x_kills s')
    /\ x_seq s' = u64 (x_seq s + 1).
Proof.
  intros Hl Hw He Ht Hf Hx. unfold output_ends in He. destruct (es_tty req) as [tty|] eqn:E.
  - rewrite andb_true_r in He. unfold launched, handle, exec_id_of in *. cbn [c_in c_out c_st]. rewrite E in *. unfold handle_pty. rewrite Hl, E. erewrite bind_Ok by apply modify_run. erewrite bind_Ok by (by apply tx_fits).
    destruct (pty_loop_ends pid turns i (w ++ enc (AckExecStarted ("exec-" +:+ dec_u64 (x_seq s)) pid))
      (set_armed (negb (es_timeout_ms req =? 0)) (set_winsize tty (fresh_execution (u64 (x_seq s + 1))))) Ht He) as (fs & i' & s' & Hrun & Hr & Hla).
    erewrite bind_Ok by (apply guarded_run, Hrun). erewrite finish_run by done. cbn [x_timed_out].
    eexists fs, _, i', _. rewrite <- !app_assoc. split; [done|]. split; [done|]. split.
    + intros Hz. destruct (kill_job_fields pid SIGKILL (set_armed false s')) as [_ ->]. apply (later_clock _ _ Hla). by rewrite Hz.
    + split; [by apply killed|]. destruct (kill_job_fields pid SIGKILL (set_armed false s')) as [-> _]. apply (later_seq _ _ Hla).
  - apply andb_prop in He as [Ho He].
    destruct (pipe_loop_ends pid turns false false i (w ++ enc (AckExecStarted (exec_id_of s) pid)) (piped req pid (x_seq s)) Ht Ho He)
      as (fs & i' & s' & Hrun & Hr & Hla).
    eexists fs, (x_timed_out s'), i', _. erewrite handle_pipe_run by done. rewrite <- !app_assoc. split; [done|]. split; [done|].
    cbn [x_kills x_seq set_stdin]. destruct (kill_job_fields pid SIGKILL (set_armed false s')) as [-> _].
    split; [intros Hz; apply (later_clock _ _ Hla); simpl; by rewrite Hz|]. split; [by apply killed|]. apply (later_seq _ _ Hla).
Qed.

Lemma handle_pipe_relays turns req pid exit msgs rest w s :
  es_tty req = None -> launched req = Ok pid -> waited pid = Some exit -> output_ends req turns = true ->
  Forall turn_fits turns -> Forall (fun t => lost_by t = 0%nat) turns ->
  Forall fits msgs -> (host_turns turns <= length msgs)%nat ->
  fits (AckExecStarted (exec_id_of s) pid) ->
  (forall timed_out, fits (Exit (xt_code exit) (xt_signal exit) timed_out (u64 elapsed) None)) ->
  exists frames k timed_out i' s',
    run_exec turns req (mkConn (encs msgs ++ rest) w s)
    = (Ok true, mkConn i' (w ++ enc (AckExecStarted (exec_id_of s) pid) ++ encs frames
                             ++ enc (Exit (xt_code exit) (xt_signal exit) timed_out (u64 elapsed) None)) s')
    /\ sends_all false false turns frames
    /\ x_fed s' = if es_stdin req then stdin_of (take k msgs) else [].
Proof.
  intros E Hl Hw He Ht H0 Hm Hc Hf Hx. unfold output_ends in He. rewrite E in He. apply andb_prop in He as [Ho He].
  destruct (pipe_loop_relays pid turns false false msgs rest (w ++ enc (AckExecStarted (exec_id_of s) pid)) (piped req pid (x_seq s)) Ht H0 Hm Hc Ho He)
    as (fs & k & i' & s' & Hrun & Hr & Hfed).
  eexists fs, k, (x_timed_out s'), i', _. erewrite handle_pipe_run by done. rewrite <- !app_assoc. split; [done|]. split; [done|].
  cbn [x_fed set_stdin]. destruct (kill_job_pipe pid SIGKILL (set_armed false s')) as [-> _]. cbn [x_fed set_armed]. by rewrite Hfed.
Qed.

(** With a connected host nothing is lost: if no receive is cancelled in the
    middle of a frame and the host has sent every frame the agent waits for, the
    frames relayed, all of them output, carry exactly the bytes of each output stream of the child, in
    order, and the child's standard input is exactly what the frames received sent
    up to its closing, or nothing when the request did not ask for one. *)
Theorem exec_relays turns req pid exit msgs rest w s :
  es_tty req = None -> launched req = Ok pid -> waited pid = Some exit -> output_ends req turns = true ->
  Forall turn_fits turns -> Forall (fun t => lost_by t = 0%nat) turns ->
  Forall fits msgs -> (host_turns turns <= length msgs)%nat ->
  fits (AckExecStarted (exec_id_of s) pid) ->
  (forall timed_out, fits (Exit (xt_code exit) (xt_signal exit) timed_out (u64 elapsed) None)) ->
  exists frames k timed_out i' s',
    run_exec turns req (mkConn (encs msgs ++ rest) w s)
    = (Ok true, mkConn i' (w ++ enc (AckExecStarted (exec_id_of s) pid) ++ encs frames
                             ++ enc (Exit (xt_code exit) (xt_signal exit) timed_out (u64 elapsed) None)) s')
    /\ sends_all false false turns frames
    /\ x_fed s' = if es_stdin req then stdin_of (take k msgs) else [].
Proof. apply handle_pipe_relays. Qed.
End Ends.

Module Sample.
#[local] Instance pc_ack : Postcard HelloAck := {
  to_allocvec m := match m with
                   | AckExecStarted id pid => Some (2 :: pid :: str_bytes id)
                   | AckReady => Some [0]
                   | AckControl v => Some [1; v]
                   | AckError _ => None
                   end;
  from_bytes b := match b with
                  | 2 :: pid :: id => Some (AckExecStarted (bytes_str id) pid)
                  | [0] => Some AckReady
                  | [1; v] => Some (AckControl v)
                  | _ => None
                  end
}.
#[local] Instance pc_in : Postcard ExecIn := {
  to_allocvec m := match m with Stdin d => Some (0 :: d) | StdinClose => Some [1] | _ => None end;
  from_bytes b := match b with 0 :: d => Some (Stdin d) | [1] => Some StdinClose | _ => None end
}.
#[local] Instance pc_out : Postcard ExecOut := {
  to_allocvec m := match m with
                   | Stdout d => Some (0 :: d)
                   | Stderr d => Some (1 :: d)
                   | Exit c None timed_out ms None => Some [2; c; Z.b2z timed_out; ms]
                   | _ => None
                   end;
  from_bytes b := match b with
                  | 0 :: d => Some (Stdout d)
                  | 1 :: d => Some (Stderr d)
                  | [2; c; t; ms] => Some (Exit c None (negb (t =? 0)) ms None)
                  | _ => None
                  end
}.
#[local] Instance pc_ack_laws : PostcardLaws HelloAck.
Proof. split. intros [] p; simpl; try done; intros [= <-]; rewrite ?bytes_str_bytes; done. Qed.
#[local] Instance pc_in_laws : PostcardLaws ExecIn.
Proof. split. intros [] p; simpl; try done; by intros [= <-]. Qed.
#[local] Instance pc_out_laws : PostcardLaws ExecOut.
Proof. split. intros [d|d|c [?|] [] ms [?|]|e] p; simpl; try done; by intros [= <-]. Qed.

Definition cat : ExecStart := with_timeout (with_stdin (ExecStart_new "cat")) 500.
Definition no_file : result io_kind string := Err EkNotFound.
Definition fork_42 (c : command) : result io_kind Z := Ok 42.
Definition exit_0 (pid : Z) : option ExitStatus := Some (mkExitStatus 42 0 None).
Definition msgs : list ExecIn := [Stdin [104; 105]; StdinClose].
Definition idle : execution := fresh_execution 1.
(** The child repeats its input after a prompt, and ends. *)
Definition turns (lost : nat) : list turn :=
  [OutTurn (Ok [62]) lost; HostTurn; HostTurn; OutTurn (Ok [104; 105]) 0; ErrTurn (Err EkOther) 0; OutTurn (Ok []) 0].

Definition run (ts : list turn) : result cerror bool * conn execution :=
  handle (fun _ => ""%string) no_file no_file fork_42 exit_0 7 (fun _ => Ok ()) (fun _ => Ok ()) ts cat (mkConn (encs msgs) [] idle).

Lemma exec_ends_witness :
  exists i' s' frames timed_out,
    run [HostTurn; OutTurn (Ok [1]) 3; TimerTurn; ErrTurn (Ok []) 0; OutTurn (Ok []) 0]
    = (Ok true, mkConn i' (enc (AckExecStarted "exec-1" 42) ++ encs frames ++ enc (Exit 0 None timed_out 7 None)) s')
    /\ [(-42, 9); (42, 9)] `suffix_of` x_kills s'.
Proof.
  destruct (exec_ends (fun _ => ""%string) no_file no_file fork_42 exit_0 7 (fun _ => Ok ()) (fun _ => Ok ())
    [HostTurn; OutTurn (Ok [1]) 3; TimerTurn; ErrTurn (Ok []) 0; OutTurn (Ok []) 0] cat 42 (mkExitStatus 42 0 None) (encs msgs) [] idle)
    as (fs & t & i' & s' & H & _ & _ & Hk & _); [reflexivity..| | | |].
  - repeat constructor; by eexists.
  - by eexists.
  - intros t. by eexists.
  - exists i', s', fs, t. split; [exact H|]. apply Hk. lia.
Defined.

Lemma exec_relays_witness :
  exists frames k timed_out i' s',
    run (turns 0) = (Ok true, mkConn i' (enc (AckExecStarted "exec-1" 42) ++ encs frames ++ enc (Exit 0 None timed_out 7 None)) s')
    /\ concat (stdout_of <$> frames) = [62; 104; 105] /\ x_fed s' = stdin_of (take k msgs).
Proof.
  destruct (exec_relays (fun _ => ""%string) no_file no_file fork_42 exit_0 7 (fun _ => Ok ()) (fun _ => Ok ())
    (turns 0) cat 42 (mkExitStatus 42 0 None) msgs [] [] idle)
    as (fs & k & t & i' & s' & H & [_ _ Ho _] & Hf); [reflexivity..| | | | | | |].
  - repeat constructor; by eexists.
  - repeat constructor.
  - repeat constructor; by eexists.
  - vm_compute. lia.
  - by eexists.
  - intros t. by eexists.
  - rewrite app_nil_r in H. exists fs, k, t, i', s'. split; [exact H|]. split; [exact Ho|exact Hf].
Defined.

(** [recv] is not safe to cancel: a prompt of the child that arrives when four bytes
    of the host's frame had been read makes the rest of the frame a length, the
    host counts as disconnected, and the job is killed without its input. *)
Example cancelled_receive_kills_the_job :
  x_fed (c_st (run (turns 0)).2) = [104; 105] /\ x_kills (c_st (run (turns 0)).2) = [(-42, 9); (42, 9)]
  /\ x_fed (c_st (run (turns 4)).2) = [] /\ x_kills (c_st (run (turns 4)).2) = [(-42, 9); (42, 9); (-42, 9); (42, 9)].
Proof. vm_compute. done. Qed.
End Sample.
