(* ===== verification/GuestServer.v ===== *)
(** * The sessions of the guest agent

    [crates/bux-guest/src/mounts.rs] (freezing and thawing), [control.rs] and the
    dispatch of [server.rs]: a connection says what it is for in its first frame
    and is served by the handler of [GuestExec] or [GuestFiles] or by the control
    loop.  The kernel's side of freezing is the set of frozen superblocks; which
    one a mount point opens, and whether it can be frozen, are parameters. *)

From S2P Require Import Prelude Files Paths Text ProtoMessages Codec Vfs SafeRoot LayerExtract Process Wire GuestFiles GuestReaper GuestExec.

(** ** mounts.rs *)

Definition SKIP_FS_TYPES : list string :=
  ["proc"; "sysfs"; "devtmpfs"; "devpts"; "tmpfs"; "cgroup"; "cgroup2"; "securityfs"; "debugfs"; "tracefs"; "configfs";
   "fusectl"; "mqueue"; "hugetlbfs"; "pstore"; "binfmt_misc"; "autofs"; "rpc_pipefs"; "nfsd"; "overlay"; "virtiofs"]%string.

Section Mounts.
(** The superblock that opening a mount point gives; whether it supports freezing;
    and the text of [/proc/mounts]. *)
Context (open_sb : string -> option nat) (can_freeze : nat -> bool) (proc_mounts : option string).

Inductive ioctl_result : Type := Done | EBUSY | OtherError.

Definition ioctl_freeze (sb : nat) (frozen : gset nat) : ioctl_result * gset nat :=
  if can_freeze sb then if decide (sb ∈ frozen) then (EBUSY, frozen) else (Done, {[sb]} ∪ frozen) else (OtherError, frozen).
Definition ioctl_thaw (sb : nat) (frozen : gset nat) : ioctl_result * gset nat :=
  if decide (sb ∈ frozen) then (Done, frozen ∖ {[sb]}) else (OtherError, frozen).

(** A line of [/proc/mounts] that is to be frozen: its mount point. *)
Definition freezable (line : string) : option string :=
  match split_whitespace line with
  | _ :: mount_point :: fs_type :: options :: _ =>
    if bool_decide (fs_type ∈ SKIP_FS_TYPES) then None else
    if bool_decide ("ro"%string ∈ split_on "," options) then None else Some mount_point
  | _ => None
  end.

(** One mount point, with those frozen so far. *)
Definition freeze_one (mount_point : string) (st : list string * gset nat) : list string * gset nat :=
  let '(frozen, k) := st in
  match open_sb mount_point with
  | None => (frozen, k)
  | Some sb =>
    match ioctl_freeze sb k with
    | (Done, k) | (EBUSY, k) => (frozen ++ [mount_point], k)
    | (OtherError, k) => (frozen, k)
    end
  end.

Definition freeze_filesystems (k : gset nat) : list string * gset nat :=
  match proc_mounts with
  | None => ([], k)
  | Some mounts => foldl (fun st line => match freezable line with Some m => freeze_one m st | None => st end) ([], k) (lines mounts)
  end.

Definition thaw_one (st : Z * gset nat) (mount_point : string) : Z * gset nat :=
  let '(thawed, k) := st in
  match open_sb mount_point with
  | None => (thawed, k)
  | Some sb => match ioctl_thaw sb k with (Done, k) => (u32 (thawed + 1), k) | (_, k) => (thawed, k) end
  end.

Definition thaw_frozen (frozen : list string) (k : gset nat) : Z * gset nat := foldl thaw_one (0, k) frozen.
End Mounts.

(** ** control.rs *)

Inductive shutdown_step : Type := KillAll (sig : Z) | Sleep (ms : Z) | Sync | ExitProcess (code : Z).

Definition graceful_shutdown : list shutdown_step := [KillAll 15; Sleep 500; KillAll 9; Sync; ExitProcess 0].

(** The kernel's frozen superblocks, [FROZEN_MOUNTS], and the steps of a shutdown. *)
Record control : Type := mkControl { k_frozen : gset nat; frozen_mounts : list string; down : list shutdown_step }.

Abbreviation ctlM := (cM control).

Section Control.
Context {PR : Postcard ControlReq} {PS : Postcard ControlResp}.
Context (open_sb : string -> option nat) (can_freeze : nat -> bool) (proc_mounts : option string) (pkg_version : string) (uptime_ms : Z).

(** One request: whether the agent goes on. *)
Definition serve (req : ControlReq) : ctlM bool :=
  match req with
  | Ping => tx (Pong pkg_version uptime_ms) ≫= fun _ => mret true
  | Shutdown =>
    tx ShutdownOk ≫= fun _ =>
    modify (fun s => mkControl (k_frozen s) (frozen_mounts s) graceful_shutdown) ≫= fun _ => mret false
  | Quiesce =>
    s ← get_state;
    let '(frozen, k) := freeze_filesystems open_sb can_freeze proc_mounts (k_frozen s) in
    modify (fun s => mkControl k frozen (down s)) ≫= fun _ =>
    tx (QuiesceOk (u32 (Z.of_nat (length frozen)))) ≫= fun _ => mret true
  | Thaw =>
    s ← get_state;
    let '(count, k) := thaw_frozen open_sb (frozen_mounts s) (k_frozen s) in
    modify (fun s => mkControl k [] (down s)) ≫= fun _ =>
    tx (ThawOk count) ≫= fun _ => mret true
  end.

Fixpoint control_loop (fuel : nat) : ctlM () :=
  match fuel with
  | O => stop COutOfFuel
  | S fuel =>
    req ← attempt (rx ControlReq);
    match req with
    | Err (CIo EkUnexpectedEof) => mret ()
    | Err e => stop e
    | Ok req => alive ← serve req; if (alive : bool) then control_loop fuel else mret ()
    end
  end.

(** Every request takes bytes from the input. *)
Definition control_handle : ctlM () := fun c => control_loop (S (length (c_in c))) c.
End Control.

(** ** server.rs *)

Record agent : Type := mkAgent { ag_files : guest; ag_exec : execution; ag_control : control }.

(** A handler over its part of the state. *)
Definition zoom {S S' A} (get : S -> S') (put : S' -> S -> S) (m : cM S' A) : cM S A := fun c =>
  let '(r, c') := m (mkConn (c_in c) (c_out c) (get (c_st c))) in (r, mkConn (c_in c') (c_out c') (put (c_st c') (c_st c))).

Definition on_files {A} : cM guest A -> cM agent A := zoom ag_files (fun g s => mkAgent g (ag_exec s) (ag_control s)).
Definition on_exec {A} : cM execution A -> cM agent A := zoom ag_exec (fun x s => mkAgent (ag_files s) x (ag_control s)).
Definition on_control {A} : cM control A -> cM agent A := zoom ag_control (fun k s => mkAgent (ag_files s) (ag_exec s) k).

(** What the agent's handlers need of the world. *)
Record platform : Type := mkPlatform {
  pf_text : cerror -> string; pf_pid : string; pf_reads : list Z -> list (list Z);
  pf_members : list Z -> list (result io_kind entry); pf_unpack : entry -> loc -> sys ();
  pf_append_dir_all : bool -> path -> vfs -> result io_kind (list Z);
  pf_append_path_with_name : bool -> path -> string -> vfs -> result io_kind (list Z);
  pf_passwd : result io_kind string; pf_group : result io_kind string; pf_spawned : command -> result io_kind Z;
  pf_waited : Z -> option ExitStatus; pf_elapsed : Z;
  pf_openpty : TtyConfig -> result io_kind (); pf_dup_fd : string -> result io_kind ();
  pf_open_sb : string -> option nat; pf_can_freeze : nat -> bool; pf_proc_mounts : option string;
  pf_version : string; pf_uptime_ms : Z
}.

Section Session.
Context {PH : Postcard Hello} {PA : Postcard HelloAck} {PCR : Postcard ControlReq} {PCS : Postcard ControlResp}
  {PXI : Postcard ExecIn} {PXO : Postcard ExecOut} {PU : Postcard Upload} {PUR : Postcard UploadResult} {PD : Postcard Download}.
Context (pf : platform).

Definition version_text (version : Z) : string :=
  ("host protocol v" +:+ dec_u64 version +:+ ", guest protocol v" +:+ dec_u64 PROTOCOL_VERSION +:+ " (bux-guest-protocol-v10)")%string.

(** Whether the session ended; an exec can still be waiting when its turns are used up. *)
Definition session (turns : list turn) : cM agent bool :=
  hello ← attempt (rx Hello);
  match hello with
  | Err (CIo EkUnexpectedEof) => mret true
  | Err e => stop e
  | Ok (HControl version) =>
    if decide (version <> PROTOCOL_VERSION) then tx (AckError (version_mismatch (version_text version))) ≫= fun _ => mret true
    else
      tx (AckControl PROTOCOL_VERSION) ≫= fun _ =>
      on_control (control_handle (pf_open_sb pf) (pf_can_freeze pf) (pf_proc_mounts pf) (pf_version pf) (pf_uptime_ms pf)) ≫= fun _ => mret true
  | Ok (HExec req) =>
    on_exec (handle (fun k => pf_text pf (CIo k)) (pf_passwd pf) (pf_group pf) (pf_spawned pf) (pf_waited pf) (pf_elapsed pf)
               (pf_openpty pf) (pf_dup_fd pf) turns req)
  | Ok (HFileRead p) =>
    tx AckReady ≫= fun _ => on_files (handle_read (pf_text pf) (pf_reads pf) p) ≫= fun _ => mret true
  | Ok (HFileWrite p mode) =>
    tx AckReady ≫= fun _ => on_files (handle_write (pf_text pf) (pf_pid pf) p mode) ≫= fun _ => mret true
  | Ok (HCopyIn dest) =>
    tx AckReady ≫= fun _ => on_files (handle_copy_in (pf_text pf) (pf_pid pf) (pf_members pf) (pf_unpack pf) dest) ≫= fun _ => mret true
  | Ok (HCopyOut p follow) =>
    tx AckReady ≫= fun _ =>
    on_files (handle_copy_out (pf_text pf) (pf_pid pf) (pf_reads pf) (pf_append_dir_all pf) (pf_append_path_with_name pf) p follow) ≫= fun _ => mret true
  end.
End Session.

(** ** Freezing and thawing *)

Section Frozen.
Context (open_sb : string -> option nat) (can_freeze : nat -> bool) (proc_mounts : option string).

(** The superblocks of mount points. *)
Definition sb_set (ms : list string) : gset nat := list_to_set (omap open_sb ms).

(** What a freeze has to stop: the superblocks of the writable, real mounts that can be frozen. *)
Definition eligible (sb : nat) : Prop :=
  exists text line m, proc_mounts = Some text /\ line ∈ lines text /\ freezable line = Some m /\ open_sb m = Some sb /\ can_freeze sb = true.

Lemma sb_set_app ms m sb : open_sb m = Some sb -> sb_set (ms ++ [m]) = sb_set ms ∪ {[sb]}.
Proof. intros H. unfold sb_set. rewrite omap_app, list_to_set_app_L. simpl. rewrite H. simpl. set_solver. Qed.

Lemma freeze_one_spec m fr k fr' k' k0 :
  freeze_one open_sb can_freeze m (fr, k) = (fr', k') -> k = k0 ∪ sb_set fr ->
  k' = k0 ∪ sb_set fr' /\ sb_set fr ⊆ sb_set fr'
  /\ (forall sb, open_sb m = Some sb -> can_freeze sb = true -> sb ∈ sb_set fr')
  /\ (forall sb, sb ∈ sb_set fr' -> sb ∈ sb_set fr \/ open_sb m = Some sb /\ can_freeze sb = true).
Proof.
  unfold freeze_one, ioctl_freeze. intros H ->. destruct (open_sb m) as [sb|] eqn:E; [|simplify_eq; naive_solver].
  destruct (can_freeze sb) eqn:Ec; [|simplify_eq; naive_solver congruence].
  assert (fr' = fr ++ [m] /\ k' = k0 ∪ sb_set (fr ++ [m])) as [-> ->].
  { rewrite (sb_set_app _ _ sb) by done. case_decide; simplify_eq; (split; [done|set_solver]). }
  rewrite (sb_set_app _ _ sb) by done. split; [done|]. split; [set_solver|]. split; [intros ? [= <-]; set_solver|].
  intros sb' [?|?%elem_of_singleton]%elem_of_union; naive_solver.
Qed.

(** Afterwards the eligible superblocks are frozen too, and the list names exactly them. *)
Lemma freeze_spec k fr k' :
  freeze_filesystems open_sb can_freeze proc_mounts k = (fr, k') ->
  k' = k ∪ sb_set fr /\ forall sb, sb ∈ sb_set fr <-> eligible sb.
Proof.
  unfold freeze_filesystems. destruct proc_mounts as [text|] eqn:E.
  2: { intros [= <- <-]. split; [set_solver|]. intros sb. split; [set_solver|]. intros (? & ? & ? & ? & _). congruence. }
  assert (forall ls fr0 k0 fr k', k0 = k ∪ sb_set fr0 ->
    foldl (fun st line => match freezable line with Some m => freeze_one open_sb can_freeze m st | None => st end) (fr0, k0) ls = (fr, k') ->
    k' = k ∪ sb_set fr /\ forall sb, sb ∈ sb_set fr <->
      sb ∈ sb_set fr0 \/ exists line m, line ∈ ls /\ freezable line = Some m /\ open_sb m = Some sb /\ can_freeze sb = true) as Hloop.
  { clear. intros ls. induction ls as [|l ls IH]; intros fr0 k0 fr k' Hk; cbn [foldl].
    { intros [= <- <-]. split; [done|]. intros sb. split; [by left|]. intros [?|(? & ? & H & _)]; [done|]. by apply elem_of_nil in H. }
    destruct (freezable l) as [m|] eqn:Em.
    - destruct (freeze_one open_sb can_freeze m (fr0, k0)) as [fr1 k1] eqn:E1. intros H.
      destruct (freeze_one_spec _ _ _ _ _ _ E1 Hk) as (Hk1 & Hsub & Hin & Hout).
      destruct (IH _ _ _ _ Hk1 H) as [-> Hiff]. split; [done|]. intros sb. rewrite Hiff. split.
      + intros [[?|[? ?]]%Hout|(l' & m' & Hl & ?)]; [by left| |]; right; [exists l, m|exists l', m']; (split; [set_solver|done]).
      + intros [?|(l' & m' & [->|Hl]%elem_of_cons & Hf & Ho & Hc)]; [left; by apply Hsub| |right; by exists l', m'].
        left. simplify_eq. by apply Hin.
    - intros H. destruct (IH _ _ _ _ Hk H) as [-> Hiff]. split; [done|]. intros sb. rewrite Hiff. split.
      + intros [?|(l' & m' & Hl & ?)]; [by left|]. right. exists l', m'. split; [set_solver|done].
      + intros [?|(l' & m' & [->|Hl]%elem_of_cons & ?)]; [by left|destruct_and?; congruence|right; by exists l', m']. }
  intros H. destruct (Hloop _ [] k _ _ ltac:(unfold sb_set; simpl; set_solver) H) as [-> Hiff]. split; [done|].
  intros sb. rewrite Hiff. unfold eligible. split.
  - intros [[]%elem_of_empty|(line & m & Hl)]. by exists text, line, m.
  - intros (t & line & m & Ht & Hl). right. exists line, m. congruence.
Qed.

Lemma thaw_spec fr k : (thaw_frozen open_sb fr k).2 = k ∖ sb_set fr.
Proof using open_sb.
  clear can_freeze proc_mounts. unfold thaw_frozen. generalize 0. revert k. induction fr as [|m fr IH]; intros k n; cbn [foldl]; [unfold sb_set; simpl; set_solver|].
  unfold thaw_one at 2, ioctl_thaw, sb_set. simpl. destruct (open_sb m) as [sb|] eqn:E; [|apply IH].
  case_decide; rewrite IH; unfold sb_set; simpl; set_solver.
Qed.
End Frozen.

(** ** The control loop *)

Section ControlRun.
Context `{PR : PostcardLaws ControlReq} `{PS : PostcardLaws ControlResp}.
Context (open_sb : string -> option nat) (can_freeze : nat -> bool) (proc_mounts : option string) (pkg_version : string) (uptime_ms : Z).

Abbreviation freeze := (freeze_filesystems open_sb can_freeze proc_mounts).
Abbreviation thaw := (thaw_frozen open_sb).

(** What a request does, and its one answer. *)
Definition answer (req : ControlReq) (s : control) : ControlResp * control :=
  match req with
  | Ping => (Pong pkg_version uptime_ms, s)
  | Shutdown => (ShutdownOk, mkControl (k_frozen s) (frozen_mounts s) graceful_shutdown)
  | Quiesce => (QuiesceOk (u32 (Z.of_nat (length (freeze (k_frozen s)).1))), mkControl (freeze (k_frozen s)).2 (freeze (k_frozen s)).1 (down s))
  | Thaw => (ThawOk (thaw (frozen_mounts s) (k_frozen s)).1, mkControl (thaw (frozen_mounts s) (k_frozen s)).2 [] (down s))
  end.

Definition stays_up (req : ControlReq) : bool := match req with Shutdown => false | _ => true end.

Fixpoint answers (reqs : list ControlReq) (s : control) : list ControlResp * control :=
  match reqs with
  | [] => ([], s)
  | r :: reqs =>
    let '(a, s) := answer r s in
    if stays_up r then let '(l, s) := answers reqs s in (a :: l, s) else ([a], s)
  end.

Lemma serve_answer req i w s :
  fits (answer req s).1 ->
  serve open_sb can_freeze proc_mounts pkg_version uptime_ms req (mkConn i w s)
  = (Ok (stays_up req), mkConn i (w ++ enc (answer req s).1) (answer req s).2).
Proof.
  intros Hf. destruct req; cbn [serve answer fst snd stays_up] in *.
  - by erewrite bind_Ok by (by apply tx_fits).
  - erewrite bind_Ok by (by apply tx_fits). by erewrite bind_Ok by apply modify_run.
  - erewrite bind_Ok by reflexivity. cbn [c_st]. destruct (freeze (k_frozen s)) as [fr k]. erewrite bind_Ok by apply modify_run.
    by erewrite bind_Ok by (by apply tx_fits).
  - erewrite bind_Ok by reflexivity. cbn [c_st]. destruct (thaw (frozen_mounts s) (k_frozen s)) as [n k]. erewrite bind_Ok by apply modify_run.
    by erewrite bind_Ok by (by apply tx_fits).
Qed.

(** Every request of a connection is answered once, in order, up to a shutdown; the
    loop always ends. *)
Lemma control_run reqs w s :
  Forall fits reqs -> Forall fits (answers reqs s).1 ->
  exists i', control_handle open_sb can_freeze proc_mounts pkg_version uptime_ms (mkConn (encs reqs) w s)
    = (Ok (), mkConn i' (w ++ encs (answers reqs s).1) (answers reqs s).2).
Proof.
  intros HF HA. unfold control_handle. cbn [c_in]. pose proof (encs_length _ HF) as Hl.
  assert (length reqs < S (length (encs reqs)))%nat as Hfuel by lia. revert Hfuel. generalize (S (length (encs reqs))) as fuel.
  clear Hl. revert w s HA. induction HF as [|r reqs Hr HF IH]; intros w s HA fuel Hfuel; (destruct fuel as [|fuel]; [simpl in Hfuel; lia|]);
    cbn [control_loop].
  - exists []. unfold encs. cbn [fmap list_fmap concat answers fst snd]. rewrite app_nil_r.
    by erewrite bind_Ok by (unfold attempt; rewrite rx_empty; reflexivity).
  - cbn [answers] in *. destruct (answer r s) as [a s1] eqn:Ea. change (encs (r :: reqs)) with (enc r ++ encs reqs).
    erewrite bind_Ok by (unfold attempt; rewrite rx_enc by done; reflexivity). cbv beta iota.
    assert (fits a) as Hfa by (destruct (stays_up r), (answers reqs s1); simpl in HA; by apply Forall_cons in HA as [? _]).
    erewrite bind_Ok by (apply serve_answer; by rewrite Ea). rewrite Ea. cbn [fst snd].
    destruct (stays_up r); [|exists (encs reqs); by rewrite <- encs_one].
    destruct (answers reqs s1) as [l s2] eqn:El. cbn [fst snd] in *. apply Forall_cons in HA as [_ HA].
    destruct (IH (w ++ enc a) s1) with (fuel := fuel) as [i' Hi]; [by rewrite El|simpl in Hfuel; lia|].
    exists i'. rewrite Hi, El. cbn [fst snd]. by rewrite encs_cons.
Qed.
End ControlRun.

Lemma zoom_run {S S' A} (get : S -> S') (put : S' -> S -> S) (m : cM S' A) i w s r i' w' s' :
  m (mkConn i w (get s)) = (r, mkConn i' w' s') -> zoom get put m (mkConn i w s) = (r, mkConn i' w' (put s' s)).
Proof. intros H. unfold zoom. cbn [c_in c_out c_st]. by rewrite H. Qed.
