(* ===== verification/HostClient.v ===== *)
(** * The host's client of the guest agent

    [crates/bux/src/client.rs]: every operation opens a connection of its own, says
    in a [Hello] what it is for, and reads the answers.  Its state is what the
    caller gets to see on the way, the events of an exec.  The theorems join it to
    the agent of [GuestServer]: both ends of one connection, each reading exactly
    what the other writes. *)

From S2P Require Import Prelude Files Paths Text ProtoMessages Codec Vfs SafeRoot LayerExtract Process Wire GuestFiles GuestReaper GuestExec GuestServer.

Record ExecOutput : Type := mkExecOutput {
  eo_exec_id : string; eo_pid : Z; eo_stdout : list Z; eo_stderr : list Z; eo_code : Z; eo_signal : option Z;
  eo_timed_out : bool; eo_duration_ms : Z; eo_error_message : option string
}.

Record PongInfo : Type := mkPongInfo { pi_version : string; pi_uptime_ms : Z }.

Record ExecHandle : Type := mkExecHandle { eh_exec_id : string; eh_pid : Z }.

(** What the callback of an exec saw. *)
Abbreviation hM := (cM (list ExecOut)).

Section Client.
Context {PH : Postcard Hello} {PA : Postcard HelloAck} {PCR : Postcard ControlReq} {PCS : Postcard ControlResp}
  {PXI : Postcard ExecIn} {PXO : Postcard ExecOut} {PU : Postcard Upload} {PUR : Postcard UploadResult} {PD : Postcard Download}.
(** [UnixStream::connect]. *)
Context (connected : result io_kind ()).

(** [io::Error::other] of an [ErrorInfo]. *)
Definition remote {A} (e : ErrorInfo) : hM A := stop (CRemote (ei_message e)).

Definition connect_raw : hM () := done (map_err CIo connected).

(** ** The exec handle *)

Fixpoint collect_loop (fuel : nat) (h : ExecHandle) (stdout stderr : list Z) : hM ExecOutput :=
  match fuel with
  | O => stop COutOfFuel
  | S fuel =>
    msg ← rx ExecOut;
    modify (fun seen => seen ++ [msg]) ≫= fun _ =>
    match msg with
    | Stdout d => collect_loop fuel h (stdout ++ d) stderr
    | Stderr d => collect_loop fuel h stdout (stderr ++ d)
    | Exit code signal timed_out duration_ms error_message =>
      mret (mkExecOutput (eh_exec_id h) (eh_pid h) stdout stderr code signal timed_out duration_ms error_message)
    | ExecError e => remote e
    end
  end.

(** Every frame takes bytes from the input. *)
Definition collect_output (h : ExecHandle) : hM ExecOutput := fun c => collect_loop (S (length (c_in c))) h [] [] c.

Definition write_stdin (data : list Z) : hM () := tx (Stdin data).
Definition close_stdin : hM () := tx StdinClose.
Definition signal (sig : Z) : hM () := tx (Signal sig).
Definition resize_tty (rows cols x_pixels y_pixels : Z) : hM () := tx (ResizeTty (TtyConfig_new rows cols x_pixels y_pixels)).
Definition next_output : hM ExecOut := rx ExecOut.
Definition wait_with_output (h : ExecHandle) : hM ExecOutput := collect_output h.
Definition stream (h : ExecHandle) : hM ExecOutput := collect_output h.

(** The task that copies the input: [None] when it was still waiting for a read. *)
Fixpoint stdin_task (reads : list (result io_kind (list Z))) : hM (option ()) :=
  match reads with
  | [] => mret None
  | Err k :: _ => io_err k
  | Ok [] :: _ => close_stdin ≫= fun _ => mret (Some ())
  | Ok d :: r => write_stdin d ≫= fun _ => stdin_task r
  end.

(** The task runs beside the collection and is aborted after it; [reads] is as far
    as it came.  Of the kinds let through only the end of the input is told apart. *)
Definition stream_with_input (h : ExecHandle) (reads : list (result io_kind (list Z))) : hM ExecOutput :=
  task ← attempt (stdin_task reads);
  output ← attempt (collect_output h);
  match task with
  | Err (CIo EkUnexpectedEof) => done output
  | Err err => match output with Ok _ => stop err | Err _ => done output end
  | Ok _ => done output
  end.

(** ** Control connections *)

Definition handshake : hM () :=
  connect_raw ≫= fun _ =>
  tx (HControl PROTOCOL_VERSION) ≫= fun _ =>
  ack ← rx HelloAck;
  match ack with
  | AckControl version => if version =? PROTOCOL_VERSION then mret () else io_err EkOther
  | AckError e => remote e
  | _ => io_err EkInvalidData
  end.

(** The connection stays open for the requests. *)
Definition open_control : hM () := handshake.

Definition shutdown : hM () :=
  open_control ≫= fun _ => tx Shutdown ≫= fun _ =>
  resp ← rx ControlResp;
  match resp with ShutdownOk => mret () | ControlError e => remote e | _ => io_err EkInvalidData end.

Definition ping : hM PongInfo :=
  open_control ≫= fun _ => tx Ping ≫= fun _ =>
  resp ← rx ControlResp;
  match resp with Pong version uptime_ms => mret (mkPongInfo version uptime_ms) | ControlError e => remote e | _ => io_err EkInvalidData end.

Definition quiesce : hM Z :=
  open_control ≫= fun _ => tx Quiesce ≫= fun _ =>
  resp ← rx ControlResp;
  match resp with QuiesceOk frozen_count => mret frozen_count | ControlError e => remote e | _ => io_err EkInvalidData end.

Definition thaw : hM Z :=
  open_control ≫= fun _ => tx Thaw ≫= fun _ =>
  resp ← rx ControlResp;
  match resp with ThawOk thawed_count => mret thawed_count | ControlError e => remote e | _ => io_err EkInvalidData end.

(** ** Execs *)

Definition exec (req : ExecStart) : hM ExecHandle :=
  connect_raw ≫= fun _ =>
  tx (HExec req) ≫= fun _ =>
  ack ← rx HelloAck;
  match ack with
  | AckExecStarted exec_id pid => mret (mkExecHandle exec_id pid)
  | AckError e => remote e
  | _ => io_err EkInvalidData
  end.

Definition exec_output (req : ExecStart) : hM ExecOutput := h ← exec req; wait_with_output h.

(** ** Files *)

Definition expect_ready : hM () :=
  ack ← rx HelloAck;
  match ack with AckReady => mret () | AckError e => remote e | _ => io_err EkInvalidData end.

Definition expect_upload_ok : hM () :=
  res ← rx UploadResult;
  match res with UploadOk => mret () | UploadError e => remote e end.

Definition read_file (path : string) (max_bytes : Z) : hM (list Z) :=
  connect_raw ≫= fun _ => tx (HFileRead path) ≫= fun _ => expect_ready ≫= fun _ => rx_download max_bytes.

Definition write_file (path : string) (data : list Z) (mode : Z) : hM () :=
  connect_raw ≫= fun _ => tx (HFileWrite path mode) ≫= fun _ => expect_ready ≫= fun _ =>
  tx_upload data STREAM_CHUNK_SIZE ≫= fun _ => expect_upload_ok.

Definition copy_in (dest : string) (tar_data : list Z) : hM () :=
  connect_raw ≫= fun _ => tx (HCopyIn dest) ≫= fun _ => expect_ready ≫= fun _ =>
  tx_upload tar_data STREAM_CHUNK_SIZE ≫= fun _ => expect_upload_ok.

Definition copy_in_from_reader (dest : string) (reads : list (list Z)) : hM () :=
  connect_raw ≫= fun _ => tx (HCopyIn dest) ≫= fun _ => expect_ready ≫= fun _ =>
  tx_upload_from_reader reads ≫= fun _ => expect_upload_ok.

Definition copy_out_opts (path : string) (follow_symlinks : bool) (max_bytes : Z) : hM (list Z) :=
  connect_raw ≫= fun _ => tx (HCopyOut path follow_symlinks) ≫= fun _ => expect_ready ≫= fun _ => rx_download max_bytes.

Definition copy_out (path : string) (max_bytes : Z) : hM (list Z) := copy_out_opts path false max_bytes.

(** What was written, also when it fails. *)
Definition copy_out_to_writer (path : string) (follow_symlinks : bool) (max_bytes : Z) : hM (result cerror Z * list Z) :=
  connect_raw ≫= fun _ => tx (HCopyOut path follow_symlinks) ≫= fun _ => expect_ready ≫= fun _ => rx_download_to_writer max_bytes.
End Client.

(** ** Both ends together *)

Lemma exchange_intro {U S A B} (host : cM U A) (guest : cM S B) u s r u' s' up down hi gr gi :
  host (mkConn down [] u) = (r, mkConn hi up u') -> guest (mkConn up [] s) = (gr, mkConn gi down s') ->
  exchange host guest u s r u' s'.
Proof. intros H1 H2. exists up, down, (mkConn hi up u'), gr, (mkConn gi down s'). done. Qed.

Section Joined.
Context `{PH : PostcardLaws Hello} `{PA : PostcardLaws HelloAck} `{PCR : PostcardLaws ControlReq} `{PCS : PostcardLaws ControlResp}
  `{PXI : PostcardLaws ExecIn} `{PXO : PostcardLaws ExecOut} `{PU : PostcardLaws Upload} `{PUR : PostcardLaws UploadResult}
  `{PD : PostcardLaws Download} `{!UploadSizes}.
Context (pf : platform).

Abbreviation agent_session := (session pf).
Abbreviation up := (Ok () : result io_kind ()).

Lemma connect_run i w (u : list ExecOut) : connect_raw up (mkConn i w u) = (Ok (), mkConn i w u).
Proof. done. Qed.

Lemma ready_run i w (u : list ExecOut) : fits AckReady -> expect_ready (mkConn (enc AckReady ++ i) w u) = (Ok (), mkConn i w u).
Proof. intros Hf. unfold expect_ready. by erewrite bind_Ok by (by apply rx_enc). Qed.

Lemma rx_last {T} `{PostcardLaws T} {S} (m : T) (w : list Z) (s : S) : fits m -> rx T (mkConn (enc m) w s) = (Ok m, mkConn [] w s).
Proof. intros Hf. rewrite <- (app_nil_r (enc m)) at 1. by apply rx_enc. Qed.

(** *** Files *)

Definition stored (r : result cerror ()) : result cerror () :=
  match r with Ok _ => Ok () | Err e => Err (CRemote (pf_text pf e)) end.

Definition upload_pieces (data : list Z) : list (list Z) := chunks (Z.to_nat STREAM_CHUNK_SIZE) data.

Lemma upload_pieces_concat data : concat (upload_pieces data) = data.
Proof. apply chunks_concat. assert (0 < STREAM_CHUNK_SIZE) as Hpos by done. revert Hpos. generalize STREAM_CHUNK_SIZE. lia. Qed.

Lemma upload_ok_run r i w (u : list ExecOut) :
  fits (answer_of (pf_text pf) r) ->
  expect_upload_ok (mkConn (enc (answer_of (pf_text pf) r) ++ i) w u) = (stored r, mkConn i w u).
Proof. intros Hf. unfold expect_upload_ok. erewrite bind_Ok by (by apply rx_enc). by destruct r. Qed.

Abbreviation write_session := (handle_write (pf_text pf) (pf_pid pf)).

Lemma write_file_host p mode data r u :
  fits (HFileWrite p mode) -> fits AckReady -> Forall fits (UChunk <$> upload_pieces data) -> fits UDone ->
  fits (answer_of (pf_text pf) r) ->
  write_file up p data mode (mkConn (enc AckReady ++ enc (answer_of (pf_text pf) r)) [] u)
  = (stored r, mkConn [] (enc (HFileWrite p mode) ++ upload_bytes (upload_pieces data)) u).
Proof.
  intros Hh Ha Hd He Hr. unfold write_file. erewrite bind_Ok by apply connect_run. erewrite bind_Ok by (by apply tx_fits).
  erewrite bind_Ok by (by apply ready_run). erewrite bind_Ok by (apply tx_upload_fits; done).
  rewrite <- (app_nil_r (enc (answer_of _ r))). by apply upload_ok_run.
Qed.

Lemma read_file_host p max_bytes ds u :
  fits (HFileRead p) -> fits AckReady -> Forall fits (DChunk <$> ds) -> fits DDone -> zlen (concat ds) <= max_bytes < U64_MAX ->
  read_file up p max_bytes (mkConn (enc AckReady ++ download_bytes ds) [] u) = (Ok (concat ds), mkConn [] (enc (HFileRead p)) u).
Proof.
  intros Hh Ha Hd He Hm. unfold read_file. erewrite bind_Ok by apply connect_run. erewrite bind_Ok by (by apply tx_fits).
  erewrite bind_Ok by (by apply ready_run). rewrite <- (app_nil_r (download_bytes ds)). by apply rx_download_bytes.
Qed.

(** C9.  A file written is the file read: over a connection to the agent,
    [write_file] of up to 512 MiB ends, with success or the agent's error text;
    and after a success [read_file] of the same path over a new connection returns
    exactly those bytes, however the host cuts them into upload frames and the
    kernel into reads, as long as they are within the caller's limit. *)
Theorem write_then_read turns turns' p mode data max_bytes u a :
  fits (HFileWrite p mode) -> fits (HFileRead p) -> fits AckReady -> (forall r, fits (answer_of (pf_text pf) r)) ->
  Forall fits (UChunk <$> upload_pieces data) -> fits UDone ->
  concat (pf_reads pf data) = data -> Forall (fun d => d <> []) (pf_reads pf data) ->
  Forall fits (DChunk <$> pf_reads pf data) -> fits DDone ->
  zlen data <= MAX_UPLOAD_BYTES -> zlen data <= max_bytes < U64_MAX ->
  fresh_name (upload_name (pf_pid pf) (ag_files a)) (g_fs (ag_files a)) ->
  Normal (upload_name (pf_pid pf) (ag_files a)) ∉ components p ->
  exists r a', exchange (write_file up p data mode) (agent_session turns) u a (stored r) u a'
    /\ (r = Ok () -> exchange (read_file up p max_bytes) (agent_session turns') u a' (Ok data) u a').
Proof.
  intros Hw Hr Ha Hans Hup Hud Hcat Hne Hdn Hdd Hmax Hlim Hfresh Hp.
  pose proof (upload_pieces_concat data) as Hpc.
  destruct (handle_write_run (pf_text pf) (pf_pid pf) p mode (upload_pieces data) [] (enc AckReady) (ag_files a)) as (r & i & g' & Hrun & Hok);
    [done..|by rewrite Hpc|done|done|]. rewrite app_nil_r in Hrun. rewrite Hpc in Hok.
  exists r, (mkAgent g' (ag_exec a) (ag_control a)). split.
  - eapply (exchange_intro _ _ u a _ u _ _ (enc AckReady ++ enc (answer_of (pf_text pf) r))); [by apply write_file_host|].
    unfold session. erewrite bind_Ok by (unfold attempt; rewrite rx_enc by done; reflexivity). cbv beta iota.
    erewrite bind_Ok by (by apply tx_fits). by erewrite bind_Ok by (apply zoom_run; exact Hrun).
  - intros ->. specialize (Hok eq_refl). rewrite <- Hcat at 1.
    eapply (exchange_intro _ _ u _ _ u _ _ (enc AckReady ++ download_bytes (pf_reads pf data))); [apply read_file_host; try done; by rewrite Hcat|].
    unfold session. rewrite <- (app_nil_r (enc (HFileRead p))).
    erewrite bind_Ok by (unfold attempt; rewrite rx_enc by done; reflexivity). cbv beta iota.
    erewrite bind_Ok by (by apply tx_fits). by erewrite bind_Ok by (apply zoom_run, handle_read_run; done).
Qed.

(** *** Execs *)

Lemma collect_run frames h code sg t ms msg fuel out err w u :
  Forall (fun f => is_output f = true) frames -> Forall fits frames -> fits (Exit code sg t ms msg) -> (length frames < fuel)%nat ->
  collect_loop fuel h out err (mkConn (encs frames ++ enc (Exit code sg t ms msg)) w u)
  = (Ok (mkExecOutput (eh_exec_id h) (eh_pid h) (out ++ concat (stdout_of <$> frames)) (err ++ concat (stderr_of <$> frames)) code sg t ms msg),
     mkConn [] w (u ++ frames ++ [Exit code sg t ms msg])).
Proof.
  intros Ho HF Hx. revert fuel out err u. induction Ho as [|f frames Hf Ho IH]; intros fuel out err u Hl; (destruct fuel as [|fuel]; [lia|]);
    cbn [collect_loop].
  - unfold encs. cbn [fmap list_fmap concat app]. erewrite bind_Ok by (by apply rx_last). erewrite bind_Ok by apply modify_run.
    by rewrite !app_nil_r.
  - apply Forall_cons in HF as [Hff HF]. change (encs (f :: frames)) with (enc f ++ encs frames). rewrite <- app_assoc.
    erewrite bind_Ok by (by apply rx_enc). erewrite bind_Ok by apply modify_run.
    destruct f as [d|d| |]; try done; cbn [fmap list_fmap concat stdout_of stderr_of app].
    + rewrite (IH HF) by (simpl in Hl; lia). by rewrite <- !app_assoc.
    + rewrite (IH HF) by (simpl in Hl; lia). by rewrite <- !app_assoc.
Qed.

Lemma exec_output_host req frames id pid code sg t ms msg u :
  fits (HExec req) -> fits (AckExecStarted id pid) -> Forall (fun f => is_output f = true) frames -> Forall fits frames ->
  fits (Exit code sg t ms msg) ->
  exec_output up req (mkConn (enc (AckExecStarted id pid) ++ encs frames ++ enc (Exit code sg t ms msg)) [] u)
  = (Ok (mkExecOutput id pid (concat (stdout_of <$> frames)) (concat (stderr_of <$> frames)) code sg t ms msg),
     mkConn [] (enc (HExec req)) (u ++ frames ++ [Exit code sg t ms msg])).
Proof.
  intros Hh Ha Ho HF Hx. unfold exec_output, exec, wait_with_output, collect_output.
  erewrite bind_Ok by (erewrite bind_Ok by apply connect_run; erewrite bind_Ok by (by apply tx_fits); by erewrite bind_Ok by (by apply rx_enc)).
  cbn [c_in]. rewrite collect_run; [done..|]. pose proof (encs_length _ HF). rewrite length_app. lia.
Qed.

(** The child that the agent starts for a request. *)
Abbreviation agent_launched := (launched (fun k => pf_text pf (CIo k)) (pf_passwd pf) (pf_group pf) (pf_spawned pf) (pf_openpty pf) (pf_dup_fd pf)).

(** What the host gets back from a command is what the command did: when the
    streams of the child that the agent starts end, [exec_output] on the host
    returns its standard output and standard error to the byte, the status that
    the reaper delivered, the agent's id and pid, and no time-out unless the
    request set a clock; on the way the caller saw the same output and the exit
    last. *)
Theorem exec_output_over_wire turns req pid exit u a :
  es_tty req = None -> agent_launched req = Ok pid -> pf_waited pf pid = Some exit -> output_ends req turns = true ->
  Forall turn_fits turns -> Forall (fun t => lost_by t = 0%nat) turns -> host_turns turns = 0%nat ->
  fits (HExec req) -> fits (AckExecStarted (exec_id_of (ag_exec a)) pid) ->
  (forall timed_out, fits (Exit (xt_code exit) (xt_signal exit) timed_out (u64 (pf_elapsed pf)) None)) ->
  exists frames timed_out a',
    exchange (exec_output up req) (agent_session turns) u a
      (Ok (mkExecOutput (exec_id_of (ag_exec a)) pid (bytes_of out_of turns) (bytes_of err_of turns)
             (xt_code exit) (xt_signal exit) timed_out (u64 (pf_elapsed pf)) None))
      (u ++ frames ++ [Exit (xt_code exit) (xt_signal exit) timed_out (u64 (pf_elapsed pf)) None]) a'
    /\ sends_all false false turns frames /\ x_fed (ag_exec a') = [].
Proof.
  intros E Hl Hw He Ht H0 Hn Hh Hack Hx.
  destruct (handle_pipe_relays (fun k => pf_text pf (CIo k)) (pf_passwd pf) (pf_group pf) (pf_spawned pf) (pf_waited pf) (pf_elapsed pf)
    (pf_openpty pf) (pf_dup_fd pf) turns req pid exit [] [] [] (ag_exec a)) as (frames & k & t & i' & s' & Hrun & Hs & Hfed);
    [done..|lia|done|done|].
  exists frames, t, (mkAgent (ag_files a) s' (ag_control a)). split; [|split; [done|]].
  - destruct Hs as [Ho Hf Hso Hse]. cbn [app] in *.
    eapply (exchange_intro _ _ _ _ _ _ _ (enc (HExec req)));
      [rewrite <- Hso, <- Hse; apply exec_output_host; [done..|apply (Hx t)]|].
    unfold session. rewrite <- (app_nil_r (enc (HExec req))).
    erewrite bind_Ok by (unfold attempt; rewrite rx_enc by done; reflexivity). cbv beta iota.
    exact (zoom_run ag_exec (fun x s => mkAgent (ag_files s) x (ag_control s)) _ _ _ a _ _ _ _ Hrun).
  - cbn [ag_exec]. rewrite Hfed. destruct (es_stdin req); [|done]. by destruct k.
Qed.

(** *** Control *)

Abbreviation agent_answers := (answers (pf_open_sb pf) (pf_can_freeze pf) (pf_proc_mounts pf) (pf_version pf) (pf_uptime_ms pf)).

Lemma session_control turns reqs a :
  fits (HControl PROTOCOL_VERSION) -> fits (AckControl PROTOCOL_VERSION) -> Forall fits reqs ->
  Forall fits (agent_answers reqs (ag_control a)).1 ->
  exists i', agent_session turns (mkConn (enc (HControl PROTOCOL_VERSION) ++ encs reqs) [] a)
    = (Ok true, mkConn i' (enc (AckControl PROTOCOL_VERSION) ++ encs (agent_answers reqs (ag_control a)).1)
                  (mkAgent (ag_files a) (ag_exec a) (agent_answers reqs (ag_control a)).2)).
Proof.
  intros Hh Ha HF HA.
  destruct (control_run (pf_open_sb pf) (pf_can_freeze pf) (pf_proc_mounts pf) (pf_version pf) (pf_uptime_ms pf)
    reqs (enc (AckControl PROTOCOL_VERSION)) (ag_control a) HF HA) as [i' Hrun].
  exists i'. unfold session. erewrite bind_Ok by (unfold attempt; rewrite rx_enc by done; reflexivity). cbv beta iota.
  rewrite decide_False by (intros Hne; by apply Hne). erewrite bind_Ok by (by apply tx_fits). cbn [app].
  by erewrite bind_Ok by (exact (zoom_run ag_control (fun k s => mkAgent (ag_files s) (ag_exec s) k) _ _ _ a _ _ _ _ Hrun)).
Qed.

Lemma open_control_run r u :
  fits (HControl PROTOCOL_VERSION) -> fits (AckControl PROTOCOL_VERSION) ->
  open_control up (mkConn (enc (AckControl PROTOCOL_VERSION) ++ r) [] u) = (Ok (), mkConn r (enc (HControl PROTOCOL_VERSION)) u).
Proof.
  intros Hh Ha. unfold open_control, handshake. erewrite bind_Ok by apply connect_run. erewrite bind_Ok by (by apply tx_fits).
  by erewrite bind_Ok by (by apply rx_enc).
Qed.

(** One request on a control connection of its own. *)
Lemma control_exchange {A} (host : cM (list ExecOut) A) turns req x u a :
  fits (HControl PROTOCOL_VERSION) -> fits (AckControl PROTOCOL_VERSION) -> fits req ->
  let ans := answer (pf_open_sb pf) (pf_can_freeze pf) (pf_proc_mounts pf) (pf_version pf) (pf_uptime_ms pf) req (ag_control a) in
  fits ans.1 ->
  (host (mkConn (enc (AckControl PROTOCOL_VERSION) ++ enc ans.1) [] u) = (Ok x, mkConn [] (enc (HControl PROTOCOL_VERSION) ++ enc req) u)) ->
  exchange host (agent_session turns) u a (Ok x) u (mkAgent (ag_files a) (ag_exec a) ans.2).
Proof.
  intros Hh Ha Hr ans Hans Hhost.
  assert (agent_answers [req] (ag_control a) = ([ans.1], ans.2)) as E.
  { cbn [answers]. fold ans. destruct ans as [b k]. by destruct (stays_up req). }
  destruct (session_control turns [req] a) as [i' Hg]; [done..|by constructor|rewrite E; by constructor|].
  rewrite E in Hg. cbn [fst snd] in Hg. rewrite !encs_one in Hg.
  eapply (exchange_intro _ _ _ _ _ _ _ _ _ _ _ _ Hhost Hg).
Qed.

Lemma quiesce_host n u :
  fits (HControl PROTOCOL_VERSION) -> fits (AckControl PROTOCOL_VERSION) -> fits Quiesce -> fits (QuiesceOk n) ->
  quiesce up (mkConn (enc (AckControl PROTOCOL_VERSION) ++ enc (QuiesceOk n)) [] u)
  = (Ok n, mkConn [] (enc (HControl PROTOCOL_VERSION) ++ enc Quiesce) u).
Proof.
  intros Hh Ha Hq Hr. unfold quiesce. erewrite bind_Ok by (by apply open_control_run). erewrite bind_Ok by (by apply tx_fits).
  by erewrite bind_Ok by (by apply rx_last).
Qed.

Lemma thaw_host n u :
  fits (HControl PROTOCOL_VERSION) -> fits (AckControl PROTOCOL_VERSION) -> fits Thaw -> fits (ThawOk n) ->
  thaw up (mkConn (enc (AckControl PROTOCOL_VERSION) ++ enc (ThawOk n)) [] u)
  = (Ok n, mkConn [] (enc (HControl PROTOCOL_VERSION) ++ enc Thaw) u).
Proof.
  intros Hh Ha Hq Hr. unfold thaw. erewrite bind_Ok by (by apply open_control_run). erewrite bind_Ok by (by apply tx_fits).
  by erewrite bind_Ok by (by apply rx_last).
Qed.

(** C18.  Freezing the guest for a snapshot is undone: after the host's [quiesce]
    every real, writable mount that supports it is frozen, also one that was frozen
    already, and nothing else has become so; after the [thaw] none of them is, so
    a second [quiesce] or one on top of an earlier freeze cannot leave the guest
    stuck.  The state of files and execs is untouched. *)
Theorem quiesce_then_thaw turns turns' u a :
  fits (HControl PROTOCOL_VERSION) -> fits (AckControl PROTOCOL_VERSION) -> fits Quiesce -> fits Thaw ->
  (forall n, fits (QuiesceOk n)) -> (forall n, fits (ThawOk n)) ->
  let ready := eligible (pf_open_sb pf) (pf_can_freeze pf) (pf_proc_mounts pf) in
  exists n m a1 a2,
    exchange (quiesce up) (agent_session turns) u a (Ok n) u a1
    /\ exchange (thaw up) (agent_session turns') u a1 (Ok m) u a2
    /\ (forall sb, sb ∈ k_frozen (ag_control a1) <-> sb ∈ k_frozen (ag_control a) \/ ready sb)
    /\ (forall sb, sb ∈ k_frozen (ag_control a2) <-> sb ∈ k_frozen (ag_control a) /\ ~ ready sb)
    /\ ag_files a2 = ag_files a /\ ag_exec a2 = ag_exec a.
Proof.
  intros Hh Ha Hq Ht Hqo Hto ready.
  destruct (freeze_filesystems (pf_open_sb pf) (pf_can_freeze pf) (pf_proc_mounts pf) (k_frozen (ag_control a))) as [fr k] eqn:E.
  destruct (freeze_spec _ _ _ _ _ _ E) as [Hk Hel].
  pose proof (control_exchange (quiesce up) turns Quiesce (u32 (Z.of_nat (length fr))) u a Hh Ha Hq) as Hx1.
  cbn [answer fst snd] in Hx1. rewrite E in Hx1. cbn [fst snd] in Hx1.
  set (a1 := mkAgent _ _ (mkControl k fr (down (ag_control a)))) in Hx1.
  pose proof (control_exchange (thaw up) turns' Thaw (thaw_frozen (pf_open_sb pf) fr k).1 u a1 Hh Ha Ht) as Hx2.
  cbn [answer fst snd] in Hx2. subst a1. cbn [ag_control k_frozen frozen_mounts down ag_files ag_exec] in *.
  eexists _, _, _, _. split; [apply Hx1; [done|by apply quiesce_host]|]. split; [apply Hx2; [done|by apply thaw_host]|].
  cbn [ag_control k_frozen ag_files ag_exec]. split; [|split; [|done]]; intros sb.
  - rewrite Hk, elem_of_union, Hel. done.
  - rewrite thaw_spec, elem_of_difference, Hk, elem_of_union, Hel. unfold ready. tauto.
Qed.
End Joined.

Module Sample.
#[local] Existing Instance GuestExec.Sample.pc_ack.
#[local] Existing Instance GuestExec.Sample.pc_ack_laws.
#[local] Existing Instance GuestExec.Sample.pc_in.
#[local] Existing Instance GuestExec.Sample.pc_in_laws.
#[local] Existing Instance GuestExec.Sample.pc_out.
#[local] Existing Instance GuestExec.Sample.pc_out_laws.

#[local] Instance pc_hello : Postcard Hello := {
  to_allocvec m := match m with
                   | HFileRead p => Some (0 :: str_bytes p)
                   | HFileWrite p mode => Some (1 :: mode :: str_bytes p)
                   | HControl v => Some [2; v]
                   | HExec (mkExecStart cmd [] [] None None None false None 0 None) => Some (3 :: str_bytes cmd)
                   | _ => None
                   end;
  from_bytes b := match b with
                  | 0 :: p => Some (HFileRead (bytes_str p))
                  | 1 :: mode :: p => Some (HFileWrite (bytes_str p) mode)
                  | [2; v] => Some (HControl v)
                  | 3 :: cmd => Some (HExec (ExecStart_new (bytes_str cmd)))
                  | _ => None
                  end
}.
#[local] Instance pc_hello_laws : PostcardLaws Hello.
Proof.
  split. intros m p. destruct m as [v|[cmd [] [] [] [] [] [] [] [] []]|q|q mode|q|q b]; simpl; try done; intros [= <-]; rewrite ?bytes_str_bytes; done.
Qed.

#[local] Instance pc_req : Postcard ControlReq := {
  to_allocvec m := Some [match m with Ping => 0 | Shutdown => 1 | Quiesce => 2 | Thaw => 3 end];
  from_bytes b := match b with [0] => Some Ping | [1] => Some Shutdown | [2] => Some Quiesce | [3] => Some Thaw | _ => None end
}.
#[local] Instance pc_req_laws : PostcardLaws ControlReq.
Proof. split. by intros [] p [= <-]. Qed.

#[local] Instance pc_resp : Postcard ControlResp := {
  to_allocvec m := match m with ShutdownOk => Some [1] | QuiesceOk n => Some [2; n] | ThawOk n => Some [3; n] | _ => None end;
  from_bytes b := match b with [1] => Some ShutdownOk | [2; n] => Some (QuiesceOk n) | [3; n] => Some (ThawOk n) | _ => None end
}.
#[local] Instance pc_resp_laws : PostcardLaws ControlResp.
Proof. split. intros [] p; simpl; try done; by intros [= <-]. Qed.

#[local] Instance pc_result : Postcard UploadResult := {
  to_allocvec m := match m with UploadOk => Some [0] | UploadError (mkErrorInfo Internal e) => Some (1 :: str_bytes e) | _ => None end;
  from_bytes b := match b with [0] => Some UploadOk | 1 :: e => Some (UploadError (mkErrorInfo Internal (bytes_str e))) | _ => None end
}.
#[local] Instance pc_result_laws : PostcardLaws UploadResult.
Proof. split. intros [|[[] e]] p; simpl; try done; intros [= <-]; rewrite ?bytes_str_bytes; done. Qed.

(** A root file system mounted twice, a read-only disk and two virtual ones. *)
Definition mounts_text : string :=
  ("/dev/vda / ext4 rw,relatime 0 0" +:+ String "010" ("proc /proc proc rw 0 0" +:+ String "010"
   ("/dev/vda /mnt ext4 rw 0 0" +:+ String "010" ("/dev/vdb /ro ext4 ro,relatime 0 0" +:+ String "010" ("tmpfs /tmp tmpfs rw 0 0" +:+ String "010" ""))))) %string.

Definition pf : platform :=
  mkPlatform (fun _ => "failed"%string) "7" (fun d => match d with [] => [] | _ => [d] end) (fun _ => []) (fun _ _ => fail EkOther)
    (fun _ _ _ => Err EkOther) (fun _ _ _ _ => Err EkOther) (Err EkNotFound) (Err EkNotFound) (fun _ => Ok 42)
    (fun _ => Some (mkExitStatus 42 0 None)) 5 (fun _ => Ok ()) (fun _ => Ok ())
    (fun m => if String.eqb m "/" then Some 0%nat else if String.eqb m "/mnt" then Some 0%nat else if String.eqb m "/ro" then Some 1%nat else None)
    (fun _ => true) (Some mounts_text) "0.1" 0.

Definition root : vfs := mkVfs {[ ["tmp"%string] := EDir 0x1ff ]} ∅ 0.
Definition idle : agent := mkAgent (mkGuest root 0) (fresh_execution 1) (mkControl ∅ [] []).
Definition turns : list turn := [OutTurn (Ok [104; 105]) 0; ErrTurn (Ok []) 0; OutTurn (Ok []) 0].

Ltac fits_now := first [solve [by eexists] | solve [intros ?; by eexists]].

Lemma exec_output_over_wire_witness :
  exists frames timed_out a',
    exchange (exec_output (Ok ()) (ExecStart_new "id")) (session pf turns) [] idle
      (Ok (mkExecOutput "exec-1" 42 [104; 105] [] 0 None timed_out 5 None)) (frames ++ [Exit 0 None timed_out 5 None]) a'.
Proof.
  destruct (exec_output_over_wire pf turns (ExecStart_new "id") 42 (mkExitStatus 42 0 None) [] idle) as (frames & t & a' & H & _);
    [reflexivity..| | |reflexivity|fits_now|fits_now|fits_now|].
  - repeat constructor; by eexists.
  - repeat constructor.
  - exists frames, t, a'. exact H.
Defined.

Lemma quiesce_then_thaw_witness :
  exists n m a1 a2,
    exchange (quiesce (Ok ())) (session pf []) [] idle (Ok n) [] a1 /\ exchange (thaw (Ok ())) (session pf []) [] a1 (Ok m) [] a2
    /\ 0%nat ∈ k_frozen (ag_control a1) /\ 1%nat ∉ k_frozen (ag_control a1) /\ 0%nat ∉ k_frozen (ag_control a2).
Proof.
  assert (eligible (pf_open_sb pf) (pf_can_freeze pf) (pf_proc_mounts pf) 0%nat) as H0.
  { exists mounts_text, "/dev/vda / ext4 rw,relatime 0 0"%string, "/"%string. repeat split. vm_compute. left. }
  assert (~ eligible (pf_open_sb pf) (pf_can_freeze pf) (pf_proc_mounts pf) 1%nat) as H1.
  { intros (t & line & m & [= <-] & Hl & Hf & Ho & _).
    assert (line ∈ ["/dev/vda / ext4 rw,relatime 0 0"; "proc /proc proc rw 0 0"; "/dev/vda /mnt ext4 rw 0 0";
                    "/dev/vdb /ro ext4 ro,relatime 0 0"; "tmpfs /tmp tmpfs rw 0 0"]%string) as Hin by exact Hl.
    rewrite !elem_of_cons, elem_of_nil in Hin. destruct_or! Hin; subst; vm_compute in Hf; simplify_eq; vm_compute in Ho; simplify_eq. }
  destruct (quiesce_then_thaw pf [] [] [] idle) as (n & m & a1 & a2 & Hq & Ht & F1 & F2 & _); [fits_now..|].
  exists n, m, a1, a2. split; [exact Hq|]. split; [exact Ht|]. rewrite !F1, F2. split; [by right|].
  split; [intros [H|H]; [by apply elem_of_empty in H|done]|]. intros [_ H]. done.
Defined.

Lemma small_pieces : upload_pieces [104; 105] = [[104; 105]].
Proof.
  unfold upload_pieces, chunks. cbn [length chunks_aux]. assert (2 < STREAM_CHUNK_SIZE) as Hpos by done. revert Hpos.
  generalize STREAM_CHUNK_SIZE. intros z Hz. destruct (Z.to_nat z) as [|[|n]] eqn:E; [lia|lia|]. simpl. by destruct n.
Qed.

Lemma write_then_read_witness :
  exists r a', exchange (write_file (Ok ()) "/tmp/x" [104; 105] 0x1a4) (session pf []) [] idle (stored pf r) [] a'
    /\ (r = Ok () -> exchange (read_file (Ok ()) "/tmp/x" 4096) (session pf []) [] a' (Ok [104; 105]) [] a').
Proof.
  apply (write_then_read pf [] [] "/tmp/x" 0x1a4 [104; 105] 4096 [] idle); [fits_now|fits_now|fits_now| | |fits_now|reflexivity|..].
  - intros [?|e]; by eexists.
  - rewrite small_pieces. repeat constructor; by eexists.
  - repeat constructor. done.
  - repeat constructor; by eexists.
  - fits_now.
  - done.
  - done.
  - split.
    + intros l Hl. cbn. rewrite lookup_singleton_ne; [done|]. by intros <-.
    + intros l t H. cbn in H. by apply lookup_singleton_Some in H as [_ ?].
    + intros l i H. cbn in H. by apply lookup_singleton_Some in H as [_ ?].
  - vm_compute. intros H. do 3 (apply elem_of_cons in H as [H|H]; [discriminate H|]). by apply elem_of_nil in H.
Defined.

(** The agent's end of the same write succeeds. *)
Example write_succeeds :
  exists c, session pf [] (mkConn (enc (HFileWrite "/tmp/x" 0x1a4) ++ upload_bytes [[104; 105]]) [] idle) = (Ok true, c)
    /\ c_out c = enc AckReady ++ enc UploadOk.
Proof. eexists. split; [vm_compute; reflexivity|]. reflexivity. Qed.

(** A file system mounted twice is counted twice when frozen, and once when thawed. *)
Example frozen_count_counts_mounts :
  (freeze_filesystems (pf_open_sb pf) (pf_can_freeze pf) (pf_proc_mounts pf) ∅).1 = ["/"; "/mnt"]%string
  /\ (thaw_frozen (pf_open_sb pf) ["/"; "/mnt"]%string {[0%nat]}).1 = 1.
Proof. vm_compute. done. Qed.
End Sample.
