(* ===== verification/Shim.v ===== *)
(** * The shim: from a configuration to a running VM

    [crates/bux-shim/src/apply.rs], [config.rs] (the configuration itself is in
    [Options]), [crash.rs] and [exit_info.rs], the wrappers of
    [crates/bux-krun/src/ctx.rs] it uses, [crates/bux-gvproxy/src/config.rs] and
    the process of [crates/bux-shim-bin/src/main.rs].  The process is its log: the
    calls of libkrun and gvproxy, the seccomp filter and the files it writes.
    libkrun and gvproxy answer through parameters that see the log so far. *)

From S2P Require Import Prelude Files Paths Ports Text StateTypes Options.

(** ** The network constants and gvproxy's configuration *)

Definition SUBNET : string := "192.168.127.0/24".
Definition GATEWAY_IP : string := "192.168.127.1".
Definition GUEST_IP : string := "192.168.127.2".
Definition GUEST_MAC_STRING : string := "5a:94:ef:e4:0c:ee".
Definition GATEWAY_MAC_STRING : string := "5a:94:ef:e4:0c:dd".
Definition DEFAULT_MTU : Z := 1500.
Definition DNS_SEARCH_DOMAINS : list string := ["local"%string].

Record DnsZone : Type := mkDnsZone { dz_name : string; dz_default_ip : string }.
Record SecretConfig : Type := mkSecretConfig { sg_name : string; sg_hosts : list string; sg_placeholder : string; sg_value : string }.

Record GvproxyConfig : Type := mkGvproxyConfig {
  gc_socket_path : string; gc_subnet : string; gc_gateway_ip : string; gc_gateway_mac : string; gc_guest_ip : string; gc_guest_mac : string;
  gc_mtu : Z; gc_port_mappings : list (Z * Z); gc_dns_zones : list DnsZone; gc_dns_search_domains : list string; gc_debug : bool;
  gc_capture_file : option string; gc_allow_net : list string; gc_secrets : list SecretConfig; gc_ca_cert_pem : string; gc_ca_key_pem : string
}.

(** The capture file is that of [BUX_GVPROXY_CAPTURE_FILE]. *)
Definition GvproxyConfig_new (capture_env : option string) (socket_path : string) (port_mappings : list (Z * Z)) : GvproxyConfig :=
  let capture := s ← capture_env; if decide (s = ""%string) then None else Some s in
  mkGvproxyConfig socket_path SUBNET GATEWAY_IP GATEWAY_MAC_STRING GUEST_IP GUEST_MAC_STRING DEFAULT_MTU port_mappings [] DNS_SEARCH_DOMAINS
    (match capture with Some _ => true | None => false end) capture [] [] "" "".

Definition with_allow_net (l : list string) (c : GvproxyConfig) : GvproxyConfig :=
  mkGvproxyConfig (gc_socket_path c) (gc_subnet c) (gc_gateway_ip c) (gc_gateway_mac c) (gc_guest_ip c) (gc_guest_mac c) (gc_mtu c) (gc_port_mappings c)
    (gc_dns_zones c) (gc_dns_search_domains c) (gc_debug c) (gc_capture_file c) l (gc_secrets c) (gc_ca_cert_pem c) (gc_ca_key_pem c).

Definition with_secrets (secrets : list SecretConfig) (ca_cert_pem ca_key_pem : string) (c : GvproxyConfig) : GvproxyConfig :=
  mkGvproxyConfig (gc_socket_path c) (gc_subnet c) (gc_gateway_ip c) (gc_gateway_mac c) (gc_guest_ip c) (gc_guest_mac c) (gc_mtu c) (gc_port_mappings c)
    (gc_dns_zones c) (gc_dns_search_domains c) (gc_debug c) (gc_capture_file c) (gc_allow_net c) secrets ca_cert_pem ca_key_pem.

(** ** libkrun calls *)

Inductive krun_call : Type :=
  | CreateCtx
  | FreeCtx (ctx : Z)
  | StartEnter (ctx : Z)
  | SetVmConfig (ctx vcpus ram_mib : Z)
  | SetRoot (ctx : Z) (path : string)
  | AddDisk2 (ctx : Z) (block_id disk_path : string) (format : Z) (read_only : bool)
  | SetRootDiskRemount (ctx : Z) (device : string) (fstype options : option string)
  | AddVirtiofs3 (ctx : Z) (tag host_path : string) (shm_size : Z) (read_only : bool)
  | AddNetUnixstream (ctx : Z) (path : option string) (fd : Z) (mac : list Z) (features flags : Z)
  | AddNetUnixgram (ctx : Z) (path : option string) (fd : Z) (mac : list Z) (features flags : Z)
  | DisableImplicitVsock (ctx : Z)
  | AddVsock (ctx tsi_features : Z)
  | AddVsockPort2 (ctx port : Z) (path : string) (listen : bool)
  | SetExec (ctx : Z) (path : string) (args : list string) (env : option (list string))
  | SetEnv (ctx : Z) (env : list string).

Inductive event : Type :=
  | Krun (c : krun_call)
  | GvproxyCreate (c : GvproxyConfig)
  | GvproxyDestroy (id : Z)
  | SeccompInstalled
  | ReadConfig
  | RemoveConfig
  | WriteExit (path : string) (exit_code : Z) (message : string)
  | ExitWith (code : Z).

Inductive shim_error : Type :=
  | InvalidConfig (message : string)
  | KrunError (op : string) (code : Z)
  | InteriorNul (s : string)
  | SeccompError (message : string).

(** The log of the process. *)
Definition pM (A : Type) : Type := list event -> result shim_error A * list event.
#[global] Instance pM_ret : MRet pM := fun A a σ => (Ok a, σ).
#[global] Instance pM_bind : MBind pM := fun A B f m σ => match m σ with (Ok a, σ') => f a σ' | (Err e, σ') => (Err e, σ') end.

Definition raise {A} (e : shim_error) : pM A := fun σ => (Err e, σ).
Definition pure {A} (r : result shim_error A) : pM A := fun σ => (r, σ).
Definition log_event (e : event) : pM () := fun σ => (Ok (), σ ++ [e]).
Definition caught {A} (m : pM A) : pM (result shim_error A) := fun σ => let '(r, σ') := m σ in (Ok r, σ').

(** [CString::new]. *)
Definition cstring (s : string) : result shim_error string :=
  if str_contains_char "000" s then Err (InteriorNul s) else Ok s.

Definition cstrings (l : list string) : result shim_error (list string) := mapM cstring l.
Definition opt_map {A B} (f : A -> result shim_error B) (o : option A) : result shim_error (option B) :=
  match o with Some a => b ← f a; Ok (Some b) | None => Ok None end.

Section Shim.
(** The status of a libkrun call, [gvproxy_create], the installation of the seccomp
    filter, and [Display] of the errors. *)
Context (krun : list event -> krun_call -> Z) (create_instance : GvproxyConfig -> result string Z)
  (install_default : result string ()) (error_text : shim_error -> string) (capture_env : option string).

(** A call through [check]. *)
Definition check (op : string) (c : krun_call) : pM () := fun σ =>
  let code := krun σ c in (if code <? 0 then Err (KrunError op code) else Ok (), σ ++ [Krun c]).

Definition create_ctx : pM Z := fun σ =>
  let code := krun σ CreateCtx in (if code <? 0 then Err (KrunError "create_ctx" code) else Ok (u32 code), σ ++ [Krun CreateCtx]).
Definition free_ctx (ctx : Z) : pM () := check "free_ctx" (FreeCtx ctx).
Definition start_enter (ctx : Z) : pM () := check "start_enter" (StartEnter ctx).
Definition set_vm_config (ctx vcpus ram_mib : Z) : pM () := check "set_vm_config" (SetVmConfig ctx vcpus ram_mib).
Definition krun_set_root (ctx : Z) (path : string) : pM () := pure (cstring path) ≫= fun p => check "set_root" (SetRoot ctx p).
Definition krun_set_exec (ctx : Z) (path : string) (args : list string) (env : option (list string)) : pM () :=
  pure (cstring path) ≫= fun p => pure (cstrings args) ≫= fun a => pure (opt_map cstrings env) ≫= fun e => check "set_exec" (SetExec ctx p a e).
Definition krun_set_env (ctx : Z) (env : list string) : pM () := pure (cstrings env) ≫= fun e => check "set_env" (SetEnv ctx e).
Definition krun_add_virtiofs3 (ctx : Z) (tag host_path : string) (shm_size : Z) (read_only : bool) : pM () :=
  pure (cstring tag) ≫= fun t => pure (cstring host_path) ≫= fun p => check "add_virtiofs3" (AddVirtiofs3 ctx t p shm_size read_only).
Definition add_disk2 (ctx : Z) (block_id disk_path : string) (format : DiskFormat) (read_only : bool) : pM () :=
  pure (cstring block_id) ≫= fun b => pure (cstring disk_path) ≫= fun p =>
  check "add_disk2" (AddDisk2 ctx b p (match format with DiskRaw => 0 | DiskQcow2 => 1 end) read_only).
Definition set_root_disk_remount (ctx : Z) (device : string) (fstype options : option string) : pM () :=
  pure (cstring device) ≫= fun d => pure (opt_map cstring fstype) ≫= fun f => pure (opt_map cstring options) ≫= fun o =>
  check "set_root_disk_remount" (SetRootDiskRemount ctx d f o).
Definition add_net_unixstream (ctx : Z) (path : option string) (fd : Z) (mac : list Z) (features flags : Z) : pM () :=
  pure (opt_map cstring path) ≫= fun p => check "add_net_unixstream" (AddNetUnixstream ctx p fd mac features flags).
Definition add_net_unixgram (ctx : Z) (path : option string) (fd : Z) (mac : list Z) (features flags : Z) : pM () :=
  pure (opt_map cstring path) ≫= fun p => check "add_net_unixgram" (AddNetUnixgram ctx p fd mac features flags).
Definition disable_implicit_vsock (ctx : Z) : pM () := check "disable_implicit_vsock" (DisableImplicitVsock ctx).
Definition add_vsock (ctx tsi_features : Z) : pM () := check "add_vsock" (AddVsock ctx tsi_features).
Definition add_vsock_port2 (ctx port : Z) (path : string) (listen : bool) : pM () :=
  pure (cstring path) ≫= fun p => check "add_vsock_port2" (AddVsockPort2 ctx port p listen).

(** ** apply.rs *)

Definition VIRTIOFS_SHM_SIZE : Z := 0.
Definition NET_FLAG_VFKIT : Z := 1.
Definition COMPAT_NET_FEATURES : Z := 19587.

Definition add_virtiofs_share (ctx : Z) (share : string * string * bool) : pM () :=
  let '(tag, path, read_only) := share in krun_add_virtiofs3 ctx tag path VIRTIOFS_SHM_SIZE read_only.

Fixpoint each {A} (f : A -> pM ()) (l : list A) : pM () :=
  match l with [] => mret () | a :: r => f a ≫= fun _ => each f r end.

Definition apply_root (ctx : Z) (cfg : ShimConfig) : pM () :=
  match sc_rootfs cfg, sc_root_disk cfg with
  | Some root, None => krun_set_root ctx root
  | None, Some disk =>
    add_disk2 ctx "rootfs" disk (sc_disk_format cfg) false ≫= fun _ =>
    set_root_disk_remount ctx "/dev/vda" (Some "ext4"%string) None
  | Some _, Some _ => raise (InvalidConfig "ShimConfig: rootfs and root_disk are mutually exclusive")
  | None, None => raise (InvalidConfig "ShimConfig: need rootfs or root_disk")
  end.

(** The path of the network's socket as text. *)
Definition net_path (net : ShimNetwork) : string := from_utf8_lossy (str_bytes (sn_socket_path net)).

Definition apply_network (ctx : Z) (cfg : ShimConfig) : pM () :=
  match sc_network cfg with
  | Some net =>
    if sn_dgram net then add_net_unixgram ctx (Some (net_path net)) (-1) (sn_mac net) COMPAT_NET_FEATURES NET_FLAG_VFKIT
    else add_net_unixstream ctx (Some (net_path net)) (-1) (sn_mac net) COMPAT_NET_FEATURES 0
  | None => disable_implicit_vsock ctx ≫= fun _ => add_vsock ctx 0
  end.

Definition apply_exec (ctx : Z) (cfg : ShimConfig) : pM () :=
  match sc_exec_path cfg, sc_env cfg with
  | Some p, e => krun_set_exec ctx p (sc_exec_args cfg) e
  | None, Some e => krun_set_env ctx e
  | None, None => mret ()
  end.

Definition apply_all (ctx : Z) (cfg : ShimConfig) : pM () :=
  set_vm_config ctx (sc_vcpus cfg) (sc_ram_mib cfg) ≫= fun _ =>
  apply_root ctx cfg ≫= fun _ =>
  each (add_virtiofs_share ctx) (sc_virtiofs cfg) ≫= fun _ =>
  apply_network ctx cfg ≫= fun _ =>
  apply_exec ctx cfg ≫= fun _ =>
  each (fun vs => add_vsock_port2 ctx (vp_port vs) (vp_path vs) (vp_listen vs)) (sc_vsock_ports cfg).

(** A prepared VM holds its context. *)
Definition prepare (cfg : ShimConfig) : pM Z :=
  ctx ← create_ctx;
  applied ← caught (apply_all ctx cfg);
  match applied with
  | Ok _ => mret ctx
  | Err e => caught (free_ctx ctx) ≫= fun _ => raise e
  end.

(** [PreparedVm::start]: a success is the VM running in this process. *)
Definition start (ctx : Z) : pM () :=
  entered ← caught (start_enter ctx);
  match entered with
  | Ok _ => mret ()
  | Err e => caught (free_ctx ctx) ≫= fun _ => raise e
  end.

Definition install_seccomp : pM () :=
  match install_default with Ok _ => log_event SeccompInstalled | Err t => raise (SeccompError t) end.

(** ** main.rs *)

Definition gvproxy_config (net : ShimNetwork) (g : ShimGvproxy) : GvproxyConfig :=
  let c := with_allow_net (gv_allow_net g) (GvproxyConfig_new capture_env (sn_socket_path net) (gv_port_mappings g)) in
  match gv_secrets g with
  | [] => c
  | secrets => with_secrets ((fun s => mkSecretConfig (sh_name s) (sh_hosts s) (sh_placeholder s) (sh_value s)) <$> secrets)
                 (gv_ca_cert_pem g) (gv_ca_key_pem g) c
  end.

(** Errors as text: the id of the instance, if one was started. *)
Definition start_gvproxy (cfg : ShimConfig) : list event -> result string (option Z) * list event := fun σ =>
  match sc_network cfg, sc_gvproxy cfg with
  | Some net, Some g =>
    let c := gvproxy_config net g in
    match create_instance c with
    | Ok id => (Ok (Some id), σ ++ [GvproxyCreate c])
    | Err t => (Err t, σ)
    end
  | None, None => (Ok None, σ)
  | _, _ => (Err "gvproxy and network must both be set or both absent"%string, σ)
  end.

(** Dropping the instance. *)
Definition drop_gvproxy (gvp : option Z) (σ : list event) : list event :=
  match gvp with Some id => σ ++ [GvproxyDestroy id] | None => σ end.

(** What is dropped on the way out: the prepared VM, then gvproxy. *)
Definition run (cfg : ShimConfig) : list event -> result string () * list event := fun σ =>
  match start_gvproxy cfg σ with
  | (Err t, σ) => (Err t, σ)
  | (Ok gvp, σ) =>
    match prepare cfg σ with
    | (Err e, σ) => (Err (error_text e), drop_gvproxy gvp σ)
    | (Ok ctx, σ) =>
      match install_seccomp σ with
      | (Err e, σ) => (Err (error_text e), drop_gvproxy gvp (free_ctx ctx σ).2)
      | (Ok _, σ) =>
        match start ctx σ with
        | (Ok _, σ) => (Ok (), σ)
        | (Err e, σ) => (Err (error_text e), drop_gvproxy gvp σ)
        end
      end
    end
  end.

Definition write_exit_error (path message : string) (σ : list event) : list event := σ ++ [WriteExit path 1 message].

(** The process, from the argument, the contents of the configuration file and its
    parse: [true] when the VM runs. *)
Definition main (with_exit : string -> string) (read_config : string -> result string (list Z)) (from_json : list Z -> result string ShimConfig)
    (arg : option string) : bool * list event :=
  match arg with
  | None => (false, [ExitWith 1])
  | Some config_path =>
    let exit_path := with_exit config_path in
    match read_config config_path with
    | Err e => (false, write_exit_error exit_path ("failed to read config: " +:+ e) [ReadConfig] ++ [ExitWith 1])
    | Ok json =>
      let σ := [ReadConfig; RemoveConfig] in
      match from_json json with
      | Err e => (false, write_exit_error exit_path ("invalid config JSON: " +:+ e) σ ++ [ExitWith 1])
      | Ok config =>
        match run config σ with
        | (Ok _, σ) => (true, σ)
        | (Err e, σ) => (false, write_exit_error exit_path ("VM start failed: " +:+ e) σ ++ [ExitWith 1])
        end
      end
    end
  end.
End Shim.

(** ** exit_info.rs *)

Inductive ExitInfo : Type :=
  | SignalExit (exit_code : Z) (signal : string)
  | PanicExit (exit_code : Z) (message location : string)
  | ErrorExit (exit_code : Z) (message : string).

Definition SIGNAL_EXIT_BASE : Z := 128.
Definition PANIC_EXIT_CODE : Z := 101.

Definition exit_code (i : ExitInfo) : Z := match i with SignalExit c _ | PanicExit c _ _ | ErrorExit c _ => c end.

Definition summary (i : ExitInfo) : string :=
  match i with
  | SignalExit _ signal => "killed by " +:+ signal
  | PanicExit _ message location => "panic at " +:+ location +:+ ": " +:+ message
  | ErrorExit _ message => message
  end.

(** What [handle_crash_signal] writes. *)
Definition crash_info (sig : Z) : ExitInfo :=
  SignalExit (SIGNAL_EXIT_BASE + sig)
    (if sig =? 6 then "SIGABRT" else if sig =? 11 then "SIGSEGV" else if sig =? 7 then "SIGBUS" else if sig =? 4 then "SIGILL" else "UNKNOWN").

(** ** What a VM is given *)

Definition root_calls (ctx : Z) (cfg : ShimConfig) : list krun_call :=
  match sc_rootfs cfg, sc_root_disk cfg with
  | Some root, _ => [SetRoot ctx root]
  | None, Some disk =>
    [AddDisk2 ctx "rootfs" disk (match sc_disk_format cfg with DiskRaw => 0 | DiskQcow2 => 1 end) false;
     SetRootDiskRemount ctx "/dev/vda" (Some "ext4"%string) None]
  | None, None => []
  end.

Definition share_call (ctx : Z) (share : string * string * bool) : krun_call :=
  let '(tag, path, read_only) := share in AddVirtiofs3 ctx tag path 0 read_only.

Definition network_calls (ctx : Z) (cfg : ShimConfig) : list krun_call :=
  match sc_network cfg with
  | Some net => if sn_dgram net then [AddNetUnixgram ctx (Some (net_path net)) (-1) (sn_mac net) COMPAT_NET_FEATURES NET_FLAG_VFKIT]
                else [AddNetUnixstream ctx (Some (net_path net)) (-1) (sn_mac net) COMPAT_NET_FEATURES 0]
  | None => [DisableImplicitVsock ctx; AddVsock ctx 0]
  end.

Definition exec_calls (ctx : Z) (cfg : ShimConfig) : list krun_call :=
  match sc_exec_path cfg, sc_env cfg with
  | Some p, e => [SetExec ctx p (sc_exec_args cfg) e]
  | None, Some e => [SetEnv ctx e]
  | None, None => []
  end.

Definition vsock_call (ctx : Z) (vs : VsockPort) : krun_call := AddVsockPort2 ctx (vp_port vs) (vp_path vs) (vp_listen vs).

Definition vm_calls (ctx : Z) (cfg : ShimConfig) : list krun_call :=
  SetVmConfig ctx (sc_vcpus cfg) (sc_ram_mib cfg) :: root_calls ctx cfg ++ (share_call ctx <$> sc_virtiofs cfg)
  ++ network_calls ctx cfg ++ exec_calls ctx cfg ++ (vsock_call ctx <$> sc_vsock_ports cfg).

(** The root is a directory or a disk. *)
Definition one_root (cfg : ShimConfig) : Prop := is_Some (sc_rootfs cfg) <-> sc_root_disk cfg = None.

Lemma cstring_ok s t : cstring s = Ok t -> t = s.
Proof. unfold cstring. case_match; [done|]. by intros [= <-]. Qed.

Lemma cstrings_ok l m : cstrings l = Ok m -> m = l.
Proof.
  unfold cstrings. revert m. induction l as [|s l IH]; intros m H; [by injection H as <-|]. cbn in H.
  destruct (cstring s) as [t|] eqn:E; [|done]. cbn in H. destruct (mapM cstring l) as [m'|]; [|done].
  injection H as <-. apply cstring_ok in E as ->. by rewrite (IH m').
Qed.

Lemma opt_map_ok {A} (f : A -> result shim_error A) o p : (forall a b, f a = Ok b -> b = a) -> opt_map f o = Ok p -> p = o.
Proof. intros Hf H. destruct o as [a|]; cbn in H; [|by simplify_eq]. destruct (f a) eqn:E; simplify_eq/=. by rewrite (Hf _ _ E). Qed.

#[local] Hint Resolve cstring_ok cstrings_ok : core.

(** ** Computations that make the calls [l] *)

Section Performs.
Context (krun : list event -> krun_call -> Z).

(** All of them on success, and none out of turn before a failure. *)
Definition performs (m : pM ()) (l : list krun_call) : Prop :=
  forall σ, exists l', (m σ).2 = σ ++ (Krun <$> l') /\ l' `prefix_of` l /\ ((m σ).1 = Ok () -> l' = l).

Lemma performs_check op c : performs (check krun op c) [c].
Proof. intros σ. exists [c]. done. Qed.

Lemma performs_ret : performs (mret ()) [].
Proof. intros σ. exists []. by rewrite app_nil_r. Qed.

Lemma performs_raise e l : performs (raise e) l.
Proof. intros σ. exists []. rewrite app_nil_r. split; [done|]. split; [apply prefix_nil|done]. Qed.

Lemma performs_bind m n l1 l2 : performs m l1 -> performs n l2 -> performs (m ≫= fun _ => n) (l1 ++ l2).
Proof.
  intros Hm Hn σ. destruct (Hm σ) as (k1 & E1 & Hp1 & Ho1). unfold mbind, pM_bind. destruct (m σ) as [[[]|e] σ1]; cbn [fst snd] in *.
  - rewrite (Ho1 eq_refl) in E1. destruct (Hn σ1) as (k2 & E2 & Hp2 & Ho2). exists (l1 ++ k2). rewrite E2, fmap_app, app_assoc, <- E1.
    split; [done|]. split; [by apply prefix_app|]. intros H. by rewrite (Ho2 H).
  - exists k1. split; [done|]. split; [by apply prefix_app_r|done].
Qed.

Lemma performs_pure {A} (r : result shim_error A) f l : (forall a, r = Ok a -> performs (f a) l) -> performs (pure r ≫= f) l.
Proof.
  intros H σ. unfold mbind, pM_bind, pure. destruct r as [a|e]; [by apply H|].
  exists []. rewrite app_nil_r. split; [done|]. split; [apply prefix_nil|done].
Qed.

Lemma performs_each {A} (f : A -> pM ()) g l : (forall a, performs (f a) [g a]) -> performs (each f l) (g <$> l).
Proof. intros H. induction l as [|a l IH]; [apply performs_ret|]. change (g <$> a :: l) with ([g a] ++ (g <$> l)). by apply performs_bind. Qed.

Ltac performs :=
  repeat match goal with
    | |- performs (pure _ ≫= _) _ => apply performs_pure; intros ?? ;
        repeat match goal with
          | H : cstring _ = Ok _ |- _ => apply cstring_ok in H; subst
          | H : cstrings _ = Ok _ |- _ => apply cstrings_ok in H; subst
          | H : opt_map cstring _ = Ok _ |- _ => apply opt_map_ok in H; [subst|by auto]
          | H : opt_map cstrings _ = Ok _ |- _ => apply opt_map_ok in H; [subst|by auto]
          end
    | |- performs (check _ _ _) _ => apply performs_check
    | |- performs (raise _) _ => apply performs_raise
    | |- performs (mret _) _ => apply performs_ret
    end.

Lemma apply_all_performs ctx cfg : performs (apply_all krun ctx cfg) (vm_calls ctx cfg).
Proof.
  unfold apply_all, vm_calls. change (?a :: ?l) with ([a] ++ l) at 1. apply performs_bind; [unfold set_vm_config; performs|].
  apply performs_bind.
  { unfold apply_root, root_calls. destruct (sc_rootfs cfg), (sc_root_disk cfg); performs.
    - unfold krun_set_root. performs.
    - change [?a; ?b] with ([a] ++ [b]). apply performs_bind; [unfold add_disk2|unfold set_root_disk_remount]; performs. }
  apply performs_bind; [apply performs_each; intros [[tag p] ro]; unfold add_virtiofs_share, krun_add_virtiofs3; performs|].
  apply performs_bind.
  { unfold apply_network, network_calls. destruct (sc_network cfg) as [net|]; [destruct (sn_dgram net)|].
    - unfold add_net_unixgram. performs.
    - unfold add_net_unixstream. performs.
    - change [?a; ?b] with ([a] ++ [b]). apply performs_bind; [unfold disable_implicit_vsock|unfold add_vsock]; performs. }
  apply performs_bind; [|apply performs_each; intros vs; unfold add_vsock_port2; performs].
  unfold apply_exec, exec_calls. destruct (sc_exec_path cfg), (sc_env cfg); unfold krun_set_exec, krun_set_env; performs.
Qed.

Lemma apply_all_root ctx cfg σ : (apply_all krun ctx cfg σ).1 = Ok () -> one_root cfg.
Proof.
  unfold apply_all, mbind, pM_bind. destruct (set_vm_config krun ctx _ _ σ) as [[[]|e] σ1]; [|done]. unfold apply_root, one_root.
  destruct (sc_rootfs cfg), (sc_root_disk cfg); try done; intros _; (split; [by intros []|by eexists]).
Qed.
End Performs.

(** ** The process *)

Section Process.
Context (krun : list event -> krun_call -> Z) (create_instance : GvproxyConfig -> result string Z)
  (install_default : result string ()) (error_text : shim_error -> string) (capture_env : option string).
Context (with_exit : string -> string) (read_config : string -> result string (list Z)) (from_json : list Z -> result string ShimConfig).

Abbreviation shim_run := (run krun create_instance install_default error_text capture_env).
Abbreviation shim_main := (main krun create_instance install_default error_text capture_env with_exit read_config from_json).

Definition gvproxy_events (cfg : ShimConfig) : list event :=
  match sc_network cfg, sc_gvproxy cfg with
  | Some net, Some g => [GvproxyCreate (gvproxy_config capture_env net g)]
  | _, _ => []
  end.

(** The proxy is there exactly when the device is. *)
Definition proxy_agrees (cfg : ShimConfig) : Prop := is_Some (sc_network cfg) <-> is_Some (sc_gvproxy cfg).

Lemma start_gvproxy_spec cfg σ gvp σ' :
  start_gvproxy create_instance capture_env cfg σ = (Ok gvp, σ') -> σ' = σ ++ gvproxy_events cfg /\ proxy_agrees cfg /\ (is_Some gvp <-> is_Some (sc_network cfg)).
Proof.
  unfold start_gvproxy, gvproxy_events, proxy_agrees. destruct (sc_network cfg) as [net|], (sc_gvproxy cfg) as [g|]; try done.
  - destruct (create_instance _); [|done]. intros [= <- <-]. split; [done|]. split; (split; intros _; by eexists).
  - intros [= <- <-]. rewrite app_nil_r. split; [done|]. split; split; by intros [].
Qed.

Lemma prepare_spec cfg σ ctx σ' :
  prepare krun cfg σ = (Ok ctx, σ') -> σ' = σ ++ [Krun CreateCtx] ++ (Krun <$> vm_calls ctx cfg) /\ one_root cfg.
Proof.
  unfold prepare, mbind, pM_bind, caught. destruct (create_ctx krun σ) as [[c|e] σ1] eqn:E; [|done].
  destruct (apply_all krun c cfg σ1) as [[[]|e] σ2] eqn:E2; [|by destruct (free_ctx krun c σ2)].
  intros [= <- <-]. destruct (apply_all_performs krun c cfg σ1) as (l & Hl & _ & Ho). pose proof (apply_all_root krun c cfg σ1) as Hr.
  rewrite E2 in *. cbn [fst snd] in *. rewrite Hl, (Ho eq_refl). unfold create_ctx in E. case_match; simplify_eq.
  split; [by rewrite app_assoc|by apply Hr].
Qed.

Lemma run_log cfg σ σ' :
  shim_run cfg σ = (Ok (), σ') ->
  exists ctx, σ' = σ ++ gvproxy_events cfg ++ [Krun CreateCtx] ++ (Krun <$> vm_calls ctx cfg) ++ [SeccompInstalled; Krun (StartEnter ctx)]
    /\ one_root cfg /\ proxy_agrees cfg.
Proof.
  unfold run. destruct (start_gvproxy create_instance capture_env cfg σ) as [[gvp|t] σ1] eqn:E1; [|done].
  destruct (start_gvproxy_spec _ _ _ _ E1) as (-> & Hag & _).
  destruct (prepare krun cfg _) as [[ctx|e] σ2] eqn:E2; [|done]. destruct (prepare_spec _ _ _ _ E2) as [-> Hroot].
  unfold install_seccomp. destruct install_default as [?|t]; [|done]. cbn [log_event].
  unfold start, mbind, pM_bind, caught. unfold start_enter, check. destruct (krun _ (StartEnter ctx) <? 0); [by destruct (free_ctx krun ctx _)|].
  intros [= <-]. exists ctx. split; [|done]. by rewrite <- !app_assoc.
Qed.

(** C33.  A started VM is the one of the configuration: when the shim enters the
    VM, it has read the configuration file and removed it, started gvproxy if and
    only if the VM has a network device, and told libkrun the resources, exactly one
    root, every share with its read-only flag, the network device or its absence,
    the program and every agent port of the configuration, in this order and nothing
    else; and the seccomp filter was in place before the VM was entered. *)
Theorem vm_as_configured p σ' :
  shim_main (Some p) = (true, σ') ->
  exists json cfg ctx, read_config p = Ok json /\ from_json json = Ok cfg
    /\ σ' = [ReadConfig; RemoveConfig] ++ gvproxy_events cfg ++ [Krun CreateCtx] ++ (Krun <$> vm_calls ctx cfg)
              ++ [SeccompInstalled; Krun (StartEnter ctx)]
    /\ one_root cfg /\ proxy_agrees cfg.
Proof.
  unfold main. destruct (read_config p) as [json|e] eqn:E1; [|done]. destruct (from_json json) as [cfg|e] eqn:E2; [|done].
  destruct (shim_run cfg _) as [[[]|e] σ] eqn:E3; [|done]. intros [= <-].
  destruct (run_log _ _ _ E3) as (ctx & -> & Hr). exists json, cfg, ctx. auto.
Qed.

(** libkrun hands the guest the host's network stack unless it got a network device
    or lost its implicit vsock device; a vsock device can ask for it again. *)
Definition is_net (e : event) : bool := match e with Krun (AddNetUnixstream _ _ _ _ _ _ | AddNetUnixgram _ _ _ _ _ _) => true | _ => false end.
Definition is_disable (e : event) : bool := match e with Krun (DisableImplicitVsock _) => true | _ => false end.
Definition asks_tsi (e : event) : bool := match e with Krun (AddVsock _ f) => negb (f =? 0) | _ => false end.
Definition host_stack_open (l : list event) : bool := (negb (existsb is_net l) && negb (existsb is_disable l)) || existsb asks_tsi l.

Lemma network_of_vm (f : event -> bool) ctx cfg :
  (forall c, f (Krun c) = true -> match c with AddNetUnixstream _ _ _ _ _ _ | AddNetUnixgram _ _ _ _ _ _ | DisableImplicitVsock _ | AddVsock _ _ => True | _ => False end) ->
  existsb f (Krun <$> vm_calls ctx cfg) = existsb f (Krun <$> network_calls ctx cfg).
Proof.
  intros Hf. unfold vm_calls. cbn [fmap list_fmap existsb]. change (list_fmap krun_call event Krun) with (fmap (M := list) Krun). rewrite !fmap_app, !existsb_app.
  assert (forall l, (forall c, c ∈ l -> match c with AddNetUnixstream _ _ _ _ _ _ | AddNetUnixgram _ _ _ _ _ _ | DisableImplicitVsock _ | AddVsock _ _ => False | _ => True end) ->
    existsb f (Krun <$> l) = false) as Hno.
  { intros l Hl. induction l as [|c l IH]; [done|]. rewrite fmap_cons. cbn [existsb]. rewrite IH by (intros; apply Hl; by right).
    rewrite orb_false_r. destruct (f (Krun c)) eqn:E; [|done]. apply Hf in E. pose proof (Hl c ltac:(left)) as Hc. by destruct c. }
  assert (f (Krun (SetVmConfig ctx (sc_vcpus cfg) (sc_ram_mib cfg))) = false) as -> by (destruct (f _) eqn:E; [by apply Hf in E|done]).
  rewrite (Hno (root_calls ctx cfg)), (Hno (share_call ctx <$> _)), (Hno (exec_calls ctx cfg)), (Hno (vsock_call ctx <$> _)).
  - by rewrite orb_false_r.
  - intros c (vs & -> & _)%list_elem_of_fmap. done.
  - unfold exec_calls. destruct (sc_exec_path cfg), (sc_env cfg); intros c Hc; rewrite ?elem_of_cons, ?elem_of_nil in Hc; destruct_or?; by subst.
  - intros c ([[t p] ro] & -> & _)%list_elem_of_fmap. done.
  - unfold root_calls. destruct (sc_rootfs cfg), (sc_root_disk cfg); intros c Hc; rewrite ?elem_of_cons, ?elem_of_nil in Hc; destruct_or?; by subst.
Qed.

(** The calls about network and vsock devices, in their order. *)
Definition network_call (e : event) : option krun_call :=
  match e with
  | Krun (AddNetUnixstream _ _ _ _ _ _ as c) | Krun (AddNetUnixgram _ _ _ _ _ _ as c) | Krun (DisableImplicitVsock _ as c) | Krun (AddVsock _ _ as c) =>
    Some c
  | _ => None
  end.

(** The one device of an online VM: a datagram socket speaks vfkit's handshake;
    the features are checksum and segmentation offloads for TCP and UDP. *)
Definition device (ctx : Z) (net : ShimNetwork) (path : string) : krun_call :=
  if sn_dgram net then AddNetUnixgram ctx (Some path) (-1) (sn_mac net) 19587 1
  else AddNetUnixstream ctx (Some path) (-1) (sn_mac net) 19587 0.

Definition is_gvproxy (e : event) : Prop := match e with GvproxyCreate _ | GvproxyDestroy _ => True | _ => False end.
#[export] Instance is_gvproxy_dec e : Decision (is_gvproxy e).
Proof. destruct e; apply _. Defined.

Lemma no_gvproxy l : filter is_gvproxy (Krun <$> l) = [].
Proof. induction l as [|c l IH]; [done|]. rewrite fmap_cons. by rewrite filter_cons_False by (by intros []). Qed.

Lemma net_path_utf8 net : utf8_valid (str_bytes (sn_socket_path net)) = true -> net_path net = sn_socket_path net.
Proof. intros H. unfold net_path, from_utf8_lossy. by rewrite utf8_lossy_id, bytes_str_bytes. Qed.

Lemma network_of_vm_calls ctx cfg : omap network_call (Krun <$> vm_calls ctx cfg) = network_calls ctx cfg.
Proof.
  assert (Hno : forall l, Forall (fun c => network_call (Krun c) = None) l -> omap network_call (Krun <$> l) = []).
  { induction 1 as [|c l Hc Hl IH]; [done|]. rewrite fmap_cons. cbn [omap list_omap]. by rewrite Hc. }
  unfold vm_calls. change (?a :: ?l) with ([a] ++ l) at 1. rewrite !fmap_app, !omap_app. rewrite (Hno [_]) by by repeat constructor.
  rewrite (Hno (root_calls ctx cfg)), (Hno (share_call ctx <$> _)), (Hno (exec_calls ctx cfg)), (Hno (vsock_call ctx <$> _)).
  - rewrite !app_nil_r. unfold network_calls. destruct (sc_network cfg) as [net|]; [by destruct (sn_dgram net)|done].
  - by apply Forall_fmap, Forall_true.
  - unfold exec_calls. destruct (sc_exec_path cfg), (sc_env cfg); by repeat constructor.
  - apply Forall_fmap, Forall_true. by intros [[t p] ro].
  - unfold root_calls. destruct (sc_rootfs cfg), (sc_root_disk cfg); by repeat constructor.
Qed.

(** C32.  A VM never falls back to the host's network: when the shim enters the VM,
    libkrun's transparent socket impersonation is off, whether the VM is online or
    offline.  An offline VM gets no network device, only a vsock device without any
    impersonation feature, and no gvproxy runs.  An online one gets exactly one
    device: the configured transport with the configured socket and MAC address, on
    the socket of the one gvproxy that runs, with the published ports and the
    allow-list of the configuration. *)
Theorem vm_network_confined p σ' :
  shim_main (Some p) = (true, σ') ->
  host_stack_open σ' = false
  /\ exists json cfg ctx, read_config p = Ok json /\ from_json json = Ok cfg
     /\ Krun (StartEnter ctx) ∈ σ'
     /\ match sc_network cfg, sc_gvproxy cfg with
        | Some net, Some g =>
          exists path c, omap network_call σ' = [device ctx net path]
          /\ (utf8_valid (str_bytes (sn_socket_path net)) = true -> path = sn_socket_path net)
          /\ filter is_gvproxy σ' = [GvproxyCreate c]
          /\ gc_socket_path c = sn_socket_path net /\ gc_port_mappings c = gv_port_mappings g /\ gc_allow_net c = gv_allow_net g
        | None, None => omap network_call σ' = [DisableImplicitVsock ctx; AddVsock ctx 0] /\ filter is_gvproxy σ' = []
        | _, _ => False
        end.
Proof.
  unfold main. destruct (read_config p) as [json|e] eqn:E1; [|done]. destruct (from_json json) as [cfg|e] eqn:E2; [|done].
  destruct (shim_run cfg _) as [[[]|e] σ] eqn:E3; [|done]. intros [= <-].
  destruct (run_log _ _ _ E3) as (ctx & -> & Hroot & Hag).
  assert (forall f, f ReadConfig = false -> f RemoveConfig = false -> f SeccompInstalled = false -> f (Krun CreateCtx) = false ->
    f (Krun (StartEnter ctx)) = false -> (forall c, f (GvproxyCreate c) = false) ->
    (forall c, f (Krun c) = true -> match c with AddNetUnixstream _ _ _ _ _ _ | AddNetUnixgram _ _ _ _ _ _ | DisableImplicitVsock _ | AddVsock _ _ => True | _ => False end) ->
    existsb f ([ReadConfig; RemoveConfig] ++ gvproxy_events cfg ++ [Krun CreateCtx] ++ (Krun <$> vm_calls ctx cfg) ++ [SeccompInstalled; Krun (StartEnter ctx)])
    = existsb f (Krun <$> network_calls ctx cfg)) as Hex.
  { intros f H1 H2 H3 H4 H5 H6 H7. rewrite !existsb_app, (network_of_vm f) by done. cbn [existsb]. rewrite H1, H2, H3, H4, H5.
    assert (existsb f (gvproxy_events cfg) = false) as ->.
    { unfold gvproxy_events. destruct (sc_network cfg), (sc_gvproxy cfg); [|done..]. cbn [existsb]. by rewrite H6. }
    simpl. by rewrite orb_false_r. }
  split.
  { unfold host_stack_open. rewrite !Hex; try done; try (by intros []).
    unfold network_calls. destruct (sc_network cfg) as [net|]; [by destruct (sn_dgram net)|done]. }
  exists json, cfg, ctx. split; [done|]. split; [done|]. split; [rewrite !elem_of_app, !elem_of_cons; tauto|].
  rewrite !omap_app, !filter_app, network_of_vm_calls, no_gvproxy. cbn [omap list_omap network_call filter list_filter app].
  unfold proxy_agrees, gvproxy_events, network_calls in *.
  destruct (sc_network cfg) as [net|], (sc_gvproxy cfg) as [g|]; [| | |done].
  2: { destruct Hag as [H _]. by destruct (H ltac:(by eexists)). }
  2: { destruct Hag as [_ H]. by destruct (H ltac:(by eexists)). }
  exists (net_path net), (gvproxy_config capture_env net g). split; [by unfold device; destruct (sn_dgram net)|].
  split; [apply net_path_utf8|]. split; [done|]. unfold gvproxy_config. by destruct (gv_secrets g).
Qed.

(** The context a call is about. *)
Definition ctx_of (c : krun_call) : option Z :=
  match c with
  | CreateCtx => None
  | FreeCtx x | StartEnter x | SetVmConfig x _ _ | SetRoot x _ | AddDisk2 x _ _ _ _ | SetRootDiskRemount x _ _ _ | AddVirtiofs3 x _ _ _ _
  | AddNetUnixstream x _ _ _ _ _ | AddNetUnixgram x _ _ _ _ _ | DisableImplicitVsock x | AddVsock x _ | AddVsockPort2 x _ _ _ | SetExec x _ _ _
  | SetEnv x _ => Some x
  end.
Definition is_free (e : event) : bool := match e with Krun (FreeCtx _) => true | _ => false end.

(** What happens between the start of the proxy and its end: libkrun calls about
    one context and the seccomp filter. *)
Definition about_ctx (ctx : Z) (e : event) : Prop :=
  match e with Krun c => c = CreateCtx \/ ctx_of c = Some ctx | SeccompInstalled => True | _ => False end.

(** The calls [l] and then the one call that frees their context. *)
Definition freed_last (ctx : Z) (l : list event) : Prop :=
  exists a, l = a ++ [Krun (FreeCtx ctx)] /\ existsb is_free a = false /\ Forall (about_ctx ctx) a.

Lemma vm_calls_ctx ctx cfg c : c ∈ vm_calls ctx cfg -> ctx_of c = Some ctx /\ is_free (Krun c) = false.
Proof.
  unfold vm_calls, root_calls, network_calls, exec_calls. rewrite elem_of_cons, !elem_of_app, !list_elem_of_fmap.
  intros [->|[H|[([[t p] ro] & -> & _)|[H|[H|(vs & -> & _)]]]]]; try done; repeat case_match; rewrite ?elem_of_cons, ?elem_of_nil in H;
    destruct_or? H; by subst.
Qed.

(** What the calls of an application add before the context is freed. *)
Lemma prefix_freed ctx cfg l sec :
  l `prefix_of` vm_calls ctx cfg -> existsb is_free sec = false -> Forall (about_ctx ctx) sec ->
  freed_last ctx ([Krun CreateCtx] ++ (Krun <$> l) ++ sec ++ [Krun (FreeCtx ctx)]).
Proof.
  intros [k Hl] Hs Hc. exists ([Krun CreateCtx] ++ (Krun <$> l) ++ sec). split; [by rewrite <- !app_assoc|].
  assert (forall c, c ∈ l -> ctx_of c = Some ctx /\ is_free (Krun c) = false) as Hin.
  { intros c H. apply (vm_calls_ctx ctx cfg). rewrite Hl. apply elem_of_app. by left. }
  split.
  - rewrite !existsb_app, Hs, orb_false_r. cbn [existsb is_free orb]. clear Hl. induction l as [|c l IH]; [done|]. rewrite fmap_cons. cbn [existsb].
    rewrite (proj2 (Hin c ltac:(left))), IH; [done|]. intros c' H. apply Hin. by right.
  - apply Forall_app. split; [by repeat constructor|]. apply Forall_app. split; [|done].
    apply Forall_fmap, Forall_forall. intros c H. right. by apply Hin.
Qed.

(** The libkrun part of a failed start from [σ]. *)
Definition released (σ lib : list event) : Prop :=
  let code := krun σ CreateCtx in if code <? 0 then lib = [Krun CreateCtx] else freed_last (u32 code) lib.

Lemma create_ctx_spec σ :
  create_ctx krun σ = (if krun σ CreateCtx <? 0 then Err (KrunError "create_ctx" (krun σ CreateCtx)) else Ok (u32 (krun σ CreateCtx)), σ ++ [Krun CreateCtx]).
Proof. done. Qed.

Lemma prepare_fails cfg σ e σ' :
  prepare krun cfg σ = (Err e, σ') -> exists lib, σ' = σ ++ lib /\ released σ lib.
Proof.
  unfold prepare, mbind, pM_bind, caught, released. rewrite create_ctx_spec. destruct (krun σ CreateCtx <? 0).
  { intros [= <- <-]. by eexists. }
  set (ctx := u32 _). destruct (apply_all_performs krun ctx cfg (σ ++ [Krun CreateCtx])) as (l & Hl & Hp & _).
  destruct (apply_all krun _ cfg _) as [[[]|e'] σ2]; [done|]. cbn [snd] in Hl. subst σ2. unfold free_ctx, check, raise. intros [= <- <-].
  eexists. rewrite <- !app_assoc. split; [done|]. by apply (prefix_freed _ cfg l []).
Qed.

Lemma prepare_ctx cfg σ ctx σ' : prepare krun cfg σ = (Ok ctx, σ') -> (krun σ CreateCtx <? 0) = false /\ ctx = u32 (krun σ CreateCtx).
Proof.
  unfold prepare, mbind, pM_bind, caught. rewrite create_ctx_spec. destruct (krun σ CreateCtx <? 0); [done|].
  destruct (apply_all krun _ cfg _) as [[[]|e] σ2]; [by intros [= <- _]|by destruct (free_ctx krun _ σ2)].
Qed.

(** The proxy of a configuration, when it starts. *)
Definition proxy_id (cfg : ShimConfig) : option Z :=
  match sc_network cfg, sc_gvproxy cfg with
  | Some net, Some g => match create_instance (gvproxy_config capture_env net g) with Ok id => Some id | Err _ => None end
  | _, _ => None
  end.

Lemma start_gvproxy_id cfg σ gvp σ' : start_gvproxy create_instance capture_env cfg σ = (Ok gvp, σ') -> gvp = proxy_id cfg.
Proof.
  unfold start_gvproxy, proxy_id. destruct (sc_network cfg), (sc_gvproxy cfg); try done; [|by intros [= <- _]].
  destruct (create_instance _); [by intros [= <- _]|done].
Qed.

(** A failed start: the log does not grow when the proxy was not started. *)
Lemma run_fails cfg σ t σ' :
  shim_run cfg σ = (Err t, σ') ->
  match (start_gvproxy create_instance capture_env cfg σ).1 with
  | Err _ => σ' = σ
  | Ok _ => exists lib, σ' = drop_gvproxy (proxy_id cfg) (σ ++ gvproxy_events cfg ++ lib) /\ released (σ ++ gvproxy_events cfg) lib
  end.
Proof.
  unfold run. destruct (start_gvproxy create_instance capture_env cfg σ) as [[gvp|t'] σ1] eqn:E1; cbn [fst].
  2: { intros [= <- <-]. unfold start_gvproxy in E1. repeat case_match; by simplify_eq. }
  destruct (start_gvproxy_spec _ _ _ _ E1) as (-> & _ & _). rewrite <- (start_gvproxy_id _ _ _ _ E1). intros H.
  assert (exists lib, σ' = drop_gvproxy gvp ((σ ++ gvproxy_events cfg) ++ lib) /\ released (σ ++ gvproxy_events cfg) lib) as (lib & -> & Hl).
  2: { exists lib. by rewrite <- app_assoc. }
  destruct (prepare krun cfg _) as [[ctx|e] σ2] eqn:E2.
  2: { injection H as _ <-. destruct (prepare_fails _ _ _ _ E2) as (lib & -> & Hf). by exists lib. }
  destruct (prepare_spec _ _ _ _ E2) as [-> _]. destruct (prepare_ctx _ _ _ _ E2) as [Hc ->]. unfold released. rewrite Hc. set (ctx := u32 _) in *.
  unfold install_seccomp in H. destruct install_default as [?|t'].
  - cbn [log_event] in H. unfold start, mbind, pM_bind, caught in H. unfold start_enter, check in H.
    destruct (krun _ (StartEnter ctx) <? 0); [|done]. unfold free_ctx, check, raise in H. injection H as _ <-.
    exists ([Krun CreateCtx] ++ (Krun <$> vm_calls ctx cfg) ++ [SeccompInstalled; Krun (StartEnter ctx)] ++ [Krun (FreeCtx ctx)]).
    split; [by rewrite <- !app_assoc|]. apply (prefix_freed ctx cfg _ [SeccompInstalled; Krun (StartEnter ctx)]); [done|done|].
    constructor; [done|]. constructor; [by right|done].
  - injection H as _ <-. unfold free_ctx, check. cbn [snd].
    exists ([Krun CreateCtx] ++ (Krun <$> vm_calls ctx cfg) ++ [] ++ [Krun (FreeCtx ctx)]). split; [by rewrite <- !app_assoc|].
    by apply (prefix_freed ctx cfg _ []).
Qed.

Definition is_record (e : event) : bool := match e with WriteExit _ _ _ | ExitWith _ => true | _ => false end.

Lemma no_record_released σ cfg lib : released σ lib -> existsb is_record (gvproxy_events cfg ++ lib) = false.
Proof.
  intros H. rewrite existsb_app. apply orb_false_iff. split; [unfold gvproxy_events; by destruct (sc_network cfg), (sc_gvproxy cfg)|].
  unfold released in H. destruct (_ <? 0); [by subst|]. destruct H as (a & -> & _ & Ha). rewrite existsb_app, orb_false_r.
  induction Ha as [|e a He Ha IH]; [done|]. cbn [existsb]. rewrite IH, orb_false_r. by destruct e.
Qed.

(** C34.  A shim that does not run a VM leaves nothing behind but one exit record.
    It ends with exit code 1, after writing one record next to its configuration file, which
    says what failed.  When the file cannot be read or does not parse nothing was
    started.  Otherwise, whatever step fails, the libkrun context that was created is
    freed, by the last libkrun call and only once, and the very gvproxy that was
    started is destroyed, after it. *)
Theorem failed_start_releases p σ' :
  shim_main (Some p) = (false, σ') ->
  exists log message, σ' = log ++ [WriteExit (with_exit p) 1 message; ExitWith 1] /\ existsb is_record log = false
  /\ match read_config p with
     | Err e => log = [ReadConfig] /\ message = "failed to read config: " +:+ e
     | Ok json =>
       match from_json json with
       | Err e => log = [ReadConfig; RemoveConfig] /\ message = "invalid config JSON: " +:+ e
       | Ok cfg =>
         (exists t, (shim_run cfg [ReadConfig; RemoveConfig]).1 = Err t /\ message = "VM start failed: " +:+ t)
         /\ match (start_gvproxy create_instance capture_env cfg [ReadConfig; RemoveConfig]).1 with
            | Err _ => log = [ReadConfig; RemoveConfig]
            | Ok gvp =>
              exists lib, log = [ReadConfig; RemoveConfig] ++ gvproxy_events cfg ++ lib ++ (GvproxyDestroy <$> option_list gvp)
              /\ released ([ReadConfig; RemoveConfig] ++ gvproxy_events cfg) lib
            end
       end
     end.
Proof.
  unfold main, write_exit_error. destruct (read_config p) as [json|e]; [|by intros [= <-]; eexists [ReadConfig], _].
  destruct (from_json json) as [cfg|e]; [|by intros [= <-]; eexists [ReadConfig; RemoveConfig], _].
  destruct (shim_run cfg _) as [[[]|t] σ] eqn:E; [done|]. intros [= <-]. apply run_fails in E.
  exists σ, ("VM start failed: " +:+ t). split; [by rewrite <- app_assoc|].
  destruct (start_gvproxy _ _ cfg _) as [[gvp|t'] σ1] eqn:E1; cbn [fst] in *; [|subst σ; split; [done|]; split; [by exists t|done]].
  destruct E as (lib & -> & Hl). rewrite <- (start_gvproxy_id _ _ _ _ E1).
  assert (Ed : drop_gvproxy gvp ([ReadConfig; RemoveConfig] ++ gvproxy_events cfg ++ lib)
    = [ReadConfig; RemoveConfig] ++ gvproxy_events cfg ++ lib ++ (GvproxyDestroy <$> option_list gvp)).
  { destruct gvp; simpl; by rewrite <- ?app_assoc, ?app_nil_r. }
  rewrite Ed. split; [|split; [by exists t|by exists lib]].
  rewrite existsb_app, (app_assoc (gvproxy_events cfg)), existsb_app, (no_record_released _ _ _ Hl). by destruct gvp.
Qed.
End Process.

Module Sample.
Definition cfg (online : bool) : ShimConfig :=
  mkShimConfig 2 512 None (Some "/vm/disk.qcow2"%string) DiskQcow2 [("vol0", "/data", true)]%string [mkVsock 1024 "/run/agent.sock" true]
    (if online then Some (mkShimNet "/run/net.sock" false GUEST_MAC) else None)
    (if online then Some (mkShimGv [(8080, 80)] ["example.org"%string] [] "" "") else None)
    (Some "/bux-guest"%string) [] (Some ["A=1"%string]).

(** libkrun accepts everything, or not the n-th call. *)
Definition krun_ok (l : list event) (c : krun_call) : Z := 0.
Definition krun_until (n : nat) (l : list event) (c : krun_call) : Z := if decide (length l < n)%nat then 0 else -22.
Definition text (e : shim_error) : string := "error".
Definition go (krun : list event -> krun_call -> Z) (online : bool) : bool * list event :=
  main krun (fun _ => Ok 1) (Ok ()) text None (fun p => p) (fun _ => Ok []) (fun _ => Ok (cfg online)) (Some "c.json"%string).

Lemma vm_as_configured_witness :
  (go krun_ok true).1 = true /\ exists ctx,
    (go krun_ok true).2 = [ReadConfig; RemoveConfig; GvproxyCreate (gvproxy_config None (mkShimNet "/run/net.sock" false GUEST_MAC)
                             (mkShimGv [(8080, 80)] ["example.org"%string] [] "" "")); Krun CreateCtx]
                          ++ (Krun <$> vm_calls ctx (cfg true)) ++ [SeccompInstalled; Krun (StartEnter ctx)].
Proof.
  split; [reflexivity|].
  destruct (vm_as_configured krun_ok (fun _ => Ok 1) (Ok ()) text None (fun p => p) (fun _ => Ok []) (fun _ => Ok (cfg true)) "c.json" (go krun_ok true).2)
    as (json & c & ctx & _ & Hc & H & _); [reflexivity|]. injection Hc as <-. exists ctx. exact H.
Defined.

Lemma vm_network_confined_witness :
  (exists ctx, host_stack_open (go krun_ok false).2 = false /\ omap network_call (go krun_ok false).2 = [DisableImplicitVsock ctx; AddVsock ctx 0])
  /\ exists ctx, omap network_call (go krun_ok true).2 = [AddNetUnixstream ctx (Some "/run/net.sock"%string) (-1) GUEST_MAC 19587 0].
Proof.
  split.
  - destruct (vm_network_confined krun_ok (fun _ => Ok 1) (Ok ()) text None (fun p => p) (fun _ => Ok []) (fun _ => Ok (cfg false)) "c.json" (go krun_ok false).2)
      as (H & json & c & ctx & _ & Hc & _ & Hn); [reflexivity|]. exists ctx. split; [exact H|]. injection Hc as <-. apply Hn.
  - destruct (vm_network_confined krun_ok (fun _ => Ok 1) (Ok ()) text None (fun p => p) (fun _ => Ok []) (fun _ => Ok (cfg true)) "c.json" (go krun_ok true).2)
      as (_ & json & c & ctx & _ & Hc & _ & Hn); [reflexivity|]. exists ctx. injection Hc as <-. destruct Hn as (path & c & Hn & Hp & _).
    rewrite (Hp eq_refl) in Hn. exact Hn.
Defined.

(** libkrun refuses every call from the ninth event on; the proxy is instance 1. *)
Lemma failed_start_releases_witness :
  (go (krun_until 9) true).1 = false
  /\ exists log lib, (go (krun_until 9) true).2 = log ++ [WriteExit "c.json" 1 "VM start failed: error"; ExitWith 1]
    /\ log = [ReadConfig; RemoveConfig] ++ gvproxy_events None (cfg true) ++ lib ++ [GvproxyDestroy 1] /\ freed_last 0 lib.
Proof.
  split; [vm_compute; reflexivity|].
  destruct (failed_start_releases (krun_until 9) (fun _ => Ok 1) (Ok ()) text None (fun p => p) (fun _ => Ok []) (fun _ => Ok (cfg true)) "c.json" (go (krun_until 9) true).2)
    as (log & m & E & _ & (t & Ht & Hm) & H); [vm_compute; reflexivity|].
  destruct H as (lib & El & Hl). exists log, lib. split; [|split; [exact El|exact Hl]].
  rewrite E. vm_compute in Ht. injection Ht as <-. by rewrite Hm.
Defined.
End Sample.
