(* ===== verification/PayloadFetch.v ===== *)
(** * Fetching the payload

    The downloads of [crates/bux/src/payload.rs]: [http_get] with its retries,
    redirects and deadline, the allowlist of hosts, and the published checksum.
    The HTTP client, its URL parser, the time a request takes and SHA-256 are
    parameters; an [Instant] is a number of nanoseconds, and time passes in
    requests and sleeps only. *)

From S2P Require Import Prelude Files Paths Ports StateTypes ManagedGuest Text.

Definition GUEST_VERSION : string := "0.2.1".
Definition RELEASE_DOWNLOAD : string := "https://github.com/qntx/bux/releases/download".
Definition FETCH_TIMEOUT : Z := 5 * 60 * 10^9.
Definition BODY_LIMIT : Z := 512 * 1024 * 1024.
Definition SHA_LIMIT : Z := 8 * 1024.
Definition REDIRECT_HOSTS : list string :=
  ["github.com"; "objects.githubusercontent.com"; "release-assets.githubusercontent.com"]%string.

(** A parsed URL, and what a request ends with. *)
Record uri : Type := mkUri { u_scheme : option string; u_host : option string; u_authority : option string }.

Inductive ureq_error : Type :=
  | StatusCode (code : Z) | UreqIo (k : io_kind) | Timeout | ConnectionFailed | HostNotFound | UreqOther.

Record response : Type := mkResponse {
  rs_status : Z;
  rs_location : option string;
  rs_body : Z -> result ureq_error (list Z)
}.

(** A request that was made: when, how long it may take, and where to. *)
Record request : Type := mkRequest { rq_at : Z; rq_timeout : Z; rq_url : string }.

(** The clock and the requests made so far. *)
Record net : Type := mkNet { n_now : Z; n_log : list request }.

Definition netM (A : Type) : Type := net -> result Error A * net.
#[global] Instance netM_ret : MRet netM := fun A a σ => (Ok a, σ).
#[global] Instance netM_bind : MBind netM :=
  fun A B f m σ => match m σ with (Ok a, σ') => f a σ' | (Err e, σ') => (Err e, σ') end.

Definition net_pure {A} (r : result Error A) : netM A := fun σ => (r, σ).
Definition net_now : netM Z := fun σ => (Ok (n_now σ), σ).
Definition net_try {A} (m : netM A) : netM (result Error A) := fun σ => let '(r, σ') := m σ in (Ok r, σ').

(** [u8::from_str_radix] of two characters: the first may be a plus sign. *)
Definition hex_value (b : Z) : option Z :=
  if (48 <=? b) && (b <=? 57) then Some (b - 48)
  else if (97 <=? b) && (b <=? 102) then Some (b - 87)
  else if (65 <=? b) && (b <=? 70) then Some (b - 55)
  else None.
Definition hex_pair (a b : Z) : option Z :=
  l ← hex_value b;
  if a =? 43 then Some l else h ← hex_value a; Some (16 * h + l).

Fixpoint hex_pairs (l : list Z) : result Error (list Z) :=
  match l with
  | a :: b :: r =>
    if negb (utf8_valid [a; b]) then Err InvalidConfig else
    v ← ok_or (hex_pair a b) InvalidConfig;
    vs ← hex_pairs r;
    Ok (v :: vs)
  | _ => Ok []
  end.

Definition parse_sha256 (text : string) : result Error (list Z) :=
  match split_whitespace text with
  | [] => Err InvalidConfig
  | token :: _ =>
    if negb (zlen (str_bytes token) =? 64) then Err InvalidConfig else hex_pairs (str_bytes token)
  end.

Definition retryable (e : Error) : bool := match e with Busy | Io _ => true | _ => false end.

Definition map_ureq (e : ureq_error) : Error :=
  match e with
  | StatusCode code => if code =? 404 then NotFound else if (500 <=? code) && (code <? 600) then Busy else InvalidConfig
  | UreqIo k => Io k
  | Timeout | ConnectionFailed | HostNotFound => Busy
  | UreqOther => InvalidConfig
  end.

Definition map_status {A} (code : Z) : result Error A := Err (map_ureq (StatusCode code)).

Inductive Fetch : Type := Body (bytes : list Z) | Redirect (url : string).

Section Fetch.
(** [str::parse::<Uri>], the call of an agent with a global timeout and the time
    it takes, body included, and SHA-256. *)
Context (parse_uri : string -> option uri) (call : net -> string -> result ureq_error response) (elapsed : net -> string -> Z -> Z)
  (sha256 : list Z -> list Z).

Definition ensure_url_allowed (url : string) : result Error () :=
  match parse_uri url with
  | None => Err InvalidConfig
  | Some u =>
    match u_host u with
    | None => Err InvalidConfig
    | Some host =>
      if bool_decide (default "" (u_scheme u) = "https")%string && bool_decide (host ∈ REDIRECT_HOSTS) then Ok ()
      else Err InvalidConfig
    end
  end.

Definition resolve_location (current location : string) : result Error string :=
  if str_starts_with "https://" location || str_starts_with "http://" location then Ok location else
  match parse_uri current with
  | None => Err InvalidConfig
  | Some u =>
    match u_authority u with
    | None => Err InvalidConfig
    | Some auth =>
      match strip_prefix_str "/" location with
      | None => Err InvalidConfig
      | Some p => Ok (default "https"%string (u_scheme u) +:+ "://" +:+ auth +:+ "/" +:+ p)
      end
    end
  end.

Definition remaining (deadline : Z) : netM Z := fun σ =>
  if n_now σ <? deadline then (Ok (deadline - n_now σ), σ) else (Err InvalidConfig, σ).

(** [agent.get(url).call()]. *)
Definition agent_call (timeout : Z) (url : string) : netM (result ureq_error response) := fun σ =>
  (Ok (call σ url), mkNet (n_now σ + elapsed σ url timeout) (n_log σ ++ [mkRequest (n_now σ) timeout url])).

Definition read_response (timeout : Z) (current : string) (limit : Z) : netM Fetch :=
  r ← agent_call timeout current;
  net_pure match r with
  | Err e => Err (map_ureq e)
  | Ok resp =>
    let status := rs_status resp in
    if (300 <=? status) && (status <? 400) then
      match rs_location resp with
      | None => Err InvalidConfig
      | Some loc => next ← resolve_location current loc; Ok (Redirect next)
      end
    else if negb ((200 <=? status) && (status <? 300)) then map_status status
    else bytes ← map_err map_ureq (rs_body resp limit); Ok (Body bytes)
  end.

(** [hops] more requests. *)
Fixpoint follow_loop (hops : nat) (timeout : Z) (current : string) (deadline limit : Z) : netM (list Z) :=
  match hops with
  | O => net_pure (Err InvalidConfig)
  | S hops =>
    now ← net_now;
    if deadline <? now then net_pure (Err InvalidConfig) else
    net_pure (ensure_url_allowed current) ≫= fun _ =>
    f ← read_response timeout current limit;
    match f with
    | Body bytes => mret bytes
    | Redirect next => follow_loop hops timeout next deadline limit
    end
  end.

Definition http_get_follow (url : string) (deadline limit : Z) : netM (list Z) :=
  timeout ← remaining deadline;
  follow_loop 10 timeout url deadline limit.

(** A sleep takes as long as asked for. *)
Definition sleep_backoff (delay deadline : Z) : netM () := fun σ =>
  if deadline <? n_now σ + delay then (Err InvalidConfig, σ) else (Ok (), mkNet (n_now σ + delay) (n_log σ)).

(** [attempts_left] counts down to the last attempt. *)
Fixpoint get_loop (attempts_left : nat) (delay deadline : Z) (url : string) (limit : Z) : netM (list Z) :=
  r ← net_try (http_get_follow url deadline limit);
  match r with
  | Ok bytes => mret bytes
  | Err e =>
    match attempts_left with
    | O | 1%nat => net_pure (Err e)
    | S attempts_left =>
      if negb (retryable e) then net_pure (Err e) else
      sleep_backoff delay deadline ≫= fun _ => get_loop attempts_left (2 * delay) deadline url limit
    end
  end.

Definition http_get (url : string) (limit : Z) : netM (list Z) :=
  now ← net_now;
  get_loop 3 (10^9) (now + FETCH_TIMEOUT) url limit.

Definition download_verified (url sha_url : string) : netM (list Z) :=
  sha ← http_get sha_url SHA_LIMIT;
  sha_text ← net_pure (ok_or (from_utf8 sha) InvalidConfig);
  expected ← net_pure (parse_sha256 sha_text);
  bytes ← http_get url BODY_LIMIT;
  if bool_decide (sha256 bytes = expected) then mret bytes else net_pure (Err InvalidConfig).
End Fetch.

(** ** What the client documents *)

(** A request ends within its timeout, and a body read with a limit is not longer. *)
Class Agent (call : net -> string -> result ureq_error response) (elapsed : net -> string -> Z -> Z) : Prop := {
  agent_time : forall σ url timeout, 0 <= timeout -> 0 <= elapsed σ url timeout <= timeout;
  agent_body : forall σ url resp limit bytes, call σ url = Ok resp -> rs_body resp limit = Ok bytes -> zlen bytes <= limit
}.

(** ** Where requests go, how many there are and how long they take *)

Section Bounds.
Context (parse_uri : string -> option uri) (call : net -> string -> result ureq_error response) (elapsed : net -> string -> Z -> Z).
Context `{!Agent call elapsed}.

Definition allowed (url : string) : Prop :=
  exists u h, parse_uri url = Some u /\ u_scheme u = Some "https"%string /\ u_host u = Some h /\ h ∈ REDIRECT_HOSTS.

(** At most [n] requests, all of them allowed. *)
Definition fetched (n : nat) (σ σ' : net) : Prop :=
  exists rs, n_log σ' = n_log σ ++ rs /\ Forall (fun r => allowed (rq_url r)) rs /\ (length rs <= n)%nat /\ n_now σ <= n_now σ'.

Lemma fetched_refl n σ : fetched n σ σ.
Proof. exists []. rewrite app_nil_r. split_and!; [done|constructor|simpl; lia|lia]. Qed.

Lemma fetched_trans n m σ1 σ2 σ3 : fetched n σ1 σ2 -> fetched m σ2 σ3 -> fetched (n + m) σ1 σ3.
Proof.
  intros (r1 & E1 & F1 & L1 & T1) (r2 & E2 & F2 & L2 & T2). exists (r1 ++ r2).
  split_and!; [by rewrite E2, E1, app_assoc|by apply Forall_app|rewrite length_app; lia|lia].
Qed.

Lemma ensure_url_allowed_ok url : ensure_url_allowed parse_uri url = Ok () -> allowed url.
Proof.
  unfold ensure_url_allowed, allowed. destruct (parse_uri url) as [u|]; [|done]. destruct (u_host u) as [h|] eqn:Hh; [|done].
  destruct (_ && _) eqn:E; [|done]. intros _. apply andb_true_iff in E as [E1 E2].
  apply bool_decide_eq_true in E1, E2. exists u, h. split_and!; [done| |done|done].
  by destruct (u_scheme u); simplify_eq/=.
Qed.

Lemma read_response_spec timeout url limit σ :
  0 <= timeout -> allowed url ->
  let '(r, σ') := read_response parse_uri call elapsed timeout url limit σ in
  fetched 1 σ σ' /\ n_now σ' <= n_now σ + timeout /\ (forall bytes, r = Ok (Body bytes) -> zlen bytes <= limit).
Proof.
  intros Ht Ha. unfold read_response, mbind, netM_bind, agent_call, net_pure. cbn [n_now].
  pose proof (agent_time σ url timeout Ht) as Hw. split_and!; [| simpl; lia|].
  - exists [mkRequest (n_now σ) timeout url]. split_and!; [done|by repeat constructor|simpl; lia|simpl; lia].
  - intros bytes. destruct (call σ url) as [resp|e] eqn:Ec; [|done].
    destruct (_ && _); [destruct (rs_location resp); [|done]; by destruct (resolve_location _ _ _)|].
    destruct (negb _); [done|]. destruct (rs_body resp limit) as [b|] eqn:Eb; [|done]. intros [= <-].
    by eapply agent_body.
Qed.

Lemma follow_loop_spec hops timeout url deadline limit σ :
  0 <= timeout -> n_now σ <= deadline + timeout ->
  let '(r, σ') := follow_loop parse_uri call elapsed hops timeout url deadline limit σ in
  fetched hops σ σ' /\ n_now σ' <= deadline + timeout /\ (forall bytes, r = Ok bytes -> zlen bytes <= limit).
Proof.
  intros Ht. revert url σ. induction hops as [|hops IH]; intros url σ Hn; cbn [follow_loop]; [by split_and!; [apply fetched_refl|..]|].
  unfold mbind at 1, netM_bind at 1, net_now. case (Z.ltb_spec deadline (n_now σ)); intros Hd;
    [by split_and!; [apply fetched_refl|..]|].
  unfold mbind at 1, netM_bind at 1, net_pure at 1.
  destruct (ensure_url_allowed parse_uri url) as [[]|e] eqn:Ea; [|by split_and!; [apply fetched_refl|..]].
  apply ensure_url_allowed_ok in Ea. pose proof (read_response_spec timeout url limit σ Ht Ea) as Hr.
  unfold mbind, netM_bind. destruct (read_response _ _ _ _ _ _ σ) as [[[bytes|next]|e] σ1]; destruct Hr as (F & T & B).
  - split_and!; [|lia|intros b [= <-]; by apply B]. destruct F as (rs & ? & ? & ? & ?). exists rs. split_and!; auto; lia.
  - specialize (IH next σ1 ltac:(lia)). destruct (follow_loop _ _ _ hops _ _ _ _ σ1) as [r σ2]. destruct IH as (F' & T' & B').
    split_and!; [|done|done]. by apply (fetched_trans 1 hops _ σ1).
  - split_and!; [|lia|done]. destruct F as (rs & ? & ? & ? & ?). exists rs. split_and!; auto; lia.
Qed.

Lemma http_get_follow_spec url deadline limit start σ :
  deadline = start + FETCH_TIMEOUT -> start <= n_now σ <= deadline + FETCH_TIMEOUT ->
  let '(r, σ') := http_get_follow parse_uri call elapsed url deadline limit σ in
  fetched 10 σ σ' /\ n_now σ' <= deadline + FETCH_TIMEOUT /\ (forall bytes, r = Ok bytes -> zlen bytes <= limit).
Proof.
  intros Hd Hn. unfold http_get_follow, mbind, netM_bind, remaining. case (Z.ltb_spec (n_now σ) deadline); intros Hlt.
  - pose proof (follow_loop_spec 10 (deadline - n_now σ) url deadline limit σ ltac:(lia) ltac:(lia)) as H.
    destruct (follow_loop _ _ _ _ _ _ _ _ σ) as [r σ']. destruct H as (F & T & B). split_and!; [done|lia|done].
  - split_and!; [apply fetched_refl|lia|done].
Qed.

Lemma get_loop_spec attempts delay url deadline limit start σ :
  deadline = start + FETCH_TIMEOUT -> 0 <= delay -> start <= n_now σ <= deadline + FETCH_TIMEOUT ->
  let '(r, σ') := get_loop parse_uri call elapsed attempts delay deadline url limit σ in
  fetched (10 * Nat.max 1 attempts) σ σ' /\ n_now σ' <= deadline + FETCH_TIMEOUT /\ (forall bytes, r = Ok bytes -> zlen bytes <= limit).
Proof.
  intros Hd. revert delay σ. induction attempts as [|n IH]; intros delay σ Hdel Hn; cbn [get_loop];
    pose proof (http_get_follow_spec url deadline limit start σ Hd Hn) as H;
    unfold mbind at 1, netM_bind at 1, net_try; destruct (http_get_follow _ _ _ _ _ _ σ) as [[bytes|e] σ1]; destruct H as (F & T & B);
    try (split_and!; [destruct F as (rs & ? & ? & ? & ?); exists rs; split_and!; auto; lia|done|done]).
  destruct n as [|n]; [by split_and!|].
  destruct (negb (retryable e)); [split_and!; [destruct F as (rs & ? & ? & ? & ?); exists rs; split_and!; auto; lia|done|done]|].
  unfold mbind, netM_bind, sleep_backoff. case (Z.ltb_spec deadline (n_now σ1 + delay)); intros Hs.
  { split_and!; [destruct F as (rs & ? & ? & ? & ?); exists rs; split_and!; auto; lia|done|done]. }
  assert (Hge : start <= n_now σ1) by (destruct F as (? & _ & _ & _ & ?); lia).
  specialize (IH (2 * delay) (mkNet (n_now σ1 + delay) (n_log σ1)) ltac:(lia) ltac:(simpl; unfold FETCH_TIMEOUT in *; lia)).
  destruct (get_loop _ _ _ (S n) _ _ _ _ _) as [r σ2]. destruct IH as (F' & T' & B'). split_and!; [|done|done].
  replace (10 * Nat.max 1 (S (S n)))%nat with (10 + 10 * Nat.max 1 (S n))%nat by lia.
  eapply fetched_trans; [|exact F']. destruct F as (rs & ? & ? & ? & ?). exists rs. split_and!; auto; simpl; lia.
Qed.

(** C30.  A download goes to the release hosts only and ends: whatever the servers
    answer and wherever they redirect, every request of [http_get] is an HTTPS
    request to an allowlisted host, there are at most thirty of them, the whole
    takes at most twice the timeout, and a body that is returned is within the
    limit. *)
Theorem http_get_confined (url : string) (limit : Z) (σ : net) :
  let '(r, σ') := http_get parse_uri call elapsed url limit σ in
  exists rs, n_log σ' = n_log σ ++ rs
    /\ Forall (fun r => allowed (rq_url r)) rs /\ (length rs <= 30)%nat
    /\ n_now σ <= n_now σ' <= n_now σ + 2 * FETCH_TIMEOUT
    /\ (forall bytes, r = Ok bytes -> zlen bytes <= limit).
Proof.
  pose proof (get_loop_spec 3 (10^9) url (n_now σ + FETCH_TIMEOUT) limit (n_now σ) σ eq_refl ltac:(lia)
    ltac:(unfold FETCH_TIMEOUT; lia)) as H.
  unfold http_get, mbind, netM_bind, net_now. destruct (get_loop _ _ _ _ _ _ _ _ σ) as [r σ'].
  destruct H as ((rs & E & F & L & T) & Tm & B). exists rs. split_and!; auto; lia.
Qed.
End Bounds.

(** ** The published checksum *)

(** The digest as [sha256sum] prints it. *)
Fixpoint hex_text (d : list Z) : string :=
  match d with [] => EmptyString | b :: r => hex2 b +:+ hex_text r end.

(** A byte of plain text: neither white space nor the start of a longer character. *)
Definition plain_byte (b : Z) : Prop := is_ws_ascii b = false /\ 0 <= b < 0x80.

Lemma plain_not_ws2 a b : plain_byte a -> is_ws2 a b = false.
Proof. intros [_ H]. unfold is_ws2. replace (a =? 0xC2) with false by lia. done. Qed.

Lemma plain_not_ws3 a b c : plain_byte a -> is_ws3 a b c = false.
Proof.
  intros [_ H]. unfold is_ws3. replace (a =? 0xE1) with false by lia. replace (a =? 0xE2) with false by lia.
  by replace (a =? 0xE3) with false by lia.
Qed.

Lemma words_of_word w l r :
  Forall plain_byte l -> w ++ l <> [] -> words_of w (l ++ 32 :: r) = (rev w ++ l) :: words_of [] r.
Proof.
  revert w. induction l as [|a l IH]; intros w Hl Hne; cbn [app words_of].
  - rewrite app_nil_r. destruct w; [done|]. done.
  - apply Forall_cons in Hl as [Ha Hl]. rewrite (proj1 Ha). rewrite app_nil_r in Hne || idtac.
    assert (E : words_of (a :: w) (l ++ 32 :: r) = (rev w ++ a :: l) :: words_of [] r).
    { rewrite IH by done. simpl. by rewrite <- app_assoc. }
    rewrite <- E. destruct (l ++ 32 :: r) as [|b r2] eqn:El; [by destruct l|].
    rewrite plain_not_ws2 by done. destruct r2; [done|]. by rewrite plain_not_ws3.
Qed.

Lemma hex_digit_value n : 0 <= n < 16 -> byte_of_ascii (hex_digit n) = (if n <? 10 then 48 + n else 87 + n).
Proof. intros H. assert (n ∈ seqZ 0 16) as Hn by (apply elem_of_seqZ; lia). cbv in Hn. repeat (apply elem_of_cons in Hn as [->|Hn]; [reflexivity|]). by apply not_elem_of_nil in Hn. Qed.

Lemma hex_digit_spec n : 0 <= n < 16 ->
  plain_byte (byte_of_ascii (hex_digit n)) /\ byte_of_ascii (hex_digit n) <> 43 /\ hex_value (byte_of_ascii (hex_digit n)) = Some n.
Proof.
  intros H. rewrite hex_digit_value by done. unfold plain_byte, is_ws_ascii, hex_value.
  case (Z.ltb_spec n 10); intros Hn; (split_and!; [lia|lia|lia|lia|]).
  - replace (_ && _) with true by lia. f_equal. lia.
  - replace ((48 <=? 87 + n) && (87 + n <=? 57)) with false by lia. replace (_ && _) with true by lia. f_equal. lia.
Qed.

Lemma nibbles b : is_byte b -> 0 <= b / 16 < 16 /\ 0 <= b mod 16 < 16.
Proof.
  unfold is_byte. intros H. split; [split; [apply Z.div_pos; lia|apply Z.div_lt_upper_bound; lia]|apply Z.mod_pos_bound; lia].
Qed.

Lemma hex_pairs_text d : Forall is_byte d -> hex_pairs (str_bytes (hex_text d)) = Ok d.
Proof.
  induction 1 as [|b d Hb Hd IH]; [done|]. destruct (nibbles b Hb) as [H1 H2]. cbn [hex_text]. rewrite str_bytes_app.
  destruct (hex_digit_spec _ H1) as (P1 & N1 & V1). destruct (hex_digit_spec _ H2) as (P2 & N2 & V2).
  unfold hex2. cbn [str_bytes app hex_pairs].
  assert (E : utf8_valid [byte_of_ascii (hex_digit (b / 16)); byte_of_ascii (hex_digit (b mod 16))] = true).
  { cbn [utf8_valid]. destruct P1, P2. by rewrite !(proj2 (Z.ltb_lt _ 0x80)) by lia. }
  rewrite E. unfold hex_pair. rewrite V2, V1. cbn [mbind option_bind]. rewrite (proj2 (Z.eqb_neq _ _) N1). cbn [ok_or mbind result_bind negb].
  rewrite IH. cbn [mbind result_bind]. do 2 f_equal. pose proof (Z.div_mod b 16 ltac:(lia)). lia.
Qed.

Lemma hex_text_plain d : Forall is_byte d -> Forall plain_byte (str_bytes (hex_text d)) /\ zlen (str_bytes (hex_text d)) = 2 * zlen d.
Proof.
  induction 1 as [|b d Hb Hd [IH1 IH2]]; [done|]. destruct (nibbles b Hb). cbn [hex_text]. rewrite str_bytes_app. split.
  - unfold hex2. cbn [str_bytes app]. do 2 (apply Forall_cons; split; [by apply hex_digit_spec|]). done.
  - rewrite zlen_app, IH2. unfold zlen. simpl. lia.
Qed.

(** [sha256sum] output is read back to the digest. *)
Lemma parse_sha256_text d rest :
  Forall is_byte d -> zlen d = 32 -> parse_sha256 (hex_text d +:+ " " +:+ rest) = Ok d.
Proof.
  intros Hd Hn. destruct (hex_text_plain d Hd) as [Hp Hl]. unfold parse_sha256, split_whitespace.
  rewrite !str_bytes_app. cbn [str_bytes app]. change (byte_of_ascii " ") with 32. rewrite words_of_word; [|done|].
  2: { intros E. cbn [app] in E. rewrite E in Hl. unfold zlen in Hl, Hn. simpl in Hl. lia. }
  cbn [rev app fmap list_fmap]. rewrite bytes_str_bytes, Hl, Hn. cbn [negb Z.eqb Z.mul Pos.mul Pos.eqb]. by apply hex_pairs_text.
Qed.

(** A digest that is accepted has 32 bytes. *)
Lemma hex_pair_byte a b v : hex_pair a b = Some v -> is_byte v.
Proof.
  assert (Hv : forall x y, hex_value x = Some y -> 0 <= y < 16).
  { intros x y. unfold hex_value. repeat case_match; intros [= <-]; repeat match goal with H : _ && _ = true |- _ => apply andb_true_iff in H as [? ?] end; lia. }
  unfold hex_pair, is_byte. destruct (hex_value b) as [l|] eqn:E; [|done]. apply Hv in E. cbn [mbind option_bind].
  destruct (a =? 43); [intros [= <-]; lia|]. destruct (hex_value a) as [h|] eqn:Eh; [|done]. apply Hv in Eh. intros [= <-]. lia.
Qed.

Lemma hex_pairs_ok n l d : length l = (2 * n)%nat -> hex_pairs l = Ok d -> length d = n /\ Forall is_byte d.
Proof.
  revert l d. induction n as [|n IH]; intros l d Hl H.
  - destruct l; [|done]. injection H as <-. by split.
  - destruct l as [|a [|b l]]; simpl in Hl; [lia|lia|]. cbn [hex_pairs] in H. destruct (negb _); [done|].
    destruct (hex_pair a b) as [v|] eqn:Ev; [|done]. cbn [ok_or mbind result_bind] in H.
    destruct (hex_pairs l) as [vs|] eqn:Es; [|done]. injection H as <-. destruct (IH l vs ltac:(lia) Es).
    split; [simpl; lia|]. constructor; [by eapply hex_pair_byte|done].
Qed.

Lemma parse_sha256_ok text d : parse_sha256 text = Ok d -> length d = 32%nat /\ Forall is_byte d.
Proof.
  unfold parse_sha256. destruct (split_whitespace text) as [|w ws]; [done|]. case (Z.eqb_spec (zlen (str_bytes w)) 64); [|done].
  intros Hl. apply (hex_pairs_ok 32). unfold zlen in Hl. lia.
Qed.

Lemma download_verified_digest parse_uri call elapsed sha256 url sha_url σ bytes σ' :
  download_verified parse_uri call elapsed sha256 url sha_url σ = (Ok bytes, σ') ->
  exists sha σ1, http_get parse_uri call elapsed sha_url SHA_LIMIT σ = (Ok sha, σ1) /\ parse_sha256 (bytes_str sha) = Ok (sha256 bytes)
    /\ http_get parse_uri call elapsed url BODY_LIMIT σ1 = (Ok bytes, σ').
Proof.
  unfold download_verified, mbind, netM_bind, net_pure. destruct (http_get _ _ _ sha_url SHA_LIMIT σ) as [[sha|e] σ1] eqn:Es; [|done].
  unfold from_utf8. destruct (utf8_valid sha); [|done]. cbn [ok_or]. destruct (parse_sha256 (bytes_str sha)) as [d|] eqn:Ep; [|done].
  destruct (http_get _ _ _ url BODY_LIMIT σ1) as [[b|e] σ2] eqn:Eb; [|done]. case_bool_decide; [|done]. intros [= -> ->]. subst.
  exists sha, σ1. by split_and!.
Qed.

(** Nothing unverified is returned: when the checksum file of a release,
    fetched from an allowlisted host, holds a digest as [sha256sum] prints it, the
    download returns exactly the bodies with that digest; and whatever the file
    holds, a body that is returned has a digest that was read from it. *)
Theorem download_verified_exact (parse_uri : string -> option uri) (call : net -> string -> result ureq_error response)
    (elapsed : net -> string -> Z -> Z) (sha256 : list Z -> list Z) (url sha_url : string) (σ σ1 : net) (sha : list Z) :
  http_get parse_uri call elapsed sha_url SHA_LIMIT σ = (Ok sha, σ1) ->
  let r := (download_verified parse_uri call elapsed sha256 url sha_url σ).1 in
  (forall d name, sha = str_bytes (hex_text d +:+ " " +:+ name) -> utf8_valid sha = true -> Forall is_byte d -> zlen d = 32 ->
    forall bytes, r = Ok bytes <-> (http_get parse_uri call elapsed url BODY_LIMIT σ1).1 = Ok bytes /\ sha256 bytes = d)
  /\ (forall bytes, r = Ok bytes -> parse_sha256 (bytes_str sha) = Ok (sha256 bytes) /\ length (sha256 bytes) = 32%nat).
Proof.
  intros Hs. cbv zeta. unfold download_verified, mbind, netM_bind, net_pure. rewrite Hs. split.
  - intros d name -> Hu Hd Hn bytes. unfold from_utf8. rewrite Hu. cbn [ok_or]. rewrite bytes_str_bytes, parse_sha256_text by done.
    destruct (http_get _ _ _ url BODY_LIMIT σ1) as [[b|e] σ2]; [|naive_solver]. simpl. case_bool_decide; naive_solver.
  - intros bytes E. assert (Ed : exists σ2, download_verified parse_uri call elapsed sha256 url sha_url σ = (Ok bytes, σ2)).
    { unfold download_verified, mbind, netM_bind, net_pure. rewrite Hs. match type of E with (?m).1 = _ => destruct m as [r σ2] end.
      simpl in E. rewrite E. by exists σ2. }
    destruct Ed as [σ2 Ed]. apply download_verified_digest in Ed as (sha' & σ1' & E1 & E2 & _). rewrite Hs in E1. injection E1 as <- <-.
    split; [done|]. by apply parse_sha256_ok in E2 as [? _].
Qed.

(** ** Sample servers *)

Module Sample.
Definition host_of (url : string) : option uri :=
  match strip_prefix_str "https://" url with
  | None => None
  | Some r => match split_once "/" r with
              | Some (h, _) => Some (mkUri (Some "https"%string) (Some h) (Some h))
              | None => None
              end
  end.

(** [/a] redirects to the object store, [/evil] elsewhere, [/slow] fails. *)
Definition serve (σ : net) (url : string) : result ureq_error response :=
  let body := fun b (limit : Z) => if zlen b <=? limit then Ok b else Err UreqOther in
  if decide (url = "https://github.com/a"%string) then Ok (mkResponse 302 (Some "https://objects.githubusercontent.com/b"%string) (body []))
  else if decide (url = "https://objects.githubusercontent.com/b"%string) then Ok (mkResponse 200 None (body [1; 2; 3]))
  else if decide (url = "https://github.com/a.sha256"%string) then Ok (mkResponse 200 None (body (str_bytes (hex_text (replicate 32 6) +:+ " " +:+ " a"))))
  else if decide (url = "https://github.com/evil"%string) then Ok (mkResponse 302 (Some "https://evil.example/x"%string) (body []))
  else Err (StatusCode 503).
Definition second (σ : net) (url : string) (timeout : Z) : Z := Z.min (10^9) timeout.
Definition sum_hash (l : list Z) : list Z := replicate 32 (foldr Z.add 0 l).
Definition start : net := mkNet 0 [].

#[global] Instance serve_agent : Agent serve second.
Proof.
  split; [intros; unfold second; lia|]. intros σ url resp limit bytes. unfold serve.
  repeat case_decide; intros [= <-]; cbn [rs_body]; (destruct (_ <=? _) eqn:E; [intros [= <-]; by apply Z.leb_le|done]).
Qed.

Definition get (url : string) : result Error (list Z) * net := http_get host_of serve second url 100 start.

Lemma http_get_confined_witness :
  (get "https://github.com/evil").1 = Err InvalidConfig
  /\ rq_url <$> n_log (get "https://github.com/evil").2 = ["https://github.com/evil"]%string
  /\ Forall (fun r => allowed host_of (rq_url r)) (n_log (get "https://github.com/a").2)
  /\ (get "https://github.com/a").1 = Ok [1; 2; 3] /\ zlen [1; 2; 3] <= 100.
Proof.
  pose proof (http_get_confined host_of serve second "https://github.com/a" 100 start) as H.
  assert (E : (get "https://github.com/a").1 = Ok [1; 2; 3]) by (vm_compute; reflexivity). unfold get in *.
  destruct (http_get _ _ _ "https://github.com/a" _ _) as [r σ']. destruct H as (rs & El & Hf & _ & _ & Hb).
  split_and!; [vm_compute; reflexivity|vm_compute; reflexivity| |done|by apply Hb].
  simpl in *. by rewrite El.
Defined.

Example three_attempts :
  (get "https://github.com/busy").1 = Err Busy /\ length (n_log (get "https://github.com/busy").2) = 3%nat
  /\ n_now (get "https://github.com/busy").2 = 6 * 10^9.
Proof. vm_compute. repeat split. Qed.

(** A plus sign passes for a digit. *)
Example plus_is_a_digit : hex_pairs (str_bytes "+f0a") = Ok [15; 10].
Proof. vm_compute. reflexivity. Qed.

Lemma download_verified_exact_witness :
  (download_verified host_of serve second sum_hash "https://github.com/a" "https://github.com/a.sha256" start).1 = Ok [1; 2; 3].
Proof.
  destruct (http_get host_of serve second "https://github.com/a.sha256" SHA_LIMIT start) as [r σ1] eqn:E.
  assert (Er : r = Ok (str_bytes (hex_text (replicate 32 6) +:+ " " +:+ " a"))).
  { change r with (r, σ1).1. rewrite <- E. vm_compute. reflexivity. }
  rewrite Er in E. apply (proj1 (download_verified_exact host_of serve second sum_hash "https://github.com/a" _ start σ1 _ E) (replicate 32 6) " a"%string);
    [reflexivity|vm_compute; reflexivity|repeat constructor; done|vm_compute; reflexivity|].
  split; [|vm_compute; reflexivity]. change σ1 with (Ok (E := Error) (str_bytes (hex_text (replicate 32 6) +:+ " " +:+ " a")), σ1).2.
  rewrite <- E. vm_compute. reflexivity.
Defined.
End Sample.
