(* ===== verification/Payload.v ===== *)
(** * The payload directory

    [crates/bux/src/payload.rs] on the tree of [Vfs]: where the shim, the guest
    agent and bubblewrap are looked for, the unpacking of a release archive into
    a staging directory, the installation of a product directory and of a guest
    binary, and [ensure_blocking], over the downloads of [PayloadFetch].  The tar
    reader is a parameter as in [LayerExtract]; paths are absolute. *)

From S2P Require Import Prelude Files Paths Ports StateTypes ManagedGuest Text Vfs SafeRoot LayerExtract ExtractConfined PayloadFetch.

Definition CARGO_PKG_VERSION : string := "0.9.0".

(** ** [std::fs] *)

(** The entry at a path, links followed. *)
Definition node_at (σ : vfs) (p : loc) : option ent :=
  match lookup_path σ true false p with Ok l => ents σ !! l | Err _ => None end.

Definition file_at (σ : vfs) (p : loc) : option nat :=
  match node_at σ p with Some (EFile i) => Some i | _ => None end.

Definition is_file (σ : vfs) (p : loc) : bool := bool_decide (is_Some (file_at σ p)).

Definition is_exec_file (σ : vfs) (p : loc) : bool :=
  match file_at σ p ≫= (fun i => inodes σ !! i) with Some n => negb (Z.land (i_mode n) 0x49 =? 0) | None => false end.

Definition read_file (σ : vfs) (p : loc) : result io_kind (list Z) :=
  l ← lookup_path σ true false p;
  match ents σ !! l with
  | Some (EFile i) => ok_or (i_data <$> inodes σ !! i) EkOther
  | _ => Err EkOther
  end.

(** [remove_dir_all] removes a link itself. *)
Definition remove_tree (p : loc) : sys () :=
  e ← symlink_metadata p;
  match e with ESym _ => remove_file p | _ => remove_dir_all p end.

(** [fs::rename]: what is at or below [a] moves to [b]. *)
Definition move_tree (a b : loc) (σ : vfs) : vfs :=
  with_ents σ
    (list_to_map ((fun x => (b ++ drop (length a) x.1, x.2)) <$> filter (fun x => bool_decide (a `prefix_of` x.1)) (map_to_list (ents σ)))
     ∪ filter (fun x => negb (bool_decide (a `prefix_of` x.1)) && negb (bool_decide (b `prefix_of` x.1))) (ents σ)).

(** Only the entry of the directory itself. *)
Definition is_empty_dir (σ : vfs) (l : loc) : bool :=
  forallb (fun x : loc * ent => negb (bool_decide (l `prefix_of` x.1)) || bool_decide (x.1 = l)) (map_to_list (ents σ)).

Definition rename (a b : loc) : sys () := fun σ =>
  match lookup_path σ false false a, lookup_path σ false true b with
  | Err k, _ | _, Err k => (Err k, σ)
  | Ok la, Ok lb =>
    match ents σ !! la, ents σ !! lb with
    | None, _ => (Err EkNotFound, σ)
    | Some (EDir _), None => if bool_decide (la `prefix_of` lb) then (Err EkInvalidInput, σ) else (Ok (), move_tree la lb σ)
    | Some _, None => (Ok (), move_tree la lb σ)
    | Some (EDir _), Some (EDir _) =>
      if decide (la = lb) then (Ok (), σ) else
      if bool_decide (la `prefix_of` lb) || negb (is_empty_dir σ lb) then (Err EkOther, σ) else (Ok (), move_tree la lb σ)
    | Some (EDir _), Some _ => (Err EkNotADirectory, σ)
    | Some _, Some (EDir _) => (Err EkOther, σ)
    | Some e, Some e' => if bool_decide (la = lb) || (match e, e' with EFile i, EFile j => bool_decide (i = j) | _, _ => false end)
                         then (Ok (), σ) else (Ok (), move_tree la lb σ)
    end
  end.

(** [Path::with_extension] on the file name. *)
Definition with_extension (name ext : string) : string :=
  match rsplit_once "." name with
  | Some (stem, _) => if decide (stem = ""%string) then name +:+ "." +:+ ext else stem +:+ "." +:+ ext
  | None => name +:+ "." +:+ ext
  end.

Definition io_ {A} (m : sys A) : fsM Error A := lift_err Io m.
Definition fs_pure {A} (r : result Error A) : fsM Error A := fun σ => (r, σ).
Definition get_fs : fsM Error vfs := fun σ => (Ok σ, σ).

(** A guard that cleans up unless the rest succeeds. *)
Definition guarded_by {A} (cleanup : sys ()) (m : fsM Error A) : fsM Error A := fun σ =>
  match m σ with
  | (Ok a, σ') => (Ok a, σ')
  | (Err e, σ') => (Err e, (cleanup σ').2)
  end.

(** What exists at the path is removed. *)
Definition clear (p : loc) : fsM Error () :=
  σ ← get_fs; if exists_at σ p then io_ (remove_tree p) else mret ().

Definition chmod_0700 (p : loc) : sys () := set_permissions p 0x1c0.
Definition chmod_0755 (p : loc) : sys () := set_permissions p 0x1ed.

(** ** Archive members *)

Definition allowed_text (s : string) : option string := from_utf8 (str_bytes s).

Definition member_basename (p : path) : result Error string :=
  if is_absolute p then Err InvalidConfig else
  let comps := match p with CurDir :: r => r | _ => p end in
  match comps with
  | [] => Ok "."%string
  | [Normal name] => ok_or (allowed_text name) InvalidConfig
  | _ => Err InvalidConfig
  end.

Definition validate_link_target (target : path) (allow : list string) : result Error () :=
  if is_absolute target then Err InvalidConfig else
  if existsb (fun c => match c with ParentDir | RootDir => true | _ => false end) target then Err InvalidConfig else
  name ← ok_or (n ← file_name target; n ← allowed_text n; if decide (length target = 1%nat) then Some n else None) InvalidConfig;
  if bool_decide (name ∈ allow) then Ok () else Err InvalidConfig.

(** [io::copy] of a member into the file. *)
Definition copy_member (e : entry) (out : loc) : fsM Error () :=
  io_ (write_new out 0x1a4 []) ≫= fun _ =>
  io_ (write_new out 0x1a4 (e_data e)) ≫= fun _ =>
  match e_copy_error e with Some k => fail (Io k) | None => mret () end.

Definition unpack_member (allow : list string) (dest : loc) (raw : result io_kind entry) : fsM Error () :=
  match raw with
  | Err _ => fail InvalidConfig
  | Ok e =>
    name ← fs_pure (member_basename (e_path e));
    if decide (name = "."%string) then mret () else
    if negb (bool_decide (name ∈ allow)) then fail InvalidConfig else
    let out := dest ++ [name] in
    match e_type e with
    | TRegular | TContinuous =>
      copy_member e out ≫= fun _ =>
      match e_mode e with Some mode => io_ (set_permissions out (Z.land mode 0xfff)) | None => mret () end
    | TSymlink =>
      match e_link_name e with
      | Ok (Some target) => fs_pure (validate_link_target target allow) ≫= fun _ => io_ (symlink target out)
      | _ => fail InvalidConfig
      end
    | TLink =>
      match e_link_name e with
      | Ok (Some target) =>
        fs_pure (validate_link_target target allow) ≫= fun _ =>
        name ← fs_pure (ok_or (file_name target) InvalidConfig);
        let src := dest ++ [name] in
        σ ← get_fs;
        if exists_at σ src then io_ (hard_link src out) else fail InvalidConfig
      | _ => fail InvalidConfig
      end
    | _ => fail InvalidConfig
    end
  end.

Section Payload.
(** The host, and the executable that runs. *)
Context (os arch_name : string) (a : arch) (musl_host darwin_arm64 : bool) (exe : option loc) (path_dirs : list loc) (payload_root : loc).

Definition linux : bool := bool_decide (os = "linux"%string).

Definition host_target : result Error string :=
  if linux && musl_host then Err InvalidConfig else
  if linux && bool_decide (arch_name = "x86_64"%string) then Ok "x86_64-unknown-linux-gnu"%string
  else if linux && bool_decide (arch_name = "aarch64"%string) then Ok "aarch64-unknown-linux-gnu"%string
  else if bool_decide (os = "macos"%string) && bool_decide (arch_name = "aarch64"%string) then Ok "aarch64-apple-darwin"%string
  else if bool_decide (os = "macos"%string) && bool_decide (arch_name = "x86_64"%string) && darwin_arm64 then Ok "aarch64-apple-darwin"%string
  else Err InvalidConfig.

Definition required_exec_names : list string := ["bux"; "bux-shim"]%string ++ (if linux then ["bwrap"%string] else []).

Definition lib_names : list string :=
  if bool_decide (os = "macos"%string) then ["libkrun.dylib"; "libkrun.1.dylib"; "libkrunfw.dylib"; "libkrunfw.5.dylib"]%string
  else ["libkrun.so"; "libkrun.so.1"; "libkrunfw.so"; "libkrunfw.so.5"]%string.

Definition allowlisted_names : list string :=
  required_exec_names ++ [guest_binary_name a] ++ lib_names ++ ["LICENSE-MIT"; "LICENSE-APACHE"]%string.

(** [ManagedGuestBinary::from_path]. *)
Definition guest_from_path (σ : vfs) (p : loc) : result Error () :=
  data ← map_err Io (read_file σ p); validate_guest_binary a data.

Definition product_complete (σ : vfs) (dir : loc) : bool :=
  is_dir_at σ dir
  && forallb (fun n => is_exec_file σ (dir ++ [n])) required_exec_names
  && forallb (fun n => is_file σ (dir ++ [n])) lib_names
  && is_ok (guest_from_path σ (dir ++ [guest_binary_name a])).

Definition product_dir (target : string) : loc := payload_root ++ [CARGO_PKG_VERSION +:+ "-" +:+ target].
Definition guest_cache_path : loc := payload_root ++ ["guest-v" +:+ GUEST_VERSION; guest_binary_name a].

Definition unpack_allowlisted (members : list (result io_kind entry)) (dest : loc) : fsM Error () :=
  forM (fun _ => unpack_member allowlisted_names dest) () members.

(** The part of [extract_product] that the guard watches. *)
Definition fill_staging (members : list (result io_kind entry)) (staging dest : loc) : fsM Error () :=
  unpack_allowlisted members staging ≫= fun _ =>
  σ ← get_fs;
  (if product_complete σ staging then mret () else fail InvalidConfig) ≫= fun _ =>
  clear dest ≫= fun _ =>
  io_ (rename staging dest).

Definition extract_product (members : list (result io_kind entry)) (dest : loc) : fsM Error () :=
  match last dest with
  | None => fail InvalidConfig
  | Some name =>
    let parent := parent_loc dest in
    io_ (create_dir_all parent) ≫= fun _ =>
    io_ (chmod_0700 parent) ≫= fun _ =>
    staging_name ← fs_pure (ok_or (allowed_text name) InvalidConfig);
    let staging := parent ++ [staging_name +:+ ".new"] in
    clear staging ≫= fun _ =>
    io_ (create_dir_all staging) ≫= fun _ =>
    io_ (chmod_0700 staging) ≫= fun _ =>
    guarded_by (remove_tree staging) (fill_staging members staging dest)
  end.

Definition install_guest_bytes (bytes : list Z) (dest : loc) : fsM Error () :=
  match last dest with
  | None => fail InvalidConfig
  | Some name =>
    let parent := parent_loc dest in
    io_ (create_dir_all parent) ≫= fun _ =>
    io_ (chmod_0700 parent) ≫= fun _ =>
    let tmp := parent ++ [with_extension name "new"] in
    io_ (write_new tmp 0x1a4 bytes) ≫= fun _ =>
    guarded_by (remove_file tmp)
      (io_ (chmod_0755 tmp) ≫= fun _ =>
       σ ← get_fs;
       fs_pure (guest_from_path σ tmp) ≫= fun _ =>
       (if exists_at σ dest then io_ (remove_file dest) else mret ()) ≫= fun _ =>
       io_ (rename tmp dest))
  end.

(** ** Lookups *)

(** [sidecar_path]. *)
Definition sidecar_at (σ : vfs) (p : loc) (name : string) : option loc :=
  match lookup_path σ true false p with
  | Ok q => Some (parent_loc q ++ [name])
  | Err _ => match lstat p σ with Ok (ESym _) => None | _ => Some (parent_loc p ++ [name]) end
  end.

Definition sibling_file (σ : vfs) (name : string) : option loc :=
  p ← exe; s ← sidecar_at σ p name; if is_file σ s then Some s else None.

Definition sibling_guest (σ : vfs) : result Error (option loc) :=
  match sibling_file σ (guest_binary_name a) with
  | None => Ok None
  | Some p => _ ← guest_from_path σ p; Ok (Some p)
  end.

Definition resolve_override (σ : vfs) (explicit : option loc) : result Error (option loc) :=
  match explicit with
  | None => Ok None
  | Some p => if is_file σ p then Ok (Some p) else Err NotFound
  end.

Definition complete_product_dir (σ : vfs) (target : string) : option loc :=
  if product_complete σ (product_dir target) then Some (product_dir target) else None.

Definition which_on_path (σ : vfs) (name : string) : option loc :=
  List.find (is_file σ) ((fun d => d ++ [name]) <$> path_dirs).

Definition lookup_bwrap (σ : vfs) : option loc :=
  if negb linux then None else
  match sibling_file σ "bwrap" with
  | Some p => Some p
  | None =>
    match host_target with
    | Ok target => let p := product_dir target ++ ["bwrap"%string] in if is_file σ p then Some p else which_on_path σ "bwrap"
    | Err _ => which_on_path σ "bwrap"
    end
  end.

Definition namespaces_available (σ : vfs) : bool := linux && bool_decide (is_Some (lookup_bwrap σ)).

Definition require_bwrap (σ : vfs) (jailer : bool) : result Error (option loc) :=
  let bwrap := lookup_bwrap σ in
  if linux && jailer && negb (bool_decide (is_Some bwrap)) then Err SecurityUnavailable else Ok bwrap.

(** ** Resolution *)

Record world : Type := mkWorld { w_net : net; w_fs : vfs }.

Definition wM (A : Type) : Type := world -> result Error A * world.
#[global] Instance wM_ret : MRet wM := fun A x σ => (Ok x, σ).
#[global] Instance wM_bind : MBind wM :=
  fun A B f m σ => match m σ with (Ok x, σ') => f x σ' | (Err e, σ') => (Err e, σ') end.

Definition on_net {A} (m : netM A) : wM A := fun σ => let '(r, n) := m (w_net σ) in (r, mkWorld n (w_fs σ)).
Definition on_tree {A} (m : fsM Error A) : wM A := fun σ => let '(r, f) := m (w_fs σ) in (r, mkWorld (w_net σ) f).
Definition seen {A} (f : vfs -> result Error A) : wM A := fun σ => (f (w_fs σ), σ).

Context (parse_uri : string -> option uri) (call : net -> string -> result ureq_error response) (elapsed : net -> string -> Z -> Z)
  (sha256 : list Z -> list Z) (members : list Z -> list (result io_kind entry)) (flock : result Error ()).

Abbreviation download := (download_verified parse_uri call elapsed sha256).

Definition lock_payload_root : fsM Error () :=
  io_ (create_dir_all payload_root) ≫= fun _ =>
  io_ (chmod_0700 payload_root) ≫= fun _ =>
  io_ (write_new (payload_root ++ [".lock"%string]) 0x1a4 []) ≫= fun _ =>
  fs_pure flock.

Definition product_url (target : string) : string :=
  RELEASE_DOWNLOAD +:+ "/v" +:+ CARGO_PKG_VERSION +:+ "/bux-" +:+ CARGO_PKG_VERSION +:+ "-" +:+ target +:+ ".tar.gz".
Definition guest_url : string := RELEASE_DOWNLOAD +:+ "/guest-v" +:+ GUEST_VERSION +:+ "/" +:+ guest_binary_name a.

Definition fetch_product (target : string) : wM loc :=
  bytes ← on_net (download (product_url target) (product_url target +:+ ".sha256"));
  let dest := product_dir target in
  on_tree (extract_product (members bytes) dest) ≫= fun _ => mret dest.

Definition fetch_guest : wM loc :=
  bytes ← on_net (download guest_url (guest_url +:+ ".sha256"));
  on_tree (install_guest_bytes bytes guest_cache_path) ≫= fun _ => mret guest_cache_path.

Definition guest_from_cache_or_fetch (shim_local : bool) : wM (option loc) :=
  cached ← seen (fun σ => Ok (is_file σ guest_cache_path && is_ok (guest_from_path σ guest_cache_path)));
  if cached : bool then mret (Some guest_cache_path)
  else if shim_local then p ← fetch_guest; mret (Some p)
  else mret None.

Definition take_product_members (shim guest : option loc) (need_guest : bool) (dir : loc) : option loc * option loc :=
  (match shim with None => Some (dir ++ ["bux-shim"%string]) | _ => shim end,
   match guest with None => if need_guest then Some (dir ++ [guest_binary_name a]) else None | _ => guest end).

Definition fill_from_store (shim guest : option loc) (need_guest shim_local : bool) (target : string) : wM (option loc * option loc) :=
  on_tree lock_payload_root ≫= fun _ =>
  complete ← seen (fun σ => Ok (complete_product_dir σ target));
  match complete with
  | Some dir => mret (take_product_members shim guest need_guest dir)
  | None =>
    '(shim, guest) ← match shim with
                     | None => dir ← fetch_product target; mret (take_product_members shim guest need_guest dir)
                     | Some _ => mret (shim, guest)
                     end;
    if need_guest && negb (bool_decide (is_Some guest)) then
      g ← guest_from_cache_or_fetch shim_local; mret (shim, g)
    else mret (shim, guest)
  end.

Definition resolve_artifacts (shim_override guest_override : option loc) (need_guest : bool) (target : string) : wM (option loc * option loc) :=
  shim ← seen (fun σ => resolve_override σ shim_override);
  guest ← seen (fun σ => resolve_override σ guest_override);
  shim ← match shim with None => seen (fun σ => Ok (sibling_file σ "bux-shim")) | Some p => mret (Some p) end;
  guest ← match guest with None => if need_guest then seen sibling_guest else mret None | Some p => mret (Some p) end;
  let shim_local := bool_decide (is_Some shim) in
  if negb (bool_decide (is_Some shim)) || (need_guest && negb (bool_decide (is_Some guest))) then
    fill_from_store shim guest need_guest shim_local target
  else mret (shim, guest).

(** The guest is [None] for the empty path, when it is not needed. *)
Record ResolvedPayload : Type := mkResolved { rp_shim : loc; rp_guest : option loc; rp_bwrap : option loc }.

Definition ensure_blocking (shim_override guest_override : option loc) (jailer need_guest : bool) : wM ResolvedPayload :=
  target ← seen (fun _ => host_target);
  '(shim, guest) ← resolve_artifacts shim_override guest_override need_guest target;
  shim ← seen (fun _ => ok_or shim NotFound);
  guest ← (if need_guest then g ← seen (fun _ => ok_or guest NotFound); mret (Some g) else mret guest);
  bwrap ← seen (fun σ => require_bwrap σ jailer);
  mret (mkResolved shim guest bwrap).
End Payload.
