(* ===== verification/PayloadInstall.v ===== *)
(** * Installing the payload

    What the installation of [Payload] leaves behind: a product directory is
    replaced whole by one that is complete and holds allowlisted names only, or
    stays as it was, whatever the archive contains; a guest binary likewise. *)

From S2P Require Import Prelude Files Paths Ports StateTypes ManagedGuest Text Vfs SafeRoot LayerExtract ExtractConfined PayloadFetch Payload.

(** ** Paths below a real directory *)

Lemma walk_real links σ follow missing R rest :
  root_dir R σ -> walk links σ follow missing [] ((Normal <$> R) ++ rest) = walk links σ follow missing R rest.
Proof.
  intros Hr. assert (Hg : forall ns cur, R = cur ++ ns ->
    walk links σ follow missing cur ((Normal <$> ns) ++ rest) = walk links σ follow missing R rest); [|by apply (Hg R [])].
  induction ns as [|n ns IH]; intros cur E; [by rewrite E, app_nil_r|].
  assert (Hd : exists m, ents σ !! (cur ++ [n]) = Some (EDir m)) by (apply Hr; exists ns; rewrite <- app_assoc; done).
  destruct Hd as [m Hm]. rewrite <- (IH (cur ++ [n])) by (rewrite <- app_assoc; done).
  destruct links; cbn [walk fmap list_fmap app]; by rewrite Hm.
Qed.

Lemma lookup_child R σ follow missing n :
  inv R σ -> lookup_path σ follow missing (R ++ [n]) = walk SYMLOOP_MAX σ follow missing R [Normal n].
Proof. intros [_ Hr]. unfold lookup_path. rewrite fmap_app. by apply walk_real. Qed.

(** A name in the directory, its links not followed. *)
Lemma lookup_name R σ n missing :
  inv R σ ->
  lookup_path σ false missing (R ++ [n])
  = if missing || bool_decide (is_Some (ents σ !! (R ++ [n]))) then Ok (R ++ [n]) else Err EkNotFound.
Proof.
  intros Hi. rewrite lookup_child by done. cbn [walk SYMLOOP_MAX].
  destruct (ents σ !! (R ++ [n])) as [[]|]; [rewrite orb_true_r; done..|]. by destruct missing.
Qed.

Lemma inv_child R σ n m : inv R σ -> ents σ !! (R ++ [n]) = Some (EDir m) -> inv (R ++ [n]) σ.
Proof.
  intros [Hwf Hr] Hd. split; [done|]. intros k Hk.
  destruct (decide (k = R ++ [n])) as [->|Hne]; [by eexists|]. apply Hr. destruct Hk as [s Hs].
  destruct s as [|x s _] using rev_ind; [by rewrite app_nil_r in Hs|].
  rewrite app_assoc in Hs. apply app_inj_tail in Hs as [-> _]. by exists s.
Qed.

(** ** Directories that hold allowlisted names only *)

(** A file that is not older than [base], or a link to an allowed name beside it. *)
Definition member_ok (allow : list string) (base : nat) (e : ent) : Prop :=
  match e with
  | EFile i => (base <= i)%nat
  | ESym t => exists x, x ∈ allow /\ t = [Normal x]
  | EDir _ => False
  end.

Record flat (allow : list string) (base : nat) (D : loc) (σ : vfs) : Prop := {
  flat_inv : inv D σ;
  flat_ents : forall l e, ents σ !! l = Some e -> below D l -> exists n, n ∈ allow /\ l = D ++ [n] /\ member_ok allow base e;
  flat_base : (base <= next_ino σ)%nat
}.

Definition kept (base : nat) (D : loc) (σ σ' : vfs) : Prop :=
  (forall l, ~ below D l -> ents σ' !! l = ents σ !! l) /\ (forall i, (i < base)%nat -> inodes σ' !! i = inodes σ !! i)
  /\ (next_ino σ <= next_ino σ')%nat.

Lemma kept_refl base D σ : kept base D σ σ.
Proof. split_and!; auto. Qed.

Lemma kept_trans base D σ1 σ2 σ3 : kept base D σ1 σ2 -> kept base D σ2 σ3 -> kept base D σ1 σ3.
Proof. intros (A & B & N) (A' & B' & N'). split_and!; [intros l Hl; by rewrite A', A|intros i Hi; by rewrite B', B|lia]. Qed.

Section Flat.
Context (allow : list string) (base : nat) (D : loc).

Abbreviation flat := (flat allow base D).
Abbreviation kept := (kept base D).

(** The names of the directory lead to names of the directory. *)
Lemma flat_walk links σ follow missing n l :
  flat σ -> n ∈ allow -> walk links σ follow missing D [Normal n] = Ok l -> exists n', n' ∈ allow /\ l = D ++ [n'].
Proof.
  intros Hf. revert n. induction links as [|links IH]; intros n Hn H; cbn [walk] in H;
    destruct (ents σ !! (D ++ [n])) as [e|] eqn:E;
    try (destruct missing; simpl in H; [injection H as <-; by eexists|done]);
    (destruct (flat_ents _ _ _ _ Hf _ _ E) as (x & Hx & Ex & Hm); [by exists n, []|]);
    destruct e as [m|i|t]; try done; cbn [bool_decide decide_rel andb negb] in H.
  - rewrite decide_True in H by done. injection H as <-. by eexists.
  - destruct follow; simpl in H; [done|]. injection H as <-. by eexists.
  - rewrite decide_True in H by done. injection H as <-. by eexists.
  - destruct follow; simpl in H; [|injection H as <-; by eexists]. destruct Hm as (y & Hy & ->). simpl in H. by apply (IH y).
Qed.

Lemma flat_lookup σ follow missing n l :
  flat σ -> n ∈ allow -> lookup_path σ follow missing (D ++ [n]) = Ok l -> exists n', n' ∈ allow /\ l = D ++ [n'].
Proof. intros Hf Hn. rewrite lookup_child by apply Hf. by apply flat_walk. Qed.

(** *** Computations that keep the directory flat and change nothing else *)

Definition tidy {E A} (m : fsM E A) : Prop := forall σ, flat σ -> flat (m σ).2 /\ kept σ (m σ).2.

Lemma tidy_pure {E A} (m : fsM E A) : (forall σ, (m σ).2 = σ) -> tidy m.
Proof. intros H σ Hf. rewrite H. split; [done|apply kept_refl]. Qed.

Lemma tidy_bind {E A B} (m : fsM E A) (f : A -> fsM E B) : tidy m -> (forall a, tidy (f a)) -> tidy (m ≫= f).
Proof.
  intros Hm Hf σ H. destruct (Hm σ H) as [H1 K1]. unfold mbind, fsM_bind. destruct (m σ) as [[a|e] σ1]; [|done].
  destruct (Hf a σ1 H1) as [H2 K2]. split; [done|by eapply kept_trans].
Qed.

Lemma tidy_pure_bind {E A B} (r : result E A) (f : A -> fsM E B) :
  (forall a, r = Ok a -> tidy (f a)) -> tidy ((fun σ => (r, σ)) ≫= f).
Proof. intros Hf σ H. unfold mbind, fsM_bind. destruct r as [a|e]; [by apply Hf|]. split; [done|apply kept_refl]. Qed.

Lemma tidy_lift {E F A} (g : E -> F) (m : fsM E A) : tidy m -> tidy (lift_err g m).
Proof. intros H σ Hf. specialize (H σ Hf). unfold lift_err. by destruct (m σ). Qed.

Lemma tidy_forM {E St A} (f : St -> A -> fsM E St) s l : (forall s x, tidy (f s x)) -> tidy (forM f s l).
Proof. intros Hf. revert s. induction l as [|x l IH]; intros s; cbn [forM]; [by apply tidy_pure|]. apply tidy_bind; auto. Qed.

(** A new entry of the directory. *)
Lemma flat_add σ n e :
  flat σ -> n ∈ allow -> ents σ !! (D ++ [n]) = None -> member_ok allow base e ->
  let σ' := with_ents σ (<[D ++ [n] := e]> (ents σ)) in flat σ' /\ kept σ σ'.
Proof.
  intros Hf Hn En He. pose proof (flat_inv _ _ _ _ Hf) as Hi.
  destruct (inv_add D σ D n e Hi ltac:(by exists n, []) En ltac:(by apply Hi)) as [Hi' (C1 & C2 & C3)].
  split; [split; [done| |apply Hf]|split_and!; [done|done|simpl; lia]].
  intros l e' H Hb. simpl in H. apply lookup_insert_Some in H as [[<- <-]|[_ H]]; [by exists n|by eapply Hf].
Qed.

(** Inodes only change where they are new. *)
Lemma flat_inodes σ inos nx :
  flat σ -> (forall i, (i < base)%nat -> inos !! i = inodes σ !! i) -> (next_ino σ <= nx)%nat ->
  let σ' := mkVfs (ents σ) inos nx in flat σ' /\ kept σ σ'.
Proof.
  intros Hf Hi Hn. split; [split; [apply Hf|apply Hf|pose proof (flat_base _ _ _ _ Hf); simpl; lia]|by split_and!].
Qed.

Lemma flat_file σ n i : flat σ -> ents σ !! (D ++ [n]) = Some (EFile i) -> (base <= i)%nat.
Proof. intros Hf E. by destruct (flat_ents _ _ _ _ Hf _ _ E) as (x & _ & _ & H); [by exists n, []|]. Qed.

Lemma tidy_write n mode data : n ∈ allow -> tidy (write_new (D ++ [n]) mode data).
Proof.
  intros Hn σ Hf. unfold write_new. destruct (lookup_path σ true true (D ++ [n])) as [l|k] eqn:E; [|split; [done|apply kept_refl]].
  destruct (flat_lookup _ _ _ _ _ Hf Hn E) as (x & Hx & ->).
  destruct (ents σ !! (D ++ [x])) as [[m|i|t]|] eqn:Ee; cbn [snd]; try (split; [done|apply kept_refl]).
  - apply flat_inodes; [done| |done]. intros j Hj. apply lookup_alter_ne. pose proof (flat_file _ _ _ Hf Ee). lia.
  - destruct (flat_add σ x (EFile (next_ino σ)) Hf Hx Ee (flat_base _ _ _ _ Hf)) as [Hf' K'].
    destruct (flat_inodes _ (<[next_ino σ := mkInode mode data]> (inodes σ)) (S (next_ino σ)) Hf') as [Hf2 K2]; simpl; [|lia|].
    { intros j Hj. apply lookup_insert_ne. pose proof (flat_base _ _ _ _ Hf). lia. }
    split; [done|by eapply kept_trans].
Qed.

Lemma tidy_chmod n mode : n ∈ allow -> tidy (set_permissions (D ++ [n]) mode).
Proof.
  intros Hn σ Hf. unfold set_permissions. destruct (lookup_path σ true false (D ++ [n])) as [l|k] eqn:E; [|split; [done|apply kept_refl]].
  destruct (flat_lookup _ _ _ _ _ Hf Hn E) as (x & Hx & ->).
  destruct (ents σ !! (D ++ [x])) as [[m|i|t]|] eqn:Ee; cbn [snd]; try (split; [done|apply kept_refl]).
  - destruct (flat_ents _ _ _ _ Hf _ _ Ee) as (? & _ & _ & []). by exists x, [].
  - apply flat_inodes; [done| |done]. intros j Hj. apply lookup_alter_ne. pose proof (flat_file _ _ _ Hf Ee). lia.
Qed.

Lemma tidy_add n e : n ∈ allow -> member_ok allow base e -> tidy (add_entry (D ++ [n]) e).
Proof.
  intros Hn He σ Hf. unfold add_entry. rewrite lookup_name by apply Hf. cbn [orb].
  destruct (ents σ !! (D ++ [n])) eqn:E; [split; [done|apply kept_refl]|]. by apply flat_add.
Qed.

Lemma tidy_link n x : n ∈ allow -> x ∈ allow -> tidy (hard_link (D ++ [x]) (D ++ [n])).
Proof.
  intros Hn Hx σ Hf. unfold hard_link, mbind, fsM_bind, symlink_metadata, reading.
  destruct (lstat (D ++ [x]) σ) as [e|k] eqn:E; [|split; [done|apply kept_refl]].
  unfold lstat in E. rewrite lookup_name in E by apply Hf. cbn [orb] in E. case_bool_decide; [|done]. cbn [mbind result_bind] in E.
  apply ok_or_Ok in E. destruct (flat_ents _ _ _ _ Hf _ _ E) as (y & _ & _ & Hm); [by exists x, []|].
  destruct e; [done|by apply tidy_add..].
Qed.
End Flat.

(** ** Unpacking *)

Lemma validate_link_target_ok target allow :
  validate_link_target target allow = Ok () -> exists x, x ∈ allow /\ target = [Normal x].
Proof.
  unfold validate_link_target. destruct (is_absolute target); [done|]. destruct (existsb _ _); [done|].
  destruct (file_name target) as [n|] eqn:Ef; [|done]. cbn [mbind option_bind]. unfold allowed_text, from_utf8.
  destruct (utf8_valid _); [|done]. rewrite bytes_str_bytes. case_decide as Hl; [|done]. simpl.
  case_bool_decide; [|done]. intros _. exists n. split; [done|].
  destruct target as [|c [|]]; simpl in Hl; [done| |lia]. destruct c; try done. unfold file_name in Ef. simpl in Ef. by simplify_eq.
Qed.

Lemma tidy_unpack_member allow base D raw : tidy allow base D (unpack_member allow D raw).
Proof.
  unfold unpack_member. destruct raw as [e|k]; [|by apply tidy_pure]. apply tidy_pure_bind. intros name _. cbn beta.
  case_decide; [by apply tidy_pure|]. case_bool_decide as Hn; [|by apply tidy_pure]. cbn [negb].
  destruct (e_type e); try (by apply tidy_pure).
  1, 2: apply tidy_bind; [unfold copy_member; repeat (apply tidy_bind; [by apply tidy_lift, tidy_write|intros _]); destruct (e_copy_error e); by apply tidy_pure|];
    intros _; destruct (e_mode e); [by apply tidy_lift, tidy_chmod|by apply tidy_pure].
  all: destruct (e_link_name e) as [[target|]|]; try (by apply tidy_pure); apply tidy_pure_bind; intros [] (x & Hx & ->)%validate_link_target_ok.
  - apply tidy_pure_bind. intros y Hy. injection Hy as <-. apply tidy_bind; [by apply tidy_pure|]. intros σ.
    destruct (exists_at σ (D ++ [x])); [by apply tidy_lift, tidy_link|by apply tidy_pure].
  - apply tidy_lift, tidy_add; [done|]. by exists x.
Qed.

(** ** What is read through a flat directory only depends on its members *)

Section Moved.
Context (allow : list string) (base : nat) (S D : loc) (σ σ' : vfs).
Hypothesis (Hf : flat allow base S σ) (Hi : inv D σ') (Hin : inodes σ' = inodes σ).
Hypothesis (Hm : forall n, ents σ' !! (D ++ [n]) = ents σ !! (S ++ [n])).

Lemma moved_walk links follow missing n :
  n ∈ allow ->
  match walk links σ follow missing S [Normal n] with
  | Ok l => exists x, l = S ++ [x] /\ walk links σ' follow missing D [Normal n] = Ok (D ++ [x])
  | Err k => walk links σ' follow missing D [Normal n] = Err k
  end.
Proof.
  revert n. induction links as [|links IH]; intros n Hn; cbn [walk]; rewrite (Hm n);
    destruct (ents σ !! (S ++ [n])) as [[m|i|t]|] eqn:E; try (destruct missing; simpl; eauto; fail);
    try (rewrite decide_True by done; eauto; fail).
  - destruct follow; simpl; eauto.
  - destruct follow; simpl; eauto. destruct (flat_ents _ _ _ _ Hf _ _ E) as (? & _ & _ & y & Hy & ->); [by exists n, []|].
    simpl. by apply IH.
Qed.

Lemma moved_node n : n ∈ allow -> node_at σ' (D ++ [n]) = node_at σ (S ++ [n]).
Proof.
  intros Hn. unfold node_at. rewrite !lookup_child by (done || apply Hf). pose proof (moved_walk SYMLOOP_MAX true false n Hn) as H.
  destruct (walk _ σ _ _ _ _) as [l|k]; [|by rewrite H]. destruct H as (x & -> & ->). apply Hm.
Qed.

Lemma moved_file n : n ∈ allow -> file_at σ' (D ++ [n]) = file_at σ (S ++ [n]).
Proof. intros Hn. unfold file_at. by rewrite moved_node. Qed.

Lemma moved_read n : n ∈ allow -> read_file σ' (D ++ [n]) = read_file σ (S ++ [n]).
Proof.
  intros Hn. unfold read_file. rewrite !lookup_child by (done || apply Hf). pose proof (moved_walk SYMLOOP_MAX true false n Hn) as H.
  destruct (walk _ σ _ _ _ _) as [l|k]; [|by rewrite H]. destruct H as (x & -> & ->). simpl. by rewrite Hm, Hin.
Qed.
End Moved.

Lemma names_allowed os a n :
  n ∈ required_exec_names os \/ n ∈ lib_names os \/ n = guest_binary_name a -> n ∈ allowlisted_names os a.
Proof. unfold allowlisted_names. intros [H|[H| ->]]; rewrite !elem_of_app, ?list_elem_of_singleton; auto. Qed.

Lemma forallb_ext_in {A} (f g : A -> bool) l : (forall x, x ∈ l -> f x = g x) -> forallb f l = forallb g l.
Proof. induction l as [|x l IH]; intros H; simpl; [done|]. rewrite H by set_solver. f_equal. apply IH. set_solver. Qed.

Lemma dir_at_root D σ : inv D σ -> is_dir_at σ D = true.
Proof. intros Hi. unfold is_dir_at. rewrite root_lookup by done. destruct Hi as [_ Hr]. by destruct (Hr D) as [m ->]. Qed.

Lemma moved_complete os a base S D σ σ' :
  flat (allowlisted_names os a) base S σ -> inv D σ' -> inodes σ' = inodes σ ->
  (forall n, ents σ' !! (D ++ [n]) = ents σ !! (S ++ [n])) ->
  product_complete os a σ' D = product_complete os a σ S.
Proof.
  intros Hf Hi Hin Hm. unfold product_complete. rewrite !dir_at_root by (done || apply Hf). cbn [andb].
  assert (Hfile : forall n, n ∈ allowlisted_names os a -> file_at σ' (D ++ [n]) = file_at σ (S ++ [n])) by (intros n Hn; by eapply moved_file).
  f_equal; [f_equal|].
  - apply forallb_ext_in. intros n Hn. unfold is_exec_file. by rewrite Hfile, Hin by (apply names_allowed; auto).
  - apply forallb_ext_in. intros n Hn. unfold is_file. by rewrite Hfile by (apply names_allowed; auto).
  - unfold guest_from_path. erewrite moved_read; [done|done..|]. apply names_allowed. auto.
Qed.

(** ** Moving and removing trees *)

Definition moved_list (a b : loc) (l : list (loc * ent)) : list (loc * ent) :=
  (fun x => (b ++ drop (length a) x.1, x.2)) <$> filter (fun x => bool_decide (a `prefix_of` x.1)) l.

Lemma moved_list_nodup a b l : NoDup l.*1 -> NoDup (moved_list a b l).*1.
Proof.
  unfold moved_list. induction l as [|[k e] l IH]; intros H; [constructor|]. apply NoDup_cons in H as [Hk H]. rewrite filter_cons.
  destruct (decide _) as [Hp|Hp]; [|by apply IH]. apply Is_true_true, bool_decide_eq_true in Hp as [s Hs]. simpl in Hs.
  cbn [fmap list_fmap fst]. apply NoDup_cons. split; [|by apply IH]. intros Hin.
  apply list_elem_of_fmap in Hin as ([k' e'] & Ek & Hin). apply list_elem_of_fmap in Hin as ([k2 e2] & E2 & Hin).
  apply list_elem_of_filter in Hin as [Hp2 Hin]. apply Is_true_true, bool_decide_eq_true in Hp2 as [s2 Hs2]. injection E2 as -> ->.
  cbn [fst snd] in *. rewrite Hs, Hs2, !drop_app_length in Ek. apply app_inv_head in Ek. apply Hk, list_elem_of_fmap.
  exists (k2, e2). split; [|done]. cbn [fst]. congruence.
Qed.

Lemma moved_list_elem a b l k e : (k, e) ∈ moved_list a b l <-> exists s, k = b ++ s /\ (a ++ s, e) ∈ l.
Proof.
  unfold moved_list. rewrite list_elem_of_fmap. split.
  - intros ([k' e'] & E & Hin). simplify_eq/=. apply list_elem_of_filter in Hin as [Hp Hin].
    apply Is_true_true, bool_decide_eq_true in Hp as [s Hs]. simplify_eq/=. exists s. by rewrite drop_app_length.
  - intros (s & -> & Hin). exists (a ++ s, e). cbn [fst snd]. rewrite drop_app_length. split; [done|].
    apply list_elem_of_filter. split; [|done]. apply Is_true_true, bool_decide_eq_true. by exists s.
Qed.

Lemma moved_map_lookup (a b : loc) (m : gmap loc ent) (k : loc) (e : ent) :
  (list_to_map (moved_list a b (map_to_list m)) : gmap loc ent) !! k = Some e <-> exists s, k = b ++ s /\ m !! (a ++ s) = Some e.
Proof.
  rewrite <- elem_of_list_to_map by apply moved_list_nodup, NoDup_fst_map_to_list. rewrite moved_list_elem.
  split; intros (s & -> & H); exists s; (split; [done|]); by apply elem_of_map_to_list.
Qed.

Lemma move_to (a b : loc) (σ : vfs) (s : loc) : ents (move_tree a b σ) !! (b ++ s) = ents σ !! (a ++ s).
Proof.
  apply option_eq. intros e. unfold move_tree. cbn [ents with_ents]. fold (moved_list a b (map_to_list (ents σ))).
  rewrite lookup_union_Some_raw, moved_map_lookup. split.
  - intros [(s' & E & H)|[_ H]]; [by apply app_inv_head in E as <-|]. apply map_lookup_filter_Some in H as [_ H]. simpl in H.
    rewrite (bool_decide_eq_true_2 (b `prefix_of` b ++ s)), andb_false_r in H by (by exists s). done.
  - intros H. left. by exists s.
Qed.

Lemma move_else (a b : loc) (σ : vfs) (l : loc) :
  ~ b `prefix_of` l -> ents (move_tree a b σ) !! l = if bool_decide (a `prefix_of` l) then None else ents σ !! l.
Proof.
  intros Hb. apply option_eq. intros e. unfold move_tree. cbn [ents with_ents]. fold (moved_list a b (map_to_list (ents σ))).
  rewrite lookup_union_Some_raw, moved_map_lookup, map_lookup_filter_Some. cbn [fst].
  assert (Hno : (list_to_map (moved_list a b (map_to_list (ents σ))) : gmap loc ent) !! l = None).
  { apply eq_None_not_Some. intros [e' (s & -> & _)%moved_map_lookup]. apply Hb. by exists s. }
  rewrite Hno, (bool_decide_eq_false_2 (b `prefix_of` l)), andb_true_r by done.
  case_bool_decide as Ha; simpl; split; [intros [(s & -> & _)|(_ & _ & [])]; destruct Hb; by exists s|done| |by right].
  intros [(s & -> & _)|(_ & H & _)]; [destruct Hb; by exists s|done].
Qed.

(** Only what is at or below [p] differs. *)
Definition only_under (p : loc) (σ σ' : vfs) : Prop :=
  (forall l, ~ p `prefix_of` l -> ents σ' !! l = ents σ !! l) /\ inodes σ' = inodes σ /\ next_ino σ' = next_ino σ.

Definition gone (p : loc) (σ : vfs) : Prop := forall l, p `prefix_of` l -> ents σ !! l = None.

Lemma only_under_refl p σ : only_under p σ σ.
Proof. by split_and!. Qed.

Lemma gone_leaf σ p : wf_tree σ -> (forall m, ents σ !! p <> Some (EDir m)) -> forall l, p `prefix_of` l -> l <> p -> ents σ !! l = None.
Proof.
  intros Hwf Hp l [s ->] Hne. destruct s as [|n s]; [by rewrite app_nil_r in Hne|].
  destruct (ents σ !! (p ++ n :: s)) as [e|] eqn:E; [|done]. apply wf_prefix in E as [m Hm]; [|done]. by destruct (Hp m).
Qed.

Lemma prefix_snoc (p R : loc) n : p `prefix_of` R ++ [n] -> p = R ++ [n] \/ p `prefix_of` R.
Proof.
  intros [s Hs]. destruct s as [|x s _] using rev_ind; [left; by rewrite app_nil_r in Hs|right].
  rewrite app_assoc in Hs. apply app_inj_tail in Hs as [-> _]. by exists s.
Qed.

Lemma snoc_not_prefix (R : loc) n : ~ (R ++ [n]) `prefix_of` R.
Proof. intros [s Hs]. apply (f_equal length) in Hs. rewrite !length_app in Hs. simpl in Hs. lia. Qed.

Section Parent.
Context (R : loc).

Lemma only_under_inv n σ σ' : inv R σ -> wf_tree σ' -> only_under (R ++ [n]) σ σ' -> inv R σ'.
Proof.
  intros [_ Hr] Hwf (Ho & _). split; [done|]. intros k Hk. rewrite Ho; [by apply Hr|]. intros Hp.
  by apply (snoc_not_prefix R n), (transitivity Hp Hk).
Qed.

Lemma remove_file_at n σ :
  inv R σ ->
  (exists k, remove_file (R ++ [n]) σ = (Err k, σ))
  \/ (exists σ', remove_file (R ++ [n]) σ = (Ok (), σ') /\ inv R σ' /\ only_under (R ++ [n]) σ σ' /\ gone (R ++ [n]) σ').
Proof.
  intros Hi. pose proof (remove_file_safe R σ [] n Hi I) as (Hi' & (Hc & Hin & _) & _). cbn [app] in *.
  destruct (remove_file_cases R σ [] n Hi I) as [[k E]|(e & E & He & Hnd)]; cbn [app] in *; [left; eauto|right].
  rewrite app_nil_r in *. rewrite E in *. eexists. split; [done|]. split; [done|]. split; [split_and!; [|done|done]|].
  - intros l Hl. simpl. apply lookup_delete_ne. intros <-. by apply Hl.
  - intros l Hl. simpl. destruct (decide (l = R ++ [n])) as [->|Hne]; [apply lookup_delete_eq|].
    rewrite lookup_delete_ne by done. eapply gone_leaf; [apply Hi| |done|done]. intros m. rewrite He. intros [= ->]. by destruct (Hnd m).
Qed.

Lemma remove_dir_at n σ :
  inv R σ ->
  (exists k, remove_dir_all (R ++ [n]) σ = (Err k, σ))
  \/ (exists σ', remove_dir_all (R ++ [n]) σ = (Ok (), σ') /\ inv R σ' /\ only_under (R ++ [n]) σ σ' /\ gone (R ++ [n]) σ').
Proof.
  intros Hi. pose proof (remove_dir_all_safe R σ [] n Hi I) as (Hi' & _). cbn [app] in *.
  destruct (remove_dir_all_cases R σ [] n Hi I) as [[k E]|E]; cbn [app] in *; [left; eauto|right].
  rewrite app_nil_r in *. rewrite E in *. eexists. split; [done|]. split; [done|]. split; [split_and!; [|done|done]|].
  - intros l Hl. simpl. destruct (ents σ !! l) as [e|] eqn:El.
    + apply map_lookup_filter_Some. split; [done|]. simpl. by rewrite bool_decide_eq_false_2.
    + apply map_lookup_filter_None. by left.
  - intros l Hl. simpl. apply map_lookup_filter_None. right. intros x _. cbn [fst]. rewrite bool_decide_eq_true_2 by done. by intros [].
Qed.

Lemma remove_tree_at n σ :
  inv R σ ->
  (exists k, remove_tree (R ++ [n]) σ = (Err k, σ))
  \/ (exists σ', remove_tree (R ++ [n]) σ = (Ok (), σ') /\ inv R σ' /\ only_under (R ++ [n]) σ σ' /\ gone (R ++ [n]) σ').
Proof.
  intros Hi. unfold remove_tree, mbind, fsM_bind, symlink_metadata, reading.
  destruct (lstat (R ++ [n]) σ) as [[]|k]; [by apply remove_dir_at..|by apply remove_file_at|left; eauto].
Qed.

Lemma create_dir_all_there σ : inv R σ -> create_dir_all R σ = (Ok (), σ).
Proof.
  intros Hi. unfold create_dir_all. destruct (length R); cbn [create_dir_all_aux];
    unfold mbind, fsM_bind, try, reading; rewrite create_root by done; by rewrite dir_at_root.
Qed.

Lemma chmod_there mode σ :
  inv R σ ->
  set_permissions R mode σ = (Ok (), with_ents σ (<[R := EDir mode]> (ents σ))) /\ inv R (with_ents σ (<[R := EDir mode]> (ents σ))).
Proof.
  intros Hi. split.
  - unfold set_permissions. rewrite root_lookup by done. destruct Hi as [_ Hr]. by destruct (Hr R) as [m ->].
  - destruct Hi as [Hwf Hr]. assert (Hd : forall l, (exists m, ents σ !! l = Some (EDir m)) ->
      exists m, ents (with_ents σ (<[R := EDir mode]> (ents σ))) !! l = Some (EDir m)).
    { intros l [m Hm]. simpl. destruct (decide (R = l)) as [->|Hne]; [rewrite lookup_insert_eq|rewrite lookup_insert_ne by done]; eauto. }
    split; [|intros k Hk; by apply Hd, Hr]. intros l n e H. apply Hd. simpl in H.
    apply lookup_insert_Some in H as [[Hl _]|[_ H]]; [|by eapply Hwf]. apply Hr. rewrite Hl. by exists [n].
Qed.

(** Creating a directory in [R]: new and empty, or there already. *)
Lemma create_dir_all_at n σ :
  inv R σ ->
  (exists k, create_dir_all (R ++ [n]) σ = (Err k, σ))
  \/ (create_dir_all (R ++ [n]) σ = (Ok (), σ) /\ ents σ !! (R ++ [n]) <> None /\ is_dir_at σ (R ++ [n]) = true)
  \/ (ents σ !! (R ++ [n]) = None
      /\ create_dir_all (R ++ [n]) σ = (Ok (), with_ents σ (<[R ++ [n] := EDir 0x1ff]> (ents σ)))
      /\ inv R (with_ents σ (<[R ++ [n] := EDir 0x1ff]> (ents σ)))).
Proof.
  intros Hi. assert (Hc : create_dir (R ++ [n]) σ
    = match ents σ !! (R ++ [n]) with Some _ => (Err EkOther, σ) | None => (Ok (), with_ents σ (<[R ++ [n] := EDir 0x1ff]> (ents σ))) end).
  { unfold create_dir, add_entry. by rewrite lookup_name. }
  assert (He : create_dir_all (R ++ [n]) σ
    = match ents σ !! (R ++ [n]) with
      | Some _ => if is_dir_at σ (R ++ [n]) then (Ok (), σ) else (Err EkOther, σ)
      | None => (Ok (), with_ents σ (<[R ++ [n] := EDir 0x1ff]> (ents σ)))
      end).
  { unfold create_dir_all. rewrite length_app, Nat.add_1_r. cbn [create_dir_all_aux]. unfold mbind, fsM_bind, try, reading. rewrite Hc.
    destruct (ents σ !! (R ++ [n])); [|done]. by destruct (is_dir_at σ (R ++ [n])). }
  rewrite He. destruct (ents σ !! (R ++ [n])) as [e|] eqn:E.
  - destruct (is_dir_at σ (R ++ [n])); [right; left; by split_and!|left; eauto].
  - right. right. split_and!; [done|done|]. apply (inv_add R σ R n (EDir 0x1ff)); [done|by exists n, []|done|by apply Hi].
Qed.

End Parent.

Section Staging.
Context (R : loc).

(** What was at or below [p] is as it was or gone. *)
Definition shrunk (p : loc) (σ σ' : vfs) : Prop :=
  only_under p σ σ' /\ forall l, p `prefix_of` l -> ents σ' !! l = None \/ ents σ' !! l = ents σ !! l.

Lemma shrunk_refl p σ : shrunk p σ σ.
Proof. split; [apply only_under_refl|by right]. Qed.

Lemma clear_at n σ :
  inv R σ ->
  let '(r, σ') := clear (R ++ [n]) σ in
  inv R σ' /\ shrunk (R ++ [n]) σ σ' /\ (r = Ok () -> is_dir_at σ' (R ++ [n]) = false) /\ (forall e, r = Err e -> σ' = σ)
  /\ (r = Ok () -> exists_at σ (R ++ [n]) = true -> gone (R ++ [n]) σ') /\ (exists_at σ (R ++ [n]) = false -> σ' = σ).
Proof.
  intros Hi. unfold clear, mbind, fsM_bind, get_fs.
  assert (Hd : forall σ, exists_at σ (R ++ [n]) = false -> is_dir_at σ (R ++ [n]) = false).
  { intros τ. unfold exists_at, is_dir_at. by destruct (lookup_path τ true false _). }
  destruct (exists_at σ (R ++ [n])) eqn:Ex.
  2: { split_and!; [done|apply shrunk_refl|auto|done|done|done]. }
  unfold io_, lift_err. destruct (remove_tree_at R n σ Hi) as [[k ->]|(σ' & -> & Hi' & Ho & Hg)]; cbn [map_err].
  - split_and!; [done|apply shrunk_refl|done|done|done|done].
  - split_and!; [done|split; [done|intros l Hl; left; by apply Hg]| |done|done|done]. intros _. apply Hd.
    unfold exists_at. rewrite lookup_child by done. cbn [walk SYMLOOP_MAX]. by rewrite Hg.
Qed.

(** A staging directory: what was there goes, and a new one is made. *)
Definition fresh_dir (p : loc) : fsM Error () :=
  clear p ≫= fun _ => io_ (create_dir_all p) ≫= fun _ => io_ (chmod_0700 p).

Lemma below_prefix_of (p l : loc) : below p l -> p `prefix_of` l.
Proof. intros (n & s & ->). by exists (n :: s). Qed.

Lemma fresh_dir_at n σ allow base :
  inv R σ -> (base <= next_ino σ)%nat ->
  let '(r, σ') := fresh_dir (R ++ [n]) σ in
  inv R σ' /\ only_under (R ++ [n]) σ σ'
  /\ (r = Ok () -> flat allow base (R ++ [n]) σ') /\ (forall e, r = Err e -> shrunk (R ++ [n]) σ σ').
Proof.
  intros Hi Hb. unfold fresh_dir, mbind at 1, fsM_bind at 1. pose proof (clear_at n σ Hi) as Hc.
  destruct (clear (R ++ [n]) σ) as [[[]|e] σ1]; destruct Hc as (Hi1 & [Ho Hs] & Hd & He & _); [|split_and!; [done|done|done|done]].
  unfold mbind, fsM_bind, io_, lift_err. destruct (create_dir_all_at R n σ1 Hi1) as [[k ->]|[(-> & _ & Hd')|(Hn & -> & Hi2)]]; cbn [map_err].
  - split_and!; [done|done|done|done].
  - by rewrite Hd in Hd'.
  - set (σ2 := with_ents σ1 _) in *. assert (E2 : ents σ2 !! (R ++ [n]) = Some (EDir 0x1ff)) by (apply lookup_insert_eq).
    destruct (chmod_there (R ++ [n]) 0x1c0 σ2 (inv_child R σ2 n _ Hi2 E2)) as [Em Hi3]. unfold chmod_0700. rewrite Em. cbn [map_err].
    set (σ3 := with_ents σ2 _) in *. assert (Ho3 : only_under (R ++ [n]) σ σ3).
    { destruct Ho as (Ho & Hin & Hnx). split_and!; [|done|done]. intros l Hl. simpl.
      rewrite !lookup_insert_ne by (intros <-; by apply Hl). by apply Ho. }
    assert (HiR : inv R σ3). { split; [apply Hi3|]. intros k Hk. apply Hi3. transitivity R; [done|by exists [n]]. }
    split_and!; [done|done| |done]. intros _. split; [done| |destruct Ho3 as (_ & _ & ->); done].
    intros l e El (x & s & ->). simpl in El. rewrite !lookup_insert_ne in El by
      (intros E; apply (f_equal length) in E; rewrite !length_app in E; simpl in E; lia).
    rewrite (gone_leaf σ1 (R ++ [n])) in El; [done|apply Hi1|congruence|by exists (x :: s)|].
    intros E. apply (f_equal length) in E. rewrite !length_app in E. simpl in E. lia.
Qed.
End Staging.

(** ** Filling and publishing *)

Lemma append_longer (s t : string) : String.length (s +:+ t) = (String.length s + String.length t)%nat.
Proof. induction s; simpl; [done|]. by f_equal. Qed.

Lemma kept_flat_inv allow base S R σ σ' n :
  S = R ++ [n] -> inv R σ -> flat allow base S σ' -> kept base S σ σ' -> inv R σ'.
Proof.
  intros -> [_ Hr] Hf (Hk & _). split; [apply Hf|]. intros k Hp. rewrite Hk; [by apply Hr|].
  intros Hb. by apply (snoc_not_prefix R n), (transitivity (below_prefix_of _ _ Hb) Hp).
Qed.

Section Publish.
Context (os : string) (a : arch) (R : loc) (name : string).

Abbreviation allow := (allowlisted_names os a).
Abbreviation D := (R ++ [name]).
Abbreviation S_ := (R ++ [name +:+ ".new"]).

Lemma staging_apart l : D `prefix_of` l -> ~ S_ `prefix_of` l.
Proof.
  intros [s ->] [t E]. rewrite <- !app_assoc in E. apply app_inv_head in E. injection E as E _.
  apply (f_equal String.length) in E. rewrite append_longer in E. simpl in E. lia.
Qed.

Lemma move_wf σ : inv R σ -> ents σ !! D = None -> (exists m, ents σ !! S_ = Some (EDir m)) -> wf_tree (move_tree S_ D σ).
Proof.
  intros [Hwf Hr] Hd Hs l n e H. destruct (decide (D `prefix_of` l ++ [n])) as [Hp|Hp].
  - apply prefix_snoc in Hp as [E|[s ->]].
    + apply app_inj_tail in E as [<- _]. rewrite move_else by apply snoc_not_prefix.
      rewrite bool_decide_eq_false_2 by apply snoc_not_prefix. by apply Hr.
    + rewrite <- (app_assoc D s [n]), move_to, (app_assoc S_ s [n]) in H. rewrite move_to. by eapply Hwf.
  - rewrite move_else in H by done. case_bool_decide as Hsp; [done|].
    rewrite move_else by (intros [s ->]; apply Hp; exists (s ++ [n]); by rewrite <- (app_assoc D s [n])).
    rewrite bool_decide_eq_false_2; [by eapply Hwf|]. intros [s ->]. apply Hsp. exists (s ++ [n]). by rewrite <- (app_assoc S_ s [n]).
Qed.

Lemma moved_flat base σ : inv R σ -> flat allow base S_ σ -> ents σ !! D = None -> flat allow base D (move_tree S_ D σ).
Proof.
  intros Hi Hf Hd. assert (Hs : exists m, ents σ !! S_ = Some (EDir m)) by (by apply Hf).
  split; [split; [by apply move_wf|]| |apply Hf].
  - intros k [E|Hk]%prefix_snoc.
    + pose proof (move_to S_ D σ []) as E0. rewrite !app_nil_r in E0. by rewrite E, E0.
    + rewrite move_else by (intros H; by apply (snoc_not_prefix R name), (transitivity H Hk)).
      rewrite bool_decide_eq_false_2 by (intros H; by apply (snoc_not_prefix R (name +:+ ".new")), (transitivity H Hk)). by apply Hi.
  - intros l e H (n & s & ->). rewrite move_to in H. destruct (flat_ents _ _ _ _ Hf _ _ H) as (x & Hx & E & Hm); [by exists n, s|].
    apply app_inv_head in E. injection E as -> ->. by exists x.
Qed.

Lemma rename_at σ :
  inv R σ -> (exists m, ents σ !! S_ = Some (EDir m)) ->
  (ents σ !! D = None /\ rename S_ D σ = (Ok (), move_tree S_ D σ))
  \/ ents σ !! D <> None /\ ((exists k, rename S_ D σ = (Err k, σ)) \/ (exists m, ents σ !! D = Some (EDir m))).
Proof.
  intros Hi [m Hs]. unfold rename. rewrite !lookup_name, Hs by done. rewrite bool_decide_eq_true_2 by done. cbn [orb]. rewrite Hs.
  destruct (ents σ !! D) as [[m'| |]|]; [right; split; [done|right; eauto]|right; split; [done|left; eauto]..|].
  left. rewrite bool_decide_eq_false_2; [done|]. intros Hp. by apply (staging_apart D).
Qed.

Lemma is_dir_name σ m : inv R σ -> ents σ !! D = Some (EDir m) -> exists_at σ D = true.
Proof. intros Hi E. unfold exists_at. rewrite lookup_child by done. cbn [walk SYMLOOP_MAX]. by rewrite E. Qed.

(** Clearing the old product and renaming the staging directory. *)
Lemma publish_at base σ :
  inv R σ -> flat allow base S_ σ ->
  let '(r, σ') := (clear D ≫= fun _ => io_ (rename S_ D)) σ in
  (forall l, ~ D `prefix_of` l -> ~ S_ `prefix_of` l -> ents σ' !! l = ents σ !! l) /\ inodes σ' = inodes σ
  /\ (r = Ok () -> flat allow base D σ' /\ (forall n, ents σ' !! (D ++ [n]) = ents σ !! (S_ ++ [n])) /\ gone S_ σ')
  /\ (forall e, r = Err e -> σ' = σ).
Proof.
  intros Hi Hf. assert (HS : exists m, ents σ !! S_ = Some (EDir m)) by (by apply Hf).
  unfold mbind, fsM_bind. pose proof (clear_at R name σ Hi) as Hc.
  destruct (clear D σ) as [[[]|e] σ1]; destruct Hc as (Hi1 & [(Ho & Hin & Hnx) Hsh] & Hd & He & Hg & Hx);
    [|rewrite (He e eq_refl); by split_and!].
  assert (HSame : forall l, ents σ1 !! (S_ ++ l) = ents σ !! (S_ ++ l)).
  { intros l. apply Ho. intros Hp. apply (staging_apart _ Hp). by exists l. }
  assert (HS1 : exists m, ents σ1 !! S_ = Some (EDir m)) by (specialize (HSame []); rewrite app_nil_r in HSame; by rewrite HSame).
  assert (Hf1 : flat allow base S_ σ1).
  { split; [|intros l e' El (x & s & ->); rewrite HSame in El; eapply Hf; [done|by exists x, s]|rewrite Hnx; apply Hf].
    destruct HS1 as [m1 HS1]. by apply (inv_child R σ1 _ m1). }
  unfold io_, lift_err. destruct (rename_at σ1 Hi1 HS1) as [[En ->]|[En [[k ->]|[m Em]]]]; cbn [map_err].
  - pose proof (moved_flat base σ1 Hi1 Hf1 En) as Hm. split_and!; [|done| |done].
    + intros l H1 H2. rewrite move_else, bool_decide_eq_false_2 by done. by apply Ho.
    + intros _. split_and!; [done|intros n; by rewrite move_to, HSame|].
      intros l Hl. rewrite move_else by (intros H; by apply (staging_apart _ H)). by rewrite bool_decide_eq_true_2.
  - assert (σ1 = σ) as ->.
    { destruct (exists_at σ D) eqn:Ex; [|by apply Hx]. rewrite Hg in En; [done|done|done|done]. }
    by split_and!.
  - assert (Hex : exists_at σ1 D = true) by (by apply (is_dir_name σ1 m)).
    destruct (exists_at σ D) eqn:Ex; [rewrite Hg in En; done|]. rewrite (Hx eq_refl) in Hex. congruence.
Qed.

Lemma fill_staging_at ms base σ :
  inv R σ -> flat allow base S_ σ ->
  let '(r, σ') := fill_staging os a ms S_ D σ in
  (forall l, ~ D `prefix_of` l -> ~ S_ `prefix_of` l -> ents σ' !! l = ents σ !! l) /\ (forall i, (i < base)%nat -> inodes σ' !! i = inodes σ !! i)
  /\ (r = Ok () -> flat allow base D σ' /\ product_complete os a σ' D = true /\ gone S_ σ')
  /\ (forall e, r = Err e -> inv R σ' /\ forall l, ~ S_ `prefix_of` l -> ents σ' !! l = ents σ !! l).
Proof.
  intros Hi Hf. unfold fill_staging. unfold mbind at 1, fsM_bind at 1.
  assert (Ht : tidy (E := Error) allow base S_ (unpack_allowlisted os a ms S_)).
  { apply tidy_forM. intros _ x. apply tidy_unpack_member. }
  destruct (Ht σ Hf) as [Hf1 K1]. destruct (unpack_allowlisted os a ms S_ σ) as [r1 σ1]. cbn [snd] in Hf1, K1.
  pose proof (kept_flat_inv allow base S_ R σ σ1 _ eq_refl Hi Hf1 K1) as Hi1. destruct K1 as (Ka & Kb & _).
  assert (K : forall l, ~ S_ `prefix_of` l -> ents σ1 !! l = ents σ !! l).
  { intros l Hl. apply Ka. intros Hb. by apply Hl, below_prefix_of. }
  destruct r1 as [[]|e]; [|split_and!; [auto|done|done|auto]]. unfold mbind at 1, fsM_bind at 1, get_fs.
  unfold mbind at 1, fsM_bind at 1. destruct (product_complete os a σ1 S_) eqn:Ec; [|split_and!; [auto|done|done|auto]].
  unfold mret, fsM_ret. pose proof (publish_at base σ1 Hi1 Hf1) as Hp.
  destruct ((clear D ≫= fun _ => io_ (rename S_ D)) σ1) as [r σ']. destruct Hp as (Hp & Hin & Hok & Herr). split_and!.
  - intros l H1 H2. rewrite Hp by done. by apply K.
  - intros i Hlt. rewrite Hin. by apply Kb.
  - intros Hr. destruct (Hok Hr) as (Hfd & Hn & Hg). split_and!; [done| |done].
    rewrite (moved_complete os a base S_ D σ1 σ'); [done|done|apply Hfd|done|done].
  - intros e Hr. rewrite (Herr e Hr). by split.
Qed.
End Publish.

Lemma last_snoc_loc (R : loc) n : last (R ++ [n]) = Some n.
Proof. apply last_snoc. Qed.

Lemma allowed_text_ok s t : allowed_text s = Some t -> t = s.
Proof. unfold allowed_text, from_utf8. destruct (utf8_valid _); [|done]. rewrite bytes_str_bytes. by intros [= <-]. Qed.

Lemma io_bind_ok {A B} (m : sys A) (f : A -> fsM Error B) σ x σ' : m σ = (Ok x, σ') -> (io_ m ≫= f) σ = f x σ'.
Proof. intros E. unfold mbind, fsM_bind, io_, lift_err. by rewrite E. Qed.

Lemma staged_steps {A} p (g : fsM Error A) σ :
  (clear p ≫= fun _ => io_ (create_dir_all p) ≫= fun _ => io_ (chmod_0700 p) ≫= fun _ => g) σ = (fresh_dir p ≫= fun _ => g) σ.
Proof.
  unfold fresh_dir, mbind, fsM_bind. destruct (clear p σ) as [[[]|?] σ1]; [|done]. by destruct (io_ (create_dir_all p) σ1) as [[[]|?] ?].
Qed.

(** The part after the checks on the name, in a state whose parent is ready. *)
Lemma staged_at os a R name ms σ :
  inv R σ ->
  let D := R ++ [name] in let S_ := R ++ [name +:+ ".new"] in
  let '(r, σ') := (fresh_dir S_ ≫= fun _ => guarded_by (remove_tree S_) (fill_staging os a ms S_ D)) σ in
  (forall l, ~ D `prefix_of` l -> ~ S_ `prefix_of` l -> ents σ' !! l = ents σ !! l)
  /\ (forall i, (i < next_ino σ)%nat -> inodes σ' !! i = inodes σ !! i)
  /\ (r = Ok () -> flat (allowlisted_names os a) (next_ino σ) D σ' /\ product_complete os a σ' D = true /\ gone S_ σ')
  /\ (forall e, r = Err e -> forall l, ~ S_ `prefix_of` l -> ents σ' !! l = ents σ !! l).
Proof.
  intros Hi. cbv zeta. pose proof (fresh_dir_at R (name +:+ ".new") σ (allowlisted_names os a) (next_ino σ) Hi (le_n _)) as Hf.
  unfold mbind, fsM_bind. destruct (fresh_dir _ σ) as [[[]|e] σ1]; destruct Hf as (Hi1 & (Ho & Hin & Hnx) & Hok & Herr).
  2: { split_and!; [auto|intros i _; by rewrite Hin|done|auto]. }
  pose proof (fill_staging_at os a R name ms (next_ino σ) σ1 Hi1 (Hok eq_refl)) as Hx. unfold guarded_by.
  destruct (fill_staging _ _ _ _ _ σ1) as [[[]|e] σ2]; destruct Hx as (Hl & Hi2 & Hok2 & Herr2).
  - split_and!; [intros l H1 H2; by rewrite Hl, Ho|intros i Hlt; by rewrite Hi2, Hin|auto|done].
  - destruct (Herr2 e eq_refl) as [Hinv Hs].
    assert (Hc : only_under (R ++ [name +:+ ".new"]) σ2 (remove_tree (R ++ [name +:+ ".new"]) σ2).2).
    { destruct (remove_tree_at R (name +:+ ".new") σ2 Hinv) as [[k ->]|(σ3 & -> & _ & H3 & _)]; [apply only_under_refl|done]. }
    destruct Hc as (C1 & C2 & _). split_and!; [|intros i Hlt; by rewrite C2, Hi2, Hin|done|].
    + intros l _ H2. by rewrite C1, Hs, Ho.
    + intros e' _ l H2. by rewrite C1, Hs, Ho.
Qed.

Lemma product_installed (os : string) (a : arch) (R : loc) (name : string) (members : list (result io_kind entry)) (σ : vfs) :
  wf_tree σ -> root_dir R σ ->
  let D := R ++ [name] in let staging := R ++ [name +:+ ".new"] in
  let '(r, σ') := extract_product os a members D σ in
  (forall l, l <> R -> ~ D `prefix_of` l -> ~ staging `prefix_of` l -> ents σ' !! l = ents σ !! l)
  /\ (forall i, (i < next_ino σ)%nat -> inodes σ' !! i = inodes σ !! i)
  /\ (r = Ok () -> product_complete os a σ' D = true /\ gone staging σ'
      /\ forall l e, below D l -> ents σ' !! l = Some e ->
           exists n, n ∈ allowlisted_names os a /\ l = D ++ [n] /\ member_ok (allowlisted_names os a) (next_ino σ) e)
  /\ (forall e, r = Err e -> forall l, D `prefix_of` l -> ents σ' !! l = ents σ !! l).
Proof.
  intros Hwf Hr. cbv zeta. assert (Hi : inv R σ) by done. unfold extract_product. rewrite last_snoc_loc, parent_snoc.
  rewrite (io_bind_ok _ _ _ _ _ (create_dir_all_there R σ Hi)).
  destruct (chmod_there R 0x1c0 σ Hi) as [Em Hi1]. rewrite (io_bind_ok _ _ _ _ _ Em). set (σ1 := with_ents σ _) in *.
  assert (H1 : forall l, l <> R -> ents σ1 !! l = ents σ !! l) by (intros l Hl; simpl; by apply lookup_insert_ne).
  assert (HD : forall l, (R ++ [name]) `prefix_of` l -> l <> R) by (intros l Hp ->; by apply (snoc_not_prefix R name)).
  unfold fs_pure. unfold mbind at 1, fsM_bind at 1. destruct (allowed_text name) as [nm|] eqn:En; cbn [ok_or];
    [|split_and!; [auto|done|done|auto]].
  apply allowed_text_ok in En as ->. pose proof (staged_at os a R name members σ1 Hi1) as Hs. cbv zeta in Hs.
  rewrite <- staged_steps in Hs.
  match type of Hs with let '(r, σ') := ?y in _ => destruct y as [r σ'] end.
  destruct Hs as (A & B & C & E). split_and!.
  - intros l HR Hd Hst. rewrite A by done. by apply H1.
  - done.
  - intros Hok. destruct (C Hok) as (Hf & Hc & Hg). split_and!; [done|done|]. intros l e Hb He. by apply (flat_ents _ _ _ _ Hf).
  - intros e He l Hl. rewrite (E e He); [by apply H1, HD|]. by apply (staging_apart R name).
Qed.

(** C29.  A product directory is replaced whole or not at all: for every archive,
    whatever links and names it has and however it ends, unpacking it changes
    nothing but the product, its staging directory and the mode of their parent,
    and no file that existed before; on success the product is complete, the
    staging directory is gone and every entry of the product is a new file or a
    link to an allowlisted name beside it; on failure the product that was there
    is still there, entry by entry. *)
Theorem product_installed_whole (os : string) (a : arch) (R : loc) (name : string) (members : list (result io_kind entry)) (σ : vfs) :
  wf_tree σ -> root_dir R σ ->
  let D := R ++ [name] in let staging := R ++ [name +:+ ".new"] in
  let '(r, σ') := extract_product os a members D σ in
  (forall l, l <> R -> ~ D `prefix_of` l -> ~ staging `prefix_of` l -> ents σ' !! l = ents σ !! l)
  /\ (forall i, (i < next_ino σ)%nat -> inodes σ' !! i = inodes σ !! i)
  /\ (r = Ok () -> product_complete os a σ' D = true /\ gone staging σ'
      /\ forall l e, below D l -> ents σ' !! l = Some e ->
           exists n, n ∈ allowlisted_names os a /\ l = D ++ [n] /\ member_ok (allowlisted_names os a) (next_ino σ) e)
  /\ (forall e, r = Err e -> forall l, D `prefix_of` l -> ents σ' !! l = ents σ !! l).
Proof. apply product_installed. Qed.

(** ** Installing a guest binary *)

Lemma node_name R σ n i missing : inv R σ -> ents σ !! (R ++ [n]) = Some (EFile i) -> lookup_path σ true missing (R ++ [n]) = Ok (R ++ [n]).
Proof. intros Hi E. rewrite lookup_child by done. cbn [walk SYMLOOP_MAX]. by rewrite E, decide_True. Qed.

Lemma write_new_at R σ n mode data :
  inv R σ -> ents σ !! (R ++ [n]) = None ->
  let σ' := mkVfs (<[R ++ [n] := EFile (next_ino σ)]> (ents σ)) (<[next_ino σ := mkInode mode data]> (inodes σ)) (S (next_ino σ)) in
  write_new (R ++ [n]) mode data σ = (Ok (), σ') /\ inv R σ'.
Proof.
  intros Hi E. split.
  - unfold write_new. rewrite lookup_child by done. cbn [walk SYMLOOP_MAX]. rewrite E. simpl. by rewrite E.
  - exact (proj1 (inv_add R σ R n (EFile (next_ino σ)) Hi ltac:(by exists n, []) E ltac:(by apply Hi))).
Qed.

Lemma guest_name_ext a : with_extension (guest_binary_name a) "new" = guest_binary_name a +:+ ".new".
Proof. by destruct a. Qed.

(** Renaming a file over nothing or over a link. *)
Lemma rename_file_at R σ n x i :
  inv R σ -> ents σ !! (R ++ [n]) = Some (EFile i) -> (forall e, ents σ !! (R ++ [x]) = Some e -> exists t, e = ESym t) ->
  rename (R ++ [n]) (R ++ [x]) σ = (Ok (), move_tree (R ++ [n]) (R ++ [x]) σ).
Proof.
  intros Hi E Hx. unfold rename. rewrite !lookup_name by done. rewrite E, bool_decide_eq_true_2 by done. cbn [orb]. rewrite E.
  destruct (ents σ !! (R ++ [x])) as [e|] eqn:Ex; [|done]. destruct (Hx e eq_refl) as [t ->].
  rewrite bool_decide_eq_false_2; [done|]. intros H. by rewrite H, Ex in E.
Qed.

(** What follows the check: the old binary goes, the new one is renamed. *)
Lemma guest_publish_at R n x i σ :
  n <> x -> inv R σ -> ents σ !! (R ++ [n]) = Some (EFile i) ->
  let '(r, σ') := ((if exists_at σ (R ++ [x]) then io_ (remove_file (R ++ [x])) else mret ()) ≫= fun _ =>
                   io_ (rename (R ++ [n]) (R ++ [x]))) σ in
  (forall l, ~ (R ++ [x]) `prefix_of` l -> ~ (R ++ [n]) `prefix_of` l -> ents σ' !! l = ents σ !! l) /\ inodes σ' = inodes σ
  /\ (r = Ok () -> root_dir R σ' /\ ents σ' !! (R ++ [x]) = Some (EFile i)) /\ (forall e, r = Err e -> σ' = σ).
Proof.
  intros Hne Hi E.
  assert (Hrename : forall τ, inv R τ -> only_under (R ++ [x]) σ τ -> (forall e, ents τ !! (R ++ [x]) = Some e -> exists t, e = ESym t) ->
    let '(r, σ') := io_ (rename (R ++ [n]) (R ++ [x])) τ in
    (forall l, ~ (R ++ [x]) `prefix_of` l -> ~ (R ++ [n]) `prefix_of` l -> ents σ' !! l = ents σ !! l) /\ inodes σ' = inodes σ
    /\ (r = Ok () -> root_dir R σ' /\ ents σ' !! (R ++ [x]) = Some (EFile i)) /\ (forall e, r = Err e -> σ' = σ)).
  { intros τ Hτ (Ho & Hin & _) Hx. assert (Eτ : ents τ !! (R ++ [n]) = Some (EFile i)).
    { rewrite Ho; [done|]. intros [E'|Hp]%prefix_snoc; [by apply app_inj_tail in E' as [_ [= ->]]|by apply (snoc_not_prefix R x)]. }
    unfold io_, lift_err. rewrite (rename_file_at R τ n x i Hτ Eτ Hx). cbn [map_err]. split_and!; [| |intros _; split|done].
    - intros l H1 H2. rewrite move_else, bool_decide_eq_false_2 by done. by apply Ho.
    - done.
    - intros k Hk. rewrite move_else by (intros H; by apply (snoc_not_prefix R x), (transitivity H Hk)).
      rewrite bool_decide_eq_false_2 by (intros H; by apply (snoc_not_prefix R n), (transitivity H Hk)). by apply Hτ.
    - pose proof (move_to (R ++ [n]) (R ++ [x]) τ []) as H0. rewrite !app_nil_r in H0. by rewrite H0. }
  unfold mbind, fsM_bind. destruct (exists_at σ (R ++ [x])) eqn:Ex.
  - unfold io_ at 1, lift_err at 1. destruct (remove_file_at R x σ Hi) as [[k ->]|(τ & -> & Hτ & Ho & Hg)]; cbn [map_err]; [by split_and!|].
    pose proof (Hrename τ Hτ Ho) as H. apply H. intros e. by rewrite Hg.
  - apply (Hrename σ Hi (only_under_refl _ _)). intros e Ee. unfold exists_at in Ex. rewrite lookup_child in Ex by done.
    cbn [walk SYMLOOP_MAX] in Ex. rewrite Ee in Ex. destruct e; [done|done|by eexists].
Qed.

(** The bytes in a new executable file. *)
Lemma guest_staged_at R n bytes σ :
  inv R σ -> ents σ !! (R ++ [n]) = None ->
  exists σ2 τ i, write_new (R ++ [n]) 0x1a4 bytes σ = (Ok (), σ2) /\ chmod_0755 (R ++ [n]) σ2 = (Ok (), τ)
    /\ inv R τ /\ ents τ !! (R ++ [n]) = Some (EFile i) /\ inodes τ !! i = Some (mkInode 0x1ed bytes)
    /\ (forall j, (j < next_ino σ)%nat -> inodes τ !! j = inodes σ !! j) /\ (forall l, l <> R ++ [n] -> ents τ !! l = ents σ !! l).
Proof.
  intros Hi En. destruct (write_new_at R σ n 0x1a4 bytes Hi En) as [Ew Hi2]. set (σ2 := mkVfs _ _ _) in *.
  assert (E2 : ents σ2 !! (R ++ [n]) = Some (EFile (next_ino σ))) by apply lookup_insert_eq.
  exists σ2, (mkVfs (ents σ2) (alter (fun x => mkInode 0x1ed (i_data x)) (next_ino σ) (inodes σ2)) (next_ino σ2)), (next_ino σ).
  split_and!; [done| |exact Hi2|exact E2| | |].
  - unfold chmod_0755, set_permissions. by rewrite (node_name R σ2 n _ false Hi2 E2), E2.
  - simpl. by rewrite lookup_alter_eq, lookup_insert_eq.
  - intros j Hj. simpl. rewrite lookup_alter_ne by lia. by rewrite lookup_insert_ne by lia.
  - intros l Hl. simpl. by rewrite lookup_insert_ne.
Qed.

Lemma read_name R σ n i m data :
  root_dir R σ -> ents σ !! (R ++ [n]) = Some (EFile i) -> inodes σ !! i = Some (mkInode m data) ->
  read_file σ (R ++ [n]) = Ok data /\ file_at σ (R ++ [n]) = Some i.
Proof.
  intros Hr E Ei. assert (L : lookup_path σ true false (R ++ [n]) = Ok (R ++ [n])).
  { unfold lookup_path. rewrite fmap_app, walk_real by done. cbn [walk SYMLOOP_MAX fmap list_fmap]. by rewrite E, decide_True. }
  unfold read_file, file_at, node_at. rewrite L. cbn [mbind result_bind]. by rewrite E, Ei.
Qed.

(** A guest binary is installed checked or not at all: the bytes appear in
    the cache, executable and to the byte, only when they pass the check of a
    guest binary; a failure leaves what was there; and nothing changes but the
    binary, its temporary file and the mode of their directory. *)
Theorem guest_installed_checked (a : arch) (R : loc) (bytes : list Z) (σ : vfs) :
  wf_tree σ -> root_dir R σ ->
  let D := R ++ [guest_binary_name a] in let tmp := R ++ [guest_binary_name a +:+ ".new"] in
  ents σ !! tmp = None ->
  let '(r, σ') := install_guest_bytes a bytes D σ in
  (forall l, l <> R -> ~ D `prefix_of` l -> ~ tmp `prefix_of` l -> ents σ' !! l = ents σ !! l)
  /\ (forall i, (i < next_ino σ)%nat -> inodes σ' !! i = inodes σ !! i)
  /\ (r = Ok () -> validate_guest_binary a bytes = Ok () /\ read_file σ' D = Ok bytes /\ is_exec_file σ' D = true)
  /\ (forall e, r = Err e -> forall l, D `prefix_of` l -> ents σ' !! l = ents σ !! l).
Proof.
  intros Hwf Hr. cbv zeta. intros Ht. assert (Hi : inv R σ) by done. unfold install_guest_bytes. rewrite last_snoc_loc, parent_snoc.
  rewrite (io_bind_ok _ _ _ _ _ (create_dir_all_there R σ Hi)).
  destruct (chmod_there R 0x1c0 σ Hi) as [Em Hi1]. rewrite (io_bind_ok _ _ _ _ _ Em). set (σ1 := with_ents σ _) in *.
  assert (H1 : forall l, l <> R -> ents σ1 !! l = ents σ !! l) by (intros l Hl; simpl; by apply lookup_insert_ne).
  assert (HD : forall n l, (R ++ [n]) `prefix_of` l -> l <> R) by (intros n l Hp ->; by apply (snoc_not_prefix R n)).
  rewrite guest_name_ext. set (name := guest_binary_name a) in *.
  assert (Et : ents σ1 !! (R ++ [name +:+ ".new"]) = None) by (by rewrite H1 by (by eapply HD)).
  destruct (guest_staged_at R _ bytes σ1 Hi1 Et) as (σ2 & τ & i & Ew & Ec & Hτ & E3 & I3 & Hold & Hsame).
  rewrite (io_bind_ok _ _ _ _ _ Ew). unfold guarded_by. rewrite (io_bind_ok _ _ _ _ _ Ec).
  unfold mbind at 1, fsM_bind at 1, get_fs. unfold mbind at 1, fsM_bind at 1, fs_pure.
  destruct (read_name R τ _ i _ _ (proj2 Hτ) E3 I3) as [Er _]. unfold guest_from_path at 1. rewrite Er. cbn [map_err mbind result_bind].
  set (tmp := R ++ [name +:+ ".new"]) in *.
  assert (Hapart : forall l, (R ++ [name]) `prefix_of` l -> ~ tmp `prefix_of` l) by (intros l; apply (staging_apart R name)).
  assert (Hold' : forall l, l <> R -> ~ tmp `prefix_of` l -> ents τ !! l = ents σ !! l).
  { intros l HR Hl. rewrite Hsame by (intros ->; by apply Hl). by apply H1. }
  assert (Hclean : (forall l, l <> R -> ~ tmp `prefix_of` l -> ents (remove_file tmp τ).2 !! l = ents σ !! l)
    /\ (forall j, (j < next_ino σ)%nat -> inodes (remove_file tmp τ).2 !! j = inodes σ !! j)).
  { destruct (remove_file_at R (name +:+ ".new") τ Hτ) as [[k Ek]|(σ4 & Ek & _ & (Ho & Hin & _) & _)]; fold tmp in Ek; rewrite Ek; [by split|].
    split; [intros l HR Hl; simpl; rewrite Ho by done; by apply Hold'|intros j Hj; simpl; rewrite Hin; by apply Hold]. }
  destruct Hclean as [Ca Cb]. destruct (validate_guest_binary a bytes) as [[]|e] eqn:Hv.
  2: { split_and!; [auto|done|done|]. intros e' _ l Hl. apply Ca; [by apply (HD name)|auto]. }
  assert (Hne : name +:+ ".new" <> name).
  { intros E. apply (f_equal String.length) in E. rewrite append_longer in E. simpl in E. lia. }
  pose proof (guest_publish_at R _ name i τ Hne Hτ E3) as Hp. fold tmp in Hp.
  destruct (((if exists_at τ (R ++ [name]) then io_ (remove_file (R ++ [name])) else mret ()) ≫= fun _ => io_ (rename tmp (R ++ [name]))) τ)
    as [[[]|e] σ4]; destruct Hp as (Hl & Hin & Hok & Herr).
  - destruct (Hok eq_refl) as [Hr4 E4]. rewrite <- Hin in I3. destruct (read_name R σ4 name i _ _ Hr4 E4 I3) as [Er4 Ef4]. split_and!.
    + intros l HR Hd Ht'. rewrite Hl by done. by apply Hold'.
    + intros j Hj. rewrite Hin. by apply Hold.
    + intros _. split_and!; [done|done|]. unfold is_exec_file. rewrite Ef4. cbn [mbind option_bind]. by rewrite I3.
    + done.
  - rewrite (Herr e eq_refl). split_and!; [auto|done|done|]. intros e' _ l Hl'. apply Ca; [by apply (HD name)|auto].
Qed.
