(* ===== verification/PayloadEnsure.v ===== *)
(** * Resolving the payload

    [ensure_blocking] of [Payload] put together: what it returns is a complete
    product, fetched only when there is none and only from verified bytes; with
    sample archives for the theorems of [PayloadInstall]. *)

From S2P Require Import Prelude Files Paths Ports StateTypes ManagedGuest Text Vfs SafeRoot LayerExtract ExtractConfined PayloadFetch Payload PayloadInstall.

Section Ensure.
Context (os arch_name : string) (a : arch) (musl_host darwin_arm64 : bool) (exe : option loc) (path_dirs : list loc) (R : loc).
Context (parse_uri : string -> option uri) (call : net -> string -> result ureq_error response) (elapsed : net -> string -> Z -> Z)
  (sha256 : list Z -> list Z) (members : list Z -> list (result io_kind entry)) (flock : result Error ()).

Abbreviation ensure := (ensure_blocking os arch_name a musl_host darwin_arm64 exe path_dirs R parse_uri call elapsed sha256 members flock).
Abbreviation lock := (lock_payload_root R flock).
Abbreviation target_of := (host_target os arch_name musl_host darwin_arm64).
Abbreviation complete := (product_complete os a).

(** Taking the lock touches the root and the lock file. *)
Lemma lock_at σ :
  inv R σ -> (forall t, ents σ !! (R ++ [".lock"%string]) <> Some (ESym t)) ->
  inv R (lock σ).2 /\ forall l, l <> R -> l <> R ++ [".lock"%string] -> ents (lock σ).2 !! l = ents σ !! l.
Proof.
  intros Hi Hn. unfold lock_payload_root. rewrite (io_bind_ok _ _ _ _ _ (create_dir_all_there R σ Hi)).
  destruct (chmod_there R 0x1c0 σ Hi) as [Em Hi1]. rewrite (io_bind_ok _ _ _ _ _ Em). set (σ1 := with_ents σ _) in *.
  assert (H1 : forall l, l <> R -> ents σ1 !! l = ents σ !! l) by (intros l Hl; simpl; by apply lookup_insert_ne).
  unfold mbind, fsM_bind, io_, lift_err, fs_pure. set (p := R ++ [".lock"%string]) in *.
  assert (Hp : ents σ1 !! p = ents σ !! p). { apply H1. intros E. apply (f_equal length) in E. unfold p in E. rewrite length_app in E. simpl in E. lia. }
  destruct (ents σ1 !! p) as [[m|i|t]|] eqn:E.
  - assert (L : lookup_path σ1 true true p = Ok p) by (unfold p; rewrite lookup_child by done; cbn [walk SYMLOOP_MAX]; fold p; by rewrite E).
    unfold write_new. rewrite L, E. cbn [map_err]. split; [done|]. intros l HR _. by apply H1.
  - unfold write_new. rewrite (node_name R σ1 _ i true Hi1 E : lookup_path σ1 true true p = Ok p), E. split; [done|]. intros l HR _. by apply H1.
  - symmetry in Hp. by destruct (Hn t).
  - destruct (write_new_at R σ1 ".lock" 0x1a4 [] Hi1 E) as [Ew Hi2]. fold p in Ew. rewrite Ew. split; [done|].
    intros l HR Hl. simpl. rewrite lookup_insert_ne by done. by apply H1.
Qed.

Lemma product_name_not_lock target l : product_dir R target `prefix_of` l -> l <> R /\ l <> R ++ [".lock"%string].
Proof.
  unfold product_dir. intros Hp. split.
  - intros ->. by apply (snoc_not_prefix R) in Hp.
  - intros ->. apply prefix_snoc in Hp as [E|Hp]; [|by apply (snoc_not_prefix R) in Hp]. by apply app_inj_tail in E as [_ [=]].
Qed.

Lemma complete_is_file σ D n : complete σ D = true -> n ∈ required_exec_names os -> is_file σ (D ++ [n]) = true.
Proof.
  unfold product_complete. intros H Hn. apply andb_true_iff in H as [H _]. apply andb_true_iff in H as [H _].
  apply andb_true_iff in H as [_ H]. rewrite forallb_forall in H. specialize (H n). rewrite <- list_elem_of_In in H. specialize (H Hn).
  unfold is_exec_file in H. unfold is_file. destruct (file_at σ (D ++ [n])) as [i|]; [|done]. by apply bool_decide_eq_true_2.
Qed.

(** With a complete product bubblewrap is never missing. *)
Lemma bwrap_of_product σ target jailer :
  target_of = Ok target -> complete σ (product_dir R target) = true ->
  exists b, require_bwrap os arch_name musl_host darwin_arm64 exe path_dirs R σ jailer = Ok b /\ (linux os = true -> is_Some b).
Proof.
  intros Ht Hc. unfold require_bwrap, lookup_bwrap. destruct (linux os) eqn:Hl; cbn [negb andb]; [|by eexists].
  rewrite Ht. assert (Hb : is_file σ (product_dir R target ++ ["bwrap"%string]) = true).
  { apply complete_is_file; [done|]. unfold required_exec_names. rewrite Hl. set_solver. }
  rewrite Hb. destruct (sibling_file exe σ "bwrap") as [p|]; rewrite bool_decide_eq_true_2 by done; rewrite andb_false_r; by eexists.
Qed.

(** The fetched product. *)
Lemma fetch_product_at target w w' r :
  inv R (w_fs w) -> fetch_product os a R parse_uri call elapsed sha256 members target w = (r, w') ->
  (forall e, r = Err e -> forall l, product_dir R target `prefix_of` l -> ents (w_fs w') !! l = ents (w_fs w) !! l)
  /\ (forall D, r = Ok D -> D = product_dir R target /\ complete (w_fs w') D = true /\
       exists sha n1 bytes, http_get parse_uri call elapsed (product_url target +:+ ".sha256") SHA_LIMIT (w_net w) = (Ok sha, n1)
         /\ parse_sha256 (bytes_str sha) = Ok (sha256 bytes)
         /\ http_get parse_uri call elapsed (product_url target) BODY_LIMIT n1 = (Ok bytes, w_net w')
         /\ (Ok (), w_fs w') = extract_product os a (members bytes) D (w_fs w)).
Proof.
  intros [Hwf Hr]. unfold fetch_product, mbind, wM_bind, on_net, on_tree.
  destruct (download_verified _ _ _ _ _ _ (w_net w)) as [[bytes|e] n] eqn:Ed; [|intros [= <- <-]; split; [done|done]].
  pose proof (product_installed os a R (CARGO_PKG_VERSION +:+ "-" +:+ target) (members bytes) (w_fs w) Hwf Hr) as Hp. cbv zeta in Hp.
  fold (product_dir R target) in Hp. cbn [w_fs w_net].
  destruct (extract_product os a (members bytes) (product_dir R target) (w_fs w)) as [[[]|e] f] eqn:Ee; destruct Hp as (_ & _ & Hok & Herr);
    intros [= <- <-]; cbn [w_fs w_net].
  - split; [done|]. intros D [= <-]. split_and!; [done|by apply Hok|].
    apply download_verified_digest in Ed as (sha & n1 & E1 & E2 & E3). exists sha, n1, bytes. by split_and!.
  - split; [|done]. intros e' _. by apply (Herr e).
Qed.

(** C31.  Resolving the payload without overrides or files beside the executable
    gives a complete product: one that is there is used without a request;
    otherwise a release is fetched, and what is installed is unpacked from bytes
    whose digest was published for them; a failure, at whatever step, leaves the
    product directory as it was.  With a product, the jailer's bubblewrap is
    always found on Linux. *)
Theorem ensure_installs_verified (target : string) (jailer : bool) (w : world) :
  wf_tree (w_fs w) -> root_dir R (w_fs w) -> (forall t, ents (w_fs w) !! (R ++ [".lock"%string]) <> Some (ESym t)) ->
  target_of = Ok target -> sibling_file exe (w_fs w) "bux-shim" = None -> sibling_file exe (w_fs w) (guest_binary_name a) = None ->
  let D := product_dir R target in let σ1 := (lock (w_fs w)).2 in
  let '(r, w') := ensure None None jailer true w in
  (forall p, r = Ok p ->
     rp_shim p = D ++ ["bux-shim"%string] /\ rp_guest p = Some (D ++ [guest_binary_name a]) /\ (linux os = true -> is_Some (rp_bwrap p))
     /\ complete (w_fs w') D = true
     /\ (w_net w' = w_net w /\ complete σ1 D = true
         \/ exists sha n1 bytes, http_get parse_uri call elapsed (product_url target +:+ ".sha256") SHA_LIMIT (w_net w) = (Ok sha, n1)
              /\ parse_sha256 (bytes_str sha) = Ok (sha256 bytes)
              /\ http_get parse_uri call elapsed (product_url target) BODY_LIMIT n1 = (Ok bytes, w_net w')
              /\ (Ok (), w_fs w') = extract_product os a (members bytes) D σ1))
  /\ (complete σ1 D = true -> w_net w' = w_net w)
  /\ (forall e, r = Err e -> forall l, D `prefix_of` l -> ents (w_fs w') !! l = ents (w_fs w) !! l).
Proof.
  intros Hwf Hr Hl Ht Hs Hg. cbv zeta. destruct (lock_at (w_fs w) (conj Hwf Hr) Hl) as [Hi1 Hsame].
  assert (HD : forall l, product_dir R target `prefix_of` l -> ents (lock (w_fs w)).2 !! l = ents (w_fs w) !! l).
  { intros l Hp. apply product_name_not_lock in Hp as [H1 H2]. by apply Hsame. }
  unfold ensure_blocking, resolve_artifacts, fill_from_store, seen, mret, wM_ret, mbind, wM_bind, on_tree. rewrite Ht. cbn [resolve_override]. rewrite Hs.
  unfold sibling_guest. rewrite Hg. rewrite !bool_decide_eq_false_2 by (by intros [? ?]). cbn [orb andb negb].
  destruct (lock (w_fs w)) as [[[]|e] σ1] eqn:El; cbn [snd] in *; [|by split_and!].
  cbn [w_fs w_net]. unfold complete_product_dir. destruct (complete σ1 (product_dir R target)) eqn:Ec.
  - cbn [take_product_members ok_or w_fs w_net]. destruct (bwrap_of_product σ1 target jailer Ht Ec) as (b & Eb & Hb). rewrite Eb.
    split_and!; [|done|done]. intros p [= <-]. cbn. split_and!; auto.
  - pose proof (fetch_product_at target (mkWorld (w_net w) σ1)) as Hf.
    destruct (fetch_product _ _ _ _ _ _ _ _ target (mkWorld (w_net w) σ1)) as [r w'] eqn:Ef. specialize (Hf w' r Hi1 eq_refl).
    destruct Hf as [He Hok]. destruct r as [D|e]; [|split_and!; [done|done|]; intros e' _ l Hp; rewrite (He e eq_refl) by done; by apply HD].
    destruct (Hok D eq_refl) as (-> & Hc & Hx). cbn. destruct (bwrap_of_product (w_fs w') target jailer Ht Hc) as (b & Eb & Hb). rewrite Eb.
    split_and!; [|done|done]. intros p [= <-]. cbn. split_and!; auto.
Qed.
End Ensure.

(** ** A release, and a hostile archive *)

Module Sample.
Definition arch_ : arch := X86_64.
Definition tree : vfs := mkVfs {[ [] := EDir 0x1ed; ["p"%string] := EDir 0x1ed ]} ∅ 0.
Definition exec_member (n : string) (data : list Z) : result io_kind entry :=
  Ok (mkEntry [Normal n] TRegular (Some 0x1ed) (Ok None) data None).
Definition link_member (n t : string) : result io_kind entry :=
  Ok (mkEntry [CurDir; Normal n] TSymlink None (Ok (Some [Normal t])) [] None).
Definition release : list (result io_kind entry) :=
  [exec_member "bux" [1]; exec_member "bux-shim" [2]; exec_member "bwrap" [3]; exec_member (guest_binary_name arch_) sample_elf;
   exec_member "libkrun.so.1" [4]; link_member "libkrun.so" "libkrun.so.1"; exec_member "libkrunfw.so.5" [5]; link_member "libkrunfw.so" "libkrunfw.so.5"].

(** A link to [/etc] that a file member is then written through. *)
Definition hostile : list (result io_kind entry) :=
  [Ok (mkEntry [Normal "bux"%string] TSymlink None (Ok (Some [RootDir; Normal "etc"%string])) [] None); exec_member "bux" [6]].

Definition install (l : list (result io_kind entry)) := extract_product "linux" arch_ l ["p"; "v"]%string.

Lemma product_installed_whole_witness :
  (install release tree).1 = Ok () /\ product_complete "linux" arch_ (install release tree).2 ["p"; "v"]%string = true
  /\ (install hostile tree).1 = Err InvalidConfig
  /\ forall l, ["p"; "v"]%string `prefix_of` l -> ents (install hostile (install release tree).2).2 !! l = ents (install release tree).2 !! l.
Proof.
  pose proof (product_installed_whole "linux" arch_ ["p"%string] "v" release tree ltac:(apply wf_check_ok; vm_compute; reflexivity)
    ltac:(apply root_check_ok; vm_compute; reflexivity)) as H1.
  pose proof (product_installed_whole "linux" arch_ ["p"%string] "v" hostile (install release tree).2
    ltac:(apply wf_check_ok; vm_compute; reflexivity) ltac:(apply root_check_ok; vm_compute; reflexivity)) as H2. cbv zeta in H1, H2.
  change (["p"%string] ++ ["v"%string]) with ["p"%string; "v"%string] in H1, H2.
  fold (install release tree) in H1. fold (install hostile (install release tree).2) in H2.
  assert (E1 : (install release tree).1 = Ok ()) by (vm_compute; reflexivity).
  assert (E2 : (install hostile (install release tree).2).1 = Err InvalidConfig) by (vm_compute; reflexivity).
  split_and!; [done| |vm_compute; reflexivity|].
  - destruct (install release tree) as [r σ']. by apply H1.
  - destruct (install hostile (install release tree).2) as [r σ']. cbn [fst snd] in *. by apply (proj2 (proj2 (proj2 H2)) _ E2).
Defined.

Lemma guest_installed_checked_witness :
  let D := ["p"%string; guest_binary_name arch_] in
  let good := install_guest_bytes arch_ sample_elf D tree in
  good.1 = Ok () /\ read_file good.2 D = Ok sample_elf /\ (install_guest_bytes arch_ [1; 2] D tree).1 = Err InvalidConfig.
Proof.
  cbv zeta. pose proof (guest_installed_checked arch_ ["p"%string] sample_elf tree ltac:(apply wf_check_ok; vm_compute; reflexivity)
    ltac:(apply root_check_ok; vm_compute; reflexivity) eq_refl) as H. cbn [app] in H.
  assert (E : (install_guest_bytes arch_ sample_elf ["p"%string; guest_binary_name arch_] tree).1 = Ok ()) by (vm_compute; reflexivity).
  destruct (install_guest_bytes arch_ sample_elf _ tree) as [r σ']. split_and!; [done|by apply H|vm_compute; reflexivity].
Defined.

(** The servers of GitHub. *)
Definition serve (σ : net) (url : string) : result ureq_error response :=
  let body := fun b (limit : Z) => if zlen b <=? limit then Ok b else Err UreqOther in
  if decide (url = product_url "x86_64-unknown-linux-gnu") then Ok (mkResponse 200 None (body [7]))
  else if decide (url = product_url "x86_64-unknown-linux-gnu" +:+ ".sha256")
  then Ok (mkResponse 200 None (body (str_bytes (hex_text (replicate 32 7) +:+ "  bux"))))
  else Err (StatusCode 404).

Definition go (w : world) : result Error ResolvedPayload * world :=
  ensure_blocking "linux" "x86_64" arch_ false false None [] ["p"%string] PayloadFetch.Sample.host_of serve PayloadFetch.Sample.second
    PayloadFetch.Sample.sum_hash (fun _ => release) (Ok ()) None None true true w.
Definition start : world := mkWorld (mkNet 0 []) tree.

Lemma ensure_installs_verified_witness :
  is_ok (go start).1 = true /\ w_net (go (go start).2).2 = w_net (go start).2.
Proof.
  pose proof (ensure_installs_verified "linux" "x86_64" arch_ false false None [] ["p"%string] PayloadFetch.Sample.host_of serve
    PayloadFetch.Sample.second PayloadFetch.Sample.sum_hash (fun _ => release) (Ok ()) "x86_64-unknown-linux-gnu" true (go start).2
    ltac:(apply wf_check_ok; vm_compute; reflexivity) ltac:(apply root_check_ok; vm_compute; reflexivity)
    ltac:(intros t; vm_compute; discriminate) ltac:(vm_compute; reflexivity) eq_refl eq_refl) as H. cbv zeta in H.
  split; [vm_compute; reflexivity|]. fold (go (go start).2) in H. destruct (go (go start).2) as [r w']. apply H.
  vm_compute. reflexivity.
Defined.
End Sample.
