(* ===== verification/GuestBoot.v ===== *)
(** * Boot of the guest agent

    [run] of [crates/bux-guest/src/server.rs] up to the moment the agent listens,
    with what it calls: the tmpfs and virtio-fs mounts of [mounts.rs],
    [network.rs] and [ca_trust.rs].  The kernel's answers (mount, netlink, the
    vsock bind) and the boot configuration's JSON are parameters; what the agent
    asks of the kernel is a log.  The sessions it then serves are in
    [GuestServer]. *)

From S2P Require Import Prelude Files Paths Text ProtoMessages Boot Vfs GuestFiles Shim.

(** A netlink error is told apart by its text. *)
Inductive nl_error : Type := NlExists | NlOther.

(** A request, with the kernel's answer. *)
Inductive boot_event : Type :=
  | MountCall (source : option string) (target fstype : string) (ok : bool)
  | NetlinkOpen (ok : bool)
  | LinkGet (name : string) (found : result io_kind (option Z))
  | LinkUp (index : Z) (ok : bool)
  | AddrAdd (index : Z) (ip : string) (prefix_len : Z) (answer : result nl_error ())
  | RouteAdd (gateway : string) (answer : result nl_error ())
  | SetHostname (name : string)
  | SetVar (key value : string)
  | ReaperStart (ok : bool)
  | Bind (port : Z) (ok : bool).

Record boot : Type := mkBoot { bt_fs : vfs; bt_log : list boot_event }.

Definition bM (A : Type) : Type := boot -> result io_kind A * boot.
#[global] Instance bM_ret : MRet bM := fun A a σ => (Ok a, σ).
#[global] Instance bM_bind : MBind bM :=
  fun A B f m σ => match m σ with (Ok a, σ') => f a σ' | (Err e, σ') => (Err e, σ') end.

Definition bfail {A} (k : io_kind) : bM A := fun σ => (Err k, σ).
Definition emit (e : boot_event) : bM () := fun σ => (Ok (), mkBoot (bt_fs σ) (bt_log σ ++ [e])).
Definition on_disk {A} (m : sys A) : bM A := fun σ => let '(r, f) := m (bt_fs σ) in (r, mkBoot f (bt_log σ)).
Definition b_pure {A} (r : result io_kind A) : bM A := fun σ => (r, σ).
(** A request that is answered with [r]. *)
Definition call {A} (e : boot_event) (r : result io_kind A) : bM A := emit e ≫= fun _ => b_pure r.
(** [let _ = ...] *)
Definition ignoring {A} (m : sys A) : bM () := fun σ => (Ok (), mkBoot (m (bt_fs σ)).2 (bt_log σ)).
Definition the_log : bM (list boot_event) := fun σ => (Ok (bt_log σ), σ).
Definition the_tree : bM vfs := fun σ => (Ok (bt_fs σ), σ).

Definition PREFIX_LEN : Z := 24.
Definition GUEST_INTERFACE : string := "eth0".

(** ** mounts.rs *)

Definition TMPFS_MOUNTS : list (string * Z) := [("/tmp", 0x3ff); ("/var/tmp", 0x3ff); ("/run", 0x1ed)]%string.

(** [fs::write] at a path of names. *)
Definition fs_write (p : loc) (data : list Z) : sys () := write_new p 0x1a4 data.
Definition names_of (p : string) : loc := omap (fun c => match c with Normal n => Some n | _ => None end) (components p).

Definition is_file_at (σ : vfs) (p : loc) : bool :=
  match lookup_path σ true false p with Ok l => match ents σ !! l with Some (EFile _) => true | _ => false end | Err _ => false end.
Definition read_at (σ : vfs) (p : loc) : result io_kind (list Z) :=
  l ← lookup_path σ true false p;
  match ents σ !! l with
  | Some (EFile i) => ok_or (i_data <$> inodes σ !! i) EkOther
  | _ => Err EkOther
  end.

Section Guest.
(** [/proc/mounts], [mount(2)], netlink ([None]: the link is not there), and the
    outcomes of starting the reaper and of binding the vsock port. *)
Context (proc_mounts : list boot_event -> option string)
  (mount : list boot_event -> option string -> string -> string -> result io_kind ())
  (netlink : result io_kind ()) (link_get : string -> result io_kind (option Z)) (link_up : Z -> result io_kind ())
  (addr_add route_add : result nl_error ()) (reaper_start bind : result io_kind ()).

Definition mount_call (source : option string) (target fstype : string) : bM (result io_kind ()) :=
  l ← the_log;
  let r := mount l source target fstype in
  emit (MountCall source target fstype (is_ok r)) ≫= fun _ => mret r.

Definition is_tmpfs_line (p line : string) : bool :=
  let fields := split_whitespace line in
  bool_decide (default ""%string (fields !! 1%nat) = p) && bool_decide (default ""%string (fields !! 2%nat) = "tmpfs"%string).

Definition is_tmpfs (l : list boot_event) (p : string) : bool :=
  match proc_mounts l with None => false | Some mounts => existsb (is_tmpfs_line p) (lines mounts) end.

Definition mount_one_tmpfs (m : string * Z) : bM () :=
  let '(p, mode) := m in
  l ← the_log;
  if is_tmpfs l p then mret () else
  ignoring (create_dir_all (names_of p)) ≫= fun _ =>
  ret ← mount_call None p "tmpfs";
  match ret with
  | Ok _ => ignoring (set_permissions (names_of p) mode)
  | Err _ => mret ()
  end.

Fixpoint mount_tmpfs (ms : list (string * Z)) : bM () :=
  match ms with
  | [] => mret ()
  | m :: r => mount_one_tmpfs m ≫= fun _ => mount_tmpfs r
  end.

Definition mount_essential_tmpfs : bM () := mount_tmpfs TMPFS_MOUNTS.

Definition c_string (s : string) : result io_kind string :=
  if str_contains_char "000" s then Err EkInvalidInput else Ok s.

Definition mount_virtiofs_volume (vol : GuestVolume) : bM () :=
  b_pure (map_err (fun _ => EkOther) (Boot.validate vol)) ≫= fun _ =>
  on_disk (mkdir_all (components (gv_guest_path vol))) ≫= fun _ =>
  source ← b_pure (c_string (gv_tag vol));
  target ← b_pure (c_string (gv_guest_path vol));
  ret ← mount_call (Some source) target "virtiofs";
  b_pure ret.

Fixpoint mount_virtiofs_volumes (volumes : list GuestVolume) : bM () :=
  match volumes with
  | [] => mret ()
  | vol :: r => mount_virtiofs_volume vol ≫= fun _ => mount_virtiofs_volumes r
  end.

(** ** network.rs *)

Definition write_resolv_gateway : bM () :=
  ignoring (create_dir_all ["etc"%string]) ≫= fun _ =>
  ignoring (fs_write ["etc"; "resolv.conf"]%string
    (str_bytes ("# Generated by bux-guest (gvproxy gateway DNS)" +:+ bytes_str [10] +:+ "nameserver " +:+ GATEWAY_IP +:+ bytes_str [10]))).

Definition ensure_hosts_and_hostname : bM () :=
  let hosts := ["etc"; "hosts"]%string in
  let hostname := ["etc"; "hostname"]%string in
  σ ← the_tree;
  (if negb (is_file_at σ hosts) || (match read_at σ hosts with Ok c => negb (utf8_valid c) || bool_decide (c = []) | Err _ => true end)
   then ignoring (fs_write hosts (str_bytes ("127.0.0.1 localhost" +:+ bytes_str [10] +:+ "::1 localhost" +:+ bytes_str [10] +:+ GUEST_IP +:+ " bux" +:+ bytes_str [10])))
   else mret ()) ≫= fun _ =>
  σ ← the_tree;
  (if is_file_at σ hostname then mret () else ignoring (fs_write hostname (str_bytes ("bux" +:+ bytes_str [10])))) ≫= fun _ =>
  emit (SetHostname "bux").

(** An address or route that is there already is fine. *)
Definition unless_exists (r : result nl_error ()) : result io_kind () :=
  match r with Ok _ | Err NlExists => Ok () | Err NlOther => Err EkOther end.

Definition link_set_up (index : Z) : bM () := call (LinkUp index (is_ok (link_up index))) (link_up index).

Definition link_by_name (name : string) : bM (option Z) := call (LinkGet name (link_get name)) (link_get name).

Definition configure_static_eth0 : bM () :=
  call (NetlinkOpen (is_ok netlink)) netlink ≫= fun _ =>
  lo ← link_by_name "lo";
  match lo with Some index => link_set_up index | None => mret () end ≫= fun _ =>
  eth0 ← link_by_name GUEST_INTERFACE;
  match eth0 with
  | None => bfail EkNotFound
  | Some idx =>
    link_set_up idx ≫= fun _ =>
    call (AddrAdd idx GUEST_IP PREFIX_LEN addr_add) (unless_exists addr_add) ≫= fun _ =>
    call (RouteAdd GATEWAY_IP route_add) (unless_exists route_add) ≫= fun _ =>
    write_resolv_gateway ≫= fun _ =>
    ensure_hosts_and_hostname
  end.

Definition configure_offline : bM () := ensure_hosts_and_hostname.

(** ** ca_trust.rs *)

Definition SSL_CERT_FILE : string := "/etc/ssl/certs/bux-ca-bundle.pem".

Definition ends_with_lf (l : list Z) : bool := bool_decide (last l = Some 10).

(** What is appended to the system's bundle, and the bundle of the agent. *)
Definition appended (pem : list Z) : list Z := [10] ++ pem ++ (if ends_with_lf pem then [] else [10]).
Definition combined (system_copy : option (list Z)) (pem : list Z) : list Z :=
  let body := default [] system_copy in
  body ++ (if bool_decide (body = []) || ends_with_lf body then [] else [10]) ++ pem.

Definition ca_file (root : loc) (dir : loc) (name : string) (pem : list Z) : sys () :=
  create_dir_all (root ++ dir) ≫= fun _ => fs_write (root ++ dir ++ [name]) pem.

Definition write_ca_pem (root : loc) (pem : list Z) : sys () :=
  ca_file root ["usr"; "local"; "share"; "ca-certificates"]%string "bux-mitm-ca.crt" pem ≫= fun _ =>
  ca_file root ["etc"; "ssl"; "certs"]%string "bux-mitm-ca.pem" pem ≫= fun _ =>
  _ ← try (E := io_kind) (F := io_kind) (create_dir_all (root ++ ["etc"; "pki"; "ca-trust"; "source"; "anchors"]%string));
  _ ← try (E := io_kind) (F := io_kind) (fs_write (root ++ ["etc"; "pki"; "ca-trust"; "source"; "anchors"; "bux-mitm-ca.pem"]%string) pem);
  let bundle := root ++ ["etc"; "ssl"; "certs"; "ca-certificates.crt"]%string in
  read ← try (E := io_kind) (F := io_kind) (reading (fun σ => read_at σ bundle));
  system_copy ← match read with
                | Ok bytes => mret (Some bytes)
                | Err EkNotFound => mret None
                | Err k => fail k
                end;
  match system_copy with
  | Some bytes => fs_write bundle (bytes ++ appended pem)
  | None => mret ()
  end ≫= fun _ =>
  fs_write (root ++ ["etc"; "ssl"; "certs"; "bux-ca-bundle.pem"]%string) (combined system_copy pem).

Definition activate_ssl_cert_file : bM () := emit (SetVar "SSL_CERT_FILE" SSL_CERT_FILE).

Definition install_mitm_ca (pem : string) : bM () :=
  on_disk (write_ca_pem [] (str_bytes pem)) ≫= fun _ => activate_ssl_cert_file.

(** ** server.rs *)

Context (from_str : string -> option GuestBootConfig) (env : string -> option string).

Definition run : bM () :=
  mount_essential_tmpfs ≫= fun _ =>
  boot ← b_pure (map_err (fun _ => EkOther) (from_env from_str env));
  match bc_network boot with
  | NetEnabled => configure_static_eth0
  | NetDisabled => configure_offline
  end ≫= fun _ =>
  match bc_mitm_ca_pem boot with
  | Some pem => install_mitm_ca pem
  | None => mret ()
  end ≫= fun _ =>
  mount_virtiofs_volumes (bc_volumes boot) ≫= fun _ =>
  call (ReaperStart (is_ok reaper_start)) reaper_start ≫= fun _ =>
  call (Bind AGENT_PORT (is_ok bind)) bind.
End Guest.

(** ** What a computation asks of the kernel *)

Definition emits {A} (m : bM A) (P : result io_kind A -> list boot_event -> Prop) : Prop :=
  forall σ, exists l, bt_log (m σ).2 = bt_log σ ++ l /\ P (m σ).1 l.

Lemma emits_weaken {A} (m : bM A) (P Q : result io_kind A -> list boot_event -> Prop) :
  emits m P -> (forall r l, P r l -> Q r l) -> emits m Q.
Proof. intros H HPQ σ. destruct (H σ) as (l & E & Hp). exists l. auto. Qed.

Lemma emits_quiet {A} (m : bM A) (P : result io_kind A -> list boot_event -> Prop) :
  (forall σ, bt_log (m σ).2 = bt_log σ /\ P (m σ).1 []) -> emits m P.
Proof. intros H σ. exists []. rewrite app_nil_r. apply H. Qed.

Lemma emits_emit e : emits (emit e) (fun r l => r = Ok () /\ l = [e]).
Proof. intros σ. by exists [e]. Qed.

Lemma emits_bind {A B} (m : bM A) (f : A -> bM B) P (Q : A -> result io_kind B -> list boot_event -> Prop) :
  emits m P -> (forall a, emits (f a) (Q a)) ->
  emits (m ≫= f) (fun r l => (exists e, P (Err e) l /\ r = Err e) \/ exists a l1 l2, l = l1 ++ l2 /\ P (Ok a) l1 /\ Q a r l2).
Proof.
  intros Hm Hf σ. destruct (Hm σ) as (l1 & E1 & H1). unfold mbind, bM_bind. destruct (m σ) as [[a|e] σ1]; simpl in *.
  - destruct (Hf a σ1) as (l2 & E2 & H2). exists (l1 ++ l2). split; [by rewrite E2, E1, app_assoc|]. right. by exists a, l1, l2.
  - exists l1. split; [done|]. left. by exists e.
Qed.

(** A first step that asks nothing. *)
Lemma emits_after {A B} (m : bM A) (f : A -> bM B) P :
  (forall σ, bt_log (m σ).2 = bt_log σ) -> (forall k, P (Err k) []) -> (forall a, emits (f a) P) -> emits (m ≫= f) P.
Proof.
  intros Hm He Hf σ. specialize (Hm σ). unfold mbind, bM_bind. destruct (m σ) as [[a|e] σ1]; simpl in *.
  - destruct (Hf a σ1) as (l & E & H). exists l. by rewrite <- Hm.
  - exists []. by rewrite app_nil_r.
Qed.

Lemma ignoring_log {A} (m : sys A) σ : bt_log (ignoring m σ).2 = bt_log σ.
Proof. done. Qed.
Lemma on_disk_log {A} (m : sys A) σ : bt_log (on_disk m σ).2 = bt_log σ.
Proof. unfold on_disk. by destruct (m (bt_fs σ)). Qed.

(** ** What a computation does to the tree *)

Definition leads {A} (P : vfs -> Prop) (m : bM A) (Q : A -> vfs -> Prop) : Prop :=
  forall σ a σ', P (bt_fs σ) -> m σ = (Ok a, σ') -> Q a (bt_fs σ').

Lemma leads_bind {A B} (m : bM A) (f : A -> bM B) P R Q : leads P m R -> (forall a, leads (R a) (f a) Q) -> leads P (m ≫= f) Q.
Proof.
  intros Hm Hf σ b σ' H. unfold mbind, bM_bind. destruct (m σ) as [[a|k] σ1] eqn:E; [|done]. apply (Hf a). by apply (Hm σ).
Qed.

Lemma leads_prop {A} (m : bM A) (X : Prop) P Q : (X -> leads P m Q) -> leads (fun f => X /\ P f) m Q.
Proof. intros H σ a σ' [Hx Hp]. by apply H. Qed.

(** Every file of the tree has its contents. *)
Definition files_stored (f : vfs) : Prop := forall l i, ents f !! l = Some (EFile i) -> is_Some (inodes f !! i).
Definition stores {A} (m : sys A) : Prop := forall f, files_stored f -> files_stored (m f).2.

Lemma stores_bind {A B} (m : sys A) (g : A -> sys B) : stores m -> (forall a, stores (g a)) -> stores (m ≫= g).
Proof. intros Hm Hg f H. unfold mbind, fsM_bind. specialize (Hm f H). destruct (m f) as [[a|k] f']; [by apply Hg|done]. Qed.
Lemma stores_try {A} (m : sys A) : stores m -> stores (try (F := io_kind) m).
Proof. intros Hm f H. unfold try. specialize (Hm f H). by destruct (m f). Qed.
Lemma stores_quiet {A} (m : sys A) : (forall f, (m f).2 = f) -> stores m.
Proof. intros Hm f H. by rewrite Hm. Qed.

Lemma stores_entry p e : (forall i, e <> EFile i) -> stores (add_entry p e).
Proof.
  intros He f H. unfold add_entry. destruct (lookup_path _ _ _ _) as [l|k]; [|done]. destruct (ents f !! l) eqn:E; [done|].
  intros l' i. cbn. rewrite lookup_insert_Some. intros [[_ Hx]|[_ Hx]]; [by apply He in Hx|by apply (H l')].
Qed.

Lemma stores_create_dir_all p : stores (create_dir_all p).
Proof.
  unfold create_dir_all. generalize (length p). intros n. revert p. induction n as [|n IH]; intros p; cbn [create_dir_all_aux];
    (apply stores_bind; [by apply stores_try, stores_entry|]); intros [[]|k]; try by apply stores_quiet.
  - destruct k; first [by apply stores_quiet|apply stores_bind; [by apply stores_quiet|intros []; by apply stores_quiet]].
  - destruct k; try (apply stores_bind; [by apply stores_quiet|intros []; by apply stores_quiet]).
    apply stores_bind; [apply IH|intros _]. apply stores_bind; [by apply stores_try, stores_entry|].
    intros [[]|k]; [by apply stores_quiet|]. apply stores_bind; [by apply stores_quiet|intros []; by apply stores_quiet].
Qed.

Lemma stores_write p mode data : stores (write_new p mode data).
Proof.
  intros f H. unfold write_new. destruct (lookup_path _ _ _ _) as [l|k]; [|done]. destruct (ents f !! l) as [[| |]|] eqn:E; try done; intros l' i'; cbn.
  - intros Hx. destruct (H _ _ Hx) as [x Hi]. destruct (decide (ino = i')) as [->|Hne]; [rewrite lookup_alter_eq, Hi; by eexists|rewrite lookup_alter_ne by done; by eexists].
  - rewrite lookup_insert_Some. intros [[_ [= <-]]|[_ Hx]]; [rewrite lookup_insert_eq; by eexists|].
    destruct (decide (next_ino f = i')) as [->|Hne]; [rewrite lookup_insert_eq; by eexists|rewrite lookup_insert_ne by done; by apply (H l')].
Qed.

Lemma stores_chmod p mode : stores (set_permissions p mode).
Proof.
  intros f H. unfold set_permissions. destruct (lookup_path _ _ _ _) as [l|k]; [|done]. destruct (ents f !! l) as [[| |]|] eqn:E; try done; intros l' i'; cbn.
  - rewrite lookup_insert_Some. intros [[_ [=]]|[_ Hx]]. by apply (H l').
  - intros Hx. destruct (H _ _ Hx) as [x Hi]. destruct (decide (ino = i')) as [->|Hne]; [rewrite lookup_alter_eq, Hi; by eexists|rewrite lookup_alter_ne by done; by eexists].
Qed.

(** What is written is read back, through any links. *)
Lemma write_reads p mode data f f' : files_stored f -> write_new p mode data f = (Ok (), f') -> read_at f' p = Ok data.
Proof.
  intros H. unfold write_new, read_at. destruct (lookup_path f true true p) as [l|k] eqn:E; [|done]. unfold lookup_path in E |- *.
  destruct (ents f !! l) as [[|i|]|] eqn:El; try done; intros [= <-].
  - pose proof (walk_grows SYMLOOP_MAX f (mkVfs (ents f) (alter (fun n => mkInode (i_mode n) data) i (inodes f)) (next_ino f)) true true false [] _ l
      (fun _ _ X => X) (fun _ X => ltac:(congruence)) E) as ->. cbn [mbind result_bind ents inodes]. rewrite El.
    destruct (H _ _ El) as [x Hi]. by rewrite lookup_alter_eq, Hi.
  - set (f' := mkVfs _ _ _). assert (Hg : grows f f').
    { intros l' e' H'. unfold f'. cbn [ents]. rewrite lookup_insert_ne; [done|]. intros <-. congruence. }
    assert (Hl : ents f' !! l = Some (EFile (next_ino f))) by (unfold f'; cbn [ents]; apply lookup_insert_eq).
    rewrite (walk_grows SYMLOOP_MAX f f' true true false [] _ l Hg (fun _ _ => ex_intro _ _ Hl) E). cbn [mbind result_bind]. rewrite Hl.
    unfold f'. cbn [inodes]. by rewrite lookup_insert_eq.
Qed.

(** Entries are added, files are as they were. *)
Definition extends (f f' : vfs) : Prop := grows f f' /\ inodes f' = inodes f.

Lemma extends_refl f : extends f f.
Proof. split; [by intros l e|done]. Qed.

Lemma extends_trans f g k : extends f g -> extends g k -> extends f k.
Proof. intros [H1 E1] [H2 E2]. split; [intros l e H; by apply H2, H1|by rewrite E2]. Qed.

Lemma mkdir_extends p f : extends f (mkdir p f).2.
Proof.
  unfold mkdir. destruct (resolve f false true p) as [l|k]; [|apply extends_refl]. destruct (ents f !! l) eqn:E; [apply extends_refl|].
  split; [|done]. intros l' e H. cbn. rewrite lookup_insert_ne; [done|]. intros <-. congruence.
Qed.

Lemma mkdir_all_extends p f : extends f (mkdir_all p f).2.
Proof.
  unfold mkdir_all. generalize (length p). intros n. revert p f. induction n as [|n IH]; intros p f; cbn [mkdir_all_aux]; (case_decide; [apply extends_refl|]);
    unfold mbind, fsM_bind, try, reading; pose proof (mkdir_extends p f) as H1; destruct (mkdir p f) as [[[]|k] f1]; cbn [snd] in H1; try done;
    (destruct (decide (k = EkNotFound)) as [->|Hk]; [|destruct k; try done; by destruct (is_dir f1 p)]); [done|].
  destruct (parent p) as [d|]; [|done].
  pose proof (IH d f1) as H2. destruct (mkdir_all_aux n d f1) as [[[]|k] f2]; cbn [snd] in H2; [|by eapply extends_trans].
  pose proof (mkdir_extends p f2) as H3. destruct (mkdir p f2) as [[[]|k] f3]; cbn [snd] in *; [|destruct (is_dir f3 p)];
    by eapply extends_trans; [eapply extends_trans|].
Qed.

Lemma read_at_extends f f' p data : extends f f' -> read_at f p = Ok data -> read_at f' p = Ok data.
Proof.
  intros [Hg Hi]. unfold read_at, lookup_path. destruct (walk _ f _ _ _ _) as [l|k] eqn:E; [|done]. cbn [mbind result_bind].
  rewrite (walk_grows SYMLOOP_MAX f f' true false false [] _ l Hg ltac:(done) E). cbn [mbind result_bind].
  destruct (ents f !! l) as [e|] eqn:El; [|done]. by rewrite (Hg _ _ El), Hi.
Qed.

Lemma stores_ca_file root dir name pem : stores (ca_file root dir name pem).
Proof. apply stores_bind; [apply stores_create_dir_all|intros _; apply stores_write]. Qed.

(** The agent's bundle after the certificate was written. *)
Lemma write_ca_reads pem f f' :
  files_stored f -> write_ca_pem [] pem f = (Ok (), f') ->
  exists c, read_at f' ["etc"; "ssl"; "certs"; "bux-ca-bundle.pem"]%string = Ok (combined c pem).
Proof.
  intros H. unfold write_ca_pem.
  assert (Hb : forall {A} (m : sys A) (g : A -> sys ()) f0, files_stored f0 -> stores m -> (m ≫= g) f0 = (Ok (), f') ->
    exists a f1, files_stored f1 /\ g a f1 = (Ok (), f')).
  { intros A m g f0 H0 Hm. unfold mbind, fsM_bind. specialize (Hm f0 H0). destruct (m f0) as [[a|k] f1]; [|done]. intros E. by exists a, f1. }
  intros E. apply Hb in E as (? & f1 & H1 & E); [|done|apply stores_ca_file].
  apply Hb in E as (? & f2 & H2 & E); [|done|apply stores_ca_file].
  apply Hb in E as (? & f3 & H3 & E); [|done|apply stores_try, stores_create_dir_all].
  apply Hb in E as (? & f4 & H4 & E); [|done|apply stores_try, stores_write].
  apply Hb in E as (read & f5 & H5 & E); [|done|by apply stores_quiet].
  apply Hb in E as (c & f6 & H6 & E); [|done|destruct read as [|[]]; by apply stores_quiet].
  apply Hb in E as (? & f7 & H7 & E); [|done|destruct c; [apply stores_write|by apply stores_quiet]].
  exists c. exact (write_reads _ _ _ f7 f' H7 E).
Qed.

Section Booting.
Context (proc_mounts : list boot_event -> option string)
  (mount : list boot_event -> option string -> string -> string -> result io_kind ())
  (netlink : result io_kind ()) (link_get : string -> result io_kind (option Z)) (link_up : Z -> result io_kind ())
  (addr_add route_add : result nl_error ()) (reaper_start bind : result io_kind ())
  (from_str : string -> option GuestBootConfig) (env : string -> option string).

Abbreviation boots := (run proc_mounts mount netlink link_get link_up addr_add route_add reaper_start bind from_str env).

Definition is_tmpfs_mount (e : boot_event) : Prop := exists p ok, e = MountCall None p "tmpfs" ok.
Definition is_network (e : boot_event) : Prop :=
  match e with NetlinkOpen _ | LinkGet _ _ | LinkUp _ _ | AddrAdd _ _ _ _ | RouteAdd _ _ => True | _ => False end.
Definition volume_mount (ok : bool) (v : GuestVolume) : boot_event := MountCall (Some (gv_tag v)) (gv_guest_path v) "virtiofs" ok.

Lemma emits_mount_call source target fstype :
  emits (mount_call mount source target fstype)
    (fun r l => exists x, r = Ok x /\ l = [MountCall source target fstype (is_ok x)]).
Proof. intros σ. eexists. split; [done|]. by eexists. Qed.

Lemma emits_one_tmpfs m : emits (mount_one_tmpfs proc_mounts mount m) (fun r l => r = Ok () /\ Forall is_tmpfs_mount l).
Proof.
  destruct m as [p mode]. intros σ. unfold mount_one_tmpfs, mount_call, mbind, bM_bind, ignoring, the_log, emit, mret, bM_ret.
  destruct (is_tmpfs proc_mounts (bt_log σ) p); [exists []; rewrite app_nil_r; split_and!; [done|done|constructor]|]. cbn [bt_fs bt_log].
  set (call := MountCall None p "tmpfs" _). exists [call].
  assert (Hc : is_tmpfs_mount call) by (by eexists _, _). split; [by destruct (mount _ _ _ _)|].
  split; [by destruct (mount _ _ _ _)|by apply Forall_singleton].
Qed.

Lemma emits_tmpfs ms : emits (mount_tmpfs proc_mounts mount ms) (fun r l => r = Ok () /\ Forall is_tmpfs_mount l).
Proof.
  induction ms as [|m ms IH]; cbn [mount_tmpfs]; [apply emits_quiet; intros σ; split_and!; [done|done|constructor]|].
  eapply emits_weaken; [apply emits_bind; [apply emits_one_tmpfs|intros a; apply IH]|].
  intros r l [(e & [? _] & _)|(a & l1 & l2 & -> & [_ H1] & [-> H2])]; [done|]. split; [done|by apply Forall_app].
Qed.

Lemma emits_identity : emits ensure_hosts_and_hostname (fun r l => r = Ok () /\ l = [SetHostname "bux"]).
Proof.
  intros σ. exists [SetHostname "bux"]. unfold ensure_hosts_and_hostname, mbind, bM_bind, the_tree.
  destruct (_ || _); unfold ignoring, emit, mret, bM_ret; cbn [bt_fs bt_log]; by destruct (is_file_at _ _).
Qed.

Lemma emits_pure_bind {A B} (r : result io_kind A) (f : A -> bM B) P :
  (forall k, r = Err k -> P (Err k) []) -> (forall a, r = Ok a -> emits (f a) P) -> emits (b_pure r ≫= f) P.
Proof.
  intros He Hf σ. unfold mbind, bM_bind, b_pure. destruct r as [a|k]; [by apply Hf|]. exists []. rewrite app_nil_r. split; [done|by apply He].
Qed.

Lemma emits_call {A} e (r : result io_kind A) : emits (call e r) (fun r' l => r' = r /\ l = [e]).
Proof. intros σ. by exists [e]. Qed.

Lemma emits_call_bind {A B} e (r : result io_kind A) (f : A -> bM B) P :
  (forall k, r = Err k -> P (Err k) [e]) -> (forall a, r = Ok a -> emits (f a) (fun r' l => P r' (e :: l))) -> emits (call e r ≫= f) P.
Proof.
  intros He Hf σ. unfold mbind, bM_bind, call, emit, mbind, bM_bind, b_pure. destruct r as [a|k]; [|exists [e]; by split; [|apply He]].
  destruct (Hf a eq_refl (mkBoot (bt_fs σ) (bt_log σ ++ [e]))) as (l & E & H). exists (e :: l). split; [|done].
  rewrite E. cbn [bt_log]. by rewrite <- app_assoc.
Qed.

(** An address or route was added, or was there. *)
Definition accepted (answer : result nl_error ()) : Prop := answer <> Err NlOther.

(** What brings the interfaces up: loopback if there is one, then [eth0]. *)
Definition lo_events (lo : option Z) : list boot_event :=
  LinkGet "lo" (Ok lo) :: match lo with Some i => [LinkUp i true] | None => [] end.
Definition eth0_events (idx : Z) (addr route : result nl_error ()) : list boot_event :=
  [LinkGet GUEST_INTERFACE (Ok (Some idx)); LinkUp idx true; AddrAdd idx GUEST_IP PREFIX_LEN addr; RouteAdd GATEWAY_IP route; SetHostname "bux"].
Definition online_events (l : list boot_event) : Prop :=
  exists lo idx addr route, accepted addr /\ accepted route /\ l = NetlinkOpen true :: lo_events lo ++ eth0_events idx addr route.

Definition net_event (e : boot_event) : Prop := is_network e \/ e = SetHostname "bux".

Lemma unless_exists_ok r u : unless_exists r = Ok u -> accepted r.
Proof. by intros H ->. Qed.

(** The events of the set-up, each a network event. *)
Ltac net := repeat (constructor; [by left|]); constructor.

Lemma emits_eth0 :
  emits (eth0 ← link_by_name link_get GUEST_INTERFACE;
         match eth0 with
         | None => bfail EkNotFound
         | Some idx =>
           link_set_up link_up idx ≫= fun _ =>
           call (AddrAdd idx GUEST_IP PREFIX_LEN addr_add) (unless_exists addr_add) ≫= fun _ =>
           call (RouteAdd GATEWAY_IP route_add) (unless_exists route_add) ≫= fun _ =>
           write_resolv_gateway ≫= fun _ => ensure_hosts_and_hostname
         end)
    (fun r l => Forall net_event l /\ (r = Ok () -> exists idx addr route, accepted addr /\ accepted route /\ l = eth0_events idx addr route)).
Proof.
  apply emits_call_bind; [intros k _; split; [net|done]|]. intros eth0 ->.
  destruct eth0 as [idx|]; [|apply emits_quiet; intros σ; split_and!; [done|net|done]].
  apply emits_call_bind; [intros k _; split; [net|done]|]. intros [] ->.
  apply emits_call_bind; [intros k _; split; [net|done]|]. intros [] Ha.
  apply emits_call_bind; [intros k _; split; [net|done]|]. intros [] Hr.
  apply emits_after; [done|intros k; split; [net|done]|]. intros _.
  eapply emits_weaken; [apply emits_identity|]. intros r l [-> ->]. split.
  - repeat (constructor; [by left|]). constructor; [by right|constructor].
  - intros _. exists idx, addr_add, route_add. split_and!; [by eapply unless_exists_ok..|done].
Qed.

(** Networking events only, and all of them for a network that came up. *)
Lemma emits_online :
  emits (configure_static_eth0 netlink link_get link_up addr_add route_add)
    (fun r l => Forall net_event l /\ (r = Ok () -> online_events l)).
Proof.
  unfold configure_static_eth0. apply emits_call_bind; [intros k _; split; [net|done]|]. intros [] ->.
  apply emits_call_bind; [intros k _; split; [net|done]|]. intros lo ->.
  assert (Hlo : emits (match lo with Some index => link_set_up link_up index | None => mret () end)
    (fun r l => Forall net_event l /\ (is_ok r = true -> l = match lo with Some i => [LinkUp i true] | None => [] end))).
  { destruct lo as [i|]; [|apply emits_quiet; intros σ; split_and!; [done|net|done]].
    eapply emits_weaken; [apply emits_call|]. intros r l [-> ->]. split; [net|]. by intros ->. }
  eapply emits_weaken; [apply emits_bind; [exact Hlo|intros ?; apply emits_eth0]|].
  intros r l [(e & [Hf _] & ->)|([] & l1 & l2 & -> & [Hf1 H1] & Hf2 & H2)].
  - split; [|done]. do 2 (constructor; [by left|]). done.
  - split; [do 2 (constructor; [by left|]); by apply Forall_app|]. intros Hr. destruct (H2 Hr) as (idx & a & b & Ha & Hb & ->).
    exists lo, idx, a, b. split_and!; [done|done|]. by rewrite (H1 eq_refl).
Qed.

Lemma emits_ca pem : emits (install_mitm_ca pem) (fun r l => l = if is_ok r then [SetVar "SSL_CERT_FILE" SSL_CERT_FILE] else []).
Proof.
  intros σ. unfold install_mitm_ca, mbind, bM_bind. pose proof (on_disk_log (write_ca_pem [] (str_bytes pem)) σ) as H.
  destruct (on_disk _ σ) as [[[]|k] σ1]; simpl in H; eexists; (split; [|done]); simpl; rewrite H; [done|by rewrite app_nil_r].
Qed.

(** A volume is mounted once, with its tag at its path, or not at all. *)
Lemma emits_volume v :
  emits (mount_virtiofs_volume mount v)
    (fun r l => if is_ok r then l = [volume_mount true v] /\ Boot.validate v = Ok () else l = [] \/ l = [volume_mount false v]).
Proof.
  unfold mount_virtiofs_volume. apply emits_pure_bind; [by left|]. intros [] Hv. apply emits_after; [apply on_disk_log|by left|]. intros _.
  apply emits_pure_bind; [by left|]. intros source Hs. apply emits_pure_bind; [by left|]. intros target Ht.
  unfold c_string in Hs, Ht. destruct (str_contains_char _ (gv_tag v)); [done|]. destruct (str_contains_char _ (gv_guest_path v)); [done|].
  injection Hs as <-. injection Ht as <-. intros σ. unfold mount_call, the_log, emit, mbind, bM_bind, mret, bM_ret, b_pure. cbn [bt_fs bt_log].
  exists [volume_mount (is_ok (mount (bt_log σ) (Some (gv_tag v)) (gv_guest_path v) "virtiofs")) v]. split; [done|]. cbn [fst].
  destruct (mount _ _ _ _) as [[]|k]; simpl; [|by right]. split; [done|]. destruct (Boot.validate v) as [[]|]; done.
Qed.

Lemma emits_volumes vs :
  emits (mount_virtiofs_volumes mount vs)
    (fun r l => Forall (fun e => exists ok v, e = volume_mount ok v) l
       /\ (r = Ok () -> l = volume_mount true <$> vs /\ Forall (fun v => Boot.validate v = Ok ()) vs)).
Proof.
  induction vs as [|v vs IH]; cbn [mount_virtiofs_volumes]; [apply emits_quiet; intros σ; by split_and!|].
  eapply emits_weaken; [apply emits_bind; [apply emits_volume|intros a; apply IH]|].
  intros r l [(e & H & ->)|([] & l1 & l2 & -> & [-> Hv] & Hf & Hok)].
  - split; [|done]. cbn [is_ok] in H. destruct H as [->| ->]; [constructor|]. apply Forall_singleton. by exists false, v.
  - split; [constructor; [by exists true, v|done]|]. intros Hr. destruct (Hok Hr) as [-> Hvs]. split; [done|by constructor].
Qed.

Definition set_cert : boot_event := SetVar "SSL_CERT_FILE" SSL_CERT_FILE.
Definition silent (l : list boot_event) : Prop := forall p, Bind p true ∉ l.

(** What a network of this mode asks for. *)
Definition net_done (mode : GuestNetworkMode) (l : list boot_event) : Prop :=
  match mode with NetEnabled => online_events l | NetDisabled => l = [SetHostname "bux"] end.

Lemma emits_net cfg :
  emits (match bc_network cfg with
         | NetEnabled => configure_static_eth0 netlink link_get link_up addr_add route_add
         | NetDisabled => configure_offline
         end)
    (fun r l => Forall net_event l /\ (r = Ok () -> net_done (bc_network cfg) l)).
Proof.
  destruct (bc_network cfg); [apply emits_online|].
  eapply emits_weaken; [apply emits_identity|]. intros r l [-> ->]. split; [|done]. constructor; [by right|constructor].
Qed.

Lemma emits_cert cfg :
  emits (match bc_mitm_ca_pem cfg with Some pem => install_mitm_ca pem | None => mret () end)
    (fun r l => l = if is_ok r then match bc_mitm_ca_pem cfg with Some _ => [set_cert] | None => [] end else []).
Proof. destruct (bc_mitm_ca_pem cfg); [apply emits_ca|apply emits_quiet; intros σ; by split]. Qed.

Lemma emits_tail :
  emits (call (ReaperStart (is_ok reaper_start)) reaper_start ≫= fun _ => call (Bind AGENT_PORT (is_ok bind)) bind)
    (fun r l => (r = Ok () -> l = [ReaperStart true; Bind AGENT_PORT true]) /\ (forall k, r = Err k -> silent l)).
Proof.
  apply emits_call_bind; [intros k ->; split; [done|]; intros k' _ p; by intros [|[]%not_elem_of_nil]%elem_of_cons|]. intros [] ->.
  eapply emits_weaken; [apply emits_call|]. intros r l [-> ->]. split; [by intros ->|]. intros k -> p.
  intros [|[|[]%not_elem_of_nil]%elem_of_cons]%elem_of_cons; done.
Qed.

Lemma silent_app l k : silent l -> silent k -> silent (l ++ k).
Proof. intros H1 H2 p [?|?]%elem_of_app; [by eapply H1|by eapply H2]. Qed.

Lemma silent_forall (P : boot_event -> Prop) l : (forall p, ~ P (Bind p true)) -> Forall P l -> silent l.
Proof. intros Hp Hl p Hin. rewrite Forall_forall in Hl. by apply (Hp p), Hl. Qed.

(** Mounts of volumes, then the rest. *)
Lemma emits_end cfg :
  emits (mount_virtiofs_volumes mount (bc_volumes cfg) ≫= fun _ =>
         call (ReaperStart (is_ok reaper_start)) reaper_start ≫= fun _ => call (Bind AGENT_PORT (is_ok bind)) bind)
    (fun r l => (r = Ok () -> l = (volume_mount true <$> bc_volumes cfg) ++ [ReaperStart true; Bind AGENT_PORT true]
                     /\ Forall (fun v => Boot.validate v = Ok ()) (bc_volumes cfg)) /\ (forall k, r = Err k -> silent l)).
Proof.
  assert (Hv : forall p, ~ exists ok v, Bind p true = volume_mount ok v) by (by intros p (? & ? & ?)).
  eapply emits_weaken; [apply emits_bind; [apply emits_volumes|intros a; apply emits_tail]|].
  intros r l [(e & [Hf _] & ->)|([] & l1 & l2 & -> & [Hf Hok] & Ht & Hs)].
  - split; [done|]. intros _ _. eapply silent_forall; [|exact Hf]. exact Hv.
  - destruct (Hok eq_refl) as [-> Hvs]. split; [intros Hr; split; [by rewrite (Ht Hr)|done]|].
    intros k Hr. apply silent_app; [eapply silent_forall; [|exact Hf]; exact Hv|by eapply Hs].
Qed.

(** What a boot that got to the end has asked for after the tmpfs mounts. *)
Definition certs (cfg : GuestBootConfig) : list boot_event := match bc_mitm_ca_pem cfg with Some _ => [set_cert] | None => [] end.
Definition finished (l : list boot_event) : Prop :=
  exists cfg net, from_env from_str env = Ok cfg /\ net_done (bc_network cfg) net /\ Forall (fun v => Boot.validate v = Ok ()) (bc_volumes cfg)
    /\ l = net ++ certs cfg ++ (volume_mount true <$> bc_volumes cfg) ++ [ReaperStart true; Bind AGENT_PORT true].

Lemma silent_net l : Forall net_event l -> silent l.
Proof. apply silent_forall. by intros p [[]|]. Qed.

Lemma silent_certs cfg : silent (certs cfg).
Proof. unfold certs. intros p. destruct (bc_mitm_ca_pem cfg); [by intros [|[]%not_elem_of_nil]%elem_of_cons|apply not_elem_of_nil]. Qed.

Lemma emits_run :
  emits boots (fun r l => (forall k, r = Err k -> silent l)
                 /\ (r = Ok () -> exists tm rest, l = tm ++ rest /\ Forall is_tmpfs_mount tm /\ finished rest)).
Proof.
  assert (Htm : forall p, ~ is_tmpfs_mount (Bind p true)) by (by intros p (? & ? & ?)).
  unfold run. eapply emits_weaken; [apply emits_bind; [apply emits_tmpfs|intros ?]|].
  - apply (emits_pure_bind _ _ (fun r l => (forall k, r = Err k -> silent l) /\ (r = Ok () -> finished l))).
    + intros k _. split; [|done]. intros k' _ p. apply not_elem_of_nil.
    + intros cfg Hc. destruct (from_env from_str env) as [cfg'|] eqn:Ec; [|done]. injection Hc as ->.
      eapply emits_weaken; [apply emits_bind; [apply emits_net|intros ?; apply emits_bind; [apply emits_cert|intros ?; apply emits_end]]|].
      cbv beta.
      intros r l [(e & [Hf _] & ->)|([] & net & l2 & -> & [Hf Hn] & [(e & -> & ->)|([] & cert & l3 & -> & -> & Hok & Hs)])]; (split; [|try done]).
      * intros _ _. by apply silent_net.
      * intros _ _. apply silent_app; [by apply silent_net|]. intros p. apply not_elem_of_nil.
      * intros k Hr. apply silent_app; [by apply silent_net|]. apply silent_app; [apply silent_certs|by eapply Hs].
      * intros Hr. destruct (Hok Hr) as [-> Hv]. exists cfg, net. split_and!; [done|by apply Hn|done|done].
  - intros r l [(e & [? _] & _)|([] & tm & l2 & -> & [_ Htmp] & Hs & Hok)]; [done|]. split.
    + intros k Hr. apply silent_app; [eapply silent_forall; [|eassumption]; done|by eapply Hs].
    + intros Hr. exists tm, l2. split_and!; [done|done|by apply Hok].
Qed.

(** *** The tree the boot leaves *)

Lemma leads_pure {A} (r : result io_kind A) P : leads P (b_pure r) (fun _ => P).
Proof. by intros σ a σ' H [= _ <-]. Qed.

Lemma stored_tmpfs ms : leads files_stored (mount_tmpfs proc_mounts mount ms) (fun _ => files_stored).
Proof.
  induction ms as [|[p mode] ms IH]; [by intros σ a σ' H [= _ <-]|]. cbn [mount_tmpfs]. apply (leads_bind _ _ _ (fun _ => files_stored)); [|by intros _].
  intros σ a σ' H. unfold mount_one_tmpfs, mount_call, mbind, bM_bind, ignoring, the_log, emit, mret, bM_ret.
  destruct (is_tmpfs _ _ p); [by intros [= _ <-]|]. cbn [bt_fs bt_log]. pose proof (stores_create_dir_all (names_of p) _ H) as H1.
  destruct (mount _ _ _ _); intros [= _ <-]; cbn [bt_fs]; [by apply stores_chmod|done].
Qed.

Lemma stored_identity : leads files_stored ensure_hosts_and_hostname (fun _ => files_stored).
Proof.
  intros σ a σ' H. unfold ensure_hosts_and_hostname, mbind, bM_bind, the_tree, ignoring, emit, mret, bM_ret.
  destruct (_ || _); cbn [bt_fs bt_log]; destruct (is_file_at _ _); intros [= _ <-]; cbn [bt_fs];
    repeat apply stores_write; exact H.
Qed.

Lemma leads_call {A} e (r : result io_kind A) P : leads P (call e r) (fun _ => P).
Proof. intros σ a σ' H [= _ <-]. exact H. Qed.

Lemma stored_net mode :
  leads files_stored (match mode with NetEnabled => configure_static_eth0 netlink link_get link_up addr_add route_add | NetDisabled => configure_offline end)
    (fun _ => files_stored).
Proof.
  destruct mode; [|apply stored_identity]. unfold configure_static_eth0, link_by_name, link_set_up.
  apply (leads_bind _ _ _ (fun _ => files_stored)); [apply leads_call|intros _].
  apply (leads_bind _ _ _ (fun _ => files_stored)); [apply leads_call|intros lo].
  apply (leads_bind _ _ _ (fun _ => files_stored)); [destruct lo; [apply leads_call|by intros σ a σ' H [= _ <-]]|intros _].
  apply (leads_bind _ _ _ (fun _ => files_stored)); [apply leads_call|intros [idx|]; [|by intros σ a σ' H [=]]].
  do 3 (apply (leads_bind _ _ _ (fun _ => files_stored)); [apply leads_call|intros _]).
  apply (leads_bind _ _ _ (fun _ => files_stored)); [|intros _; apply stored_identity].
  intros σ a σ' H [= _ <-]. cbn [bt_fs]. apply stores_write. by apply stores_create_dir_all.
Qed.

(** The agent's bundle holds the certificate of this configuration. *)
Definition trusts (cfg : GuestBootConfig) (f : vfs) : Prop :=
  forall pem, bc_mitm_ca_pem cfg = Some pem ->
    exists body, read_at f (names_of SSL_CERT_FILE) = Ok (body ++ str_bytes pem) /\ (body = [] \/ ends_with_lf body = true).

Lemma combined_ends c pem : exists body, combined c pem = body ++ pem /\ (body = [] \/ ends_with_lf body = true).
Proof.
  unfold combined. set (b := default [] c). eexists (b ++ _). rewrite <- app_assoc. split; [done|].
  case_bool_decide as Hb; [left; by rewrite Hb|]. cbn [orb]. destruct (ends_with_lf b) eqn:E; [right; by rewrite app_nil_r|].
  right. unfold ends_with_lf. by rewrite last_snoc.
Qed.

Lemma installs_cert cfg :
  leads files_stored (match bc_mitm_ca_pem cfg with Some pem => install_mitm_ca pem | None => mret () end) (fun _ => trusts cfg).
Proof.
  unfold trusts. intros σ a σ' H. destruct (bc_mitm_ca_pem cfg) as [pem|]; [|intros [= _ <-]; done].
  unfold install_mitm_ca, mbind, bM_bind, on_disk, activate_ssl_cert_file, emit.
  destruct (write_ca_pem [] (str_bytes pem) (bt_fs σ)) as [[[]|k] f] eqn:E; [|done]. intros [= _ <-] pem' [= <-]. cbn [bt_fs].
  destruct (write_ca_reads _ _ _ H E) as [c Hc]. change (names_of SSL_CERT_FILE) with ["etc"; "ssl"; "certs"; "bux-ca-bundle.pem"]%string.
  rewrite Hc. destruct (combined_ends c (str_bytes pem)) as (body & -> & Hb). by exists body.
Qed.

Lemma trusts_volumes cfg vs : leads (trusts cfg) (mount_virtiofs_volumes mount vs) (fun _ => trusts cfg).
Proof.
  induction vs as [|v vs IH]; [by intros σ a σ' H [= _ <-]|]. cbn [mount_virtiofs_volumes].
  apply (leads_bind _ _ _ (fun _ => trusts cfg)); [|by intros _]. unfold mount_virtiofs_volume.
  apply (leads_bind _ _ _ (fun _ => trusts cfg)); [apply leads_pure|intros _].
  apply (leads_bind _ _ _ (fun _ => trusts cfg)).
  { intros σ a σ' H. unfold on_disk. pose proof (mkdir_all_extends (components (gv_guest_path v)) (bt_fs σ)) as He.
    destruct (mkdir_all _ (bt_fs σ)) as [r f]. intros [= _ <-]. intros pem Hp. destruct (H pem Hp) as (body & Hr & Hb). exists body.
    split; [|done]. by apply (read_at_extends (bt_fs σ)). }
  intros _. apply (leads_bind _ _ _ (fun _ => trusts cfg)); [apply leads_pure|intros source].
  apply (leads_bind _ _ _ (fun _ => trusts cfg)); [apply leads_pure|intros target].
  apply (leads_bind _ _ _ (fun _ => trusts cfg)); [|intros ret; apply leads_pure]. by intros σ a σ' H [= _ <-].
Qed.

Lemma run_trusts cfg : from_env from_str env = Ok cfg -> leads files_stored boots (fun _ => trusts cfg).
Proof.
  intros Hc. unfold run. apply (leads_bind _ _ _ (fun _ => files_stored)); [apply stored_tmpfs|intros _]. rewrite Hc.
  apply (leads_bind _ _ _ (fun c f => c = cfg /\ files_stored f)); [by intros σ a σ' H [= <- <-]|]. intros c.
  apply leads_prop. intros ->.
  apply (leads_bind _ _ _ (fun _ => files_stored)); [apply stored_net|intros _].
  apply (leads_bind _ _ _ (fun _ => trusts cfg)); [apply installs_cert|intros _].
  apply (leads_bind _ _ _ (fun _ => trusts cfg)); [apply trusts_volumes|intros _].
  apply (leads_bind _ _ _ (fun _ => trusts cfg)); [apply leads_call|intros _; apply leads_call].
Qed.

(** C36.  The agent listens last and complete.  A boot that succeeds has asked, after the tmpfs
    mounts and in this order, for exactly: the interfaces when the configuration enables
    the network (netlink, loopback if there is one, [eth0] up, the address and the
    default route the host's proxy serves, each done or there already) and the host
    name; the certificate variable exactly if the host gave a certificate; each volume, valid and
    mounted with its tag at its path; the reaper, started; the port, bound.  The file the certificate
    variable names then ends with that certificate, as a block of its own.  A
    boot that fails never listens. *)
Theorem agent_listens_last (f : vfs) :
  files_stored f ->
  let '(r, σ') := boots (mkBoot f []) in
  let log := bt_log σ' in
  (r = Ok () ->
     exists cfg tmpfs net, from_env from_str env = Ok cfg
       /\ log = tmpfs ++ net
            ++ match bc_mitm_ca_pem cfg with Some _ => [SetVar "SSL_CERT_FILE" SSL_CERT_FILE] | None => [] end
            ++ (volume_mount true <$> bc_volumes cfg) ++ [ReaperStart true; Bind AGENT_PORT true]
       /\ Forall is_tmpfs_mount tmpfs
       /\ Forall (fun v => Boot.validate v = Ok ()) (bc_volumes cfg)
       /\ match bc_network cfg with
          | NetDisabled => net = [SetHostname "bux"]
          | NetEnabled => exists lo idx addr route, accepted addr /\ accepted route /\ net = NetlinkOpen true :: lo_events lo ++ eth0_events idx addr route
          end
       /\ (forall pem, bc_mitm_ca_pem cfg = Some pem ->
             exists body, read_at (bt_fs σ') (names_of SSL_CERT_FILE) = Ok (body ++ str_bytes pem) /\ (body = [] \/ ends_with_lf body = true)))
  /\ (forall k, r = Err k -> forall p, Bind p true ∉ log).
Proof.
  intros Hst. destruct (emits_run (mkBoot f [])) as (l & E & Hs & Hok). pose proof (fun cfg Hc => run_trusts cfg Hc (mkBoot f [])) as Ht.
  destruct (boots (mkBoot f [])) as [r σ']. cbn [fst snd bt_log bt_fs app] in *. subst l.
  split; [|exact Hs]. intros ->. destruct (Hok eq_refl) as (tm & rest & El & Htmp & cfg & net & Hc & Hn & Hv & ->).
  exists cfg, tm, net. split_and!; [done|exact El|done|done|by destruct (bc_network cfg)|]. by apply (Ht cfg Hc () σ').
Qed.
End Booting.

(** ** A boot with a volume and the certificate of the host *)

Module Sample.
Definition bundle : loc := ["etc"; "ssl"; "certs"; "ca-certificates.crt"]%string.
(** An image whose trust bundle holds ["old"]. *)
Definition image : vfs :=
  mkVfs (list_to_map [(["etc"%string], EDir 0x1ed); (["etc"; "ssl"]%string, EDir 0x1ed); (["etc"; "ssl"; "certs"]%string, EDir 0x1ed); (bundle, EFile 0)])
        {[ 0%nat := mkInode 0x1a4 (str_bytes "old") ]} 1.
Definition vol : GuestVolume := mkGuestVolume "tag0" "/data" true.
Definition config (net : GuestNetworkMode) : GuestBootConfig := mkBootConfig net (Some "CA"%string) "vm" [vol].
Definition env_ (k : string) : option string := if bool_decide (k = GUEST_BOOT_CONFIG_ENV) then Some "{}"%string else None.

Definition boot_with (net : GuestNetworkMode) (mounts : result io_kind ()) (f : vfs) : result io_kind () * boot :=
  run (fun _ => Some "tmpfs /tmp tmpfs rw 0 0"%string) (fun _ _ _ fstype => if bool_decide (fstype = "virtiofs"%string) then mounts else Ok ())
    (Ok ()) (fun name => Ok (if bool_decide (name = GUEST_INTERFACE) then Some 2 else Some 1)) (fun _ => Ok ())
    (Err NlExists) (Ok ()) (Ok ()) (Ok ()) (fun _ => Some (config net)) env_ (mkBoot f []).

Example boots_and_listens :
  let '(r, σ) := boot_with NetEnabled (Ok ()) image in
  r = Ok () /\ bt_log σ =
    [MountCall None "/var/tmp" "tmpfs" true; MountCall None "/run" "tmpfs" true; NetlinkOpen true; LinkGet "lo" (Ok (Some 1)); LinkUp 1 true;
     LinkGet "eth0" (Ok (Some 2)); LinkUp 2 true; AddrAdd 2 GUEST_IP 24 (Err NlExists); RouteAdd GATEWAY_IP (Ok ());
     SetHostname "bux"; SetVar "SSL_CERT_FILE" SSL_CERT_FILE; MountCall (Some "tag0"%string) "/data" "virtiofs" true; ReaperStart true; Bind AGENT_PORT true].
Proof. vm_compute. done. Qed.

Lemma image_stored : files_stored image.
Proof.
  intros l i H. cbn [image ents] in H. apply elem_of_list_to_map_2 in H. rewrite !elem_of_cons, elem_of_nil in H.
  destruct_or! H; simplify_eq. vm_compute. by eexists.
Defined.

Lemma agent_listens_last_witness :
  let '(r, σ') := boot_with NetEnabled (Ok ()) image in
  r = Ok ()
  /\ exists body, read_at (bt_fs σ') (names_of SSL_CERT_FILE) = Ok (body ++ str_bytes "CA") /\ (body = [] \/ ends_with_lf body = true).
Proof.
  unfold boot_with. match goal with |- context [run ?a ?b ?c ?d ?e ?f ?g ?h ?i ?j ?k (mkBoot ?t [])] =>
    pose proof (agent_listens_last a b c d e f g h i j k t image_stored) as H;
    assert (E : (run a b c d e f g h i j k (mkBoot t [])).1 = Ok ()) by (vm_compute; reflexivity);
    destruct (run a b c d e f g h i j k (mkBoot t [])) as [r σ'] end.
  cbn [fst] in E. destruct H as [H _]. destruct (H E) as (cfg & tm & net & Hc & _ & _ & _ & _ & Ht). split; [exact E|].
  apply Ht. injection Hc as <-. reflexivity.
Defined.

Example failed_volume_is_fatal :
  let '(r, σ) := boot_with NetDisabled (Err EkOther) image in
  r = Err EkOther /\ last (bt_log σ) = Some (MountCall (Some "tag0"%string) "/data" "virtiofs" false).
Proof. vm_compute. done. Qed.

(** The bundle of the image holds the certificate twice after a second boot. *)
Example bundle_grows :
  let first := (boot_with NetDisabled (Ok ()) image).2 in
  let second := (boot_with NetDisabled (Ok ()) (bt_fs first)).2 in
  read_at (bt_fs first) bundle = Ok (str_bytes ("old" +:+ bytes_str [10] +:+ "CA" +:+ bytes_str [10]))
  /\ read_at (bt_fs second) bundle = Ok (str_bytes ("old" +:+ bytes_str [10] +:+ "CA" +:+ bytes_str [10; 10] +:+ "CA" +:+ bytes_str [10]))
  /\ read_at (bt_fs second) ["etc"; "ssl"; "certs"; "bux-ca-bundle.pem"]%string
     = Ok (str_bytes ("old" +:+ bytes_str [10] +:+ "CA" +:+ bytes_str [10] +:+ "CA")).
Proof. vm_compute. done. Qed.
End Sample.
