(* ===== verification/Ext4.v ===== *)
(** * ext4 images

    [crates/bux-e2fs/src/ext4.rs] and [error.rs]: the handle that closes itself,
    the wrappers of libext2fs, the building of an image from a directory, the
    injection of a file and the estimate of an image's size.  libext2fs and the
    host's file calls are parameters that answer from the log of the calls so
    far; a handle is the number the library hands out. *)

From S2P Require Import Prelude Files Paths.

(** ** error.rs *)

Definition i64_wrap (z : Z) : Z := (z + 2^63) mod 2^64 - 2^63.
Definition i32_wrap (z : Z) : Z := (z + 2^31) mod 2^32 - 2^31.

Inductive Ext2Code : Type :=
  | NoInodeBitmap | NoBlockBitmap | TooSmall | DirExists | FileExists
  | Errno (errno : Z)
  | Other (code : Z).

Definition EXT2_ET_BASE : Z := 2133571328.

Definition from_raw (code : Z) : Ext2Code :=
  if (0 <? code) && (code <? EXT2_ET_BASE) then Errno (i32_wrap code)
  else
    let offset := i64_wrap (code - EXT2_ET_BASE) in
    if offset =? 39 then NoInodeBitmap
    else if offset =? 40 then NoBlockBitmap
    else if offset =? 44 then TooSmall
    else if offset =? 79 then DirExists
    else if offset =? 155 then FileExists
    else Other code.

Definition raw (c : Ext2Code) : Z :=
  match c with
  | NoInodeBitmap => EXT2_ET_BASE + 39
  | NoBlockBitmap => EXT2_ET_BASE + 40
  | TooSmall => EXT2_ET_BASE + 44
  | DirExists => EXT2_ET_BASE + 79
  | FileExists => EXT2_ET_BASE + 155
  | Errno errno => errno
  | Other code => code
  end.

Lemma raw_from_raw code : - 2^63 <= code < 2^63 -> raw (from_raw code) = code.
Proof.
  intros H. unfold from_raw, EXT2_ET_BASE, i64_wrap, i32_wrap.
  destruct (_ && _) eqn:E; cbn [raw].
  - rewrite Z.mod_small; lia.
  - assert (Hw : forall k, 0 <= k < 2^31 -> (code - 2133571328 + 2^63) mod 2^64 - 2^63 = k -> 2133571328 + k = code).
    { intros k Hk Ek. pose proof (Z.div_mod (code - 2133571328 + 2^63) (2^64) ltac:(lia)). lia. }
    repeat (destruct (_ =? _) eqn:?; zify_bool; [cbn [raw]; unfold EXT2_ET_BASE; apply Hw; [lia|done]|]). done.
Qed.

(** ** The calls *)

Inductive BlockSize : Type := B1024 | B2048 | B4096.

Definition block_bytes (b : BlockSize) : Z := match b with B1024 => 1024 | B2048 => 2048 | B4096 => 4096 end.
Definition block_log (b : BlockSize) : Z := match b with B1024 => 0 | B2048 => 1 | B4096 => 2 end.

Record CreateOptions : Type := mkCreateOptions { co_block_size : BlockSize; co_reserved_ratio : Z }.
Definition default_options : CreateOptions := mkCreateOptions B4096 0.

Inductive FileType : Type := FtUnknown | RegularFile | Directory | CharDevice | BlockDevice | Fifo | Socket | Symlink.
Definition file_type_number (t : FileType) : Z :=
  match t with
  | FtUnknown => 0 | RegularFile => 1 | Directory => 2 | CharDevice => 3
  | BlockDevice => 4 | Fifo => 5 | Socket => 6 | Symlink => 7
  end.

Inductive ext4_error : Type :=
  | Ext2fs (op : string) (code : Ext2Code)
  | InvalidPath (message : string)
  | ExtIo (k : io_kind).

(** The fields of the superblock [create] sets. *)
Record super_block : Type := mkSuper {
  s_blocks_count : Z;
  s_blocks_count_hi : Z;
  s_log_block_size : Z;
  s_rev_level : Z;
  s_r_blocks_count : Z;
  s_r_blocks_count_hi : Z
}.

Definition EXT2_ROOT_INO : Z := 2.
Definition EXT2_FLAG_RW : Z := 1.
Definition EXT2_FLAG_EXCLUSIVE : Z := 16384.
Definition EXT2_DYNAMIC_REV : Z := 1.

Inductive ext2_call : Type :=
  | Initialize (path : string) (flags : Z) (param : super_block)
  | OpenImage (path : string) (flags : Z)
  | AllocateTables (fs : Z)
  | MkdirRoot (fs parent inum : Z)
  | ReadBitmaps (fs : Z)
  | PopulateFs (fs parent : Z) (source : string) (root : Z)
  | Flush (fs : Z)
  | DoWrite (fs cwd : Z) (source dest : string) (offset root : Z)
  | DoMkdir (fs cwd : Z) (name : string) (mode root : Z)
  | DoSymlink (fs cwd : Z) (name target : string) (root : Z)
  | AddJournalInode (fs blocks flags : Z)
  | LinkInode (fs dir : Z) (name : string) (ino file_type : Z)
  | Namei (fs root cwd : Z) (name : string)
  | ReadInode (fs ino : Z)
  | WriteInode (fs ino : Z)
  | WriteNewInode (fs ino : Z)
  | NewInode (fs dir mode : Z)
  | InodeAllocStats (fs ino inuse is_dir : Z)
  | NewBlock (fs goal : Z)
  | BlockAllocStats (fs block inuse : Z)
  | CloseImage (fs : Z).

Inductive host_call : Type :=
  | HostMkdirAll (path : string)
  | HostTruncate (path : string)
  | HostSetLen (path : string) (len : Z).

Inductive ext2_event : Type :=
  | Called (c : ext2_call) (code : Z)
  | Hosted (c : host_call) (ok : bool).

Definition eM (A : Type) : Type := list ext2_event -> result ext4_error A * list ext2_event.
#[global] Instance eM_ret : MRet eM := fun A a l => (Ok a, l).
#[global] Instance eM_bind : MBind eM := fun A B f m l => match m l with (Ok a, l') => f a l' | (Err e, l') => (Err e, l') end.
Definition e_pure {A} (r : result ext4_error A) : eM A := fun l => (r, l).

(** [Path::parent] of a text, as a text: what precedes the last component, without
    its trailing separators and [.] components. *)
Fixpoint skip_dots (parts : list string) : list string :=
  match parts with
  | p :: r => if bool_decide (p = ""%string) || bool_decide (p = "."%string) then skip_dots r else parts
  | [] => []
  end.

Definition glue (head : string) (parts : list string) : string := head +:+ String.concat "/" parts.

Definition parent_text (s : string) : option string :=
  let parts := split_on "/" s in
  match parts with
  | ""%string :: body =>
      if bool_decide (body = []) then None
      else match skip_dots (rev body) with
           | [] => None
           | _ :: r => Some (glue "/" (rev (skip_dots r)))
           end
  | "."%string :: body =>
      match skip_dots (rev body) with
      | [] => Some ""%string
      | _ :: r => match skip_dots r with [] => Some "."%string | r' => Some (glue "./" (rev r')) end
      end
  | _ => match skip_dots (rev parts) with
         | [] => None
         | _ :: r => Some (glue "" (rev (skip_dots r)))
         end
  end.

Example parents :
  parent_text <$> ["/usr/bin/bux"; "/bux"; "bux"; "a//b/"; "a/./b"; "./a"; "/"; ""; "a/../b"; "//a/b"]%string
  = [Some "/usr/bin"; Some "/"; Some ""; Some "a"; Some "a"; Some "."; None; None; Some "a/.."; Some "//a"]%string.
Proof. reflexivity. Qed.

Definition str_to_cstring (s : string) : result ext4_error string :=
  if str_contains_char "000" s then Err (InvalidPath s) else Ok s.

Definition to_cstring (path : string) : result ext4_error string :=
  if utf8_valid (str_bytes path) then str_to_cstring path else Err (InvalidPath path).

Section Library.
(** libext2fs: the code a call returns, the value it writes through its pointer,
    the superblock of an open handle, the journal size it recommends; and the
    host's file calls. *)
Context (lib : list ext2_event -> ext2_call -> Z) (out : list ext2_event -> ext2_call -> Z)
  (super_of : list ext2_event -> Z -> super_block) (default_journal_size : Z -> Z)
  (host : list ext2_event -> host_call -> result io_kind ()).
Context {ext2_inode : Type} (out_inode : list ext2_event -> Z -> ext2_inode).

Definition check (op : string) (code : Z) : result ext4_error () :=
  if code =? 0 then Ok () else Err (Ext2fs op (from_raw code)).

Definition ffi (op : string) (c : ext2_call) : eM () :=
  fun l => let code := lib l c in (check op code, l ++ [Called c code]).
(** A call that also writes a result. *)
Definition ffi_out (op : string) (c : ext2_call) : eM Z :=
  fun l => let '(r, l') := ffi op c l in (r ≫= fun _ => Ok (out l c), l').
(** A call without a status. *)
Definition ffi_void (c : ext2_call) : eM () := fun l => (Ok (), l ++ [Called c (lib l c)]).
Definition on_host (c : host_call) : eM () :=
  fun l => let r := host l c in (map_err ExtIo r, l ++ [Hosted c (is_ok r)]).

(** [Drop for Filesystem]: the status of the close is ignored. *)
Definition drop_fs (fs : Z) (l : list ext2_event) : list ext2_event := l ++ [Called (CloseImage fs) (lib l (CloseImage fs))].

(** The handle is dropped when [m] ends, and when [m] fails before handing it on. *)
Definition dropping {A} (fs : Z) (m : eM A) : eM A := fun l => let '(r, l') := m l in (r, drop_fs fs l').
Definition or_drop {A} (fs : Z) (m : eM A) : eM A :=
  fun l => match m l with (Ok a, l') => (Ok a, l') | (Err e, l') => (Err e, drop_fs fs l') end.

Definition blocks_of (size_bytes : Z) (opts : CreateOptions) : Z := size_bytes / block_bytes (co_block_size opts).
Definition reserved_of (size_bytes : Z) (opts : CreateOptions) : Z :=
  u64 (blocks_of size_bytes opts * co_reserved_ratio opts) / 100.

Definition new_super (size_bytes : Z) (opts : CreateOptions) : super_block :=
  let blocks := blocks_of size_bytes opts in
  let reserved := reserved_of size_bytes opts in
  mkSuper (u32 blocks) (u32 (Z.shiftr blocks 32)) (block_log (co_block_size opts)) EXT2_DYNAMIC_REV
    (u32 reserved) (u32 (Z.shiftr reserved 32)).

Definition create (path : string) (size_bytes : Z) (opts : CreateOptions) : eM Z :=
  match parent_text path with Some parent => on_host (HostMkdirAll parent) | None => mret () end ≫= fun _ =>
  on_host (HostTruncate path) ≫= fun _ =>
  on_host (HostSetLen path size_bytes) ≫= fun _ =>
  c_path ← e_pure (to_cstring path);
  fs ← ffi_out "ext2fs_initialize" (Initialize c_path EXT2_FLAG_EXCLUSIVE (new_super size_bytes opts));
  or_drop fs (
    ffi "ext2fs_allocate_tables" (AllocateTables fs) ≫= fun _ =>
    ffi "ext2fs_mkdir(root)" (MkdirRoot fs EXT2_ROOT_INO EXT2_ROOT_INO) ≫= fun _ =>
    mret fs).

Definition open (path : string) : eM Z :=
  c_path ← e_pure (to_cstring path);
  fs ← ffi_out "ext2fs_open" (OpenImage c_path EXT2_FLAG_RW);
  or_drop fs (ffi "ext2fs_read_bitmaps" (ReadBitmaps fs) ≫= fun _ => mret fs).

Definition populate (fs : Z) (source_dir : string) : eM () :=
  c_src ← e_pure (to_cstring source_dir);
  ffi "populate_fs" (PopulateFs fs EXT2_ROOT_INO c_src EXT2_ROOT_INO).

Definition flush (fs : Z) : eM () := ffi "ext2fs_flush" (Flush fs).

Definition write_file (fs : Z) (host_path guest_path : string) : eM () :=
  c_host ← e_pure (to_cstring host_path);
  c_guest ← e_pure (str_to_cstring guest_path);
  ffi "do_write_internal" (DoWrite fs EXT2_ROOT_INO c_host c_guest 0 EXT2_ROOT_INO).

Definition mkdir (fs : Z) (name : string) : eM () :=
  c_name ← e_pure (str_to_cstring name);
  ffi "do_mkdir_internal" (DoMkdir fs EXT2_ROOT_INO c_name 0 EXT2_ROOT_INO).

(** One component: a directory that exists already is fine. *)
Definition mkdir_step (fs : Z) (prefix : string) : eM () :=
  fun l => match mkdir fs prefix l with
           | (Err (Ext2fs _ DirExists), l') => (Ok (), l')
           | rl => rl
           end.

Fixpoint mkdir_p_loop (fs : Z) (prefix : string) (components : list string) : eM () :=
  match components with
  | [] => mret ()
  | component :: r =>
    if bool_decide (component = ""%string) then mkdir_p_loop fs prefix r
    else
      let prefix := (if bool_decide (prefix = ""%string) then prefix else prefix +:+ "/") +:+ component in
      mkdir_step fs prefix ≫= fun _ => mkdir_p_loop fs prefix r
  end.

Definition mkdir_p (fs : Z) (name : string) : eM () := mkdir_p_loop fs "" (split_on "/" name).

Definition symlink (fs : Z) (name target : string) : eM () :=
  c_name ← e_pure (str_to_cstring name);
  c_target ← e_pure (str_to_cstring target);
  ffi "do_symlink_internal" (DoSymlink fs EXT2_ROOT_INO c_name c_target EXT2_ROOT_INO).

Definition super_blocks (s : super_block) : Z := Z.lor (s_blocks_count s) (Z.shiftl (s_blocks_count_hi s) 32).

Definition add_journal (fs : Z) : eM () := fun l =>
  let journal_blocks := default_journal_size (super_blocks (super_of l fs)) in
  if journal_blocks <=? 0 then (Err (ExtIo EkInvalidData), l)
  else ffi "ext2fs_add_journal_inode" (AddJournalInode fs (u32 journal_blocks) 0) l.

Definition link (fs dir : Z) (name : string) (ino : Z) (file_type : FileType) : eM () :=
  c_name ← e_pure (str_to_cstring name);
  ffi "ext2fs_link" (LinkInode fs dir c_name ino (file_type_number file_type)).

Definition namei (fs : Z) (path : string) : eM Z :=
  c_path ← e_pure (str_to_cstring path);
  ffi_out "ext2fs_namei" (Namei fs EXT2_ROOT_INO EXT2_ROOT_INO c_path).

Definition read_inode (fs ino : Z) : eM ext2_inode := fun l =>
  let '(r, l') := ffi "ext2fs_read_inode" (ReadInode fs ino) l in (r ≫= fun _ => Ok (out_inode l ino), l').

Definition write_inode (fs ino : Z) (inode : ext2_inode) : eM () := ffi "ext2fs_write_inode" (WriteInode fs ino).
Definition write_new_inode (fs ino : Z) (inode : ext2_inode) : eM () := ffi "ext2fs_write_new_inode" (WriteNewInode fs ino).

Definition alloc_inode (fs dir mode : Z) : eM Z :=
  ino ← ffi_out "ext2fs_new_inode" (NewInode fs dir mode);
  let is_dir := if Z.land mode 0x4000 =? 0 then 0 else 1 in
  ffi_void (InodeAllocStats fs ino 1 is_dir) ≫= fun _ => mret ino.

Definition alloc_block (fs goal : Z) : eM Z :=
  blk ← ffi_out "ext2fs_new_block2" (NewBlock fs goal);
  ffi_void (BlockAllocStats fs blk 1) ≫= fun _ => mret blk.

Record Ext4Builder : Type := mkBuilder { eb_opts : CreateOptions; eb_journal : bool }.
Definition new_builder : Ext4Builder := mkBuilder (mkCreateOptions B4096 0) true.
Definition block_size (size : BlockSize) (b : Ext4Builder) : Ext4Builder :=
  mkBuilder (mkCreateOptions size (co_reserved_ratio (eb_opts b))) (eb_journal b).
Definition reserved_ratio (pct : Z) (b : Ext4Builder) : Ext4Builder :=
  mkBuilder (mkCreateOptions (co_block_size (eb_opts b)) pct) (eb_journal b).
Definition with_journal (enabled : bool) (b : Ext4Builder) : Ext4Builder := mkBuilder (eb_opts b) enabled.

Definition build_from_dir (b : Ext4Builder) (source_dir output : string) (size_bytes : Z) : eM () :=
  fs ← create output size_bytes (eb_opts b);
  dropping fs (
    (if eb_journal b then add_journal fs else mret ()) ≫= fun _ =>
    populate fs source_dir).

Definition create_from_dir (source_dir output : string) (size_bytes : Z) : eM () :=
  build_from_dir new_builder source_dir output size_bytes.

Definition inject_file (image host_file guest_path : string) : eM () :=
  fs ← open image;
  dropping fs (
    match parent_text guest_path with
    | Some parent => if bool_decide (parent = ""%string) then mret () else mkdir_p fs parent
    | None => mret ()
    end ≫= fun _ =>
    write_file fs host_file guest_path).
End Library.

(** ** The estimate *)

Inductive host_node : Type :=
  | Unreadable (k : io_kind)
  | HostFile (len : Z)
  | HostLink (len : Z)
  | HostSpecial
  | HostDir (opened : result io_kind ()) (listing : list host_node).

Definition grow (total count : Z) (bytes : Z) : Z * Z := (u64 (total + bytes), u64 (count + 1)).

(** [walk] with the closure of [estimate_image_size], its two counters threaded. *)
Fixpoint walk_entry (n : host_node) (acc : Z * Z) : result ext4_error (Z * Z) :=
  let '(total_bytes, inode_count) := acc in
  match n with
  | Unreadable k => Err (ExtIo k)
  | HostFile len => Ok (grow total_bytes inode_count (Z.land (u64 (len + 4095)) (Z.lnot 4095)))
  | HostLink len => Ok (grow total_bytes inode_count (if 60 <? len then 4096 else 0))
  | HostSpecial => Ok (grow total_bytes inode_count 0)
  | HostDir opened listing =>
    match opened with
    | Err k => Err (ExtIo k)
    | Ok _ => foldM (fun a m => walk_entry m a) (grow total_bytes inode_count 4096) listing
    end
  end.

Definition walk (opened : result io_kind ()) (listing : list host_node) : result ext4_error (Z * Z) :=
  match opened with
  | Err k => Err (ExtIo k)
  | Ok _ => foldM (fun a m => walk_entry m a) (0, 0) listing
  end.

Definition estimate_image_size (opened : result io_kind ()) (listing : list host_node) : result ext4_error Z :=
  '(total_bytes, inode_count) ← walk opened listing;
  let raw := u64 (total_bytes + u64 (inode_count * 256)) in
  let sized := u64 (u64 (raw * 11) / 10 + 64 * 1024 * 1024) in
  Ok (Z.max sized (256 * 1024 * 1024)).

(** ** The handle is released *)

Definition handle_of (c : ext2_call) : option Z :=
  match c with
  | Initialize _ _ _ | OpenImage _ _ => None
  | AllocateTables fs | MkdirRoot fs _ _ | ReadBitmaps fs | PopulateFs fs _ _ _ | Flush fs | DoWrite fs _ _ _ _ _
  | DoMkdir fs _ _ _ _ | DoSymlink fs _ _ _ _ | AddJournalInode fs _ _ | LinkInode fs _ _ _ _ | Namei fs _ _ _
  | ReadInode fs _ | WriteInode fs _ | WriteNewInode fs _ | NewInode fs _ _ | InodeAllocStats fs _ _ _
  | NewBlock fs _ | BlockAllocStats fs _ _ | CloseImage fs => Some fs
  end.
Definition is_close (c : ext2_call) : Prop := match c with CloseImage _ => True | _ => False end.

(** A call on the handle that does not close it; an event without an open handle. *)
Definition on_handle (fs : Z) (e : ext2_event) : Prop :=
  match e with Called c _ => handle_of c = Some fs /\ ~ is_close c | Hosted _ _ => False end.
Definition before_open (e : ext2_event) : Prop :=
  match e with Called c code => handle_of c = None /\ code <> 0 | Hosted _ _ => True end.

Section Released.
Context (lib : list ext2_event -> ext2_call -> Z) (out : list ext2_event -> ext2_call -> Z)
  (super_of : list ext2_event -> Z -> super_block) (default_journal_size : Z -> Z)
  (host : list ext2_event -> host_call -> result io_kind ()).

(** What was asked after [l]: no handle was opened, or one was, at [c], and every
    later call is on it and the last one closes it. *)
Definition released (l es : list ext2_event) : Prop :=
  Forall before_open es
  \/ exists pre c mid code, es = pre ++ [Called c 0] ++ mid ++ [Called (CloseImage (out (l ++ pre) c)) code]
       /\ Forall before_open pre /\ handle_of c = None /\ Forall (on_handle (out (l ++ pre) c)) mid.

Definition adds {A} (m : eM A) (P : ext2_event -> Prop) : Prop := forall l, exists es, (m l).2 = l ++ es /\ Forall P es.

Lemma adds_ret {A} (a : A) P : adds (mret a) P.
Proof. intros l. exists []. by rewrite app_nil_r. Qed.

Lemma adds_pure {A} (r : result ext4_error A) P : adds (e_pure r) P.
Proof. intros l. exists []. by rewrite app_nil_r. Qed.

Lemma adds_bind {A B} (m : eM A) (f : A -> eM B) P : adds m P -> (forall a, adds (f a) P) -> adds (m ≫= f) P.
Proof.
  intros Hm Hf l. destruct (Hm l) as (e1 & E1 & H1). unfold mbind, eM_bind. destruct (m l) as [[a|e] l1]; cbn in E1; subst l1.
  - destruct (Hf a (l ++ e1)) as (e2 & E2 & H2). exists (e1 ++ e2). rewrite E2, app_assoc. by rewrite Forall_app.
  - by exists e1.
Qed.

Lemma adds_ffi op c fs : handle_of c = Some fs -> ~ is_close c -> adds (ffi lib op c) (on_handle fs).
Proof. intros Hc Hn l. exists [Called c (lib l c)]. split; [done|]. by constructor. Qed.

Lemma adds_host c : adds (on_host host c) before_open.
Proof. intros l. eexists. split; [done|]. by repeat constructor. Qed.

Lemma adds_mkdir fs name : adds (mkdir lib fs name) (on_handle fs).
Proof. unfold mkdir. apply adds_bind; [apply adds_pure|]. intros c. by apply adds_ffi; [|intros []]. Qed.

Lemma mkdir_step_log fs p l : (mkdir_step lib fs p l).2 = (mkdir lib fs p l).2.
Proof. unfold mkdir_step. by destruct (mkdir lib fs p l) as [[?|[? []|?|?]] ?]. Qed.

Lemma adds_mkdir_p fs name : adds (mkdir_p lib fs name) (on_handle fs).
Proof.
  unfold mkdir_p. generalize ""%string as prefix. induction (split_on "/" name) as [|c r IH]; intros prefix; [apply adds_ret|].
  cbn [mkdir_p_loop]. case_bool_decide; [apply IH|]. apply adds_bind; [|intros; apply IH].
  intros l. rewrite mkdir_step_log. apply adds_mkdir.
Qed.

Lemma adds_write_file fs h g : adds (write_file lib fs h g) (on_handle fs).
Proof. unfold write_file. apply adds_bind; [apply adds_pure|]. intros c. apply adds_bind; [apply adds_pure|]. intros d. by apply adds_ffi; [|intros []]. Qed.

Lemma adds_populate fs d : adds (populate lib fs d) (on_handle fs).
Proof. unfold populate. apply adds_bind; [apply adds_pure|]. intros c. by apply adds_ffi; [|intros []]. Qed.

Lemma adds_add_journal fs : adds (add_journal lib super_of default_journal_size fs) (on_handle fs).
Proof.
  intros l. unfold add_journal. destruct (_ <=? 0); [exists []; by rewrite app_nil_r|]. by apply adds_ffi; [|intros []].
Qed.

Lemma eM_assoc {A B C} (m : eM A) (f : A -> eM B) (g : B -> eM C) l : ((m ≫= f) ≫= g) l = (m ≫= fun a => f a ≫= g) l.
Proof. unfold mbind, eM_bind. by destruct (m l) as [[]]. Qed.

Lemma eM_ext {A B} (m : eM A) (f g : A -> eM B) l : (forall a l, f a l = g a l) -> (m ≫= f) l = (m ≫= g) l.
Proof. intros H. unfold mbind, eM_bind. destruct (m l) as [[a|e] l']; [apply H|done]. Qed.

Lemma eM_bind_ok {A B} (m : eM A) (f : A -> eM B) l a l' : m l = (Ok a, l') -> (m ≫= f) l = f a l'.
Proof. intros E. unfold mbind, eM_bind. by rewrite E. Qed.

Lemma eM_bind_err {A B} (m : eM A) (f : A -> eM B) l e l' : m l = (Err e, l') -> (m ≫= f) l = (Err e, l').
Proof. intros E. unfold mbind, eM_bind. by rewrite E. Qed.

(** The handle is dropped where its setup fails, or after what its user does. *)
Lemma owned_then_dropped {A} fs (setup : eM ()) (use : Z -> eM A) l :
  adds setup (on_handle fs) -> adds (use fs) (on_handle fs) ->
  exists mid code,
    ((or_drop lib fs (setup ≫= fun _ => mret fs) ≫= fun fs => dropping lib fs (use fs)) l).2 = l ++ mid ++ [Called (CloseImage fs) code]
    /\ Forall (on_handle fs) mid.
Proof.
  intros Hs Hu. destruct (Hs l) as (m1 & E1 & H1). unfold mbind, eM_bind, or_drop, mret, eM_ret.
  destruct (setup l) as [[[]|e] l1]; cbn in E1; subst l1.
  - unfold dropping. destruct (Hu (l ++ m1)) as (m2 & E2 & H2). destruct (use fs (l ++ m1)) as [r l2]; cbn in E2 |- *; subst l2.
    exists (m1 ++ m2). eexists. unfold drop_fs. split; [by rewrite <- !app_assoc|]. by rewrite Forall_app.
  - exists m1. eexists. unfold drop_fs. split; [by rewrite <- app_assoc|done].
Qed.

(** What precedes the handle, the call [c] that gives it, its setup and its use. *)
Lemma acquire_released {A} (before : eM string) (c : string -> ext2_call) op (setup : Z -> eM ()) (use : Z -> eM A) l :
  adds before before_open -> (forall s, handle_of (c s) = None) ->
  (forall fs, adds (setup fs) (on_handle fs)) -> (forall fs, adds (use fs) (on_handle fs)) ->
  exists es, (((before ≫= fun s => ffi_out lib out op (c s) ≫= fun fs => or_drop lib fs (setup fs ≫= fun _ => mret fs)) ≫=
               fun fs => dropping lib fs (use fs)) l).2 = l ++ es /\ released l es.
Proof.
  intros Hb Hc Hs Hu. rewrite eM_assoc. destruct (Hb l) as (pre & E & Hpre).
  destruct (before l) as [[s|e] l1] eqn:Eb; cbn in E; subst l1.
  2: { rewrite (eM_bind_err _ _ _ _ _ Eb). exists pre. split; [done|]. by left. }
  rewrite (eM_bind_ok _ _ _ _ _ Eb), eM_assoc. set (call := Called (c s) (lib (l ++ pre) (c s))).
  destruct (lib (l ++ pre) (c s) =? 0) eqn:Ez.
  - rewrite (eM_bind_ok _ _ _ (out (l ++ pre) (c s)) ((l ++ pre) ++ [call])) by (unfold ffi_out, ffi, check; by rewrite Ez).
    destruct (owned_then_dropped (out (l ++ pre) (c s)) (setup (out (l ++ pre) (c s))) use ((l ++ pre) ++ [call]) (Hs _) (Hu _)) as (mid & code & E & Hm).
    apply Z.eqb_eq in Ez. unfold call in E. rewrite Ez in E.
    exists (pre ++ [Called (c s) 0] ++ mid ++ [Called (CloseImage (out (l ++ pre) (c s))) code]). unfold call. rewrite Ez.
    split; [etrans; [exact E|by rewrite <- !app_assoc]|]. right. by exists pre, (c s), mid, code.
  - rewrite (eM_bind_err _ _ _ (Ext2fs op (from_raw (lib (l ++ pre) (c s)))) ((l ++ pre) ++ [call])) by (unfold ffi_out, ffi, check; by rewrite Ez).
    exists (pre ++ [call]). split; [cbn; by rewrite <- app_assoc|]. left.
    apply Forall_app. split; [done|]. constructor; [|done]. split; [done|]. by apply Z.eqb_neq in Ez.
Qed.

Lemma build_released b source_dir output size_bytes l :
  exists es, (build_from_dir lib out super_of default_journal_size host b source_dir output size_bytes l).2 = l ++ es /\ released l es.
Proof.
  edestruct (acquire_released
    (match parent_text output with Some parent => on_host host (HostMkdirAll parent) | None => mret () end ≫= fun _ =>
     on_host host (HostTruncate output) ≫= fun _ => on_host host (HostSetLen output size_bytes) ≫= fun _ => e_pure (to_cstring output))
    (fun s => Initialize s EXT2_FLAG_EXCLUSIVE (new_super size_bytes (eb_opts b))) "ext2fs_initialize"
    (fun fs => ffi lib "ext2fs_allocate_tables" (AllocateTables fs) ≫= fun _ => ffi lib "ext2fs_mkdir(root)" (MkdirRoot fs EXT2_ROOT_INO EXT2_ROOT_INO))
    (fun fs => (if eb_journal b then add_journal lib super_of default_journal_size fs else mret ()) ≫= fun _ => populate lib fs source_dir) l)
    as (es & E & H); [..|exists es; split; [|exact H]].
  - apply adds_bind; [destruct (parent_text output); [apply adds_host|apply adds_ret]|]. intros ?. apply adds_bind; [apply adds_host|]. intros ?.
    apply adds_bind; [apply adds_host|]. intros ?. apply adds_pure.
  - done.
  - intros fs. apply adds_bind; intros; by apply adds_ffi; [|intros []].
  - intros fs. apply adds_bind; [destruct (eb_journal b); [apply adds_add_journal|apply adds_ret]|]. intros ?. apply adds_populate.
  - rewrite <- E. f_equal. unfold build_from_dir, create. rewrite !eM_assoc. apply eM_ext. intros [] l1. rewrite !eM_assoc.
    apply eM_ext. intros [] l2. rewrite !eM_assoc. apply eM_ext. intros [] l3. rewrite !eM_assoc. apply eM_ext. intros s l4.
    rewrite !eM_assoc. apply eM_ext. intros fs l5. unfold or_drop, mbind, eM_bind.
    by destruct (ffi lib "ext2fs_allocate_tables" (AllocateTables fs) l5) as [[[]|?] l6].
Qed.

Lemma inject_released image host_file guest_path l :
  exists es, (inject_file lib out image host_file guest_path l).2 = l ++ es /\ released l es.
Proof.
  edestruct (acquire_released (e_pure (to_cstring image)) (fun s => OpenImage s EXT2_FLAG_RW) "ext2fs_open"
    (fun fs => ffi lib "ext2fs_read_bitmaps" (ReadBitmaps fs))
    (fun fs => match parent_text guest_path with
               | Some parent => if bool_decide (parent = ""%string) then mret () else mkdir_p lib fs parent
               | None => mret ()
               end ≫= fun _ => write_file lib fs host_file guest_path) l) as (es & E & H); [apply adds_pure|done| | |by exists es].
  - intros fs. by apply adds_ffi; [|intros []].
  - intros fs. apply adds_bind; [|intros; apply adds_write_file]. destruct (parent_text guest_path) as [p|]; [|apply adds_ret].
    case_bool_decide; [apply adds_ret|apply adds_mkdir_p].
Qed.
End Released.

(** ** The injected file is in the image *)

(** The names of a path in the image; [.] is a name like any other here. *)
Definition names (p : string) : list string := filter (fun w => w <> ""%string) (split_on "/" p).

Inductive image_node : Type := ImDir | ImFile (source : string).
Abbreviation tree := (gmap (list string) image_node).

(** The directories above and including [ps ++ cs], from the top. *)
Fixpoint dirs_from (ps cs : list string) : list (list string) :=
  match cs with
  | [] => []
  | c :: r => (ps ++ [c]) :: dirs_from (ps ++ [c]) r
  end.

(** Each of them is made where it is missing. *)
Definition make_missing (t : tree) (p : list string) : tree := match t !! p with Some _ => t | None => <[p := ImDir]> t end.
Definition fill_dirs (ps : list (list string)) (t : tree) : tree := foldl make_missing t ps.

(** What libext2fs documents of the calls [inject_file] makes, on one handle at a
    time: [pending] is the tree the open handle sees, [image] the one in the file.
    Changes are made to the handle and are written to the file by a close
    that succeeds; nothing is said of the file while the handle is open, nor after
    a close that fails. *)
Class Ext2Image (lib : list ext2_event -> ext2_call -> Z) (pending image : list ext2_event -> tree) := {
  image_open : forall l path flags, let c := OpenImage path flags in
    lib l c = 0 -> pending (l ++ [Called c 0]) = image l;
  image_bitmaps : forall l fs, let c := ReadBitmaps fs in pending (l ++ [Called c (lib l c)]) = pending l;
  image_mkdir : forall l fs cwd name mode root,
    let c := DoMkdir fs cwd name mode root in
    (lib l c = 0 -> pending l !! names name = None /\ pending (l ++ [Called c 0]) = <[names name := ImDir]> (pending l))
    /\ (from_raw (lib l c) = DirExists -> is_Some (pending l !! names name) /\ pending (l ++ [Called c (lib l c)]) = pending l);
  image_write : forall l fs cwd source dest offset root,
    let c := DoWrite fs cwd source dest offset root in
    lib l c = 0 -> pending (l ++ [Called c 0]) = <[names dest := ImFile source]> (pending l);
  image_close : forall l fs, let c := CloseImage fs in lib l c = 0 -> image (l ++ [Called c 0]) = pending l
}.

Lemma names_slash p c : str_contains_char "/" c = false -> c <> ""%string -> names (p +:+ String "/" c) = names p ++ [c].
Proof. intros Hc Hn. unfold names. rewrite split_on_app, filter_app, (split_on_whole _ _ Hc), filter_cons_True by done. done. Qed.

Lemma slash_app p c : (p +:+ "/") +:+ c = p +:+ String "/" c.
Proof. induction p as [|a p IH]; [done|]. change (String a ((p +:+ "/") +:+ c) = String a (p +:+ String "/" c)). by rewrite IH. Qed.

Lemma names_one c : str_contains_char "/" c = false -> c <> ""%string -> names c = [c].
Proof. intros Hc Hn. unfold names. rewrite (split_on_whole _ _ Hc), filter_cons_True by done. done. Qed.

(** *** The parent's names *)

Abbreviation real := (fun w : string => w <> ""%string).

Lemma filter_rev (l : list string) : filter real (rev l) = rev (filter real l).
Proof.
  induction l as [|a l IH]; [done|]. cbn [rev]. rewrite filter_app, IH. destruct (decide (real a)) as [H|H].
  - by rewrite !filter_cons_True.
  - rewrite !filter_cons_False by done. by rewrite app_nil_r.
Qed.

Lemma skip_dots_filter l : Forall (fun w => w <> "."%string) l -> filter real (skip_dots l) = filter real l.
Proof.
  induction 1 as [|a l Ha Hl IH]; [done|]. cbn [skip_dots]. rewrite (bool_decide_eq_false_2 _ Ha), orb_false_r. case_bool_decide; [|done].
  rewrite filter_cons_False by (intros Hn; by apply Hn). done.
Qed.

Lemma skip_dots_head l a r : skip_dots l = a :: r -> real a /\ a :: r `suffix_of` l.
Proof.
  induction l as [|b l IH]; cbn [skip_dots]; [done|]. repeat case_bool_decide; cbn [orb]; intros E;
    try (destruct (IH E) as [? ?]; split; [done|by apply suffix_cons_r]). by injection E as -> ->.
Qed.

Lemma names_concat parts : Forall (fun c => str_contains_char "/" c = false) parts -> names (String.concat "/" parts) = filter real parts.
Proof. intros H. destruct parts as [|a l]; [done|]. unfold names. by rewrite split_on_concat. Qed.

(** Taking off the last real part of [parts]. *)
Lemma cut_last parts : Forall (fun c => str_contains_char "/" c = false) parts -> Forall (fun w => w <> "."%string) parts ->
  filter real parts <> [] ->
  exists a r, skip_dots (rev parts) = a :: r /\ Forall (fun c => str_contains_char "/" c = false) (rev (skip_dots r))
    /\ filter real (rev (skip_dots r)) = removelast (filter real parts).
Proof.
  intros Hc Hd Hne. assert (Hd' : Forall (fun w => w <> "."%string) (rev parts)) by (apply Forall_rev; exact Hd).
  pose proof (skip_dots_filter _ Hd') as Ef. rewrite filter_rev in Ef.
  destruct (skip_dots (rev parts)) as [|a r] eqn:Es.
  { destruct Hne. rewrite <- (rev_involutive (filter real parts)), <- Ef. done. }
  destruct (skip_dots_head _ _ _ Es) as [Ha [k Hk]]. exists a, r. split; [done|].
  assert (Hr : forall P : string -> Prop, Forall P parts -> Forall P r).
  { intros P HP. assert (H' : Forall P (rev parts)) by (by apply Forall_rev). rewrite Hk in H'. by apply Forall_app in H' as [_ [_ ?]%Forall_cons]. }
  split.
  - apply Forall_rev. assert (Hs : forall P : string -> Prop, forall l, Forall P l -> Forall P (skip_dots l)).
    { intros P l. induction 1 as [|x l Hx Hl IH]; cbn [skip_dots]; [done|]. by case_match; [|constructor]. }
    by apply Hs, Hr.
  - rewrite filter_rev, skip_dots_filter by (by apply Hr). rewrite filter_cons_True in Ef by done.
    rewrite <- (rev_involutive (filter real parts)), <- Ef. cbn [rev]. by rewrite removelast_last.
Qed.

Lemma parent_names g : Forall (fun w => w <> "."%string) (split_on "/" g) -> names g <> [] ->
  exists p, parent_text g = Some p /\ names p = removelast (names g).
Proof.
  intros Hd Hn. assert (Hc : Forall (fun c => str_contains_char "/" c = false) (split_on "/" g)).
  { apply Forall_forall. intros w. apply split_on_no_sep. }
  assert (En : names g = filter real (split_on "/" g)) by done. rewrite En in Hn |- *. clear En. unfold parent_text.
  destruct (split_on "/" g) as [|w body]; [done|].
  assert (Hcase : w = ""%string \/ w <> ""%string) by (destruct (decide (w = ""%string)); auto).
  destruct Hcase as [->|Hw].
  - apply Forall_cons in Hc as [_ Hc], Hd as [_ Hd]. rewrite filter_cons_False in Hn |- * by (intros Hx; by apply Hx).
    destruct (cut_last body Hc Hd Hn) as (a & r & Es & Hr & Er). rewrite Es. rewrite bool_decide_eq_false_2 by (by intros ->).
    eexists. split; [done|]. rewrite <- Er, <- names_concat by done.
    change (glue "/" ?l) with (""%string +:+ String "/" (String.concat "/" l)). unfold names at 1. by rewrite split_on_app.
  - destruct (cut_last (w :: body) Hc Hd Hn) as (a & r & Es & Hr & Er).
    exists (glue "" (rev (skip_dots r))). split; [|by rewrite <- Er, <- names_concat].
    rewrite Es. apply Forall_cons in Hd as [Hd _]. destruct w as [|[[] [] [] [] [] [] [] []] [|]]; done.
Qed.

Section Inject.
Context (lib : list ext2_event -> ext2_call -> Z) (out : list ext2_event -> ext2_call -> Z) (pending image : list ext2_event -> tree).
Context `{!Ext2Image lib pending image}.

Lemma ffi_Ok op c l l' : ffi lib op c l = (Ok (), l') -> lib l c = 0 /\ l' = l ++ [Called c 0].
Proof. unfold ffi, check. destruct (lib l c =? 0) eqn:E; intros [=]. apply Z.eqb_eq in E. by rewrite E in *. Qed.

Lemma e_pure_bind_Ok {A B} (r : result ext4_error A) (f : A -> eM B) l b l' :
  (e_pure r ≫= f) l = (Ok b, l') -> exists a, r = Ok a /\ f a l = (Ok b, l').
Proof. unfold e_pure, mbind, eM_bind. destruct r; [eauto|done]. Qed.

Lemma eM_bind_Ok {A B} (m : eM A) (f : A -> eM B) l b l' :
  (m ≫= f) l = (Ok b, l') -> exists a l1, m l = (Ok a, l1) /\ f a l1 = (Ok b, l').
Proof. unfold mbind, eM_bind. destruct (m l) as [[a|e] l1]; [eauto|done]. Qed.

Lemma cstring_Ok s c : str_to_cstring s = Ok c -> c = s.
Proof. unfold str_to_cstring. by destruct (str_contains_char _ s); intros [=]. Qed.

Lemma path_cstring_Ok s c : to_cstring s = Ok c -> c = s.
Proof. unfold to_cstring. destruct (utf8_valid _); [apply cstring_Ok|done]. Qed.

Lemma mkdir_step_fills fs p l l' : mkdir_step lib fs p l = (Ok (), l') -> pending l' = make_missing (pending l) (names p).
Proof.
  unfold mkdir_step, mkdir, e_pure, mbind, eM_bind. destruct (str_to_cstring p) as [c|e] eqn:Ec.
  2: { unfold str_to_cstring in Ec. destruct (str_contains_char _ p); [|done]. injection Ec as <-. done. }
  apply cstring_Ok in Ec as ->. unfold ffi, check.
  destruct (image_mkdir l fs EXT2_ROOT_INO p 0 EXT2_ROOT_INO) as [H0 HE]. unfold make_missing.
  destruct (_ =? 0) eqn:Ez.
  - intros [= <-]. apply Z.eqb_eq in Ez. rewrite Ez. destruct (H0 Ez) as [-> ->]. done.
  - destruct (from_raw _) eqn:Er; try done. intros [= <-]. destruct (HE eq_refl) as [[x ->] ->]. done.
Qed.

Lemma mkdir_p_loop_fills fs cs prefix l l' :
  Forall (fun c => str_contains_char "/" c = false) cs ->
  mkdir_p_loop lib fs prefix cs l = (Ok (), l') -> pending l' = fill_dirs (dirs_from (names prefix) (filter (fun w => w <> ""%string) cs)) (pending l).
Proof.
  intros Hcs. revert prefix l. induction Hcs as [|c cs Hc _ IH]; intros prefix l H; [by injection H as <-|].
  cbn [mkdir_p_loop] in H. case_bool_decide as He.
  - rewrite filter_cons_False by (intros Hn; by apply Hn). by apply IH.
  - apply eM_bind_Ok in H as ([] & l1 & H1 & H2). apply mkdir_step_fills in H1. apply IH in H2.
    rewrite filter_cons_True by done. cbn [dirs_from]. rewrite H2, H1.
    assert (En : names ((if bool_decide (prefix = ""%string) then prefix else prefix +:+ "/") +:+ c) = names prefix ++ [c]).
    { case_bool_decide as Hp; [subst prefix; by apply names_one|]. rewrite slash_app. by apply names_slash. }
    by rewrite En.
Qed.

Lemma mkdir_p_fills fs name l l' :
  mkdir_p lib fs name l = (Ok (), l') -> pending l' = fill_dirs (dirs_from [] (names name)) (pending l).
Proof.
  apply (mkdir_p_loop_fills fs (split_on "/" name) ""). apply Forall_forall. intros w. apply split_on_no_sep.
Qed.

Lemma inject_file_ok image_path host_file guest_path l l' :
  Forall (fun w => w <> "."%string) (split_on "/" guest_path) -> names guest_path <> [] ->
  inject_file lib out image_path host_file guest_path l = (Ok (), l') ->
  exists fs code, last l' = Some (Called (CloseImage fs) code)
    /\ (code = 0 -> image l' = <[names guest_path := ImFile host_file]> (fill_dirs (dirs_from [] (removelast (names guest_path))) (image l))).
Proof.
  intros Hd Hn H. destruct (parent_names guest_path Hd Hn) as (parent & Ep & En).
  unfold inject_file in H. rewrite Ep in H. apply eM_bind_Ok in H as (fs & l1 & Ho & H).
  assert (E1 : pending l1 = image l).
  { unfold open in Ho. apply e_pure_bind_Ok in Ho as (c & _ & Ho). unfold ffi_out, ffi, check, or_drop, mbind, eM_bind, result_bind in Ho.
    destruct (lib l _ =? 0) eqn:E0; [|done]. apply Z.eqb_eq in E0. rewrite E0 in Ho. cbn in Ho. destruct (lib (_ ++ _) _ =? 0); [|done].
    injection Ho as _ <-. by rewrite image_bitmaps, image_open. }
  unfold dropping in H. match type of H with (let '(_, _) := ?m in _) = _ => destruct m as [r l2] eqn:E2 end.
  injection H as -> <-. unfold drop_fs. exists fs, (lib l2 (CloseImage fs)). split; [apply last_snoc|]. intros Hc. rewrite Hc, image_close by done.
  apply eM_bind_Ok in E2 as ([] & l3 & Hm & Hw).
  assert (E3 : pending l3 = fill_dirs (dirs_from [] (names parent)) (pending l1)).
  { case_bool_decide as Hp; [|by apply mkdir_p_fills in Hm]. injection Hm as <-. by subst parent. }
  unfold write_file in Hw. apply e_pure_bind_Ok in Hw as (c1 & H1%path_cstring_Ok & Hw).
  apply e_pure_bind_Ok in Hw as (c2 & H2%cstring_Ok & Hw). subst c1 c2. apply ffi_Ok in Hw as [Hz ->].
  rewrite (image_write l3 _ _ _ _ _ _ Hz), E3, E1, En. done.
Qed.
End Inject.

(** ** The superblock's counts *)

Lemma split_join x : 0 <= x < 2^64 -> Z.lor (u32 x) (Z.shiftl (u32 (Z.shiftr x 32)) 32) = x.
Proof.
  intros Hx. unfold u32. rewrite (Z.mod_small (Z.shiftr x 32)) by (rewrite Z.shiftr_div_pow2 by lia; split; [apply Z.div_pos|apply Z.div_lt_upper_bound]; lia).
  apply Z.bits_inj'. intros n Hn. rewrite Z.lor_spec, Z.shiftl_spec by lia. destruct (Z.lt_ge_cases n 32).
  - rewrite Z.mod_pow2_bits_low by lia. rewrite (Z.testbit_neg_r _ (n - 32)) by lia. by rewrite orb_false_r.
  - rewrite Z.mod_pow2_bits_high by lia. rewrite Z.shiftr_spec by lia. cbn. f_equal. lia.
Qed.

Lemma block_bytes_at_least b : 1024 <= block_bytes b.
Proof. by destruct b. Qed.

Lemma blocks_bounds size opts : 0 <= size < 2^64 -> 0 <= blocks_of size opts < 2^54.
Proof.
  intros H. unfold blocks_of. pose proof (block_bytes_at_least (co_block_size opts)). split; [apply Z.div_pos; lia|].
  apply Z.div_lt_upper_bound; lia.
Qed.

Lemma reserved_exact size opts : 0 <= size < 2^64 -> 0 <= co_reserved_ratio opts < 256 ->
  reserved_of size opts = blocks_of size opts * co_reserved_ratio opts / 100 /\ 0 <= reserved_of size opts < 2^64.
Proof.
  intros Hs Hr. pose proof (blocks_bounds size opts Hs). unfold reserved_of. rewrite u64_id by nia. split; [done|].
  split; [apply Z.div_pos; nia|]. apply Z.div_lt_upper_bound; nia.
Qed.

(** ** The reference estimate *)

Fixpoint content (n : host_node) : Z :=
  match n with
  | HostFile len => (len + 4095) / 4096 * 4096
  | HostLink len => if 60 <? len then 4096 else 0
  | HostDir _ l => 4096 + foldr (fun m acc => content m + acc) 0 l
  | _ => 0
  end.

Fixpoint entries (n : host_node) : Z :=
  match n with HostDir _ l => 1 + foldr (fun m acc => entries m + acc) 0 l | _ => 1 end.

(** Every entry can be read and no file is longer than the kernel allows. *)
Fixpoint readable (n : host_node) : bool :=
  match n with
  | Unreadable _ => false
  | HostFile len => (0 <=? len) && (len <? 2^63)
  | HostDir opened l => is_ok opened && forallb readable l
  | _ => true
  end.

Definition total (f : host_node -> Z) (l : list host_node) : Z := foldr (fun m acc => f m + acc) 0 l.

Fixpoint host_node_all (P : host_node -> Prop) (HU : forall k, P (Unreadable k)) (HF : forall n, P (HostFile n)) (HL : forall n, P (HostLink n))
  (HS : P HostSpecial) (HD : forall o l, Forall P l -> P (HostDir o l)) (n : host_node) : P n :=
  match n with
  | Unreadable k => HU k | HostFile n => HF n | HostLink n => HL n | HostSpecial => HS
  | HostDir o l => HD o l ((fix all l := match l return Forall P l with [] => Forall_nil_2 _ | m :: r => Forall_cons_2 _ _ _ (host_node_all P HU HF HL HS HD m) (all r) end) l)
  end.

Lemma round_up len : 0 <= len < 2^63 -> Z.land (u64 (len + 4095)) (Z.lnot 4095) = (len + 4095) / 4096 * 4096.
Proof.
  intros H. rewrite u64_id by lia. rewrite <- Z.ldiff_land. change 4095 with (Z.ones 12) at 2. rewrite Z.ldiff_ones_r by lia.
  rewrite Z.shiftl_mul_pow2, Z.shiftr_div_pow2 by lia. done.
Qed.

Lemma grow_u64 t c b : grow (u64 t) (u64 c) b = (u64 (t + b), u64 (c + 1)).
Proof. unfold grow, u64. by rewrite !Zplus_mod_idemp_l. Qed.

Lemma fold_walk l : Forall (fun n => readable n = true -> forall t c, walk_entry n (u64 t, u64 c) = Ok (u64 (t + content n), u64 (c + entries n))) l ->
  forallb readable l = true -> forall t c, foldM (fun a m => walk_entry m a) (u64 t, u64 c) l = Ok (u64 (t + total content l), u64 (c + total entries l)).
Proof.
  induction 1 as [|n l Hn Hl IH]; cbn [forallb foldM total foldr]; [intros _ t c; by rewrite !Z.add_0_r|].
  intros [H1 H2]%andb_prop t c. rewrite Hn by done. cbn. rewrite IH by done. unfold total. by rewrite !Z.add_assoc.
Qed.

Lemma walk_entry_counts n : readable n = true -> forall t c, walk_entry n (u64 t, u64 c) = Ok (u64 (t + content n), u64 (c + entries n)).
Proof.
  induction n as [k|len|len| |o l IH] using host_node_all; intros H t c; cbn [readable walk_entry content entries] in *.
  - done.
  - rewrite round_up by lia. by rewrite grow_u64.
  - by rewrite grow_u64.
  - by rewrite grow_u64.
  - apply andb_prop in H as [Ho Hl]. destruct o as [[]|]; [|done]. rewrite grow_u64, (fold_walk l IH Hl). unfold total. by rewrite !Z.add_assoc.
Qed.

Lemma content_entries_nonneg n : readable n = true -> 0 <= content n /\ 1 <= entries n.
Proof.
  induction n as [k|len|len| |o l IH] using host_node_all; cbn; intros H; try done.
  - split; [|done]. assert (0 <= (len + 4095) / 4096) by (apply Z.div_pos; lia). lia.
  - destruct (_ <? _); lia.
  - apply andb_prop in H as [_ H]. enough (0 <= total content l /\ 0 <= total entries l) by (unfold total in *; lia).
    induction IH as [|m r Hm Hr IHr]; [by cbn|]. cbn in H. apply andb_prop in H as [H1 H2]. cbn. specialize (Hm H1). specialize (IHr H2). unfold total in *. lia.
Qed.

Lemma totals_nonneg l : forallb readable l = true -> 0 <= total content l /\ 0 <= total entries l.
Proof.
  intros H. pose proof (content_entries_nonneg (HostDir (Ok ()) l)) as Hc. cbn in Hc.
  induction l as [|m r IH]; [done|]. cbn in H. apply andb_prop in H as [H1 H2]. pose proof (content_entries_nonneg m H1).
  assert (IH' := IH H2 ltac:(intros _; pose proof (content_entries_nonneg (HostDir (Ok ()) r) H2) as Hx; exact Hx)). cbn. unfold total in *. lia.
Qed.

(** ** Properties *)

(** C38.  Building an image and injecting a file release the handle: whatever libext2fs
    and the host answer, at most one handle is opened, every later call is on it,
    it is closed exactly once and nothing is asked after that; without a handle
    nothing is closed. *)
Theorem image_handle_released (lib out : list ext2_event -> ext2_call -> Z) (super_of : list ext2_event -> Z -> super_block)
  (default_journal_size : Z -> Z) (host : list ext2_event -> host_call -> result io_kind ()) (l : list ext2_event) :
  (forall b source_dir output size_bytes, exists es,
     (build_from_dir lib out super_of default_journal_size host b source_dir output size_bytes l).2 = l ++ es /\ released out l es)
  /\ (forall image host_file guest_path, exists es, (inject_file lib out image host_file guest_path l).2 = l ++ es /\ released out l es).
Proof. split; intros; [apply build_released|apply inject_released]. Qed.

(** C37.  An injected file is in the image: when [inject_file] succeeds and the close it
    ends with did too, the image file holds what it held, with the directories
    above the guest path made where they were missing, in order and nothing else,
    and the host's file at the guest path.  The status of that last close is not part of
    [inject_file]'s answer. *)
Theorem inject_file_places (lib out : list ext2_event -> ext2_call -> Z) (pending image : list ext2_event -> tree) `{!Ext2Image lib pending image}
  (image_path host_file guest_path : string) (l l' : list ext2_event) :
  Forall (fun w => w <> "."%string) (split_on "/" guest_path) -> names guest_path <> [] ->
  inject_file lib out image_path host_file guest_path l = (Ok (), l') ->
  exists fs code, last l' = Some (Called (CloseImage fs) code)
    /\ (code = 0 -> image l' = <[names guest_path := ImFile host_file]> (fill_dirs (dirs_from [] (removelast (names guest_path))) (image l))).
Proof. by apply (inject_file_ok lib out pending image). Qed.

(** The superblock carries the image's size: the two 32-bit halves [create] stores
    are read back by [add_journal] as the number of whole blocks, and the reserved
    blocks are the exact percentage, without overflow at any size. *)
Theorem superblock_counts (size : Z) (opts : CreateOptions) :
  0 <= size < 2^64 -> 0 <= co_reserved_ratio opts < 256 ->
  let s := new_super size opts in
  super_blocks s = size / block_bytes (co_block_size opts)
  /\ Z.lor (s_r_blocks_count s) (Z.shiftl (s_r_blocks_count_hi s) 32) = size / block_bytes (co_block_size opts) * co_reserved_ratio opts / 100.
Proof.
  intros Hs Hr. pose proof (blocks_bounds size opts Hs). destruct (reserved_exact size opts Hs Hr) as [E Hb].
  unfold super_blocks, new_super. cbn. rewrite !split_join by lia. by rewrite E.
Qed.

(** The estimate is the reference one: over a tree that can be read it is the blocks of the files,
    directories and long links, 256 bytes for each entry, a tenth more and the
    journal, and at least 256 MiB, as long as that fits; so the image holds its content. *)
Theorem estimate_is_reference (listing : list host_node) :
  forallb readable listing = true -> 11 * (total content listing + 256 * total entries listing) < 2^64 - 2^27 ->
  let need := total content listing + 256 * total entries listing in
  exists size, estimate_image_size (Ok ()) listing = Ok size
    /\ size = Z.max (need * 11 / 10 + 2^26) (2^28) /\ need + 2^26 <= size.
Proof.
  intros H Hb need. destruct (totals_nonneg listing H) as [Hc He]. exists (Z.max (need * 11 / 10 + 2^26) (2^28)).
  unfold estimate_image_size, walk. change (0, 0) with (u64 0, u64 0).
  rewrite (fold_walk listing) by (done || (apply Forall_forall; intros n _; apply walk_entry_counts)). cbn.
  assert (Hn : 0 <= need * 11 / 10 < 2^64 - 2^27) by (split; [apply Z.div_pos; lia|apply Z.div_lt_upper_bound; lia]).
  rewrite !(u64_id (0 + _)) by lia. rewrite !Z.add_0_l, (Z.mul_comm (total entries listing)), (u64_id (256 * _)), (u64_id (total content listing + _)) by lia.
  fold need. rewrite (u64_id (need * 11)), u64_id by lia. split; [done|]. split; [done|].
  assert (need <= need * 11 / 10) by (apply Z.div_le_lower_bound; lia). lia.
Qed.

(** ** A small libext2fs *)

Module Sample.
(** The tree of the handle and the one in the file. *)
Definition apply (t : tree * tree) (e : ext2_event) : tree * tree :=
  match e with
  | Called (OpenImage _ _) 0 => (t.2, t.2)
  | Called (DoMkdir _ _ name _ _) 0 => (<[names name := ImDir]> t.1, t.2)
  | Called (DoWrite _ _ source dest _ _) 0 => (<[names dest := ImFile source]> t.1, t.2)
  | Called (CloseImage _) 0 => (t.1, t.1)
  | _ => t
  end.
Definition trees (l : list ext2_event) : tree * tree := foldl apply (∅, ∅) l.
Definition pending (l : list ext2_event) : tree := (trees l).1.
Definition image (l : list ext2_event) : tree := (trees l).2.
(** [close] is the status of every close. *)
Definition lib (close : Z) (l : list ext2_event) (c : ext2_call) : Z :=
  match c with
  | DoMkdir _ _ name _ _ => match pending l !! names name with Some _ => EXT2_ET_BASE + 79 | None => 0 end
  | CloseImage _ => close
  | _ => 0
  end.
Definition out (_ : list ext2_event) (_ : ext2_call) : Z := 7.

Lemma trees_snoc l e : trees (l ++ [e]) = apply (trees l) e.
Proof. unfold trees. by rewrite foldl_app. Qed.

#[local] Instance lib_laws close : Ext2Image (lib close) pending image.
Proof.
  split; unfold pending, image; intros; cbv zeta in *; try subst c; rewrite ?trees_snoc; try done.
  cbn [lib]. unfold pending. destruct ((trees l).1 !! names name) as [x|] eqn:E; (split; [intros H; try done|intros H; try done]); by rewrite trees_snoc.
Qed.

Definition guest : string := "/usr/bin/bux-guest".
Definition boot_log (close : Z) : list ext2_event := (inject_file (lib close) out "base.raw" "/host/bux-guest" guest []).2.

Example calls : boot_log 0 =
  [Called (OpenImage "base.raw" 1) 0; Called (ReadBitmaps 7) 0; Called (DoMkdir 7 2 "usr" 0 2) 0; Called (DoMkdir 7 2 "usr/bin" 0 2) 0;
   Called (DoWrite 7 2 "/host/bux-guest" guest 0 2) 0; Called (CloseImage 7) 0].
Proof. reflexivity. Qed.

Lemma inject_file_places_witness :
  (inject_file (lib 0) out "base.raw" "/host/bux-guest" guest []).1 = Ok ()
  /\ image (boot_log 0) !! ["usr"; "bin"; "bux-guest"]%string = Some (ImFile "/host/bux-guest") /\ image (boot_log 0) !! ["usr"]%string = Some ImDir.
Proof.
  assert (E0 : inject_file (lib 0) out "base.raw" "/host/bux-guest" guest [] = (Ok (), boot_log 0)) by (vm_compute; reflexivity).
  split; [by rewrite E0|].
  assert (Hd : Forall (fun w => w <> "."%string) (split_on "/" guest)) by (vm_compute; repeat constructor; discriminate).
  assert (Hn : names guest <> []) by (vm_compute; discriminate).
  destruct (inject_file_places (lib 0) out pending image "base.raw" "/host/bux-guest" guest [] (boot_log 0) Hd Hn E0) as (fs & code & Hl & H).
  assert (E : Some (Called (CloseImage 7) 0) = Some (Called (CloseImage fs) code)) by (rewrite <- Hl; vm_compute; reflexivity).
  injection E as <- <-. rewrite H by reflexivity. split; vm_compute; reflexivity.
Defined.

(** A close that fails: the image is as it was, and the caller is told that the file
    was injected. *)
Example lost_close :
  (inject_file (lib 5) out "base.raw" "/host/bux-guest" guest []).1 = Ok () /\ last (boot_log 5) = Some (Called (CloseImage 7) 5) /\ image (boot_log 5) = ∅.
Proof. split; [reflexivity|]. split; reflexivity. Qed.

Lemma superblock_counts_witness :
  super_blocks (new_super (2^45 + 5) (mkCreateOptions B1024 3)) = 2^35.
Proof. apply (superblock_counts (2^45 + 5) (mkCreateOptions B1024 3)); cbn; lia. Defined.

Definition rootfs : list host_node :=
  [HostFile 1; HostLink 7; HostLink 61; HostSpecial; HostDir (Ok ()) [HostFile (2^30); HostFile 0]].

Lemma estimate_is_reference_witness : exists size, estimate_image_size (Ok ()) rootfs = Ok size /\ 2^30 + 2^26 <= size.
Proof.
  destruct (estimate_is_reference rootfs) as (size & E & _ & H); [reflexivity|by vm_compute|].
  exists size. split; [exact E|]. etrans; [|exact H]. by vm_compute.
Defined.

Example unreadable_is_an_error : estimate_image_size (Ok ()) [HostFile 3; HostDir (Err EkOther) []] = Err (ExtIo EkOther).
Proof. reflexivity. Qed.
End Sample.
