(* ===== verification/Upgrade.v ===== *)
(** * [bux upgrade]

    [crates/bux-cli/src/upgrade.rs]: which release is the latest product, and when
    the installer is run.  The JSON library is a parameter with the accessors the
    code uses; what other programs answer depends on the log of the programs run so
    far. *)

From S2P Require Import Prelude Files Paths Ids Ports Text.

Definition INSTALL_SH_URL : string := "https://sh.qntx.org/bux".
Definition REPO : string := "qntx/bux".

Record UpgradeArgs : Type := mkUpgradeArgs { up_check : bool; up_force : bool }.

Inductive PageHit : Type :=
  | Version (v : string)
  | Continue
  | Exhausted.

Inductive upgrade_error : Type :=
  | BadJson
  | NotAnArray
  | PageOverflow
  | NoProductRelease
  | CannotRun (program : string)
  | ProgramFailed (program : string)
  | NotUtf8
  | NeedsDownloader
  | NoExecutable.

Inductive upgrade_message : Type :=
  | IsAvailable (latest : string)
  | IsUpToDate
  | AlreadyLatest
  | LooksCargoInstalled
  | Updating (latest : string)
  | Reinstalling
  | InstallerFinished (latest : string).

Inductive upgrade_event : Type :=
  | Ran (program : string) (args : list string)
  | Printed (message : upgrade_message).

Definition uM (A : Type) : Type := list upgrade_event -> result upgrade_error A * list upgrade_event.
#[global] Instance uM_ret : MRet uM := fun A a l => (Ok a, l).
#[global] Instance uM_bind : MBind uM := fun A B f m l => match m l with (Ok a, l') => f a l' | (Err e, l') => (Err e, l') end.
Definition u_pure {A} (r : result upgrade_error A) : uM A := fun l => (r, l).
Definition say (message : upgrade_message) : uM () := fun l => (Ok (), l ++ [Printed message]).

Definition releases_url (page : Z) : string :=
  "https://api.github.com/repos/" +:+ REPO +:+ "/releases?per_page=100&page=" +:+ dec_u64 page.

Definition installer_shell : string := "curl -fsSL " +:+ INSTALL_SH_URL +:+ " | sh".

Definition product_version (tag : string) : option string :=
  rest ← strip_prefix_str "v" tag;
  match rest with
  | String c _ => if (48 <=? byte_of_ascii c) && (byte_of_ascii c <=? 57) then Some rest else None
  | EmptyString => None
  end.

Definition parse_u64 (s : string) : option Z := parse_uint U64_MAX s.

Definition parse_semver (s : string) : option (Z * Z * Z) :=
  match split_on "." s with
  | [a; b; c] => major ← parse_u64 a; minor ← parse_u64 b; patch ← parse_u64 c; Some (major, minor, patch)
  | _ => None
  end.

(** [>] on the triples. *)
Definition semver_gt (a b : Z * Z * Z) : bool :=
  let '(a1, a2, a3) := a in
  let '(b1, b2, b3) := b in
  (b1 <? a1) || ((a1 =? b1) && ((b2 <? a2) || ((a2 =? b2) && (b3 <? a3)))).

Definition is_newer (latest current : string) : bool :=
  match parse_semver latest, parse_semver current with
  | Some latest, Some current => semver_gt latest current
  | _, _ => negb (bool_decide (latest = current))
  end.

Definition is_cargo_install_path (exe : string) : bool := str_contains ".cargo/bin" (from_utf8_lossy (str_bytes exe)).

(** ** What newer means *)

(** The text of a [u64]: digits, after at most one plus sign. *)
Definition numeral (t : string) (n : Z) : Prop :=
  n <= U64_MAX /\ exists ds, ds <> [] /\ Forall (fun d => 0 <= d <= 9) ds /\ n = foldl (fun acc d => 10 * acc + d) 0 ds
    /\ (str_bytes t = Z.add 48 <$> ds \/ str_bytes t = 43 :: (Z.add 48 <$> ds)).

(** A plain version: three numbers with dots between them. *)
Definition version_text (t : string) (v : list Z) : Prop :=
  exists x y z a b c, t = x +:+ String "." (y +:+ String "." z) /\ v = [a; b; c] /\ numeral x a /\ numeral y b /\ numeral z c.

(** Older: smaller at the first number where the two differ. *)
Definition older (v w : list Z) : Prop := exists common a b r s, v = common ++ a :: r /\ w = common ++ b :: s /\ a < b.

(** Between plain versions the order decides; anything else only has to be different. *)
Definition newer_release (latest current : string) : Prop :=
  (exists v w, version_text latest v /\ version_text current w /\ older w v)
  \/ (~ ((exists v, version_text latest v) /\ (exists w, version_text current w)) /\ latest <> current).

(** The path has [.cargo/bin] in it. *)
Definition under_cargo_bin (exe : string) : Prop := exists a b, from_utf8_lossy (str_bytes exe) = a +:+ ".cargo/bin" +:+ b.

Lemma digits_val_spec s acc v :
  digits_val acc s = Some v <-> exists ds, Forall (fun d => 0 <= d <= 9) ds /\ str_bytes s = Z.add 48 <$> ds /\ v = foldl (fun acc d => 10 * acc + d) acc ds.
Proof.
  revert acc. induction s as [|c s IH]; intros acc; cbn [digits_val str_bytes].
  - split; [intros [= <-]; by exists []|]. intros ([|d ds] & _ & E & ->); [done|discriminate E].
  - unfold in_range. split.
    + destruct (_ && _) eqn:Hc; [|done]. rewrite IH. intros (ds & Hd & Es & ->). exists (byte_of_ascii c - 48 :: ds).
      split; [constructor; [zify_bool; lia|done]|]. split; [rewrite Es, fmap_cons; f_equal; lia|]. cbn [foldl]. f_equal. lia.
    + intros ([|d ds] & Hd & E & ->); [discriminate E|]. rewrite fmap_cons in E. injection E as Ec Es. apply Forall_cons in Hd as [Hd Hds].
      assert ((48 <=? byte_of_ascii c) && (byte_of_ascii c <=? 57) = true) as -> by (zify_bool; lia). rewrite IH.
      exists ds. split; [done|]. split; [done|]. cbn [foldl]. f_equal. lia.
Qed.

Lemma parse_u64_spec t n : parse_u64 t = Some n <-> numeral t n.
Proof.
  assert (Hp : forall s, (if decide (s = ""%string) then None else v ← digits_val 0 s; if v <=? U64_MAX then Some v else None) = Some n <->
    n <= U64_MAX /\ exists ds, ds <> [] /\ Forall (fun d => 0 <= d <= 9) ds /\ n = foldl (fun acc d => 10 * acc + d) 0 ds /\ str_bytes s = Z.add 48 <$> ds).
  { intros s. case_decide as Hs; [subst s; split; [done|]; by intros (_ & [|d ds] & H & _ & _ & E)|]. split.
    - destruct (digits_val 0 s) as [v|] eqn:E; [|done]. cbn. destruct (v <=? U64_MAX) eqn:Hv; [|done]. intros [= <-].
      apply digits_val_spec in E as (ds & Hd & Es & ->). split; [lia|]. exists ds. split; [intros ->; by destruct s|done].
    - intros (Hn & ds & _ & Hd & En & Es). assert (digits_val 0 s = Some n) as -> by (apply digits_val_spec; by exists ds).
      cbn. by rewrite (proj2 (Z.leb_le _ _)). }
  unfold parse_u64, parse_uint, numeral. destruct t as [|c r].
  - rewrite (Hp ""%string). split; intros (Hn & ds & H1 & H2 & H3 & H4); (split; [done|]); exists ds; intuition discriminate.
  - destruct (decide (c = "+"%char)) as [->|Hc].
    + rewrite (Hp r). cbn [str_bytes]. split; intros (Hn & ds & H1 & H2 & H3 & H4); (split; [done|]); exists ds; (split_and!; [done..|]).
      * right. by rewrite H4.
      * destruct H4 as [H4|H4]; [|by injection H4]. destruct ds as [|d ds]; [done|]. rewrite fmap_cons in H4. injection H4 as H4 _.
        apply Forall_cons in H2 as [H2 _]. change (byte_of_ascii "+"%char) with 43 in H4. lia.
    + replace (match String c r with String "+" r => r | _ => String c r end) with (String c r)
        by (destruct c as [[] [] [] [] [] [] [] []]; done).
      rewrite (Hp (String c r)). split; intros (Hn & ds & H1 & H2 & H3 & H4); (split; [done|]); exists ds; (split_and!; [done..|]); [by left|].
      destruct H4 as [H4|H4]; [done|]. exfalso. apply Hc. cbn [str_bytes] in H4. injection H4 as H4 _.
      rewrite <- (ascii_of_byte_of c), H4. done.
Qed.

Lemma numeral_no_dot t n : numeral t n -> str_contains_char "." t = false.
Proof.
  intros (_ & ds & _ & Hd & _ & E). assert (H : Forall (fun b => b <> 46) (str_bytes t)).
  { destruct E as [-> | ->]; [|constructor; [done|]]; apply Forall_fmap; (eapply Forall_impl; [exact Hd|]); simpl; lia. }
  clear E. induction t as [|c t IH]; [done|]. cbn [str_bytes] in H. apply Forall_cons in H as [Hc H]. cbn [str_contains_char]. rewrite (IH H), orb_false_r.
  apply bool_decide_eq_false. intros ->. by apply Hc.
Qed.

Lemma concat_split c s : String.concat (String c "") (split_on c s) = s.
Proof.
  induction s as [|a s IH]; [done|]. cbn [split_on]. destruct (split_on_cons_ne c s) as (w & ws & E). rewrite E in *. case_decide as Ha.
  - subst a. change (String.concat (String c "") (""%string :: w :: ws)) with (String c (String.concat (String c "") (w :: ws))). by rewrite IH.
  - destruct ws as [|x ws]; [by change (String a w = String a s); f_equal|].
    change (String a (String.concat (String c "") (w :: x :: ws)) = String a s). by rewrite IH.
Qed.

Lemma parse_semver_spec s a b c : parse_semver s = Some (a, b, c) <-> version_text s [a; b; c].
Proof.
  unfold parse_semver, version_text. split.
  - intros H. pose proof (concat_split "." s) as E. destruct (split_on "." s) as [|x [|y [|z [|]]]]; try done.
    destruct (parse_u64 x) as [a'|] eqn:Ea; [|done]. destruct (parse_u64 y) as [b'|] eqn:Eb; [|done]. destruct (parse_u64 z) as [c'|] eqn:Ec; [|done].
    injection H as -> -> ->. exists x, y, z, a, b, c. rewrite <- !parse_u64_spec. by rewrite <- E.
  - intros (x & y & z & a' & b' & c' & -> & [= <- <- <-] & Ha & Hb & Hc). rewrite !split_on_app.
    rewrite !(split_on_whole) by (by eapply numeral_no_dot). cbn [app].
    rewrite (proj2 (parse_u64_spec _ _) Ha), (proj2 (parse_u64_spec _ _) Hb), (proj2 (parse_u64_spec _ _) Hc). done.
Qed.

Lemma older_triples a1 a2 a3 b1 b2 b3 :
  older [b1; b2; b3] [a1; a2; a3] <-> semver_gt (a1, a2, a3) (b1, b2, b3) = true.
Proof.
  unfold semver_gt. rewrite !orb_true_iff, !andb_true_iff, !orb_true_iff, !andb_true_iff, !Z.ltb_lt, !Z.eqb_eq. split.
  - intros (l & x & y & r & s & E & F & H). destruct l as [|l1 [|l2 [|l3 l]]]; simplify_eq/=; try lia; by destruct l.
  - intros [H|[-> [H|[-> H]]]]; [by exists [], b1, a1, [b2; b3], [a2; a3]|by exists [b1], b2, a2, [b3], [a3]|by exists [b1; b2], b3, a3, [], []].
Qed.

Lemma version_text_parse s v : version_text s v -> exists a b c, v = [a; b; c] /\ parse_semver s = Some (a, b, c).
Proof.
  intros H. assert (exists a b c, v = [a; b; c]) as (a & b & c & ->) by (destruct H as (? & ? & ? & a & b & c & _ & -> & _); by exists a, b, c).
  exists a, b, c. split; [done|]. by apply parse_semver_spec.
Qed.

Lemma is_newer_spec latest current : is_newer latest current = true <-> newer_release latest current.
Proof.
  unfold is_newer, newer_release.
  assert (Hnone : forall s, parse_semver s = None -> ~ exists v, version_text s v).
  { intros s Hs [v (a & b & c & _ & H)%version_text_parse]. congruence. }
  destruct (parse_semver latest) as [[[a1 a2] a3]|] eqn:El.
  2: { rewrite negb_true_iff, bool_decide_eq_false. split; [intros H; right; split; [by intros [?%Hnone _]|done]|].
       intros [(v & w & H & _)|[_ H]]; [|done]. exfalso. by apply (Hnone latest El); exists v. }
  destruct (parse_semver current) as [[[b1 b2] b3]|] eqn:Ec.
  2: { rewrite negb_true_iff, bool_decide_eq_false. split; [intros H; right; split; [by intros [_ ?%Hnone]|done]|].
       intros [(v & w & _ & H & _)|[_ H]]; [|done]. exfalso. by apply (Hnone current Ec); exists w. }
  rewrite <- older_triples. apply parse_semver_spec in El as Vl. apply parse_semver_spec in Ec as Vc. split.
  - intros H. left. by exists [a1; a2; a3], [b1; b2; b3].
  - intros [(v & w & (? & ? & ? & -> & Hv)%version_text_parse & (? & ? & ? & -> & Hw)%version_text_parse & H)|[H _]].
    + rewrite El in Hv. rewrite Ec in Hw. by simplify_eq.
    + exfalso. apply H. split; by eexists.
Qed.

Lemma str_contains_spec n s : str_contains n s = true <-> exists a b, s = a +:+ n +:+ b.
Proof.
  assert (Hp : forall n s, String.prefix n s = true <-> exists b, s = n +:+ b).
  { clear. induction n as [|c n IH]; intros s.
    { split; [by exists s|]. intros _. by destruct s. }
    destruct s as [|d s].
    { split; [done|]. by intros [b [=]]. }
    cbn [String.prefix]. destruct (Ascii.ascii_dec c d) as [->|Hc].
    - rewrite IH. split; intros [b E]; exists b; [by rewrite E|by injection E].
    - split; [done|]. intros [b E]. injection E as E _. by destruct Hc. }
  induction s as [|c s IH].
  - cbn [str_contains]. rewrite orb_false_r, Hp. split; [intros [b E]; by exists ""%string, b|]. intros ([|? ?] & b & E); [by exists b|discriminate E].
  - cbn [str_contains]. rewrite orb_true_iff, Hp, IH. split.
    + intros [[b E]|(a & b & ->)]; [by exists ""%string, b|by exists (String c a), b].
    + intros ([|c' a] & b & E); [left; by exists b|right]. injection E as _ E. by exists a, b.
Qed.

Lemma is_cargo_spec exe : is_cargo_install_path exe = true <-> under_cargo_bin exe.
Proof. apply str_contains_spec. Qed.

(** A loop of at most [n] rounds, left with [inr]. *)
Fixpoint rounds {S R} (n : positive) (f : S -> uM (S + R)) (s : S) : uM (S + R) :=
  let again (m : uM (S + R)) (k : S -> uM (S + R)) : uM (S + R) :=
    r ← m; match r with inl s => k s | inr v => mret (inr v) end in
  match n with
  | xH => f s
  | xO n => again (rounds n f s) (rounds n f)
  | xI n => again (again (f s) (rounds n f)) (rounds n f)
  end.

Section Json.
(** serde_json's [Value] and the accessors used. *)
Context {Value : Type} (from_str : string -> option Value) (as_array : Value -> option (list Value))
  (get : Value -> string -> option Value) (as_bool : Value -> option bool) (as_str : Value -> option string).

Definition json_bool (value : Value) (key : string) : bool :=
  match get value key ≫= as_bool with Some b => b | None => false end.

Fixpoint scan_releases (page : list Value) : PageHit :=
  match page with
  | [] => Continue
  | release :: rest =>
    if json_bool release "draft" || json_bool release "prerelease" then scan_releases rest
    else
      let tag := default ""%string (get release "tag_name" ≫= as_str) in
      match product_version tag with
      | Some ver => Version ver
      | None => scan_releases rest
      end
  end.

Definition parse_product_page (body : string) : result upgrade_error PageHit :=
  value ← ok_or (from_str body) BadJson;
  page ← ok_or (as_array value) NotAnArray;
  Ok (match page with [] => Exhausted | _ => scan_releases page end).

Section Fetch.
Context (get_url : string -> uM string).

Definition fetch_page (page : Z) : uM (Z + string) :=
  body ← get_url (releases_url page);
  hit ← u_pure (parse_product_page body);
  match hit with
  | Version ver => mret (inr ver)
  | Continue => u_pure (inl <$> ok_or ((if page + 1 <=? U32_MAX then Some (page + 1) else None)) PageOverflow)
  | Exhausted => u_pure (Err NoProductRelease)
  end.

(** Pages [1] to [u32::MAX]: after that many rounds the counter has overflowed. *)
Definition fetch_latest_version : uM string :=
  r ← rounds (Z.to_pos U32_MAX) fetch_page 1;
  match r with inr ver => mret ver | inl _ => u_pure (Err PageOverflow) end.
End Fetch.

(** The status and output of a program: [None] when it could not be run, else
    whether it succeeded and what it wrote. *)
Context (program : list upgrade_event -> string -> list string -> option (bool * list Z)).

Definition run_program (name : string) (args : list string) : uM (option (bool * list Z)) :=
  fun l => (Ok (program l name args), l ++ [Ran name args]).

Definition command_exists (name : string) : uM bool :=
  r ← run_program name ["--version"]%string;
  mret (match r with Some (ok, _) => ok | None => false end).

Definition download_with (name : string) (args : list string) : uM string :=
  r ← run_program name args;
  match r with
  | None => u_pure (Err (CannotRun name))
  | Some (true, stdout) => u_pure (ok_or (from_utf8 stdout) NotUtf8)
  | Some (false, _) => u_pure (Err (ProgramFailed name))
  end.

Definition http_get (url : string) : uM string :=
  curl ← command_exists "curl";
  if (curl : bool) then download_with "curl" ["-fsSL"; "-A"; "bux-upgrade"; "-H"; "Accept: application/vnd.github+json"; url]%string
  else
    wget ← command_exists "wget";
    if (wget : bool) then download_with "wget" ["-q"; "--user-agent=bux-upgrade"; "-O-"; url]%string
    else u_pure (Err NeedsDownloader).

Definition run_official_installer : uM () :=
  curl ← command_exists "curl";
  if negb curl then u_pure (Err NeedsDownloader)
  else
    status ← run_program "sh" ["-c"; installer_shell]%string;
    match status with
    | None => u_pure (Err (CannotRun "sh"))
    | Some (true, _) => mret ()
    | Some (false, _) => u_pure (Err (ProgramFailed "sh"))
    end.

(** [env!("CARGO_PKG_VERSION")]. *)
Context (current : string).

Definition run_with (args : UpgradeArgs) (get_url : string -> uM string) (exe : uM string) (install : uM ()) : uM () :=
  latest ← fetch_latest_version get_url;
  let update_available := is_newer latest current in
  if up_check args then
    say (if update_available then IsAvailable latest else IsUpToDate)
  else if negb update_available && negb (up_force args) then say AlreadyLatest
  else
    path ← exe;
    if is_cargo_install_path path then say LooksCargoInstalled
    else
      say (if update_available then Updating latest else Reinstalling) ≫= fun _ =>
      install ≫= fun _ =>
      say (InstallerFinished latest).

Context (current_exe : option string).

Definition run (args : UpgradeArgs) : uM () :=
  run_with args http_get (u_pure (ok_or current_exe NoExecutable)) run_official_installer.

(** ** The rounds *)

Fixpoint rounds_nat {S R} (n : nat) (f : S -> uM (S + R)) (s : S) : uM (S + R) :=
  match n with
  | O => mret (inl s)
  | S n => r ← f s; match r with inl s => rounds_nat n f s | inr v => mret (inr v) end
  end.

Lemma rounds_nat_add {S R} a b (f : S -> uM (S + R)) s l :
  rounds_nat (a + b) f s l = (r ← rounds_nat a f s; match r with inl s => rounds_nat b f s | inr v => mret (inr v) end) l.
Proof.
  revert s l. induction a as [|a IH]; intros s l; [done|]. cbn [Nat.add rounds_nat]. unfold mbind, uM_bind in *.
  destruct (f s l) as [[[s'|v]|e] l']; [apply IH|done|done].
Qed.

Lemma rounds_eq {S R} n (f : S -> uM (S + R)) s l : rounds n f s l = rounds_nat (Pos.to_nat n) f s l.
Proof.
  revert s l. induction n as [n IH|n IH|]; intros s l.
  - rewrite Pos2Nat.inj_xI. replace (Datatypes.S (2 * Pos.to_nat n)) with (1 + Pos.to_nat n + Pos.to_nat n)%nat by lia.
    rewrite rounds_nat_add. cbn [rounds Nat.add rounds_nat]. unfold mbind, uM_bind. destruct (f s l) as [[[s1|v]|e] l1]; [|done|done].
    rewrite IH. destruct (rounds_nat _ f s1 l1) as [[[s2|v]|e] l2]; [apply IH|done|done].
  - rewrite Pos2Nat.inj_xO. replace (2 * Pos.to_nat n)%nat with (Pos.to_nat n + Pos.to_nat n)%nat by lia.
    rewrite rounds_nat_add. cbn [rounds]. unfold mbind, uM_bind. rewrite IH.
    destruct (rounds_nat _ f s l) as [[[s2|v]|e] l2]; [apply IH|done|done].
  - change (Pos.to_nat 1) with 1%nat. cbn [rounds rounds_nat]. unfold mbind, uM_bind, mret, uM_ret.
    by destruct (f s l) as [[[s1|v]|e] l1].
Qed.

(** ** The latest product *)

(** A release that is out and is one of the product. *)
Definition product_of (release : Value) : option string :=
  if json_bool release "draft" || json_bool release "prerelease" then None
  else product_version (default ""%string (get release "tag_name" ≫= as_str)).

Lemma scan_first page : scan_releases page = match head (omap product_of page) with Some ver => Version ver | None => Continue end.
Proof.
  induction page as [|r page IH]; [done|]. cbn [scan_releases omap list_omap]. rewrite IH.
  generalize (omap product_of page) as rest. intros rest. unfold product_of. destruct (_ || _); [done|]. by destruct (product_version _).
Qed.

(** A release that is out and whose tag names a version. *)
Definition product_release (release : Value) (ver : string) : Prop :=
  get release "draft" ≫= as_bool <> Some true /\ get release "prerelease" ≫= as_bool <> Some true
  /\ get release "tag_name" ≫= as_str = Some ("v" +:+ ver)
  /\ exists c rest, ver = String c rest /\ 48 <= byte_of_ascii c <= 57.
Definition no_product (release : Value) : Prop := forall ver, ~ product_release release ver.

Lemma product_version_spec tag ver : product_version tag = Some ver <->
  tag = "v" +:+ ver /\ exists c rest, ver = String c rest /\ 48 <= byte_of_ascii c <= 57.
Proof.
  unfold product_version. split.
  - destruct tag as [|v tag]; [done|]. cbn. case_decide as Hv; [|done]. subst v. cbn. destruct tag as [|c rest]; [done|].
    destruct (_ && _) eqn:E; [|done]. intros [= <-]. split; [done|]. exists c, rest. split; [done|]. zify_bool. lia.
  - intros [-> (c & rest & -> & Hc)].
    change ((if (48 <=? byte_of_ascii c) && (byte_of_ascii c <=? 57) then Some (String c rest) else None) = Some (String c rest)).
    assert ((48 <=? byte_of_ascii c) && (byte_of_ascii c <=? 57) = true) as -> by (zify_bool; lia). done.
Qed.

Lemma product_of_spec release ver : product_of release = Some ver <-> product_release release ver.
Proof.
  assert (Hb : forall k, json_bool release k = false <-> get release k ≫= as_bool <> Some true).
  { intros k. unfold json_bool. destruct (get release k ≫= as_bool) as [[]|]; split; congruence. }
  unfold product_of, product_release. rewrite <- !Hb. destruct (json_bool release "draft"), (json_bool release "prerelease"); cbn [orb];
    try (split; [done|by intros (? & ? & _)]).
  rewrite product_version_spec. destruct (get release "tag_name" ≫= as_str) as [tag|]; cbn; split.
  - intros [-> H]. done.
  - intros (_ & _ & [= ->] & H). done.
  - intros [H _]. discriminate H.
  - intros (_ & _ & H & _). discriminate H.
Qed.

Section Server.
(** What the server answers for each address. *)
Context (served : string -> result upgrade_error string).

Definition page_hit (page : Z) : result upgrade_error PageHit := served (releases_url page) ≫= parse_product_page.

(** [ver] is on a page from [p] on, and the pages before it have no product. *)
Definition first_from (p : Z) (ver : string) : Prop :=
  exists n, p <= n <= U32_MAX /\ (forall m, p <= m < n -> page_hit m = Ok Continue) /\ page_hit n = Ok (Version ver).

Lemma fetch_page_served p l :
  fetch_page (fun url => u_pure (served url)) p l =
  (match page_hit p with
   | Err e => Err e
   | Ok (Version ver) => Ok (inr ver)
   | Ok Continue => if p + 1 <=? U32_MAX then Ok (inl (p + 1)) else Err PageOverflow
   | Ok Exhausted => Err NoProductRelease
   end, l).
Proof.
  unfold fetch_page, page_hit, u_pure, mbind, uM_bind, result_bind. destruct (served _) as [body|e]; [|done].
  destruct (parse_product_page body) as [[ver| |]|e]; try done. by destruct (_ <=? _).
Qed.

Lemma first_from_next p ver : page_hit p = Ok Continue -> first_from p ver <-> first_from (p + 1) ver.
Proof.
  intros Hp. split; intros (n & Hn & Hb & Hv).
  - destruct (decide (n = p)) as [->|]; [rewrite Hp in Hv; done|]. exists n. split; [lia|]. split; [|done]. intros m Hm. apply Hb. lia.
  - exists n. split; [lia|]. split; [|done]. intros m Hm. destruct (decide (m = p)) as [->|]; [done|]. apply Hb. lia.
Qed.

Lemma first_from_here p ver : (forall v, page_hit p <> Ok (Version v)) -> page_hit p <> Ok Continue -> ~ first_from p ver.
Proof.
  intros Hv Hc (n & Hn & Hb & H). destruct (decide (n = p)) as [->|]; [by apply (Hv ver)|]. apply Hc, Hb. lia.
Qed.

Lemma rounds_first k p l : p + Z.of_nat k = U32_MAX + 1 ->
  exists r, rounds_nat k (fetch_page (fun url => u_pure (served url))) p l = (r, l) /\ forall ver, r = Ok (inr ver) <-> first_from p ver.
Proof.
  revert p. induction k as [|k IH]; intros p Hk.
  - exists (Ok (inl p)). split; [done|]. intros ver. split; [done|]. intros (n & Hn & _). lia.
  - cbn [rounds_nat]. unfold mbind, uM_bind. rewrite fetch_page_served. destruct (page_hit p) as [[v| |]|e] eqn:Ep.
    + exists (Ok (inr v)). split; [done|]. intros ver. split.
      * intros [= ->]. exists p. split; [lia|]. split; [intros m Hm; lia|done].
      * intros (n & Hn & Hb & Hv). destruct (decide (n = p)) as [->|]; [by rewrite Ep in Hv; injection Hv as ->|].
        rewrite Hb in Ep by lia. done.
    + destruct (p + 1 <=? U32_MAX) eqn:Eo; zify_bool.
      * destruct (IH (p + 1) ltac:(lia)) as (r & E & Hr). exists r. split; [done|]. intros ver. rewrite Hr. symmetry. by apply first_from_next.
      * exists (Err PageOverflow). split; [done|]. intros ver. split; [done|]. intros (n & Hn & Hb & Hv).
        assert (n = p) as -> by lia. by rewrite Ep in Hv.
    + exists (Err NoProductRelease). split; [done|]. intros ver. split; [done|]. intros H. exfalso. revert H. apply first_from_here; [intros v|]; by rewrite Ep.
    + exists (Err e). split; [done|]. intros ver. split; [done|]. intros H. exfalso. revert H. apply first_from_here; [intros v|]; by rewrite Ep.
Qed.

(** The list on a page, if the server gives one. *)
Definition page_at (n : Z) : option (list Value) :=
  match served (releases_url n) with Ok body => from_str body ≫= as_array | Err _ => None end.

Lemma page_hit_at n hit :
  page_hit n = Ok hit <-> exists page, page_at n = Some page /\ hit = match page with [] => Exhausted | _ => scan_releases page end.
Proof.
  unfold page_hit, page_at, parse_product_page, mbind, result_bind. split.
  - destruct (served _) as [body|]; [|done]. destruct (from_str body) as [value|]; cbn; [|done].
    destruct (as_array value) as [page|]; cbn; [|done]. intros [= <-]. by exists page.
  - intros (page & H & ->). destruct (served _) as [body|]; [|done]. destruct (from_str body) as [value|]; cbn in *; [|done].
    rewrite H. done.
Qed.

Lemma scan_continue page : scan_releases page = Continue <-> Forall no_product page.
Proof.
  rewrite scan_first. split.
  - destruct (head _) as [v|] eqn:E; [done|]. intros _. apply Forall_forall. intros r Hr v Hv%product_of_spec.
    assert (Hin : v ∈ omap product_of page) by (apply list_elem_of_omap; by exists r). destruct (omap product_of page); [by apply not_elem_of_nil in Hin|done].
  - induction 1 as [|r page Hr _ IH]; [done|]. cbn [omap list_omap]. destruct (product_of r) as [v|] eqn:E; [|done].
    exfalso. by apply (Hr v), product_of_spec.
Qed.

Lemma scan_version page ver :
  scan_releases page = Version ver <-> exists before r after, page = before ++ r :: after /\ product_release r ver /\ Forall no_product before.
Proof.
  rewrite scan_first. split.
  - induction page as [|r page IH]; [done|]. cbn [omap list_omap]. destruct (product_of r) as [v|] eqn:E.
    + intros [= <-]. exists [], r, page. split; [done|]. split; [by apply product_of_spec|done].
    + intros H. destruct (IH H) as (before & x & after & -> & Hx & Hb). exists (r :: before), x, after. split; [done|]. split; [done|].
      constructor; [|done]. intros v Hv%product_of_spec. congruence.
  - intros (before & r & after & -> & Hr%product_of_spec & Hb). induction Hb as [|x before Hx _ IH]; cbn [omap list_omap app].
    + by rewrite Hr.
    + destruct (product_of x) as [v|] eqn:E; [exfalso; by apply (Hx v), product_of_spec|]. exact IH.
Qed.

(** The latest version is the first product of the list: the download of pages ends,
    after at most [u32::MAX] of them, and gives a version exactly when the first
    release that is no draft, no prerelease and tagged with a [v] and a digit is the one of this version,
    all pages before its page being lists with some release and none of the product. *)
Theorem latest_is_first_product (ver : string) (l : list upgrade_event) :
  (fetch_latest_version (fun url => u_pure (served url)) l).1 = Ok ver <->
  exists n before r after, 1 <= n <= U32_MAX /\ page_at n = Some (before ++ r :: after)
    /\ product_release r ver /\ Forall no_product before
    /\ forall m, 1 <= m < n -> exists page, page_at m = Some page /\ page <> [] /\ Forall no_product page.
Proof.
  assert (E : (fetch_latest_version (fun url => u_pure (served url)) l).1 = Ok ver <-> first_from 1 ver).
  { destruct (rounds_first (Z.to_nat U32_MAX) 1 l ltac:(unfold U32_MAX; lia)) as (r & Er & Hr). rewrite <- Hr.
    unfold fetch_latest_version, mbind, uM_bind. rewrite rounds_eq.
    replace (Pos.to_nat (Z.to_pos U32_MAX)) with (Z.to_nat U32_MAX) by (rewrite <- Z2Nat.inj_pos, Z2Pos.id by (unfold U32_MAX; lia); done).
    rewrite Er. destruct r as [[s|v]|e]; cbn; split; intros H; try done; by injection H as ->. }
  assert (Hc : forall m, page_hit m = Ok Continue <-> exists page, page_at m = Some page /\ page <> [] /\ Forall no_product page).
  { intros m. rewrite page_hit_at. split; intros (page & Hp & H); exists page; (split; [done|]).
    - destruct page as [|x page]; [done|]. split; [done|]. by apply scan_continue.
    - destruct H as [Hn H]. destruct page as [|x page]; [done|]. symmetry. by apply scan_continue. }
  rewrite E. unfold first_from. split.
  - intros (n & Hn & Hb & (page & Hp & H)%page_hit_at). destruct page as [|x page]; [done|]. symmetry in H.
    apply scan_version in H as (before & r & after & Ep & Hr & Hbf). exists n, before, r, after. rewrite <- Ep. split_and!; [lia|lia|done|done|done|].
    intros m Hm. by apply Hc, Hb.
  - intros (n & before & r & after & Hn & Hp & Hr & Hbf & Hm). exists n. split; [lia|]. split; [intros m ?; by apply Hc, Hm|].
    apply page_hit_at. eexists. split; [exact Hp|]. assert (Hs : scan_releases (before ++ r :: after) = Version ver) by (apply scan_version; by exists before, r, after).
    rewrite <- Hs. by destruct before.
Qed.
End Server.

(** ** When the installer runs *)

Definition is_shell (e : upgrade_event) : bool := match e with Ran p _ => bool_decide (p = "sh"%string) | Printed _ => false end.
Definition installer : upgrade_event := Ran "sh" ["-c"; installer_shell]%string.
Definition shells (es : list upgrade_event) : list upgrade_event := filter (fun e => is_shell e = true) es.

(** [m] runs no shell. *)
Definition no_shell {A} (m : uM A) : Prop := forall l, exists es, (m l).2 = l ++ es /\ shells es = [].

Lemma shells_app es fs : shells (es ++ fs) = shells es ++ shells fs.
Proof. apply filter_app. Qed.

Lemma no_shell_pure {A} (r : result upgrade_error A) : no_shell (u_pure r).
Proof. intros l. exists []. by rewrite app_nil_r. Qed.

Lemma no_shell_ret {A} (a : A) : no_shell (mret a).
Proof. intros l. exists []. by rewrite app_nil_r. Qed.

Lemma no_shell_say m : no_shell (say m).
Proof. intros l. by exists [Printed m]. Qed.

Lemma no_shell_bind {A B} (m : uM A) (f : A -> uM B) : no_shell m -> (forall a, no_shell (f a)) -> no_shell (m ≫= f).
Proof.
  intros Hm Hf l. destruct (Hm l) as (e1 & E1 & S1). unfold mbind, uM_bind. destruct (m l) as [[a|e] l1]; cbn in E1; subst l1.
  - destruct (Hf a (l ++ e1)) as (e2 & E2 & S2). exists (e1 ++ e2). by rewrite E2, app_assoc, shells_app, S1, S2.
  - by exists e1.
Qed.

Lemma no_shell_program name args : name <> "sh"%string -> no_shell (run_program name args).
Proof. intros H l. exists [Ran name args]. split; [done|]. unfold shells. rewrite filter_cons_False; [done|]. cbn. by rewrite bool_decide_eq_false_2. Qed.

Lemma no_shell_exists name : name <> "sh"%string -> no_shell (command_exists name).
Proof. intros H. apply no_shell_bind; [by apply no_shell_program|]. intros ?. apply no_shell_ret. Qed.

Lemma no_shell_download name args : name <> "sh"%string -> no_shell (download_with name args).
Proof. intros H. apply no_shell_bind; [by apply no_shell_program|]. intros [[[] out]|]; apply no_shell_pure. Qed.

Lemma no_shell_http_get url : no_shell (http_get url).
Proof.
  unfold http_get. apply no_shell_bind; [by apply no_shell_exists|]. intros []; [by apply no_shell_download|].
  apply no_shell_bind; [by apply no_shell_exists|]. intros []; [by apply no_shell_download|apply no_shell_pure].
Qed.

Lemma no_shell_rounds {S R} n (f : S -> uM (S + R)) : (forall s, no_shell (f s)) -> forall s, no_shell (rounds n f s).
Proof.
  intros Hf. assert (Hk : forall (m : uM (S + R)) k, no_shell m -> (forall s, no_shell (k s)) ->
    no_shell (r ← m; match r with inl s => k s | inr v => mret (inr v : S + R) end)).
  { intros m k Hm Hk. apply no_shell_bind; [done|]. intros [s|v]; [apply Hk|apply no_shell_ret]. }
  induction n as [n IH|n IH|]; intros s; cbn [rounds]; [apply Hk; [by apply Hk|done]|by apply Hk|apply Hf].
Qed.

Lemma no_shell_fetch : no_shell (fetch_latest_version http_get).
Proof.
  apply no_shell_bind; [|intros []; [apply no_shell_pure|apply no_shell_ret]]. apply no_shell_rounds. intros page.
  apply no_shell_bind; [apply no_shell_http_get|]. intros body. apply no_shell_bind; [apply no_shell_pure|].
  intros []; [apply no_shell_ret|apply no_shell_pure|apply no_shell_pure].
Qed.

(** The installer's own run: one shell, unless there is no [curl]. *)
Lemma installer_once l : exists es, (run_official_installer l).2 = l ++ es /\ (shells es = [] \/ shells es = [installer])
  /\ ((run_official_installer l).1 = Ok () -> shells es = [installer]).
Proof.
  unfold run_official_installer. destruct (no_shell_exists "curl" ltac:(done) l) as (e1 & E1 & S1). unfold mbind, uM_bind.
  destruct (command_exists "curl" l) as [[[]|e] l1]; cbn in E1; subst l1; cbn [negb].
  - exists (e1 ++ [installer]). assert (Hs : shells (e1 ++ [installer]) = [installer]) by (by rewrite shells_app, S1). rewrite Hs.
    unfold run_program. destruct (program _ "sh" _) as [[[] ?]|]; cbn; rewrite <- app_assoc; split_and!; auto.
  - exists e1. split_and!; [done|auto|done].
  - exists e1. split_and!; [done|auto|done].
Qed.

Definition due (args : UpgradeArgs) (latest exe : string) : bool :=
  negb (up_check args) && (is_newer latest current || up_force args) && negb (is_cargo_install_path exe).

(** What follows the version. *)
Definition install_version (args : UpgradeArgs) (latest : string) : uM () :=
  let update_available := is_newer latest current in
  if up_check args then say (if update_available then IsAvailable latest else IsUpToDate)
  else if negb update_available && negb (up_force args) then say AlreadyLatest
  else
    path ← u_pure (ok_or current_exe NoExecutable);
    if is_cargo_install_path path then say LooksCargoInstalled
    else
      say (if update_available then Updating latest else Reinstalling) ≫= fun _ =>
      run_official_installer ≫= fun _ =>
      say (InstallerFinished latest).

Lemma install_version_shells args v l : exists es, (install_version args v l).2 = l ++ es
    /\ (shells es = [] \/ shells es = [installer])
    /\ (shells es <> [] -> exists exe, current_exe = Some exe /\ due args v exe = true)
    /\ ((install_version args v l).1 = Ok () -> forall exe, current_exe = Some exe -> due args v exe = true -> shells es = [installer]).
Proof.
  unfold install_version, due. destruct (up_check args); [by eexists [_]; split_and!; [|left| |intros _ exe _ [=]]|].
  destruct (is_newer v current || up_force args) eqn:Ed; rewrite <- negb_orb, Ed; cbn [negb andb]; [|by eexists [_]; split_and!; [|left| |intros _ exe _ [=]]].
  unfold u_pure, mbind, uM_bind. destruct current_exe as [exe|]; cbn [ok_or]; [|exists []; rewrite app_nil_r; split_and!; [done|auto|done|done]].
  destruct (is_cargo_install_path exe) eqn:Ec.
  { eexists [_]. split_and!; [done|by left|done|]. intros _ exe' [= <-]. by rewrite Ec. }
  cbn [say]. match goal with |- context [run_official_installer ?k] => destruct (installer_once k) as (e2 & E2 & S2 & O2); destruct (run_official_installer k) as [[[]|e] l2] end;
    cbn [fst snd] in *; subst l2.
  - exists ([Printed (if is_newer v current then Updating v else Reinstalling)] ++ e2 ++ [Printed (InstallerFinished v)]).
    rewrite !shells_app, (O2 eq_refl). cbn. rewrite <- !app_assoc. split_and!; [done|auto| |done]. intros _. exists exe. by rewrite Ec.
  - exists ([Printed (if is_newer v current then Updating v else Reinstalling)] ++ e2).
    rewrite shells_app. cbn. rewrite <- !app_assoc. split_and!; [done|done| |done]. intros _. exists exe. by rewrite Ec.
Qed.

(** When the installer is due, in the terms of the versions and the path. *)
Definition wanted (args : UpgradeArgs) (latest exe : string) : Prop :=
  up_check args = false /\ (newer_release latest current \/ up_force args = true) /\ ~ under_cargo_bin exe.

Lemma due_wanted args latest exe : due args latest exe = true <-> wanted args latest exe.
Proof.
  unfold due, wanted. rewrite !andb_true_iff, orb_true_iff, !negb_true_iff, is_newer_spec, <- is_cargo_spec, not_true_iff_false. tauto.
Qed.

(** C40.  The installer runs exactly when it is due: [bux upgrade] starts a shell at most once, and
    only to run the official installer; it does so only without [--check], for a
    newer release or with [--force], and when [.cargo/bin] is not in the binary's
    path; and when all that holds and the upgrade succeeds, it did.  A release is newer when,
    both versions being three numbers with dots between, it is greater at the first number
    where they differ; any other version counts as newer when its text is different. *)
Theorem installer_runs_when_due (args : UpgradeArgs) (l : list upgrade_event) :
  let latest := (fetch_latest_version http_get l).1 in
  exists es, (run args l).2 = l ++ es
    /\ (shells es = [] \/ shells es = [installer])
    /\ (shells es <> [] -> exists v exe, latest = Ok v /\ current_exe = Some exe /\ up_check args = false
          /\ (newer_release v current \/ up_force args = true) /\ ~ under_cargo_bin exe)
    /\ ((run args l).1 = Ok () -> forall v exe, latest = Ok v -> current_exe = Some exe -> up_check args = false ->
          newer_release v current \/ up_force args = true -> ~ under_cargo_bin exe -> shells es = [installer]).
Proof.
  assert (Er : run args = (latest ← fetch_latest_version http_get; install_version args latest)) by done. rewrite Er.
  destruct (no_shell_fetch l) as (e1 & E1 & S1). unfold mbind, uM_bind.
  destruct (fetch_latest_version http_get l) as [[v|e] l1]; cbn [fst snd] in *; subst l1.
  2: { exists e1. split_and!; [done|auto|by rewrite S1|done]. }
  destruct (install_version_shells args v (l ++ e1)) as (e2 & -> & Hs & Hd & Ho). exists (e1 ++ e2). rewrite app_assoc, shells_app, S1.
  split_and!; [done|done| |].
  - intros Hn. destruct (Hd Hn) as (exe & Hx & Hw%due_wanted). exists v, exe. by destruct Hw as (? & ? & ?).
  - intros Hr v' exe [= <-] Hx Hc Hf Hn. apply (Ho Hr exe Hx). by apply due_wanted.
Qed.
End Json.

(** ** Sample: the product is on the second page *)

Module Sample.
Inductive json : Type := JBool (b : bool) | JStr (s : string) | JArr (l : list json) | JObj (l : list (string * json)).
Definition as_array (v : json) : option (list json) := match v with JArr l => Some l | _ => None end.
Definition as_bool (v : json) : option bool := match v with JBool b => Some b | _ => None end.
Definition as_str (v : json) : option string := match v with JStr s => Some s | _ => None end.
Definition get (v : json) (k : string) : option json :=
  match v with JObj l => snd <$> find (fun kv => bool_decide (kv.1 = k)) l | _ => None end.
Definition release (tag : string) (draft : bool) : json := JObj [("tag_name"%string, JStr tag); ("draft"%string, JBool draft)].
Definition from_str (s : string) : option json :=
  match s with
  | "one"%string => Some (JArr [release "guest-v0.1.0" false; release "krun-v1.19.4" false])
  | "two"%string => Some (JArr [release "v9.9.9" true; release "v0.4.1" false; release "v0.3.0" false])
  | "object"%string => Some (release "v0.4.1" false)
  | _ => Some (JArr [])
  end.
Definition served (url : string) : result upgrade_error string :=
  Ok (if bool_decide (url = releases_url 1) then "one"%string else if bool_decide (url = releases_url 2) then "two"%string else "none"%string).

Example second_page : (fetch_latest_version from_str as_array get as_bool as_str (fun url => u_pure (served url)) []).1 = Ok "0.4.1"%string.
Proof. vm_compute. done. Qed.

Example no_product : (fetch_latest_version from_str as_array get as_bool as_str (fun url => u_pure (Ok (if bool_decide (url = releases_url 1) then "one" else "none"))) []).1
  = Err NoProductRelease /\ (fetch_latest_version from_str as_array get as_bool as_str (fun _ => u_pure (Ok "object")) []).1 = Err NotAnArray.
Proof. vm_compute. done. Qed.

(** [curl] is there and serves the pages; the shell works. *)
Definition program (_ : list upgrade_event) (name : string) (args : list string) : option (bool * list Z) :=
  match name with
  | "curl"%string => Some (true, match served (List.last args ""%string) with Ok b => str_bytes b | Err _ => [] end)
  | "sh"%string => Some (true, [])
  | _ => None
  end.

Definition upgrade (current exe : string) (args : UpgradeArgs) : result upgrade_error () * list upgrade_event :=
  let '(r, l) := run from_str as_array get as_bool as_str program current (Some exe) args [] in (r, shells l).

Example upgrades :
  upgrade "0.4.0" "/home/x/.local/bin/bux" (mkUpgradeArgs false false) = (Ok (), [installer])
  /\ upgrade "0.4.1" "/home/x/.local/bin/bux" (mkUpgradeArgs false false) = (Ok (), [])
  /\ upgrade "0.4.1" "/home/x/.local/bin/bux" (mkUpgradeArgs false true) = (Ok (), [installer])
  /\ upgrade "0.4.0" "/home/x/.cargo/bin/bux" (mkUpgradeArgs false true) = (Ok (), [])
  /\ upgrade "0.4.0" "/home/x/.local/bin/bux" (mkUpgradeArgs true true) = (Ok (), []).
Proof. vm_compute. done. Qed.

(** A version that is no plain triple is taken for newer, whatever it is: the release
    before a candidate counts as newer than the candidate. *)
Example release_candidate : is_newer "0.4.1" "0.5.0-rc1" = true.
Proof. reflexivity. Qed.
End Sample.
