(* ===== verification/CliArgs.v ===== *)
(** * The command line's arguments

    [crates/bux-cli/src/run.rs] up to the creation of the VM and the helpers of
    [vm.rs] that read texts: secrets, environment files, users, signals, guest
    references, and how the flags of [bux run] become options.  clap is not
    modelled: the records hold what it hands over. *)

From S2P Require Import Prelude Files Paths Text Ports ProtoMessages StateTypes Volumes Options.

Inductive cli_error : Type :=
  | InvalidSpec (what spec : string)
  | EmptySecret (spec : string)
  | NoSecretHosts (name : string)
  | SecretFile (path : string)
  | SecretFileMode (path : string) (mode : Z)
  | EnvFile (path : string)
  | SecretsNeedNetwork
  | DetachedTty
  | DetachedCommand
  | UnknownSignal (name : string)
  | Library (e : Error)
  | Failed (targets : list (string * Error))
  | Usage (message : string).

(** ** run.rs: flags *)

Record SecurityArgs : Type := mkSecurityArgs {
  sa_jailer : bool;
  sa_no_jailer : bool;
  sa_landlock : bool;
  sa_no_landlock : bool;
  sa_allow_degraded : bool
}.

Definition resolve_flag (on off default : bool) : bool := if off then false else if on then true else default.

Definition security_options (linux : bool) (a : SecurityArgs) : SecurityOptions :=
  let defaults := default_security linux in
  mkSecurity (resolve_flag (sa_jailer a) (sa_no_jailer a) (so_jailer defaults))
    (resolve_flag (sa_landlock a) (sa_no_landlock a) (so_landlock defaults)) (sa_allow_degraded a).

(** ** run.rs: secrets *)

Definition parse_one_secret (spec : string) (allow_net : list string) : result cli_error Secret :=
  let '(lhs, hosts_part) :=
    match rsplit_once "@" spec with
    | Some (l, h) => if str_contains_char "=" l then (l, Some h) else (spec, None)
    | None => (spec, None)
    end in
  '(name, value) ← ok_or (split_once "=" lhs) (InvalidSpec "--secret" spec);
  if bool_decide (name = ""%string) || bool_decide (value = ""%string) then Err (EmptySecret spec) else
  let hosts :=
    match hosts_part with
    | None => match allow_net with [] => ["*"%string] | _ => allow_net end
    | Some h => filter (fun s => s <> ""%string) (trim <$> split_on "," h)
    end in
  match hosts with
  | [] => Err (NoSecretHosts name)
  | _ => Ok (Secret_new name hosts value)
  end.

Fixpoint parse_secrets (specs allow_net : list string) : result cli_error (list Secret) :=
  match specs with
  | [] => Ok []
  | spec :: rest => s ← parse_one_secret spec allow_net; out ← parse_secrets rest allow_net; Ok (s :: out)
  end.

(** The lines of a file that are neither blank nor comments, trimmed. *)
Definition entries_of (content : string) : list string :=
  filter (fun l => l <> ""%string /\ starts_with_char "#" l = false) (trim <$> lines content).

(** A file opened without following a link: its metadata and its bytes. *)
Record opened_file : Type := mkOpened { of_regular : bool; of_mode : Z; of_bytes : result io_kind (list Z) }.

Section Files.
Context (open_nofollow : string -> result io_kind opened_file) (read_file : string -> result io_kind (list Z)).

Definition parse_secret_file (path : string) (allow_net : list string) : result cli_error (list Secret) :=
  file ← map_err (fun _ => SecretFile path) (open_nofollow path);
  if negb (of_regular file) then Err (SecretFile path) else
  let mode := Z.land (of_mode file) 0x1ff in
  if negb (mode =? 0x180) then Err (SecretFileMode path mode) else
  buf ← map_err (fun _ => SecretFile path) (of_bytes file);
  content ← ok_or (from_utf8 buf) (SecretFile path);
  parse_secrets (entries_of content) allow_net.

Fixpoint parse_secret_files (paths allow_net : list string) : result cli_error (list Secret) :=
  match paths with
  | [] => Ok []
  | p :: rest => s ← parse_secret_file p allow_net; out ← parse_secret_files rest allow_net; Ok (s ++ out)
  end.

(** ** vm.rs: environment files *)

Definition read_env_file (path : string) : result cli_error (list string) :=
  bytes ← map_err (fun _ => EnvFile path) (read_file path);
  content ← ok_or (from_utf8 bytes) (EnvFile path);
  Ok (entries_of content).

Fixpoint read_env_files (paths : list string) : result cli_error (list string) :=
  match paths with
  | [] => Ok []
  | p :: rest => vars ← read_env_file p; out ← read_env_files rest; Ok (vars ++ out)
  end.

(** ** run.rs: [RunArgs::run] up to the creation *)

Record RunArgs : Type := mkRunArgs {
  ra_image : option string;
  ra_root : option string;
  ra_name : option string;
  ra_detach : bool;
  ra_rm : bool;
  ra_cpus : Z;
  ra_memory : Z;
  ra_workdir : option string;
  ra_publish : list string;
  ra_allow_net : list string;
  ra_network : string;
  ra_security : SecurityArgs;
  ra_secrets : list string;
  ra_secret_file : list string;
  ra_volume : list string;
  ra_env : list string;
  ra_env_file : list string;
  ra_user : option string;
  ra_interactive : bool;
  ra_tty : bool;
  ra_entrypoint : option string;
  ra_command : list string
}.

Record CreateArgs : Type := mkCreateArgs {
  ca_image : string;
  ca_name : option string;
  ca_rm : bool;
  ca_cpus : Z;
  ca_memory : Z;
  ca_publish : list string;
  ca_allow_net : list string;
  ca_network : string;
  ca_security : SecurityArgs;
  ca_secrets : list string;
  ca_secret_file : list string;
  ca_volume : list string
}.

Definition create_as_run (a : CreateArgs) : RunArgs :=
  mkRunArgs (Some (ca_image a)) None (ca_name a) true (ca_rm a) (ca_cpus a) (ca_memory a) None (ca_publish a) (ca_allow_net a)
    (ca_network a) (ca_security a) (ca_secrets a) (ca_secret_file a) (ca_volume a) [] [] None false false None [].

(** Fields of the options the builder methods set. *)
Definition opt_port (spec : string) (o : VmOptions) : VmOptions :=
  mkOptions (op_image o) (op_name o) (op_agent_id o) (op_tenant_id o) (op_vcpus o) (op_ram_mib o) (op_ports o ++ [spec])
    (op_secrets o) (op_network o) (op_volumes o) (op_command o) (op_env o) (op_workdir o) (op_user o)
    (op_auto_remove o) (op_ready_timeout o) (op_detach o) (op_security o) (op_auto_stop_secs o) (op_auto_delete_secs o).
Definition opt_secrets (s : list Secret) (o : VmOptions) : VmOptions :=
  mkOptions (op_image o) (op_name o) (op_agent_id o) (op_tenant_id o) (op_vcpus o) (op_ram_mib o) (op_ports o)
    s (op_network o) (op_volumes o) (op_command o) (op_env o) (op_workdir o) (op_user o)
    (op_auto_remove o) (op_ready_timeout o) (op_detach o) (op_security o) (op_auto_stop_secs o) (op_auto_delete_secs o).
Definition opt_command (c : list string) (o : VmOptions) : VmOptions :=
  mkOptions (op_image o) (op_name o) (op_agent_id o) (op_tenant_id o) (op_vcpus o) (op_ram_mib o) (op_ports o)
    (op_secrets o) (op_network o) (op_volumes o) (Some c) (op_env o) (op_workdir o) (op_user o)
    (op_auto_remove o) (op_ready_timeout o) (op_detach o) (op_security o) (op_auto_stop_secs o) (op_auto_delete_secs o).
Definition opt_user (u : string) (o : VmOptions) : VmOptions :=
  mkOptions (op_image o) (op_name o) (op_agent_id o) (op_tenant_id o) (op_vcpus o) (op_ram_mib o) (op_ports o)
    (op_secrets o) (op_network o) (op_volumes o) (op_command o) (op_env o) (op_workdir o) (Some u)
    (op_auto_remove o) (op_ready_timeout o) (op_detach o) (op_security o) (op_auto_stop_secs o) (op_auto_delete_secs o).
Definition opt_allow_net (hosts : list string) (o : VmOptions) : VmOptions := opt_network (NetEnabled hosts) o.
Definition when {A B} (x : option A) (f : A -> B -> B) (b : B) : B := match x with Some a => f a b | None => b end.

Fixpoint add_ports (specs : list string) (o : VmOptions) : result cli_error VmOptions :=
  match specs with
  | [] => Ok o
  | spec :: rest =>
    _ ← map_err (fun _ => InvalidSpec "-p" spec) (parse_publish_spec spec);
    add_ports rest (opt_port spec o)
  end.

Fixpoint add_volumes (specs : list string) (o : VmOptions) : result cli_error VmOptions :=
  match specs with
  | [] => Ok o
  | spec :: rest =>
    m ← map_err (fun _ => InvalidSpec "-v" spec) (parse_bind_spec spec);
    add_volumes rest (opt_volume m o)
  end.

(** Exactly one of the two is there: clap has checked it. *)
Definition image_ref (a : RunArgs) : result cli_error ImageRef :=
  match ra_image a, ra_root a with
  | Some img, None => Ok (Oci img)
  | None, Some root => Ok (Rootfs root)
  | _, _ => Err (Usage "unreachable")
  end.

Definition base_options (linux : bool) (a : RunArgs) (image : ImageRef) : VmOptions :=
  when (ra_user a) opt_user (when (ra_workdir a) opt_workdir (when (ra_name a) opt_name
    (opt_security (security_options linux (ra_security a)) (opt_detach (ra_detach a) (opt_auto_remove (ra_rm a)
      (opt_resources (ra_cpus a) (ra_memory a) (from_image linux image))))))).

Definition add_network (a : RunArgs) (o : VmOptions) : VmOptions :=
  if bool_decide (ra_network a = "disabled"%string) then opt_network NetDisabled o
  else match ra_allow_net a with [] => o | hosts => opt_allow_net hosts o end.

Definition add_secrets (a : RunArgs) (o : VmOptions) : result cli_error VmOptions :=
  flags ← parse_secrets (ra_secrets a) (ra_allow_net a);
  filed ← parse_secret_files (ra_secret_file a) (ra_allow_net a);
  match flags ++ filed with
  | [] => Ok o
  | secrets => if negb (is_enabled (op_network o)) then Err SecretsNeedNetwork else Ok (opt_secrets secrets o)
  end.

Definition first_command (a : RunArgs) : option (list string) :=
  match ra_entrypoint a with
  | Some ep => Some (ep :: ra_command a)
  | None => match ra_command a with [] => None | c => Some c end
  end.

(** The options, the command and its environment. *)
Definition run_options (linux : bool) (a : RunArgs) : result cli_error (VmOptions * option (list string) * list string) :=
  image ← image_ref a;
  o ← add_ports (ra_publish a) (base_options linux a image);
  o ← add_secrets a (add_network a o);
  o ← add_volumes (ra_volume a) o;
  filed ← read_env_files (ra_env_file a);
  let env := filed ++ ra_env a in
  let o := match env with [] => o | _ => opt_env env o end in
  let cmd := first_command a in
  let o := when cmd opt_command o in
  if ra_detach a && (ra_interactive a || ra_tty a) then Err DetachedTty
  else if ra_detach a && (match cmd with Some _ => true | None => false end) then Err DetachedCommand
  else Ok (o, cmd, env).
End Files.

(** ** vm.rs: texts *)

Definition parse_numeric_user (spec : string) : option (Z * Z) :=
  let spec := trim spec in
  if bool_decide (spec = ""%string) then None else
  match split_once ":" spec with
  | Some (u, g) => uid ← parse_u32 (trim u); gid ← parse_u32 (trim g); Some (uid, gid)
  | None => uid ← parse_u32 spec; Some (uid, uid)
  end.

Definition apply_exec_options (req : ExecStart) (env : list string) (workdir user : option string) (interactive tty : bool) : ExecStart :=
  let req := match env with [] => req | _ => with_env req env end in
  let req := match workdir with Some wd => if bool_decide (wd = ""%string) then req else with_cwd req wd | None => req end in
  let req := match user with
             | Some spec => match parse_numeric_user spec with
                            | Some (uid, gid) => with_user req uid gid
                            | None => user_name req spec
                            end
             | None => req
             end in
  let req := if interactive then with_stdin req else req in
  if tty then with_tty req 24 80 else req.

(** The command a foreground run executes: its own, else the image's. *)
Definition exec_request (a : RunArgs) (env : list string) (cmd : option (list string)) (workload_cmd : list string) : option ExecStart :=
  let exec_cmd := match cmd with Some c => Some c | None => match workload_cmd with [] => None | w => Some w end end in
  match exec_cmd with
  | Some (prog :: rest) => Some (apply_exec_options (with_args (ExecStart_new prog) rest) env (ra_workdir a) (ra_user a) (ra_interactive a) (ra_tty a))
  | _ => None
  end.

Definition parse_guest_ref (s : string) : option (string * string) :=
  match split_once ":" s with
  | Some (vm, guest_path) => if bool_decide (vm = ""%string) then None else Some (vm, guest_path)
  | None => None
  end.

(** [str::parse::<i32>]. *)
Definition parse_i32 (s : string) : option Z :=
  match s with
  | String "-" r => match r with
                    | String "+" _ => None
                    | _ => v ← parse_uint (2^31) r; Some (- v)
                    end
  | _ => parse_uint (2^31 - 1) s
  end.

Definition to_upper (c : Ascii.ascii) : Ascii.ascii :=
  let b := byte_of_ascii c in if (97 <=? b) && (b <=? 122) then ascii_of_byte (b - 32) else c.
Fixpoint to_ascii_uppercase (s : string) : string :=
  match s with String c r => String (to_upper c) (to_ascii_uppercase r) | EmptyString => EmptyString end.

Definition parse_signal (name : string) : result cli_error Z :=
  match parse_i32 name with
  | Some n => Ok n
  | None =>
    let upper := to_ascii_uppercase name in
    match default upper (strip_prefix_str "SIG" upper) with
    | "HUP"%string => Ok 1
    | "INT"%string => Ok 2
    | "QUIT"%string => Ok 3
    | "KILL"%string => Ok 9
    | "USR1"%string => Ok 10
    | "USR2"%string => Ok 12
    | "TERM"%string => Ok 15
    | "CONT"%string => Ok 18
    | "STOP"%string => Ok 19
    | _ => Err (UnknownSignal name)
    end
  end.

(** ** logs.rs *)

Definition print_file (data : string) (tail : nat) : list string :=
  match tail with
  | O => [data]
  | _ => let ls := lines data in drop (length ls - tail) ls
  end.

(** ** Properties *)

(** A secret's text is read back: [name=value@host,...] gives the secret of that name, value and hosts, whatever
    separators the value holds; [name=value] gives the hosts of [--allow-net], or
    every host when there are none, for a text without [@]. *)
Theorem secret_text_read_back (name value : string) (hosts allow_net : list string) :
  name <> ""%string -> str_contains_char "=" name = false -> value <> ""%string ->
  (hosts <> [] -> Forall (fun h => h <> ""%string /\ trim h = h /\ str_contains_char "," h = false) hosts ->
     str_contains_char "@" (String.concat "," hosts) = false ->
     parse_one_secret (name +:+ String "=" (value +:+ String "@" (String.concat "," hosts))) allow_net = Ok (Secret_new name hosts value))
  /\ (str_contains_char "@" (name +:+ String "=" value) = false ->
     parse_one_secret (name +:+ String "=" value) allow_net
     = Ok (Secret_new name (match allow_net with [] => ["*"%string] | _ => allow_net end) value)).
Proof.
  intros Hn Hne Hv. assert (Hb : bool_decide (name = ""%string) || bool_decide (value = ""%string) = false) by (by rewrite !bool_decide_eq_false_2).
  split.
  - intros Hh Hf Ha. unfold parse_one_secret.
    assert (Ea : name +:+ String "=" (value +:+ String "@" (String.concat "," hosts)) = (name +:+ String "=" value) +:+ String "@" (String.concat "," hosts)).
    { clear. induction name as [|a n IH]; [done|]. change (String a (n +:+ String "=" (value +:+ String "@" (String.concat "," hosts))) = String a ((n +:+ String "=" value) +:+ String "@" (String.concat "," hosts))). by rewrite IH. }
    rewrite Ea, rsplit_once_app by done. rewrite str_contains_char_app. cbn [str_contains_char]. rewrite bool_decide_eq_true_2, orb_true_r by done.
    rewrite split_once_app by done. cbn. rewrite Hb. rewrite split_on_concat by (done || (eapply Forall_impl; [exact Hf|]; intros h (_ & _ & H); exact H)).
    assert (Et : filter (fun s => s <> ""%string) (trim <$> hosts) = hosts).
    { clear Hh Ha Ea. induction Hf as [|h l (H1 & H2 & _) Hf IH]; [done|]. cbn [fmap list_fmap]. rewrite H2, filter_cons_True by done. by rewrite IH. }
    rewrite Et. by destruct hosts.
  - intros Ha. unfold parse_one_secret. rewrite rsplit_once_absent by done. rewrite split_once_app by done. cbn. rewrite Hb. by destruct allow_net.
Qed.

(** What a secret that was accepted looks like. *)
Lemma parse_one_secret_ok spec allow s : parse_one_secret spec allow = Ok s ->
  sec_name s <> ""%string /\ sec_value s <> ""%string /\ sec_hosts s <> [].
Proof.
  unfold parse_one_secret. destruct (match rsplit_once "@" spec with Some _ => _ | None => _ end) as [lhs hp].
  destruct (split_once "=" lhs) as [[n v]|]; cbn; [|done]. destruct (bool_decide (n = ""%string)) eqn:En; [done|].
  destruct (bool_decide (v = ""%string)) eqn:Ev; [done|]. apply bool_decide_eq_false in En, Ev. cbn.
  match goal with |- context [match ?h with [] => _ | _ => _ end] => destruct h end; [done|]. by intros [= <-].
Qed.

Lemma parse_secrets_ok specs allow l : parse_secrets specs allow = Ok l ->
  Forall (fun s => sec_name s <> ""%string /\ sec_value s <> ""%string /\ sec_hosts s <> []) l.
Proof.
  revert l. induction specs as [|spec specs IH]; intros l; cbn; [by intros [= <-]|].
  destruct (parse_one_secret spec allow) as [s|] eqn:E; cbn; [|done]. destruct (parse_secrets specs allow) as [out|]; cbn; [|done].
  intros [= <-]. constructor; [by apply parse_one_secret_ok in E|by apply IH].
Qed.

Section RunOptions.
Context (open_nofollow : string -> result io_kind opened_file) (read_file : string -> result io_kind (list Z)).

Definition good_secret (s : Secret) : Prop := sec_name s <> ""%string /\ sec_value s <> ""%string /\ sec_hosts s <> [].

Lemma parse_secret_files_ok paths allow l : parse_secret_files open_nofollow paths allow = Ok l -> Forall good_secret l.
Proof.
  revert l. induction paths as [|p paths IH]; intros l; cbn; [by intros [= <-]|].
  destruct (parse_secret_file open_nofollow p allow) as [s|] eqn:E; cbn; [|done]. destruct (parse_secret_files _ paths allow) as [out|]; cbn; [|done].
  intros [= <-]. apply Forall_app. split; [|by apply IH]. unfold parse_secret_file in E. destruct (open_nofollow p) as [f|]; cbn in E; [|done].
  destruct (negb (of_regular f)); [done|]. destruct (negb _); [done|]. destruct (of_bytes f) as [b|]; cbn in E; [|done].
  destruct (from_utf8 b); cbn in E; [|done]. by apply parse_secrets_ok in E.
Qed.

(** What neither ports nor volumes change. *)
Definition core (o : VmOptions) :=
  (op_network o, op_secrets o, op_command o, op_env o, op_detach o, op_auto_remove o, op_security o).

Lemma add_ports_ok specs o o' : add_ports specs o = Ok o' ->
  core o' = core o /\ op_ports o' = op_ports o ++ specs /\ Forall (fun s => is_ok (parse_publish_spec s) = true) specs.
Proof.
  revert o. induction specs as [|s specs IH]; intros o; cbn; [intros [= <-]; by rewrite app_nil_r|].
  destruct (parse_publish_spec s) eqn:E; cbn; [|done]. intros (H1 & H2 & H3)%IH. rewrite H1, H2. cbn. rewrite <- app_assoc.
  split_and!; [done|done|]. constructor; [by rewrite E|done].
Qed.

Lemma add_volumes_ok specs o o' : add_volumes specs o = Ok o' -> core o' = core o /\ op_ports o' = op_ports o.
Proof.
  revert o. induction specs as [|s specs IH]; intros o; cbn; [by intros [= <-]|].
  destruct (parse_bind_spec s); cbn; [|done]. intros (H1 & H2)%IH. by rewrite H1, H2.
Qed.

Lemma add_secrets_ok a o o' : add_secrets open_nofollow a o = Ok o' ->
  exists l, (l = [] -> o' = o) /\ (l <> [] -> o' = opt_secrets l o /\ is_enabled (op_network o) = true) /\ Forall good_secret l.
Proof.
  unfold add_secrets. destruct (parse_secrets _ _) as [flags|] eqn:E1; cbn; [|done]. destruct (parse_secret_files _ _ _) as [filed|] eqn:E2; cbn; [|done].
  intros H. exists (flags ++ filed). assert (Hf : Forall good_secret (flags ++ filed)).
  { apply Forall_app. split; [by apply parse_secrets_ok in E1|by apply parse_secret_files_ok in E2]. }
  destruct (flags ++ filed) as [|x l]; [by injection H as <-|]. destruct (is_enabled (op_network o)) eqn:En; [|done]. by injection H as <-.
Qed.

Lemma base_options_core linux a image :
  core (base_options linux a image) = (NetEnabled [], [], None, [], ra_detach a, ra_rm a, security_options linux (ra_security a))
  /\ op_ports (base_options linux a image) = [].
Proof. unfold base_options. by destruct (ra_user a), (ra_workdir a), (ra_name a). Qed.

Lemma add_network_ok a o : op_network o = NetEnabled [] ->
  op_network (add_network a o) = (if bool_decide (ra_network a = "disabled"%string) then NetDisabled else NetEnabled (ra_allow_net a)).
Proof. intros E. unfold add_network. case_bool_decide; [done|]. by destruct (ra_allow_net a). Qed.

(** A run is checked before anything is created: the options [bux run] hands to the runtime have the network, the
    isolation and the lifetime the flags ask for, only port specifications that
    parse, complete secrets and these only with a network, and a detached run has
    neither a command nor a terminal. *)
Theorem run_checked_before_create (linux : bool) (a : RunArgs) (o : VmOptions) (cmd : option (list string)) (env : list string) :
  run_options open_nofollow read_file linux a = Ok (o, cmd, env) ->
  op_network o = (if bool_decide (ra_network a = "disabled"%string) then NetDisabled else NetEnabled (ra_allow_net a))
  /\ (op_secrets o <> [] -> is_enabled (op_network o) = true) /\ Forall good_secret (op_secrets o)
  /\ op_ports o = ra_publish a /\ Forall (fun s => is_ok (parse_publish_spec s) = true) (ra_publish a)
  /\ op_command o = cmd /\ cmd = first_command a /\ op_env o = env
  /\ op_detach o = ra_detach a /\ (ra_detach a = true -> cmd = None /\ ra_interactive a = false /\ ra_tty a = false)
  /\ op_auto_remove o = ra_rm a /\ op_security o = security_options linux (ra_security a).
Proof.
  unfold run_options. destruct (image_ref a) as [image|]; cbn; [|done]. destruct (base_options_core linux a image) as [Hb Hbp].
  destruct (add_ports _ _) as [o1|] eqn:E1; cbn; [|done]. apply add_ports_ok in E1 as (H1 & P1 & Hp). rewrite Hb in H1. rewrite Hbp in P1.
  destruct (add_secrets _ _ _) as [o2|] eqn:E2; cbn; [|done]. destruct (add_secrets_ok _ _ _ E2) as (l & Hnil & Hcons & Hgood).
  destruct (add_volumes _ _) as [o3|] eqn:E3; cbn; [|done]. apply add_volumes_ok in E3 as [H3 P3].
  destruct (read_env_files _ _) as [filed|]; cbn; [|done].
  destruct (ra_detach a && (ra_interactive a || ra_tty a)) eqn:Ed; [done|].
  destruct (ra_detach a && match first_command a with Some _ => true | None => false end) eqn:Ec; [done|].
  intros Heq. assert (Ho : when (first_command a) opt_command (match filed ++ ra_env a with [] => o3 | _ => opt_env (filed ++ ra_env a) o3 end) = o)
    by congruence. assert (Hcmd : first_command a = cmd) by congruence. assert (Henv : filed ++ ra_env a = env) by congruence. clear Heq.
  assert (Hcore : core o2 = (if bool_decide (ra_network a = "disabled"%string) then NetDisabled else NetEnabled (ra_allow_net a), l,
    None, [], ra_detach a, ra_rm a, security_options linux (ra_security a)) /\ op_ports o2 = ra_publish a).
  { assert (Hn : core (add_network a o1) = (if bool_decide (ra_network a = "disabled"%string) then NetDisabled else NetEnabled (ra_allow_net a), [],
      None, [], ra_detach a, ra_rm a, security_options linux (ra_security a)) /\ op_ports (add_network a o1) = ra_publish a).
    { unfold core in H1 |- *. injection H1 as N1 S1 C1 V1 D1 R1 Q1. rewrite (add_network_ok a o1 N1). unfold add_network.
      case_bool_decide; [by cbn; rewrite S1, C1, V1, D1, R1, Q1, P1|]. destruct (ra_allow_net a); cbn; by rewrite S1, C1, V1, D1, R1, Q1, P1. }
    destruct l as [|x l]; [by rewrite (Hnil eq_refl)|]. destruct (Hcons ltac:(done)) as [-> _].
    unfold core in Hn |- *. destruct Hn as [[= N1 S1 C1 V1 D1 R1 Q1] P]. cbn. by rewrite N1, C1, V1, D1, R1, Q1, P. }
  destruct Hcore as [Hc P2]. rewrite <- H3 in Hc. rewrite <- P3 in P2. unfold core in Hc. injection Hc as N S C V D R Q.
  assert (Hsec : op_secrets o3 <> [] -> is_enabled (op_network o3) = true).
  { rewrite S, N. intros Hl. destruct (Hcons Hl) as [-> He]. injection H3 as N3 _ _ _ _ _ _. rewrite <- N, N3. exact He. }
  assert (Hg : Forall good_secret (op_secrets o3)) by (by rewrite S).
  assert (Hdet : ra_detach a = true -> cmd = None /\ ra_interactive a = false /\ ra_tty a = false).
  { intros Hd. rewrite Hd in Ed, Ec. subst cmd. destruct (first_command a), (ra_interactive a), (ra_tty a); done. }
  subst o cmd. rewrite Henv. destruct env as [|v env]; destruct (first_command a); cbn [when]; cbn; split_and!; done.
Qed.
End RunOptions.

(** ** Samples *)

Module Sample.
Definition no_flags : SecurityArgs := mkSecurityArgs false false false false false.
Definition nothing (_ : string) : result io_kind (list Z) := Err EkNotFound.
(** A secret file with a comment and one secret. *)
Definition secret_file (mode : Z) (_ : string) : result io_kind opened_file :=
  Ok (mkOpened true mode (Ok (str_bytes ("# keys" +:+ bytes_str [10] +:+ " k=v@api.example.com " +:+ bytes_str [10; 10])))).
Definition args (detach : bool) (network : string) (secrets : list string) : RunArgs :=
  mkRunArgs (Some "alpine"%string) None (Some "box"%string) detach true 2 1024 None ["8080:80"%string] ["api.example.com"%string] network
    (mkSecurityArgs true true false false false) secrets ["keys"%string] [] ["A=1"%string] [] None false false None ["true"%string].

Lemma secret_text_read_back_witness :
  parse_one_secret "openai=s=k@x@api.openai.com,h2" [] = Ok (Secret_new "openai" ["api.openai.com"; "h2"] "s=k@x")%string
  /\ parse_one_secret "t=val" ["h1"%string] = Ok (Secret_new "t" ["h1"] "val")%string.
Proof.
  split.
  - apply (secret_text_read_back "openai" "s=k@x" ["api.openai.com"; "h2"]%string []); try done. by repeat constructor.
  - by apply (secret_text_read_back "t" "val" [] ["h1"%string]).
Defined.

(** Without hosts, what follows an [@] of the value is taken for the host. *)
Example value_with_at : parse_one_secret "pass=p@ss" ["api.example.com"%string] = Ok (Secret_new "pass" ["ss"] "p")%string.
Proof. reflexivity. Qed.

Lemma run_checked_before_create_witness :
  exists o cmd env, run_options (secret_file 0x180) nothing true (args false "enabled" ["t=val"%string]) = Ok (o, cmd, env)
    /\ op_network o = NetEnabled ["api.example.com"%string] /\ op_security o = mkSecurity false true false.
Proof.
  destruct (run_options (secret_file 0x180) nothing true (args false "enabled" ["t=val"%string])) as [[[o cmd] env]|] eqn:E; [|vm_compute in E; done].
  exists o, cmd, env. split; [reflexivity|]. pose proof (run_checked_before_create _ _ _ _ _ _ _ E) as H.
  destruct H as (H1 & _ & _ & _ & _ & _ & _ & _ & _ & _ & _ & H2). split; [exact H1|exact H2].
Defined.

Example refused :
  run_options (secret_file 0x180) nothing true (args false "disabled" []) = Err SecretsNeedNetwork
  /\ run_options (secret_file 0x1a4) nothing true (args false "enabled" []) = Err (SecretFileMode "keys" 0x1a4)
  /\ run_options (secret_file 0x180) nothing true (args true "enabled" []) = Err DetachedCommand.
Proof. vm_compute. done. Qed.

Example default_isolation : security_options true no_flags = default_security true /\ security_options false no_flags = default_security false.
Proof. split; reflexivity. Qed.

Example signals : parse_signal <$> ["TERM"; "sigkill"; "9"; "-1"; "WINCH"]%string = [Ok 15; Ok 9; Ok 9; Ok (-1); Err (UnknownSignal "WINCH")].
Proof. reflexivity. Qed.
End Sample.
