(* ===== verification/CliVm.v ===== *)
(** * The VM commands

    [crates/bux-cli/src/vm.rs], [volume.rs], the snapshot and sweep commands of
    [main.rs], and [RunArgs::run] of [run.rs] from the creation on, over the
    engine of [Engine] and [EngineBoot].  The state of a command is the engine and
    the lines it has printed; the engine is the one [Runtime::open] returned. *)

From S2P Require Import Prelude ProtoMessages Files Paths Text Ids StateTypes StateDb StateLookup Lifecycle LifecycleCorrect Volumes Options Engine EngineBoot EngineCorrect EngineProps Serve ServeCorrect CliArgs.

Record cli : Type := mkCli { c_engine : engine; c_out : list string; c_signals : list (Z * Z) }.

Definition kM (A : Type) : Type := cli -> result cli_error A * cli.
#[global] Instance kM_ret : MRet kM := fun A a σ => (Ok a, σ).
#[global] Instance kM_bind : MBind kM := fun A B f m σ => match m σ with (Ok a, σ') => f a σ' | (Err e, σ') => (Err e, σ') end.

Definition k_pure {A} (r : result cli_error A) : kM A := fun σ => (r, σ).
Definition println (line : string) : kM () := fun σ => (Ok (), mkCli (c_engine σ) (c_out σ ++ [line]) (c_signals σ)).
(** An operation of the runtime whose error is reported, and one that is matched on. *)
Definition try_rt {A} (m : M engine A) : kM (result Error A) :=
  fun σ => let '(r, e) := m (c_engine σ) in (Ok r, mkCli e (c_out σ) (c_signals σ)).
Definition rt {A} (m : M engine A) : kM A := r ← try_rt m; k_pure (map_err Library r).
(** An operation on a handle the command keeps. *)
Definition try_vm {A} (v : Vm) (m : vmM A) : kM (result Error A * Vm) :=
  fun σ => let '(r, (v', e)) := m (v, c_engine σ) in (Ok (r, v'), mkCli e (c_out σ) (c_signals σ)).
Definition on_vm {A} (v : Vm) (m : vmM A) : kM Vm :=
  '(r, v') ← try_vm v m; match r with Ok _ => mret v' | Err x => k_pure (Err (Library x)) end.

Section Commands.
(** The host as each target meets it, and whether a signal can be delivered. *)
Context (lo : layout) (hosts : string -> host) (deliver : Z -> Z -> result Error ()).

(** [Vm::signal]: numbers that are no signal are refused. *)
Definition signal (v : Vm) (sig : Z) : kM (result Error ()) := fun σ =>
  if negb ((1 <=? sig) && (sig <=? 31)) then (Ok (Err (StateTypes.Io EkInvalidInput)), σ)
  else (Ok (deliver (vm_pid (v_state v)) sig), mkCli (c_engine σ) (c_out σ) (c_signals σ ++ [(vm_pid (v_state v), sig)])).

(** The loop of [stop], [kill], [rm] and [wait]: what succeeds is printed, the
    errors are collected and reported at the end. *)
Fixpoint each_target (op : string -> kM (result Error ())) (targets : list string) (errors : list (string * Error)) : kM () :=
  match targets with
  | [] => match errors with [] => mret () | _ => k_pure (Err (Failed errors)) end
  | target :: rest =>
    r ← op target;
    match r with
    | Ok _ => println target ≫= fun _ => each_target op rest errors
    | Err e => each_target op rest (errors ++ [(target, e)])
    end
  end.

Definition stop_one (signal_name : option string) (target : string) : kM (result Error ()) :=
  r ← try_rt (Engine.get (hosts target) target);
  match r with
  | Err e => mret (Err e)
  | Ok v =>
    match signal_name with
    | Some name => sig ← k_pure (parse_signal name); _ ← signal v sig; mret ()
    | None => mret ()
    end ≫= fun _ =>
    '(r, _) ← try_vm v (stop_timeout (hosts target)); mret r
  end.

Definition stop (signal_name : option string) (targets : list string) : kM () := each_target (stop_one signal_name) targets [].

Definition kill_one (sig : Z) (target : string) : kM (result Error ()) :=
  r ← try_rt (Engine.get (hosts target) target);
  match r with Err e => mret (Err e) | Ok v => signal v sig end.

Definition kill (signal_name : string) (targets : list string) : kM () :=
  sig ← k_pure (parse_signal signal_name); each_target (kill_one sig) targets [].

Definition rm_one (force : bool) (target : string) : kM (result Error ()) :=
  (if force then
     r ← try_rt (Engine.get (hosts target) target);
     match r with Ok v => _ ← try_vm v (Engine.kill (hosts target)); mret () | Err _ => mret () end
   else mret ()) ≫= fun _ =>
  try_rt (Engine.remove (hosts target) target).

Definition rm (force : bool) (targets : list string) : kM () := each_target (rm_one force) targets [].

Definition wait_one (target : string) : kM (result Error ()) :=
  r ← try_rt (Engine.get (hosts target) target);
  match r with Err e => mret (Err e) | Ok v => '(r, _) ← try_vm v (Engine.wait (hosts target)); mret r end.

Definition wait (targets : list string) : kM () := each_target wait_one targets [].

Definition status_text (s : Status) : string := match s with Running => "running" | Stopping => "stopping" | Stopped => "stopped" end.

Definition filter_matches (f : string) (vm : VmInfo) : bool :=
  let '(key, value) := default (f, ""%string) (split_once "=" f) in
  match key with
  | "status"%string => bool_decide (status_text (in_status vm) = value)
  | "name"%string => bool_decide (in_name vm = Some value)
  | "id"%string => String.prefix value (in_id vm)
  | "image"%string => bool_decide (in_image vm = Some value)
  | _ => true
  end.

Definition shown (all : bool) (filters : list string) (vms : list VmInfo) : list VmInfo :=
  foldl (fun l f => List.filter (filter_matches f) l)
    (if all then vms else List.filter (fun v => bool_decide (in_status v = Running)) vms) filters.

Fixpoint print_each (l : list string) : kM () :=
  match l with [] => mret () | x :: r => println x ≫= fun _ => print_each r end.

(** [bux ps --quiet]. *)
Definition ps_quiet (h : host) (all : bool) (filters : list string) : kM () :=
  vms ← rt (list_infos h); print_each (in_id <$> shown all filters vms).

Fixpoint prune_loop (h : host) (infos : list VmInfo) (count : Z) : kM Z :=
  match infos with
  | [] => mret count
  | vm :: rest =>
    if bool_decide (in_status vm = Stopped) then
      r ← try_rt (Engine.remove h (in_id vm));
      match r with
      | Ok _ => println (in_id vm) ≫= fun _ => prune_loop h rest (u32 (count + 1))
      | Err _ => prune_loop h rest count
      end
    else prune_loop h rest count
  end.

Definition prune (h : host) : kM Z := vms ← rt (list_infos h); prune_loop h vms 0.

Definition rename (h : host) (target new_name : string) : kM () := rt (rename_vm h target new_name).

Fixpoint inspect_loop (targets : list string) : kM (list VmInfo) :=
  match targets with
  | [] => mret []
  | t :: rest =>
    v ← rt (Engine.get (hosts t) t);
    i ← rt (gets (fun e => from_stored (en_rt e) (v_state v)));
    out ← inspect_loop rest; mret (i :: out)
  end.

Definition restart (h : host) (vm : string) (timeout : Z) : kM () :=
  handle ← rt (Engine.get h vm);
  handle ← (if bool_decide (vm_status (v_state handle) = Running) then on_vm handle (Engine.stop h) else mret handle);
  handle ← on_vm handle (EngineBoot.start h (timeout * NANOS));
  println (vm_id (v_state handle)).

Definition clone_box (h : host) (source : string) (name : option string) : kM () :=
  source ← rt (Engine.get h source);
  handle ← rt (EngineBoot.clone lo h (h_id h) (vm_id (v_state source)) name);
  println (vm_id (v_state handle)).

(** ** main.rs: snapshots *)

Inductive SnapshotAction : Type :=
  | SnapCreate (vm : string) (name : option string)
  | SnapList (vm : string)
  | SnapRm (id : string)
  | SnapRestore (id : string) (name : option string).

Definition snapshot_cmd (h : host) (action : SnapshotAction) : kM () :=
  match action with
  | SnapCreate vm name =>
    handle ← rt (Engine.get h vm);
    info ← rt (create_snapshot lo h (v_state handle) name);
    println (sn_id info)
  | SnapList vm =>
    handle ← rt (Engine.get h vm);
    snaps ← rt (list_snapshots_of (v_state handle));
    print_each (sn_id <$> snaps)
  | SnapRm id => rt (snapshot_delete id) ≫= fun _ => println id
  | SnapRestore id name => handle ← rt (EngineBoot.restore lo h (h_id h) id name); println (vm_id (v_state handle))
  end.

(** ** volume.rs *)

Inductive VolumeAction : Type := VolCreate (name : string) | VolRm (name : string).

Definition volume_dispatch (h : host) (action : VolumeAction) : kM () :=
  match action with
  | VolCreate name => info ← rt (vol (Volumes.create (lo_volumes_root lo) (fun p => to_opt (h_canonicalize h p)) (h_now h) name)); println (vi_name info)
  | VolRm name => rt (vol (Volumes.remove name)) ≫= fun _ => println name
  end.

(** ** vm.rs: exec and cp up to the guest *)

Record ExecArgs : Type := mkExecArgs {
  xa_detach : bool;
  xa_env : list string;
  xa_env_file : list string;
  xa_interactive : bool;
  xa_tty : bool;
  xa_workdir : option string;
  xa_user : option string;
  xa_target : string;
  xa_command : list string
}.

(** The handle and the request [bux exec] sends to its guest. *)
Definition exec (read_file : string -> result io_kind (list Z)) (args : ExecArgs) : kM (Vm * ExecStart) :=
  if xa_detach args then k_pure (Err (Usage "detached exec is not supported")) else
  handle ← rt (Engine.get (hosts (xa_target args)) (xa_target args));
  match xa_command args with
  | [] => k_pure (Err (Usage "command required"))
  | cmd :: cmd_args =>
    filed ← k_pure (read_env_files read_file (xa_env_file args));
    mret (handle, apply_exec_options (with_args (ExecStart_new cmd) cmd_args) (filed ++ xa_env args) (xa_workdir args) (xa_user args)
                    (xa_interactive args) (xa_tty args))
  end.

(** Which way [bux cp] copies. *)
Inductive CopyPlan : Type := FromGuest (vm guest_path dst : string) | ToGuest (src vm guest_path : string).

Definition cp_plan (src dst : string) : result cli_error CopyPlan :=
  match parse_guest_ref src, parse_guest_ref dst with
  | Some (id, guest_path), None => Ok (FromGuest id guest_path dst)
  | None, Some (id, guest_path) => Ok (ToGuest src id guest_path)
  | _, _ => Err (Usage "exactly one of src/dst must use <vm>:<path> format")
  end.

(** ** run.rs: from the creation on *)

(** How the foreground ends: the command's exit status or error (or the VM's own
    end, without a command), or a signal. *)
Inductive Foreground : Type := Done (r : result Error Z) | Signalled (sig : Z).

Definition stop_handle (h : host) (v : Vm) : kM () :=
  '(r, v) ← try_vm v (Engine.stop h);
  match r with
  | Ok _ => mret ()
  | Err _ =>
    alive ← rt (gets (fun e => is_pid_alive (en_rt e) (vm_pid (v_state v))));
    if (alive : bool) then _ ← try_vm v (Engine.kill h); mret () else mret ()
  end.

Definition run_created (h : host) (a : RunArgs) (cmd : option (list string)) (env : list string) (fg : Foreground) (handle : Vm) : kM Z :=
  if ra_detach a then
    println (default (vm_id (v_state handle)) (vm_name (v_state handle))) ≫= fun _ => mret 0
  else
    let exec_req := exec_request a env cmd (workload_cmd (vm_config (v_state handle))) in
    match fg with
    | Signalled sig => stop_handle h handle ≫= fun _ => mret (128 + sig)
    | Done result =>
      match exec_req with
      | Some _ =>
        code ← k_pure (map_err Library result);
        _ ← on_vm handle (Engine.stop h);
        mret code
      | None => _ ← on_vm handle (Engine.wait h); mret 0
      end
    end.

(** The exit status of [bux run]. *)
Definition run (h : host) (open_nofollow : string -> result io_kind opened_file) (read_file : string -> result io_kind (list Z))
    (a : RunArgs) (fg : Foreground) : kM Z :=
  '(opts, cmd, env) ← k_pure (run_options open_nofollow read_file (linux h) a);
  handle ← rt (EngineBoot.create lo h opts);
  run_created h a cmd env fg handle.
End Commands.

(** ** The report of a command on several VMs *)

Definition failed_of (outcomes : list (string * result Error ())) : list (string * Error) :=
  omap (fun '(t, r) => match r with Err e => Some (t, e) | Ok _ => None end) outcomes.
Definition done_of (outcomes : list (string * result Error ())) : list string :=
  omap (fun '(t, r) => match r with Ok _ => Some t | Err _ => None end) outcomes.

(** An operation on one VM that always comes to an answer and prints nothing. *)
Definition answers (op : string -> kM (result Error ())) : Prop :=
  forall t σ, exists r σ', op t σ = (Ok r, σ') /\ c_out σ' = c_out σ.

Lemma each_target_report op targets errors σ : answers op ->
  exists outcomes, fst <$> outcomes = targets
    /\ c_out (each_target op targets errors σ).2 = c_out σ ++ done_of outcomes
    /\ (each_target op targets errors σ).1 = (match errors ++ failed_of outcomes with [] => Ok () | l => Err (Failed l) end).
Proof.
  intros Hop. revert errors σ. induction targets as [|t rest IH]; intros errors σ.
  - exists []. cbn. rewrite !app_nil_r. split; [done|]. by destruct errors.
  - destruct (Hop t σ) as (r & σ1 & E & Ho). cbn [each_target]. unfold mbind, kM_bind. rewrite E.
    destruct r as [[]|x].
    + cbn [println]. destruct (IH errors (mkCli (c_engine σ1) (c_out σ1 ++ [t]) (c_signals σ1))) as (os & H1 & H2 & H3).
      exists ((t, Ok ()) :: os). cbn [fmap list_fmap]. rewrite H1, H2, H3. cbn. by rewrite Ho, <- app_assoc.
    + destruct (IH (errors ++ [(t, x)]) σ1) as (os & H1 & H2 & H3). exists ((t, Err x) :: os). cbn [fmap list_fmap].
      rewrite H1, H2, H3. cbn. by rewrite Ho, <- app_assoc.
Qed.

Section Reports.
Context (hosts : string -> host) (deliver : Z -> Z -> result Error ()).

Lemma rm_answers force : answers (rm_one hosts force).
Proof.
  intros t σ. unfold rm_one, try_rt, try_vm, mbind, kM_bind, mret, kM_ret. destruct force.
  - destruct (Engine.get _ t (c_engine σ)) as [[v|x] e1]; cbn.
    + destruct (Engine.kill (hosts t) (v, e1)) as [r1 [v1 e2]]. cbn. destruct (Engine.remove _ t e2) as [r e3]. eauto.
    + destruct (Engine.remove _ t e1) as [r e3]. eauto.
  - cbn. destruct (Engine.remove _ t _) as [r e3]. eauto.
Qed.

Lemma wait_answers : answers (wait_one hosts).
Proof.
  intros t σ. unfold wait_one, try_rt, try_vm, mbind, kM_bind, mret, kM_ret. destruct (Engine.get _ t (c_engine σ)) as [[v|x] e1]; cbn; [|eauto].
  destruct (Engine.wait (hosts t) (v, e1)) as [r1 [v1 e2]]. cbn. eauto.
Qed.

Lemma kill_answers sig : answers (kill_one hosts deliver sig).
Proof.
  intros t σ. unfold kill_one, try_rt, signal, mbind, kM_bind, mret, kM_ret. destruct (Engine.get _ t (c_engine σ)) as [[v|x] e1]; cbn; [|eauto].
  destruct (_ && _); cbn; eauto.
Qed.

Lemma stop_answers name : (forall n, name = Some n -> exists sig, parse_signal n = Ok sig) -> answers (stop_one hosts deliver name).
Proof.
  intros Hn t σ. unfold stop_one, try_rt, try_vm, mbind, kM_bind, mret, kM_ret. destruct (Engine.get _ t (c_engine σ)) as [[v|x] e1]; cbn; [|eauto].
  destruct name as [n|].
  - destruct (Hn n eq_refl) as [sig Es]. unfold k_pure, signal. rewrite Es. cbn. destruct (_ && _); cbn;
      match goal with |- context [stop_timeout ?h ?s] => destruct (stop_timeout h s) as [r1 [v1 e2]] end; cbn; eauto.
  - match goal with |- context [stop_timeout ?h ?s] => destruct (stop_timeout h s) as [r1 [v1 e2]] end. cbn. eauto.
Qed.
End Reports.

(** ** Pruning *)

Lemma others_elem id r e : r ∈ others id (en_db e) <-> r ∈ vms (en_db e) /\ v_id r <> id.
Proof. unfold others. rewrite elem_of_filter_bool, negb_true_iff, bool_decide_eq_false. done. Qed.

Lemma only_row_elem id e e' r : only_row id e e' -> v_id r <> id -> r ∈ vms (en_db e') <-> r ∈ vms (en_db e).
Proof. intros [Ho _] Hr. pose proof (others_elem id r e) as H1. pose proof (others_elem id r e') as H2. rewrite Ho in H2. tauto. Qed.

Lemma only_row_ids id j e e' : only_row id e e' -> j ∉ v_id <$> vms (en_db e) -> j ∉ v_id <$> vms (en_db e').
Proof.
  intros Ho Hj (r & -> & Hr)%list_elem_of_fmap. apply Hj. destruct (decide (v_id r = id)) as [E|E].
  - destruct (only_named _ _ _ Ho r Hr E) as (r0 & H0 & I0 & _). rewrite E, <- I0. by apply list_elem_of_fmap_2.
  - apply list_elem_of_fmap_2. by apply (only_row_elem id e e').
Qed.

Lemma plain_rows_other id j e e' : is_vm_id id = true -> only_row id e e' -> plain_rows j e -> plain_rows j e'.
Proof.
  intros Hid Ho Hp r Hr. destruct (decide (v_id r = id)) as [E|E].
  - rewrite E. split; [done|]. destruct (only_named _ _ _ Ho r Hr E) as (r0 & H0 & _ & <-). by apply Hp.
  - apply Hp. by apply (only_row_elem id e e').
Qed.

Lemma prune_step h i infos count σ : in_status i = Stopped ->
  prune_loop h (i :: infos) count σ =
  match Engine.remove h (in_id i) (c_engine σ) with
  | (Ok _, e1) => prune_loop h infos (u32 (count + 1)) (mkCli e1 (c_out σ ++ [in_id i]) (c_signals σ))
  | (Err _, e1) => prune_loop h infos count (mkCli e1 (c_out σ) (c_signals σ))
  end.
Proof.
  intros Hs. cbn [prune_loop]. rewrite bool_decide_eq_true_2 by done. unfold try_rt, mbind, kM_bind.
  by destruct (Engine.remove h (in_id i) (c_engine σ)) as [[u|x] e1].
Qed.

Lemma prune_loop_rows h infos count σ :
  Forall (fun i => is_vm_id (in_id i) = true /\ plain_rows (in_id i) (c_engine σ)) infos ->
  let e := c_engine σ in
  let e' := c_engine (prune_loop h infos count σ).2 in
  (forall r, (forall i, i ∈ infos -> in_status i = Stopped -> v_id r <> in_id i) -> r ∈ vms (en_db e') <-> r ∈ vms (en_db e))
  /\ (forall j, j ∉ v_id <$> vms (en_db e) -> j ∉ v_id <$> vms (en_db e'))
  /\ exists gone, c_out (prune_loop h infos count σ).2 = c_out σ ++ gone /\ Forall (fun j => j ∉ v_id <$> vms (en_db e')) gone
       /\ gone ⊆ in_id <$> List.filter (fun i => bool_decide (in_status i = Stopped)) infos.
Proof.
  revert count σ. induction infos as [|i infos IH]; intros count σ H; cbn zeta.
  { split; [done|]. split; [done|]. exists []. by rewrite app_nil_r. }
  apply Forall_cons in H as [[Hi Hp] H]. cbn [List.filter]. case_bool_decide as Hs.
  - rewrite (prune_step _ _ _ _ _ Hs). destruct (remove_own h (in_id i) (c_engine σ) Hi Hp) as [Ho Hg].
    destruct (Engine.remove h (in_id i) (c_engine σ)) as [r e1]. cbn [snd] in Ho.
    assert (Hinfos : Forall (fun k => is_vm_id (in_id k) = true /\ plain_rows (in_id k) e1) infos).
    { eapply Forall_impl; [exact H|]. intros k [K1 K2]. split; [done|]. exact (plain_rows_other _ _ _ _ Hi Ho K2). }
    assert (Hrow : forall r, (forall k, k ∈ i :: infos -> in_status k = Stopped -> v_id r <> in_id k) -> r ∈ vms (en_db e1) <-> r ∈ vms (en_db (c_engine σ))).
    { intros r0 Hr. apply only_row_elem with (id := in_id i); [done|]. apply Hr; [by left|done]. }
    destruct r as [u|x].
    + destruct (IH (u32 (count + 1)) (mkCli e1 (c_out σ ++ [in_id i]) (c_signals σ)) Hinfos) as (R1 & R2 & gone & G1 & G2 & G3). cbn in R1, R2, G1.
      split; [|split].
      * intros r Hr. rewrite R1; [by apply Hrow|]. intros k Hk. apply Hr. by right.
      * intros j Hj. apply R2. exact (only_row_ids _ _ _ _ Ho Hj).
      * exists (in_id i :: gone). rewrite G1, <- app_assoc. split; [done|]. split; [|cbn [fmap list_fmap]; set_solver].
        constructor; [|done]. apply R2. by eapply Hg.
    + destruct (IH count (mkCli e1 (c_out σ) (c_signals σ)) Hinfos) as (R1 & R2 & gone & G1 & G2 & G3). cbn in R1, R2, G1.
      split; [|split].
      * intros r Hr. rewrite R1; [by apply Hrow|]. intros k Hk. apply Hr. by right.
      * intros j Hj. apply R2. exact (only_row_ids _ _ _ _ Ho Hj).
      * exists gone. split; [done|]. split; [done|]. cbn [fmap list_fmap]. set_solver.
  - assert (E : prune_loop h (i :: infos) count σ = prune_loop h infos count σ) by (cbn [prune_loop]; by rewrite bool_decide_eq_false_2). rewrite E.
    destruct (IH count σ H) as (R1 & R2 & gone & G1 & G2 & G3). split; [|split; [done|by exists gone]].
    intros r Hr. apply R1. intros k Hk. apply Hr. by right.
Qed.

(** ** The end of a foreground run *)

(** The VM has no row any more, or its row says stopped. *)
Definition stopped_row (id : string) (e : engine) : Prop := forall r, r ∈ vms (en_db e) -> v_id r = id -> v_status r = "stopped"%string.

Lemma mark_stopped_settles h v e :
  (mark_stopped h (v, e)).1 = Ok () /\ stopped_row (vm_id (v_state v)) (mark_stopped h (v, e)).2.2.
Proof.
  unfold mark_stopped. run_vm. destruct (auto_remove (vm_config (v_state v))); cbn; (split; [done|]); intros r Hr Hi; unfold en_db in Hr; cbn in Hr.
  - apply elem_of_filter_bool in Hr as [_ Hr]. by rewrite bool_decide_true in Hr.
  - apply list_elem_of_fmap in Hr as (r0 & -> & _). by destruct (decide (v_id r0 = _)).
Qed.

Lemma wait_settles h v e : (Engine.wait h (v, e)).1 = Ok () /\ stopped_row (vm_id (v_state v)) (Engine.wait h (v, e)).2.2.
Proof. unfold Engine.wait. run_vm. apply mark_stopped_settles. Qed.

Lemma kill_settles h v e : (Engine.kill h (v, e)).1 = Ok () /\ stopped_row (vm_id (v_state v)) (Engine.kill h (v, e)).2.2.
Proof. unfold Engine.kill. run_vm. apply mark_stopped_settles. Qed.

Lemma stop_settles h v e : vm_status (v_state v) = Running ->
  (Engine.stop h (v, e)).1 = Ok () /\ stopped_row (vm_id (v_state v)) (Engine.stop h (v, e)).2.2.
Proof.
  intros Hs. unfold Engine.stop, stop_timeout. run_vm. rewrite Hs. cbn. destruct (h_exits h).
  - set (v1 := mkHandle _ _ _). apply (mark_stopped_settles h v1).
  - set (v1 := mkHandle _ _ _). set (e1 := set_rt _ _). apply (kill_settles h v1 e1).
Qed.

(** The handle of a new VM is the running one of the host's fresh id. *)
Lemma created_running lo h o e vm e' : absolute_dirs lo -> plain_name (h_id h) -> fresh lo h (create_resolve lo h o e).2 ->
  EngineBoot.create lo h o e = (Ok vm, e') -> vm_id (v_state vm) = h_id h /\ vm_status (v_state vm) = Running.
Proof.
  intros Hdirs Hid Hf H. unfold EngineBoot.create in H. apply bind_Ok_M in H as ([[o' img] vols] & e1 & H1 & H). rewrite H1 in Hf. cbn [snd] in Hf.
  unfold create_spawn in H. apply bind_Ok_M in H as (v1 & e2 & H2 & H).
  eapply spawn_config_ok in H2 as (I1 & _ & _ & I4 & _); [|done..].
  apply bind_Ok_M in H as (v2 & e3 & H3 & H). apply on_handle_ok in H3, H.
  pose proof (link_step_calm lo h Hdirs Hid v1 vols e2) as [_ Lv]. unfold link_step in Lv. rewrite H3 in Lv.
  pose proof (ready_step_calm lo h Hdirs Hid o' v2 e3) as [_ Rv]. unfold ready_step in Rv. rewrite H in Rv. cbn [fst snd] in *.
  split; congruence.
Qed.

Lemma on_vm_Ok {A} v (m : vmM A) σ v' σ' : on_vm v m σ = (Ok v', σ') ->
  exists a, m (v, c_engine σ) = (Ok a, (v', c_engine σ')).
Proof.
  unfold on_vm, try_vm, mbind, kM_bind. destruct (m (v, c_engine σ)) as [[a|x] [v1 e1]]; cbn; [|done]. intros [= <- <-]. by exists a.
Qed.

Lemma kM_bind_Ok {A B} (m : kM A) (f : A -> kM B) σ b σ' : (m ≫= f) σ = (Ok b, σ') -> exists a σ1, m σ = (Ok a, σ1) /\ f a σ1 = (Ok b, σ').
Proof. unfold mbind, kM_bind. destruct (m σ) as [[a|x] σ1]; [eauto|done]. Qed.

Lemma run_created_stops h a cmd env fg v σ code σ' :
  vm_status (v_state v) = Running -> ra_detach a = false -> run_created h a cmd env fg v σ = (Ok code, σ') ->
  stopped_row (vm_id (v_state v)) (c_engine σ').
Proof.
  intros Hs Hd. unfold run_created. rewrite Hd. destruct fg as [result|sig].
  - destruct (exec_request _ _ _ _) as [req|]; intros H.
    + apply kM_bind_Ok in H as (c & σ1 & [= _ <-] & H). apply kM_bind_Ok in H as (v1 & σ2 & H & [= _ <-]).
      apply on_vm_Ok in H as (u & H). destruct (stop_settles h v (c_engine σ) Hs) as [_ K]. by rewrite H in K.
    + apply kM_bind_Ok in H as (v1 & σ2 & H & [= _ <-]). apply on_vm_Ok in H as (u & H).
      destruct (wait_settles h v (c_engine σ)) as [_ K]. by rewrite H in K.
  - intros H. apply kM_bind_Ok in H as (u & σ1 & H & [= _ <-]). unfold stop_handle, try_vm, mbind, kM_bind in H.
    destruct (stop_settles h v (c_engine σ) Hs) as [K1 K2]. destruct (Engine.stop h (v, c_engine σ)) as [r [v1 e1]]. cbn in *. subst r.
    by injection H as _ <-.
Qed.

(** ** Properties *)

(** C39.  A foreground run leaves no VM behind: whenever [bux run] without [-d] ends with an exit status, because its
    command ended, its VM stopped or a signal came, the row of the VM it created
    says stopped or is gone; and a signal gives 128 and its number. *)
Theorem run_leaves_vm_stopped (lo : layout) (h : host) (open_nofollow : string -> result io_kind opened_file)
  (read_file : string -> result io_kind (list Z)) (a : RunArgs) (fg : Foreground) (σ σ' : cli) (code : Z) :
  absolute_dirs lo -> plain_name (h_id h) ->
  (forall o cmd env, run_options open_nofollow read_file (linux h) a = Ok (o, cmd, env) -> fresh lo h (create_resolve lo h o (c_engine σ)).2) ->
  ra_detach a = false ->
  run lo h open_nofollow read_file a fg σ = (Ok code, σ') ->
  stopped_row (h_id h) (c_engine σ') /\ (forall sig, fg = Signalled sig -> code = 128 + sig).
Proof.
  intros Hdirs Hid Hf Hd H. unfold run in H. apply kM_bind_Ok in H as ([[o cmd] env] & σ1 & Ho & H).
  assert (Ho' : run_options open_nofollow read_file (linux h) a = Ok (o, cmd, env) /\ σ1 = σ) by (unfold k_pure in Ho; split; congruence).
  destruct Ho' as [Ho' ->]. specialize (Hf o cmd env Ho').
  apply kM_bind_Ok in H as (v & σ2 & H1 & H). unfold rt, try_rt, mbind, kM_bind in H1.
  destruct (EngineBoot.create lo h o (c_engine σ)) as [[v0|x] e1] eqn:Ec; cbn in H1; [|done]. injection H1 as -> <-.
  destruct (created_running _ _ _ _ _ _ Hdirs Hid Hf Ec) as [Hi Hs].
  split; [rewrite <- Hi; by eapply run_created_stops|]. intros sig ->. unfold run_created in H. rewrite Hd in H.
  apply kM_bind_Ok in H as (u & σ3 & _ & H). by injection H as <- _.
Qed.

(** Pruning removes stopped VMs only: with the VMs the listing shows and names that are no
    other VM's id, [bux prune] leaves the row of every VM that is not listed as
    stopped exactly as it was, and the ids it prints are those of stopped VMs that
    are gone from the table. *)
Theorem prune_spares_others (h : host) (σ : cli) (infos : list VmInfo) (e1 : engine) :
  list_infos h (c_engine σ) = (Ok infos, e1) ->
  Forall (fun i => is_vm_id (in_id i) = true /\ plain_rows (in_id i) e1) infos ->
  let σ' := (prune h σ).2 in
  (forall r, (forall i, i ∈ infos -> in_status i = Stopped -> v_id r <> in_id i) -> r ∈ vms (en_db (c_engine σ')) <-> r ∈ vms (en_db e1))
  /\ exists gone, c_out σ' = c_out σ ++ gone /\ Forall (fun j => j ∉ v_id <$> vms (en_db (c_engine σ'))) gone
       /\ gone ⊆ in_id <$> List.filter (fun i => bool_decide (in_status i = Stopped)) infos.
Proof.
  intros Hl Hp. assert (E : prune h σ = prune_loop h infos 0 (mkCli e1 (c_out σ) (c_signals σ))).
  { unfold prune, rt, try_rt, mbind, kM_bind. by rewrite Hl. }
  rewrite E.
  destruct (prune_loop_rows h infos 0 (mkCli e1 (c_out σ) (c_signals σ)) Hp) as (H1 & _ & H2). split; [exact H1|exact H2].
Qed.

(** Commands on several VMs report each: [stop], [kill], [rm] and [wait] come to an outcome for every target in order, print exactly
    the ones that succeeded, and fail exactly when some failed, with the errors of
    all of them. *)
Theorem bulk_commands_report (hosts : string -> host) (deliver : Z -> Z -> result Error ()) (targets : list string) (σ : cli) :
  let reported (run : cli -> result cli_error () * cli) :=
    exists outcomes, fst <$> outcomes = targets /\ c_out (run σ).2 = c_out σ ++ done_of outcomes
      /\ (run σ).1 = (match failed_of outcomes with [] => Ok () | l => Err (Failed l) end) in
  (forall force, reported (rm hosts force targets)) /\ reported (wait hosts targets)
  /\ (forall name sig, parse_signal name = Ok sig -> reported (kill hosts deliver name targets))
  /\ reported (stop hosts deliver None targets)
  /\ (forall name sig, parse_signal name = Ok sig -> reported (stop hosts deliver (Some name) targets)).
Proof.
  intros reported. subst reported. cbn beta. split_and!.
  - intros force. apply (each_target_report _ targets [] σ), rm_answers.
  - apply (each_target_report _ targets [] σ), wait_answers.
  - intros name sig Hs. unfold kill, k_pure. unfold mbind, kM_bind. rewrite Hs. apply (each_target_report _ targets [] σ), kill_answers.
  - apply (each_target_report _ targets [] σ), stop_answers. done.
  - intros name sig Hs. apply (each_target_report _ targets [] σ), stop_answers. intros n [= <-]. by exists sig.
Qed.

(** ** Samples *)

Module Sample.
Import EngineProps.Sample.
Abbreviation here := (world (Ok ())).
Definition args (rm detach : bool) : RunArgs :=
  mkRunArgs None (Some "/r"%string) (Some "web"%string) detach rm 1 512 None [] [] "enabled" (mkSecurityArgs false false false false false) [] [] [] [] [] None
    false false None (if detach then [] else ["true"%string]).
Definition σ0 : cli := mkCli idle [] [].
Abbreviation ran rm detach fg :=
  (run lo here (CliArgs.Sample.secret_file 0x180) CliArgs.Sample.nothing (args rm detach) fg σ0).

Definition opts (rm detach : bool) : VmOptions :=
  match run_options (CliArgs.Sample.secret_file 0x180) CliArgs.Sample.nothing true (args rm detach) with
  | Ok (o, _, _) => o
  | Err _ => EngineProps.Sample.options
  end.

Lemma resolved_same rm detach : en_rt (create_resolve lo here (opts rm detach) idle).2 = en_rt idle.
Proof. destruct rm, detach; vm_compute; reflexivity. Qed.

Lemma run_leaves_vm_stopped_witness :
  (ran false false (Signalled 15)).1 = Ok 143 /\ stopped_row "c0ffee" (c_engine (ran false false (Signalled 15)).2).
Proof.
  assert (E : (ran false false (Signalled 15)).1 = Ok 143) by (vm_compute; reflexivity). split; [exact E|].
  apply (run_leaves_vm_stopped lo here (CliArgs.Sample.secret_file 0x180) CliArgs.Sample.nothing (args false false) (Signalled 15) σ0
           (ran false false (Signalled 15)).2 143).
  - exact lo_absolute.
  - exact (id_plain (Ok ())).
  - intros o cmd env H. assert (o = opts false false) as ->.
    { unfold opts. change true with (linux here). by rewrite H. }
    pose proof (resolved_same false false) as Eo.
    split; [split|..]; unfold en_db; cbn [c_engine σ0]; rewrite ?Eo;
      [apply not_elem_of_nil|apply not_elem_of_empty|apply disjoint_empty_r|apply not_elem_of_empty..|reflexivity].
  - reflexivity.
  - rewrite <- E. apply surjective_pairing.
Defined.

(** The stored configurations ask for removal. *)
Definition rm_here : host :=
  mkHost (h_os here) (h_virtualization here) (h_now here) (h_uptime_ms here) (h_id here) (h_fuel here) (h_to_string here) (fun _ => Some
    (set_auto_remove true (default_config true))) (h_boot_json here) (h_shim_json here) (h_payload here) (h_resolve_guest here)
    (h_inject_rootfs here) (h_canonicalize here) (h_is_dir here) (h_is_file here) (h_exists here) (h_home here) (h_write_json here)
    (h_create_stderr here) (h_watchdog here) (h_copy here) (h_oci_ensure here) (h_estimate here) (h_create_from_dir here) (h_inject_file
    here) (h_mint here) (h_probes here) (h_sibling_shim here) (h_profile here) (h_landlock_build here) (h_exec here) (h_ready here) (h_exits
    here) (h_quiesce here) (h_thaws here) (h_read_disk here) (h_unlink here).

(** [rm -f] on a running VM that removes itself: the VM is gone after the kill, and
    the removal that follows does not find it. *)
Example forced_removal_fails :
  let σ := (ran true true (Done (Ok 0))).2 in
  let '(r, σ') := rm (fun _ => rm_here) true ["web"%string] σ in
  r = Err (Failed [("web"%string, NotFound)]) /\ vms (en_db (c_engine σ')) = [].
Proof. vm_compute. done. Qed.

Definition row (id : string) (name : option string) : vm_row :=
  mkVmRow id name 7 None (id +:+ ".sock") "stopped" "{}" (system_time_to_f64 (5 * NANOS)).
Definition holding (rows : list vm_row) : cli := mkCli (set_rt (Lifecycle.set_db (en_rt idle) (with_vms empty_db rows)) idle) [] [].
Definition two : cli := holding [row "aaaaaaaaaaaa" None; row "bbbbbbbbbbbb" (Some "web"%string)].

Lemma prune_spares_others_witness :
  exists infos e1, list_infos here (c_engine two) = (Ok infos, e1) /\ length infos = 2%nat
    /\ forall r, (forall i, i ∈ infos -> in_status i = Stopped -> v_id r <> in_id i) ->
         r ∈ vms (en_db (c_engine (prune here two).2)) <-> r ∈ vms (en_db e1).
Proof.
  destruct (list_infos here (c_engine two)) as [[infos|] e1] eqn:E; [|vm_compute in E; done].
  assert (Hl : in_id <$> infos = ["aaaaaaaaaaaa"; "bbbbbbbbbbbb"]%string /\ e1 = c_engine two).
  { assert (K : list_infos here (c_engine two) = (Ok infos, e1)) by exact E. vm_compute in K. injection K as <- <-. by vm_compute. }
  destruct Hl as [Hl ->]. exists infos, (c_engine two). split; [done|]. split; [by rewrite <- (length_fmap in_id), Hl|].
  apply (prune_spares_others here two infos (c_engine two)); [exact E|].
  assert (H : Forall (fun id => is_vm_id id = true /\ plain_rows id (c_engine two)) (in_id <$> infos)).
  { rewrite Hl. assert (K : forall id, id <> "web"%string -> plain_rows id (c_engine two)).
    { intros id Hid r Hr. change (r ∈ [row "aaaaaaaaaaaa" None; row "bbbbbbbbbbbb" (Some "web"%string)]) in Hr.
      apply elem_of_cons in Hr as [->|[->|[]%not_elem_of_nil]%elem_of_cons]; (split; [done|]); [done|]. cbn. congruence. }
    apply Forall_cons; split; [by split; [|apply K]|]. apply Forall_cons; split; [by split; [|apply K]|done]. }
  by apply Forall_fmap in H.
Defined.

(** A VM named like the id of another one is removed in its place. *)
Example shadowed_id :
  let '(r, σ) := prune here (holding [row "aaaaaaaaaaaa" None; row "bbbbbbbbbbbb" (Some "aaaaaaaaaaaa"%string)]) in
  r = Ok 1 /\ c_out σ = ["aaaaaaaaaaaa"%string] /\ v_id <$> vms (en_db (c_engine σ)) = ["aaaaaaaaaaaa"%string].
Proof. vm_compute. done. Qed.
End Sample.
