(* ===== verification/Reopen.v ===== *)
(** * Opening a runtime again

    [Runtime::open_with], [Runtime::reset] and the drop of a [Runtime]
    ([crates/bux/src/runtime/mod.rs]): what is left of a runtime when the process
    that held it ends, and what the next one starts from.  The database, the files
    and the processes survive; the secrets, the metrics, the events and the cached
    payload live in memory. *)

From S2P Require Import Prelude Files Paths Qcow2Format Qcow2Chain ImageStore Ports Boot StateTypes StateDb StateLookup Lifecycle LifecycleCorrect ManagedGuest Options Jail Events Engine EngineBoot EngineCorrect EngineProps.

Section Reopen.
Context (from_str : string -> option VmConfig) (survives_term : Z -> bool).

(** [Drop for Runtime]. *)
Definition drop_runtime (e : engine) : engine := on_rt (shutdown_sync from_str survives_term) e.

(** [created] answers for the data directory and the lock file, [locked] says
    whether another runtime holds the lock, [opened] answers for the directories
    and the databases below. *)
Definition open_with (created : result io_kind ()) (locked : bool) (opened : result Error ()) (e : engine) : result Error engine :=
  map_err Io created ≫= fun _ =>
  if locked then Err Busy else
  opened ≫= fun _ =>
  let rt := (recover from_str (rt_set_secrets ∅ (en_rt e))).2 in
  Ok (mkEngine rt (en_bytes e) ∅ (en_dirs e) new_metrics [] None (en_frozen e)).

(** ** The shutdown, row by row *)

Abbreviation down := (shutdown_one survives_term).

Lemma down_rows rt vm r' : r' ∈ vms (rt_db (down rt vm)) -> exists r, r ∈ vms (rt_db rt) /\ (r' = r \/ r' = set_stopped r).
Proof.
  unfold shutdown_one. case_match; [by eauto|]. rewrite rows_stopped, terminate_db.
  intros (r & Hr & E)%list_elem_of_omap. exists r. split; [done|]. case_decide; injection E as <-; auto.
Qed.

Lemma down_loop_rows l rt r' : r' ∈ vms (rt_db (foldl down rt l)) -> exists r, r ∈ vms (rt_db rt) /\ (r' = r \/ r' = set_stopped r).
Proof.
  revert rt. induction l as [|vm l IH]; intros rt H; [by eauto|]. apply IH in H as (r1 & H1 & E1).
  apply down_rows in H1 as (r & H & E). exists r. split; [done|]. destruct E1 as [->| ->], E as [->| ->]; auto.
Qed.

Lemma down_ok rt vm : db_ok (rt_db rt) -> db_ok (rt_db (down rt vm)).
Proof.
  intros H. unfold shutdown_one. case_match; [done|].
  apply (db_drop_keeps (fun _ => None) (OpUpdateStatus (vm_id vm) Stopped)). by rewrite terminate_db.
Qed.

Lemma down_loop_ok l rt : db_ok (rt_db rt) -> db_ok (rt_db (foldl down rt l)).
Proof. revert rt. induction l as [|vm l IH]; intros rt H; [done|]. by apply IH, down_ok. Qed.

Lemma down_alive_less rt vm : rt_alive (down rt vm) ⊆ rt_alive rt.
Proof. unfold shutdown_one. case_match; [done|]. unfold db_drop, terminate_pid. cbn. destruct (survives_term _); cbn; set_solver. Qed.

Lemma down_loop_alive l rt : rt_alive (foldl down rt l) ⊆ rt_alive rt.
Proof. revert rt. induction l as [|vm l IH]; intros rt; [done|]. cbn. rewrite IH. apply down_alive_less. Qed.

Lemma set_stopped_status r vm : row_to_state from_str (set_stopped r) = Ok vm -> vm_status vm = Stopped.
Proof. unfold row_to_state. intros (c & _ & (t & _ & [= <-])%bind_Ok_inv)%bind_Ok_inv. done. Qed.

Lemma collect_all {A B} (f : A -> result Error B) l : (forall x, x ∈ l -> exists y, f x = Ok y) -> exists ys, collect f l = Ok ys.
Proof.
  induction l as [|x l IH]; intros H; [by exists []|]. destruct (H x) as [y Hy]; [left|].
  destruct IH as [ys Hys]; [intros z Hz; apply H; by right|]. exists (y :: ys). cbn. rewrite Hy. cbn. by rewrite Hys.
Qed.

(** The table can still be listed after the shutdown. *)
Lemma down_loop_lists l rt vs :
  list_vms from_str (rt_db rt) = Ok vs -> exists vs', list_vms from_str (rt_db (foldl down rt l)) = Ok vs'.
Proof.
  intros Hl. apply collect_all. intros r Hr. rewrite (order_desc_perm v_created) in Hr.
  apply down_loop_rows in Hr as (r0 & Hr0 & E). destruct (list_vms_elem _ _ _ _ Hl Hr0) as (vm & _ & Hvm).
  destruct E as [->| ->]; [by exists vm|]. exists (vm_stopped vm). by apply row_to_state_stopped.
Qed.

(** A VM that is still active and alive after the shutdown was detached: the
    shutdown stopped the row of any other. *)
Lemma shutdown_settles rt vs r vm :
  db_ok (rt_db rt) -> list_vms from_str (rt_db rt) = Ok vs ->
  r ∈ vms (rt_db (foldl down rt vs)) -> row_to_state from_str r = Ok vm -> is_active (vm_status vm) = true ->
  vm_pid vm ∈ rt_alive (foldl down rt vs) -> detach (vm_config vm) = true.
Proof.
  intros Hok Hl Hr Hvm Ha Hp. destruct (detach (vm_config vm)) eqn:Hd; [done|exfalso].
  destruct (down_loop_rows vs rt r Hr) as (r0 & Hr0 & [->| ->]);
    [|apply set_stopped_status in Hvm; by rewrite Hvm in Ha].
  pose proof (list_vms_nodup from_str _ vs (ok_vm_ids _ Hok) Hl) as Hnd.
  destruct (list_vms_elem from_str _ vs r0 Hl Hr0) as (vm' & Hin & E). rewrite Hvm in E. injection E as <-.
  pose proof (row_to_state_id _ _ _ Hvm) as Hid.
  apply list_elem_of_split in Hin as (pre & post & ->). rewrite foldl_app in Hr, Hp. cbn [foldl] in Hr, Hp.
  rewrite fmap_app, fmap_cons in Hnd. apply NoDup_app in Hnd as (_ & Hpre & Hpost). apply NoDup_cons in Hpost as [Hpost _].
  set (rt1 := foldl down rt pre) in *.
  assert (Hr1 : r0 ∈ vms (rt_db rt1)).
  { apply (proj2 (proj2 (down_loop survives_term rt pre))); [done|]. rewrite <- Hid. intros H. apply (Hpre _ H). left. }
  assert (Hp1 : vm_pid vm ∈ rt_alive rt1) by (apply (down_alive_less rt1 vm), (down_loop_alive post _ _ Hp)).
  assert (Hs : set_stopped r0 ∈ vms (rt_db (down rt1 vm))).
  { unfold shutdown_one, is_pid_alive. rewrite Ha, Hd, bool_decide_eq_true_2 by done. cbn [negb orb].
    rewrite rows_stopped, terminate_db. apply list_elem_of_omap. exists r0. split; [done|]. by rewrite decide_True. }
  assert (Hs' : set_stopped r0 ∈ vms (rt_db (foldl down (down rt1 vm) post))).
  { apply (proj2 (proj2 (down_loop survives_term (down rt1 vm) post))); [done|]. cbn. by rewrite <- Hid. }
  assert (Heq : set_stopped r0 = r0).
  { apply (NoDup_fmap_elem v_id (vms (rt_db (foldl down (down rt1 vm) post)))); [|done..].
    apply ok_vm_ids, down_loop_ok, down_ok, down_loop_ok, Hok. }
  rewrite <- Heq in Hvm. apply set_stopped_status in Hvm. by rewrite Hvm in Ha.
Qed.

(** ** Secrets *)

Lemma recover_one_secrets vm rt : rt_secrets rt = ∅ -> rt_secrets (recover_one vm rt).2 = ∅.
Proof.
  intros H. unfold recover_one, recover_action, recover_dead, purge_vm_files, db_drop.
  repeat (case_match; cbn; try done); rewrite H; set_solver.
Qed.

Lemma recover_secrets rt : rt_secrets rt = ∅ -> rt_secrets (recover from_str rt).2 = ∅.
Proof.
  intros H. unfold recover. case_match; [|done]. destruct (foldl _ _ _) as [n rt'] eqn:E. cbn.
  enough (forall st, rt_secrets st.2 = ∅ -> rt_secrets
    (foldl (fun '(n, rt) vm => let '(k, rt) := recover_one vm rt in (n + k, rt)) st a).2 = ∅) as K
    by (specialize (K (0, rt) H); by rewrite E in K).
  clear. induction a as [|vm l IH]; intros [k r] Hs; [done|]. cbn. apply IH.
  pose proof (recover_one_secrets vm r Hs) as K. destruct (recover_one vm r) as [j r']. exact K.
Qed.

Lemma handle_secrets s e : rt_secrets (en_rt (handle s e).2) = rt_secrets (en_rt e).
Proof. unfold handle, reconcile_dead_pid, db_drop. repeat (case_match; simplify_eq/=; try done). Qed.

Lemma get_secrets h id v e e' : Engine.get h id e = (Ok v, e') -> rt_secrets (en_rt e') = rt_secrets (en_rt e).
Proof.
  unfold Engine.get, sql_query, mbind, M_bind. destruct (get_by_name _ _ _) as [[s|]|]; [| |done].
  - intros H. pose proof (handle_secrets s e) as K. by rewrite (H : handle s e = (Ok v, e')) in K.
  - destruct (get_by_id_prefix _ _ _) as [s|]; [|done]. intros H. pose proof (handle_secrets s e) as K. by rewrite (H : handle s e = (Ok v, e')) in K.
Qed.

(** ** Properties *)

(** C35.  A runtime opened again starts from the truth: after one runtime was dropped and the next opened, every VM listed
    as active was detached and has a live process, and no secret is held: a
    stopped VM that needs secrets does not start until they are given again, and
    the attempt changes nothing. *)
Theorem reopened_runtime_settled (created : result io_kind ()) (locked : bool) (opened : result Error ())
  (e e' : engine) (vs : list VmState) :
  db_ok (en_db e) -> list_vms from_str (en_db e) = Ok vs ->
  open_with created locked opened (drop_runtime e) = Ok e' ->
  (forall r vm, r ∈ vms (en_db e') -> row_to_state from_str r = Ok vm -> is_active (vm_status vm) = true ->
     detach (vm_config vm) = true /\ vm_pid vm ∈ rt_alive (en_rt e'))
  /\ (forall h o id v e1, Engine.get h id e' = (Ok v, e1) ->
        vm_status (v_state v) = Stopped -> secrets_required (vm_config (v_state v)) = true -> so_secrets o = [] ->
        exists x v', start_with h o (v, e1) = (Err x, (v', e1))).
Proof.
  intros Hok Hl Ho. unfold open_with in Ho. apply bind_Ok_inv in Ho as (u & _ & Ho). destruct locked; [done|].
  apply bind_Ok_inv in Ho as (u' & _ & [= <-]). unfold en_db. cbn [en_rt].
  set (rt := rt_set_secrets ∅ (en_rt (drop_runtime e))).
  assert (Ed : shutdown_sync from_str survives_term (en_rt e) = foldl down (en_rt e) vs) by (unfold shutdown_sync; unfold en_db in Hl; by rewrite Hl).
  assert (Hdb : rt_db rt = rt_db (foldl down (en_rt e) vs)) by (unfold rt; cbn; by rewrite Ed).
  assert (Hal : rt_alive rt = rt_alive (foldl down (en_rt e) vs)) by (unfold rt; cbn; by rewrite Ed).
  assert (Hok' : db_ok (rt_db rt)) by (rewrite Hdb; by apply down_loop_ok).
  destruct (down_loop_lists vs (en_rt e) vs Hl) as (vs2 & Hl2). rewrite <- Hdb in Hl2. split.
  - intros r vm Hr Hvm Ha. destruct (recovered_table_consistent from_str rt vs2 r vm Hok' Hl2 Hr Hvm) as (Hp & _ & vm0 & Hin & Hv).
    specialize (Hp Ha). split; [|done]. destruct Hv as [<-|[-> _]]; [|done].
    destruct (list_vms_row _ _ _ _ Hl2 Hin) as (r2 & Hr2 & E2). rewrite Hdb in Hr2.
    apply (shutdown_settles (en_rt e) vs r2 vm); [done..|]. rewrite <- Hal.
    by rewrite (proj2 (proj2 (recover_table from_str rt vs2 Hok' Hl2))) in Hp.
  - intros h o id v e1 Hg Hs Hr Hn. destruct (start_needs_secrets h o v e1 Hs Hr Hn) as (x & v' & E & _); [|by exists x, v'].
    unfold live_secrets. apply get_secrets in Hg. rewrite Hg. cbn [en_rt]. rewrite recover_secrets by done.
    by rewrite decide_False by apply not_elem_of_empty.
Qed.
End Reopen.

(** ** Sample: a detached VM, one of the runtime's own, and a stopped one with secrets *)

Module Sample.
Definition with_detach (c : VmConfig) : VmConfig :=
  mkVmConfig (vcpus c) (ram_mib c) (rootfs c) (root_disk c) (disk_format c) (base_disk c) (exec_path c)
    (exec_args c) (cfg_env c) (ports c) (published_ports c) (virtiofs c) (vsock_ports c) (network c)
    (secrets_required c) (workload_env c) (workload_workdir c) (workload_user c) (workload_cmd c) (security c)
    (security_status c) (auto_remove c) (auto_stop_secs c) (auto_delete_secs c) (last_activity_at c) (last_error c) true
    (agent_id c) (tenant_id c).

Definition configs (text : string) : option VmConfig :=
  if decide (text = "detached"%string) then Some (with_detach (default_config true))
  else if decide (text = "sealed"%string) then Some (set_secrets_required true (default_config true))
  else Some (default_config true).

Definition row (id : string) (pid : Z) (status config : string) : vm_row :=
  mkVmRow id None pid None ("/run/" +:+ id +:+ ".sock") status config (system_time_to_f64 0).

Definition rows : list vm_row := [row "aa" 10 "running" "detached"; row "bb" 11 "running" "own"; row "cc" 12 "stopped" "sealed"].
Definition before : engine :=
  mkEngine (mkRt (mkStateDb rows [] [] [] []) ∅ {["cc"]} {[10; 11]} [] [] [RootDir; Normal "run"] [RootDir; Normal "vms"])
    ∅ {["cc" := mkLive [] "cert" "key"]} ∅ new_metrics [] None ∅.

Definition listed : list VmState := match list_vms configs (en_db before) with Ok vs => vs | Err _ => [] end.

Lemma before_ok : db_ok (en_db before).
Proof.
  split; first [intros r Hr; by apply not_elem_of_nil in Hr | apply (bool_decide_unpack _); vm_compute; exact I].
Qed.

(** The shim of ["bb"] only goes with the SIGKILL. *)
Definition opened_again : result Error engine := open_with configs (Ok ()) false (Ok ()) (drop_runtime configs (fun _ => true) before).
Definition after : engine := match opened_again with Ok e => e | Err _ => before end.

Definition world : host :=
  mkHost Linux true 0 0 "f00d" 0 (fun _ => Some ""%string) configs (fun _ => None) (fun _ => None) (fun _ _ => Err InvalidConfig)
    (fun _ => Err InvalidConfig) (fun _ _ => Ok ()) (fun p => Ok p) (fun _ => false) (fun _ => false) (fun _ => false) None None None
    (Err EkOther) None (fun _ => Err NotFound) (fun _ => Ok 1) (fun _ _ => (Ok (), None)) (fun a b => (Ok (), b)) (fun _ => Err InvalidConfig) [] None
    (fun _ _ _ => ""%string) (fun _ => None) (fun _ => Err EkOther) (Ok ()) true Frozen true (fun _ _ f => f) (fun _ => None).

Definition sealed : Vm :=
  mkHandle (mkVm "cc" None 12 None "/run/cc.sock" Stopped (set_secrets_required true (default_config true)) 0) new_vm_metrics false.

Lemma reopened_runtime_settled_witness :
  vms (en_db after) = [row "aa" 10 "running" "detached"; row "bb" 11 "stopped" "own"; row "cc" 12 "stopped" "sealed"]
  /\ detach (with_detach (default_config true)) = true /\ 10 ∈ rt_alive (en_rt after)
  /\ exists x v', start_with world (mkStart None []) (sealed, after) = (Err x, (v', after)).
Proof.
  assert (E : vms (en_db after) = [row "aa" 10 "running" "detached"; row "bb" 11 "stopped" "own"; row "cc" 12 "stopped" "sealed"])
    by (vm_compute; reflexivity).
  destruct (reopened_runtime_settled configs (fun _ => true) (Ok ()) false (Ok ()) before after listed before_ok) as [H1 H2];
    [vm_compute; reflexivity..|].
  split; [exact E|].
  destruct (H1 (row "aa" 10 "running" "detached") (mkVm "aa" None 10 None "/run/aa.sock" Running (with_detach (default_config true)) 0))
    as [Hd Hp]; [rewrite E; left|vm_compute; reflexivity|reflexivity|].
  split; [exact Hd|]. split; [exact Hp|].
  apply (H2 world (mkStart None []) "cc"%string sealed after); [vm_compute; reflexivity|reflexivity..].
Defined.

(** Another runtime on the same directory is refused. *)
Example locked_out : open_with configs (Ok ()) true (Ok ()) before = Err Busy.
Proof. reflexivity. Qed.
End Sample.
