(* ===== verification/VmHandle.v ===== *)
(** * The guest behind a handle

    The operations of [crates/bux/src/runtime/vm.rs] that talk to the agent: each
    opens a connection of [HostClient] and, when it succeeded, keeps the books of
    the runtime: the activity of the VM, the audit events and the metrics of the
    handle. *)

From S2P Require Import Prelude Files Paths Text ProtoMessages Codec Vfs Process StateTypes StateDb Lifecycle Options Events Wire GuestFiles GuestReaper GuestExec GuestServer HostClient Engine EngineBoot Disk.

(** [From<io::Error>] of the client's errors; the last two are not errors of the
    code. *)
Definition client_error (e : cerror) : Error :=
  match e with
  | CIo k => Io k
  | CRemote _ => Io EkOther
  | CPanic | COutOfFuel => Panic
  end.

Definition with_workload_defaults (vm : VmState) (req : ExecStart) : ExecStart :=
  apply_workload_defaults req (workload_env (vm_config vm)) (workload_workdir (vm_config vm)) (workload_user (vm_config vm)).

Section Handle.
Context {PH : Postcard Hello} {PA : Postcard HelloAck} {PCR : Postcard ControlReq} {PCS : Postcard ControlResp}
  {PXI : Postcard ExecIn} {PXO : Postcard ExecOut} {PU : Postcard Upload} {PUR : Postcard UploadResult} {PD : Postcard Download}.
Context (connected : result io_kind ()).

(** The connection an operation opens: [c_in] is all that the agent says on it. *)
Abbreviation link := (conn (list ExecOut)).

Definition on_client {A} (m : hM A) (c : link) : vmM A := lift_r (map_err client_error (m c).1).

Definition is_alive : vmM bool := fun s => (Ok (is_pid_alive (en_rt s.2) (vm_pid (v_state s.1))), s).

(** [answered]: the pong came within the two seconds. *)
Definition health (answered : bool) (c : link) : vmM HealthStatus :=
  alive ← is_alive;
  if negb alive then mret Dead
  else if negb answered then mret Starting
  else match (HostClient.ping connected c).1 with Ok _ => mret Healthy | Err _ => mret Unhealthy end.

Definition ping (c : link) : vmM PongInfo := on_client (HostClient.ping connected) c.
Definition handshake (c : link) : vmM () := on_client (HostClient.handshake connected) c.

(** [Vm::exec] with the client itself; the stream of the handle is read later. *)
Definition exec (h : host) (req : ExecStart) (c : link) : vmM ExecHandle :=
  vm ← self;
  let req := with_workload_defaults vm req in
  handle ← on_client (HostClient.exec connected req) c;
  drop_result (touch_activity h) ≫= fun _ =>
  eng (emit_event (ExecStarted (vm_id vm) (es_cmd req) (eh_exec_id handle))) ≫= fun _ => mret handle.

Definition exec_output (h : host) (req : ExecStart) (c : link) : vmM ExecOutput :=
  vm ← self;
  let req := with_workload_defaults vm req in
  output ← on_client (HostClient.exec_output connected req) c;
  drop_result (touch_activity h) ≫= fun _ =>
  eng (emit_event (ExecStarted (vm_id vm) (es_cmd req) (eo_exec_id output))) ≫= fun _ =>
  eng (emit_event (ExecCompleted (vm_id vm) (eo_exec_id output) (eo_code output) (eo_duration_ms output))) ≫= fun _ =>
  set_vm_metrics (on_exec_completed (eo_duration_ms output)) ≫= fun _ => mret output.

Definition emit_file_copied (direction : CopyDirection) (path : string) : vmM () :=
  vm ← self; eng (emit_event (FileCopied (vm_id vm) direction path)).

Definition read_file (path : string) (max_bytes : Z) (c : link) : vmM (list Z) := on_client (HostClient.read_file connected path max_bytes) c.

Definition write_file (path : string) (data : list Z) (mode : Z) (c : link) : vmM () :=
  on_client (HostClient.write_file connected path data mode) c ≫= fun _ => emit_file_copied CopyIn path.

Definition copy_in (dest : string) (tar_data : list Z) (c : link) : vmM () :=
  on_client (HostClient.copy_in connected dest tar_data) c ≫= fun _ => emit_file_copied CopyIn dest.

Definition copy_in_from_reader (dest : string) (reads : list (list Z)) (c : link) : vmM () :=
  on_client (HostClient.copy_in_from_reader connected dest reads) c ≫= fun _ => emit_file_copied CopyIn dest.

Definition copy_out (path : string) (max_bytes : Z) (c : link) : vmM (list Z) :=
  data ← on_client (HostClient.copy_out connected path max_bytes) c;
  emit_file_copied CopyOut path ≫= fun _ => mret data.

(** The count is returned; what was written stays with the caller's writer. *)
Definition copy_out_to_writer (path : string) (follow_symlinks : bool) (max_bytes : Z) (c : link) : vmM (Z * list Z) :=
  '(n, written) ← on_client (HostClient.copy_out_to_writer connected path follow_symlinks max_bytes) c;
  n ← lift_r (map_err client_error n);
  emit_file_copied CopyOut path ≫= fun _ => mret (n, written).
End Handle.

(** ** The other operations of a handle *)

Definition list_snapshots : vmM (list SnapshotRow) := vm ← self; eng (list_snapshots_of vm).
Definition delete_snapshot (snapshot_id : string) : vmM () := eng (snapshot_delete snapshot_id).

(** [Vm::export]. *)
Definition export (lo : layout) (h : host) (dest : path) : vmM () :=
  vm ← self;
  eng (disk (fun σ => match flatten_vm_disk (h_fuel h) (lo_disk lo) (vm_id vm) dest σ with
                      | Ok σ' => (Ok (), σ')
                      | Err x => (Err x, σ)
                      end)).

(** ** What touching the activity leaves alone *)

(** The row of a VM with another stored configuration. *)
Definition configured (id text : string) (r : vm_row) : vm_row :=
  if decide (v_id r = id) then mkVmRow (v_id r) (v_name r) (v_pid r) (v_image r) (v_socket r) (v_status r) text (v_created r) else r.

(** The configuration of the VM, active now and without its last error, replaces the
    stored one; one that cannot be written as JSON leaves the table alone. *)
Definition touched (h : host) (vm : VmState) (rows : list vm_row) : list vm_row :=
  match h_to_string h (set_touched (Some (h_now h)) None (vm_config vm)) with
  | Some text => configured (vm_id vm) text <$> rows
  | None => rows
  end.

Lemma touch_keeps (h : host) (v : Vm) (e : engine) :
  exists e', drop_result (touch_activity h) (v, e) = (Ok (), (v, e')) /\ en_events e' = en_events e
    /\ vms (en_db e') = touched h (v_state v) (vms (en_db e)).
Proof.
  unfold drop_result, touch_activity, self, gets, eng, sql, update_config, touched, mbind, M_bind, result_bind. cbn.
  destruct (h_to_string h _) as [text|]; cbn; eexists; (split; [reflexivity|done]).
Qed.

Section Joined.
Context `{PH : PostcardLaws Hello} `{PA : PostcardLaws HelloAck} `{PCR : PostcardLaws ControlReq} `{PCS : PostcardLaws ControlResp}
  `{PXI : PostcardLaws ExecIn} `{PXO : PostcardLaws ExecOut} `{PU : PostcardLaws Upload} `{PUR : PostcardLaws UploadResult}
  `{PD : PostcardLaws Download} `{!UploadSizes}.
Context (pf : platform).

Lemma failed_exec_keeps (h : host) (connected : result io_kind ()) (req : ExecStart) c v e x s :
  exec_output connected h req c (v, e) = (Err x, s) -> s = (v, e).
Proof.
  unfold exec_output, self, gets, on_client, lift_r, mbind, M_bind. cbn -[drop_result touch_activity].
  destruct (HostClient.exec_output _ _ c).1 as [o|k]; cbn -[drop_result touch_activity]; [|congruence].
  destruct (touch_keeps h v e) as (e' & E & _). by rewrite E.
Qed.

(** C10.  A command run through a handle runs as the VM is configured and is recorded: the child is started with the request
    completed from the workload of the VM; when its streams end, the caller gets
    its output to the byte and its status, exactly two audit events are emitted, the
    start and the completion of this exec, the handle counts it, and in the table of
    VMs the row of this one, and no other, gets the configuration of the handle with
    now as its last activity; an exec that fails changes nothing. *)
Theorem vm_exec_recorded (h : host) turns req pid exit a v e :
  let c := vm_config (v_state v) in
  let req' := apply_workload_defaults req (workload_env c) (workload_workdir c) (workload_user c) in let id := vm_id (v_state v) in let exec_id := exec_id_of (ag_exec a) in
  es_tty req' = None ->
  launched (fun k => pf_text pf (CIo k)) (pf_passwd pf) (pf_group pf) (pf_spawned pf) (pf_openpty pf) (pf_dup_fd pf) req' = Ok pid ->
  pf_waited pf pid = Some exit -> output_ends req' turns = true ->
  Forall turn_fits turns -> Forall (fun t => lost_by t = 0%nat) turns -> host_turns turns = 0%nat ->
  fits (HExec req') -> fits (AckExecStarted exec_id pid) ->
  (forall timed_out, fits (Exit (xt_code exit) (xt_signal exit) timed_out (u64 (pf_elapsed pf)) None)) ->
  (exists up down gr gi a' out v' e',
     session pf turns (mkConn up [] a) = (gr, mkConn gi down a')
     /\ c_out (HostClient.exec_output (Ok ()) req' (mkConn down [] [])).2 = up
     /\ exec_output (Ok ()) h req (mkConn down [] []) (v, e) = (Ok out, (v', e'))
     /\ eo_stdout out = bytes_of out_of turns /\ eo_stderr out = bytes_of err_of turns /\ eo_code out = xt_code exit
     /\ en_events e' = en_events e ++ [ExecStarted id (es_cmd req') exec_id; ExecCompleted id exec_id (xt_code exit) (u64 (pf_elapsed pf))]
     /\ v_state v' = v_state v /\ v_metrics v' = on_exec_completed (u64 (pf_elapsed pf)) (v_metrics v)
     /\ vms (en_db e') = touched h (v_state v) (vms (en_db e)))
  /\ forall c x s, exec_output (Ok ()) h req c (v, e) = (Err x, s) -> s = (v, e).
Proof.
  intros cfg req' id exec_id H1 H2 H3 H4 H5 H6 H7 H8 H9 H10. split; [|intros c x s; apply failed_exec_keeps].
  destruct (exec_output_over_wire pf turns req' pid exit [] a H1 H2 H3 H4 H5 H6 H7 H8 H9 H10)
    as (frames & t & a' & (up & down & hc & gr & gc & Eh & Eu & _ & Eg & Ed & Es) & _).
  destruct (touch_keeps h v e) as (e1 & Et & Ev & Er). destruct gc as [gi go gs]. cbn in Ed, Es. subst go gs.
  exists up, down, gr, gi, a'. do 3 eexists. split; [done|]. split; [by rewrite Eh|]. split.
  - unfold exec_output, self, gets, on_client, lift_r, mbind, M_bind. cbn -[drop_result touch_activity HostClient.exec_output].
    change (with_workload_defaults (v_state v) req) with req'. rewrite Eh. cbn -[drop_result touch_activity]. rewrite Et. cbn. reflexivity.
  - cbn. rewrite Ev, <- app_assoc. by split_and!.
Qed.
End Joined.

(** ** Sample: a VM with a workload environment *)

Module Sample.
Import HostClient.Sample.
#[local] Existing Instances pc_hello pc_hello_laws pc_req pc_req_laws pc_resp pc_resp_laws pc_result pc_result_laws
  GuestExec.Sample.pc_ack GuestExec.Sample.pc_ack_laws GuestExec.Sample.pc_in GuestExec.Sample.pc_in_laws
  GuestExec.Sample.pc_out GuestExec.Sample.pc_out_laws.

Definition vm : Vm := mkHandle (mkVm "cafe" None 10 None "/run/cafe.sock" Running (default_config true) 0) new_vm_metrics false.

(** Configurations as text: the idle policy is all that is told apart. *)
Definition to_text (c : VmConfig) : option string := Some (match auto_stop_secs c with Some _ => "policy" | None => "none" end)%string.
Definition of_text (s : string) : option VmConfig :=
  Some (if decide (s = "policy"%string) then set_auto_stop (Some 60%N) (default_config true) else default_config true).

Definition world : host :=
  mkHost Jail.Linux true 0 0 "f00d" 0 to_text of_text (fun _ => None) (fun _ => None) (fun _ _ => Err InvalidConfig)
    (fun _ => Err InvalidConfig) (fun _ _ => Ok ()) (fun p => Ok p) (fun _ => false) (fun _ => false) (fun _ => false) None None None
    (Err EkOther) None (fun _ => Err NotFound) (fun _ => Ok 1) (fun _ _ => (Ok (), None)) (fun a b => (Ok (), b)) (fun _ => Err InvalidConfig) [] None
    (fun _ _ _ => ""%string) (fun _ => None) (fun _ => Err EkOther) (Ok ()) true Frozen true (fun _ _ f => f) (fun _ => None).

Definition row (id config : string) : vm_row := mkVmRow id None 10 None ("/run/" +:+ id +:+ ".sock") "running" config (system_time_to_f64 0).
Definition books : engine :=
  mkEngine (mkRt (mkStateDb [row "cafe" "stale"; row "beef" "stale"] [] [] [] []) ∅ ∅ {[10]} [] [] [] []) ∅ ∅ ∅ new_metrics [] None ∅.

Lemma vm_exec_recorded_witness :
  exists down out v' e', exec_output (Ok ()) world (ExecStart_new "id") (mkConn down [] []) (vm, books) = (Ok out, (v', e'))
    /\ eo_stdout out = [104; 105] /\ en_events e' = [ExecStarted "cafe" "id" "exec-1"; ExecCompleted "cafe" "exec-1" 0 5]
    /\ exec_count (v_metrics v') = 1 /\ v_config <$> vms (en_db e') = ["none"; "stale"]%string.
Proof.
  destruct (vm_exec_recorded pf world turns (ExecStart_new "id") 42 (mkExitStatus 42 0 None) idle vm books)
    as [(up & down & gr & gi & a' & out & v' & e' & _ & _ & H & Ho & _ & _ & He & _ & Hm & Ht) _];
    [reflexivity..| | |reflexivity|fits_now|fits_now|fits_now|].
  - repeat constructor; by eexists.
  - repeat constructor.
  - exists down, out, v', e'. split; [exact H|]. split; [exact Ho|]. split; [exact He|]. rewrite Hm. split; [reflexivity|]. rewrite Ht. reflexivity.
Defined.

(** A handle writes back the configuration it was made with: touching the activity after the
    idle policy was set through the same handle takes the policy back. *)
Example policy_lost :
  let '(_, s1) := set_auto_stop_secs world (Some 60%N) (vm, books) in let '(_, s2) := touch_activity world s1 in
  (v_config <$> vms (en_db s1.2)) = ["policy"; "stale"]%string /\ (v_config <$> vms (en_db s2.2)) = ["none"; "stale"]%string.
Proof. split; reflexivity. Qed.

Example dead_before_ping : (health (Ok ()) true (mkConn [] [] []) (mkHandle (with_pid 11 (v_state vm)) new_vm_metrics false, books)).1 = Ok Dead.
Proof. reflexivity. Qed.
End Sample.
